(* ===== verification/_CoqProject ===== *)
-Q . S2P
Prelude.v
GoStrings.v
Uri.v
Trie.v
Pool.v
LoadBalance.v
GoNet.v
GoSha.v
Config.v
Resources.v
Codec.v
Json.v
GoUrl.v
Updates.v
Registry.v
RoutingTable.v
Fetcher.v
Subscriber.v
Tier2.v
Alloc.v
Policy.v
F5Router.v
Broker.v
RouterFacts.v
RouterRun.v
RouterLimits.v
Heap.v
HeapPair.v
ActiveApps.v
TopApps.v
Varz.v
Metrics.v
Duration.v
Http.v
Component.v
Logger.v
Driver.v
Controller.v
Main.v
Clients.v
WorkQueue.v
Runners.v
RoutesJson.v
Announce.v
Serving.v
TcpRoutes.v
System.v
Messages.v
ApiSync.v
ConfigJson.v
Calendar.v
Boot.v
VarzJson.v
ConfigDir.v
