(* ===== verification/Prelude.v ===== *)
(** * cf-bigip-ctlr: a verification development

    The F5 BIG-IP Controller for Cloud Foundry learns routes from a message
    bus and from the routing API, keeps them in a registry, and turns them
    into the configuration of a BIG-IP device: a pool, a tier-2 virtual
    server and a policy rule per HTTP route, a pool and a virtual server per
    TCP route.  This library is a shallow embedding of the Go code under
    [src/]: pure functions become functions, mutable structures become
    explicit state, Go errors and run-time panics become values of [result].

    ** How the parts interact

      message bus -> Subscriber -> Registry (Trie of Pools) -> listener
      routing API -> Fetcher    -> Registry / RoutingTable  -> listener
      service broker (Broker)                               -> listener
      listener = the router's work queue -> F5Router -> configuration file
      configuration file -> driver process (Python) -> BIG-IP
      main -> clients, tables and members -> Controller -> status server

    The registry and the TCP table call [UpdateRoute] of the router for every
    change; the router's worker takes the updates from its queue, changes its
    maps of resources, and writes the whole configuration whenever the queue
    is empty (a drain).

    ** Files

    - [Prelude] (this file): [result], machine integers, iteration over Go
      maps in an arbitrary order ([MapOrder]), slices with constant-time
      deletion, tactics.
    - [GoStrings], [GoNet], [GoSha], [GoUrl]: the parts of Go's [strings],
      [strconv], [net], [crypto/sha256] and [net/url] that the code uses.
    - [Uri]: [route/uris.go].  [Trie]: [registry/container/trie.go].
      [Pool]: [route/pool.go], a slice and an index map that share objects.
      [LoadBalance]: [route/roundrobin.go] and [route/leastconnection.go].
    - [Registry]: [registry/registry.go].  [RoutingTable]:
      [routingtable/routingtable.go].  [Fetcher]: [routefetcher/].
      [Subscriber]: [mbus/subscriber.go].  [Runners]: [Run] of the fetcher
      beside its subscription goroutine, and of the subscriber.  [Broker]:
      [servicebroker/servicebroker.go].
    - [Json]: the encoder of encoding/json, inverse to the parser of
      [Codec].  [RoutesJson]: [MarshalJSON] of the registry and its pools.
      [ConfigJson]: the text of the configuration file, from the struct tags
      of [bigipResources.go] and [config.go].
    - [Config]: [config/config.go].  [Resources], [Codec]:
      [f5router/bigipResources/] with the base64 and JSON codec of the
      addresses kept on the device; plans and operations.  [Updates]:
      [f5router/httpUpdate.go], [tcpUpdate.go], [routeDomain.go] and the
      naming helpers of [f5router.go].
    - [Tier2], [Policy], [F5Router]: [f5router/f5router.go], split into the
      allocator of tier-2 addresses, the routing policy, and the router with
      its handlers, drain and start-up.
    - [RouterFacts], [RouterRun]: the refinement of the router to a table of
      routes, and the runs of the router.  [RouterLimits]: what unbinding a
      route with several endpoints leaves, and runs in which the code does not
      do what it means to.  [WorkQueue]: the queue of client-go
      between [UpdateRoute] and the worker, and the worker goroutine.
      [Alloc]: the class of allocator invariants the handlers preserve.
    - The composed controller: [Announce] (what the registry hands over),
      [Serving] (what the router keeps for a route, in any run),
      [TcpRoutes] (the same for TCP routes, and what the table hands over),
      [System] (registry, table, queue and worker as one transition system),
      [Messages] (the callback of the subscriber in front of it, call by
      call), [ApiSync] (a synchronisation with the routing API in front).
    - [Heap], [HeapPair]: container/heap and [stats/container/heap.go], and
      entries that sit in two heaps at once.  [ActiveApps], [TopApps]:
      [stats/].  [Varz]: the counters of [varz/varz.go]; [VarzJson]: the
      document made of them.  [Metrics]: [metrics/] and the log counter.
    - [Http], [Component]: the status server ([common/http/],
      [handlers/healthcheck.go], [common/health/varz.go],
      [common/component.go]).  [Controller]: [controller/controller.go].
      [Main]: the wiring of [main.go] and the callbacks of the message bus;
      [Boot]: [main] from its first line to the exit status.
    - [Driver]: [f5router/configwriter.go] and [f5router/driver.go];
      [ConfigDir]: the directory of the file.  [Logger]: [logger/].
      [Duration], [Calendar]: [common/schema/duration.go].
      [Clients]: [bigipclient/], [schema/] and [common/secure/].

    ** What the theorems show

    - The whole ([controller_converges]): in every interleaving of the
      callback of the message bus, other callers of the registry, callers of
      the TCP table, pruning and the worker, callbacks return, the worker never
      crashes, and once messages stop it comes to rest with a configuration
      written that says exactly what the registry and the table hold - for HTTP
      routes unless a new route found no free address.  The conditions: the
      controller was started on an IPv4 range, without the service broker, and
      no cached record has the name of a routing virtual server or of a TCP
      object; the messages for its own router group (texts of other groups and
      texts that do not decode are free) name endpoints with plain hosts and
      routes that are servable (one wildcard at most, in the host;
      [path_wildcard_panics]), with object names that differ from each other
      and from those of TCP routes ([wildcard_takes_tcp_name]: they need not);
      an update of a TCP route is handed over when no equal one is waiting or
      being processed ([tcp_update_lost]: otherwise it is lost).  Under the
      same conditions what a synchronisation with the routing API announces is
      served, and what it outdates is not ([tcp_sync_served]).
    - Containers: the trie is a finite map with longest-prefix match and no
      dead branches; a pool is a map from addresses to endpoints guarded by
      modification tags; load balancing picks the next available or the least
      used endpoint.
    - Registry and TCP table: every operation refines an update of an
      abstract table, pruning keeps exactly what is not stale in any visiting
      order, and in every reachable state the updates sent so far, acted upon,
      give exactly the table held ([registry_listener_agrees],
      [table_listener_agrees]).
    - Sources: a synchronisation with the routing API, a message, a binding
      change exactly what they name.  The fetchers are verified against the
      class [RouteSink], which the registry and the TCP table implement.
    - Router: adding and removing endpoints, of HTTP and of TCP routes, refine
      the abstract table of routes ([spec_add], [spec_remove]), the updates
      that are rejected and the rules that panic included; the resources of a
      route appear and disappear together; tier-2 addresses are distinct in
      every state reached without cached records by registrations, drains and
      removals after the first drain (the other runs are in [RouterLimits]);
      the policy orders rules by specificity, independently of map
      order; addresses and bindings survive their encoding and a restart.
    - Queue: under every interleaving of updates and worker, once updates
      stop, the worker handles what is queued and the last configuration
      written is that of the final maps ([worker_converges]); and, from any
      reachable state, the runs in which the queue merges two updates that are
      equal and not the same ([tcp_update_lost]).
    - Texts: the routes the status server shows as JSON are read back as
      exactly the routes registered ([routes_listing]), the configuration
      file as the resources written ([config_file_roundtrip]), times and
      durations as themselves within stated bounds.
    - Configuration: what an accepted configuration guarantees; which text it
      comes from, and that processing it twice changes nothing
      ([main_boots]).
    - Statistics: in sequential histories the two-heap structures never reach
      their panics and refine lists of request times; the numbers published under /varz are exact
      ([varz_document]).
    - Process: who is let in by the status server; stopping it ends; the
      controller becomes ready and stops pruning; main gives every mode the
      tables and clients it dereferences; reconnections are handled to the
      end; no driver process is left behind or dies unnoticed; a failed write
      of the configuration leaks neither descriptor nor lock; loggers that
      share arrays behave as if they did not, under a stated discipline.

    ** Fuel and bounds

    Loops that are not structural run on fuel, and each has a theorem that
    the fuel is enough: the walks of the trie (length of the key), pruning
    (length of the slice), round robin (two turns of the pool), the search
    for an address (twice the number of used addresses, plus three), the
    wildcard search (number of dots).  The JSON parser runs on the length of
    the text; the round trip shows it to be enough for the texts the code
    writes.
    Counters, durations, ports and addresses wrap at their Go widths.

    ** What is not modelled

    The operating system, HTTP and NATS connections and third-party libraries
    are arguments of the definitions that call them; so is [time.Now()], one
    value per operation.  Goroutine interleavings are modelled where the code
    waits on channels (the queue and its worker, the fetcher and its
    subscription, stopping the component, the driver, the callbacks of the
    bus), not inside a lock.  The composed controller has no service
    broker: its handlers are verified one by one, and in [RouterLimits] there
    are runs in which they break what the composition promises.  Floating-point averages of go-metrics, YAML, AES,
    PBKDF2 and JSON schemas are parameters.  Left out: the debug server, the
    process group of ifrit beyond the order of its members, the constructors
    and accessors that only copy fields, the fakes and helpers of the
    tests. *)
From stdpp Require Import base list gmap strings pretty sorting fin_maps relations.
From Stdlib Require Import ZArith Lia.

(** ** Outcomes of Go functions

    A Go function that returns [(T, error)] may also stop the process with a
    run-time panic (an index out of range, a nil dereference).  [Ok] is a
    normal return, [Err] a non-nil error value (its text), [Panic] a panic. *)
Inductive result (A : Type) : Type :=
| Ok (a : A)
| Err (e : string)
| Panic (why : string).
Arguments Ok {A} a.
Arguments Err {A} e.
Arguments Panic {A} why.

Declare Scope go_scope.
Delimit Scope go_scope with go.

Definition rbind {A B : Type} (m : result A) (f : A → result B) : result B :=
  match m with
  | Ok a => f a
  | Err e => Err e
  | Panic w => Panic w
  end.

Notation "'let*' x := m 'in' k" := (rbind m (fun x => k))
  (at level 10, x name, m at level 100, k at level 200) : go_scope.
Notation "'let*' ' p := m 'in' k" := (rbind m (fun x => match x with p => k end))
  (at level 10, p pattern, m at level 100, k at level 200) : go_scope.

#[global] Instance result_eq_dec {A} `{EqDecision A} : EqDecision (result A).
Proof. solve_decision. Defined.

Definition is_ok {A} (m : result A) : Prop := ∃ a, m = Ok a.
Definition no_panic {A} (m : result A) : Prop := ∀ w, m ≠ Panic w.

Lemma rbind_Ok {A B} (m : result A) (f : A → result B) (b : B) :
  rbind m f = Ok b ↔ ∃ a, m = Ok a ∧ f a = Ok b.
Proof. destruct m; naive_solver. Qed.

Lemma rbind_no_panic {A B} (m : result A) (f : A → result B) :
  no_panic m → (∀ a, m = Ok a → no_panic (f a)) → no_panic (rbind m f).
Proof. destruct m; unfold no_panic; naive_solver. Qed.

(** ** Fixed-width integers

    Go's [int], [int64] and [time.Duration] are 64-bit two's complement,
    [int32] is 32-bit, [uint16] and [byte] are unsigned. *)
Definition wrap64 (z : Z) : Z := (z + 2 ^ 63) mod 2 ^ 64 - 2 ^ 63.
Definition wrap32 (z : Z) : Z := (z + 2 ^ 31) mod 2 ^ 32 - 2 ^ 31.
Definition uint16 (z : Z) : Z := z mod 2 ^ 16.
Definition uint8 (z : Z) : Z := z mod 2 ^ 8.

Definition fits64 (z : Z) : Prop := (- 2 ^ 63 ≤ z < 2 ^ 63)%Z.

Lemma wrap64_id z : fits64 z → wrap64 z = z.
Proof. unfold fits64, wrap64. intros. rewrite Z.mod_small; lia. Qed.

Lemma wrap64_fits z : fits64 (wrap64 z).
Proof.
  unfold fits64, wrap64.
  pose proof (Z.mod_pos_bound (z + 2 ^ 63) (2 ^ 64)). lia.
Qed.

(** One second, in the nanoseconds of [time.Duration]. *)
Definition Second : Z := 1000000000.

(** ** Iteration over Go maps

    [for k, v := range m] visits every entry once, in an order the language
    leaves unspecified.  A [MapOrder] is one such choice of order; theorems
    proved for every instance hold for whatever order the runtime picks. *)
Class MapOrder (K : Type) `{Countable K} := {
  go_range : ∀ {V : Type}, gmap K V → list (K * V);
  go_range_perm : ∀ {V : Type} (m : gmap K V), go_range m ≡ₚ map_to_list m
}.

#[global] Program Instance default_order (K : Type) `{Countable K} : MapOrder K | 100 :=
  { go_range := fun V m => map_to_list m }.
Solve All Obligations with done.

Section range.
Context {K : Type} `{MapOrder K} {V : Type}.
Implicit Types (m : gmap K V).

Lemma elem_of_go_range m k v : (k, v) ∈ go_range m ↔ m !! k = Some v.
Proof. by rewrite go_range_perm, elem_of_map_to_list. Qed.

Lemma go_range_NoDup_fst m : NoDup (go_range m).*1.
Proof. rewrite go_range_perm. apply NoDup_fst_map_to_list. Qed.

Lemma go_range_length m : length (go_range m) = size m.
Proof. by rewrite go_range_perm, length_map_to_list. Qed.

Lemma go_range_list_to_map m : list_to_map (go_range m) = m.
Proof.
  rewrite (list_to_map_proper _ _ (go_range_NoDup_fst m) (go_range_perm m)).
  apply list_to_map_to_list.
Qed.

Lemma go_range_empty m : go_range m = [] ↔ m = ∅.
Proof.
  rewrite <-map_size_empty_iff, <-go_range_length.
  split; [by intros ->|apply nil_length_inv].
Qed.
End range.

(** ** Lists *)
Lemma fmap_bind {A B C} (f : A → list B) (g : B → C) (l : list A) :
  g <$> (l ≫= f) = l ≫= (λ x, g <$> f x).
Proof. induction l as [|x l IH]; [done|]. rewrite !bind_cons, fmap_app. by rewrite IH. Qed.

Lemma omap_fmap {A B C} (g : A → B) (f : B → option C) (l : list A) :
  omap f (g <$> l) = omap (f ∘ g) l.
Proof.
  induction l as [|x l IH]; [done|]. cbn. change (f (g x)) with ((f ∘ g) x).
  destruct ((f ∘ g) x); [f_equal|]; apply IH.
Qed.

Lemma omap_ext_in {A B} (f g : A → option B) (l : list A) :
  (∀ x, x ∈ l → f x = g x) → omap f l = omap g l.
Proof.
  induction l as [|x l IH]; intros H; [done|]. cbn.
  rewrite <-(H x) by set_solver. destruct (f x); [f_equal|]; apply IH; set_solver.
Qed.

(** Go's constant-time deletion from a slice: the last element is moved over
    the deleted one and the slice is shortened by one. *)
Definition swap_remove {A} (i : nat) (l : list A) : list A :=
  match l !! (length l - 1) with
  | Some y => take (length l - 1) (<[i := y]> l)
  | None => l
  end.

Lemma swap_remove_lookup {A} (i j : nat) (l : list A) :
  i < length l →
  swap_remove i l !! j =
    if decide (length l - 1 ≤ j) then None
    else if decide (j = i) then l !! (length l - 1) else l !! j.
Proof.
  intros Hi. unfold swap_remove.
  destruct (lookup_lt_is_Some_2 l (length l - 1)) as [y Hy]; [lia|]. rewrite Hy.
  rewrite lookup_take. repeat case_decide; try lia; try done; subst.
  - by rewrite list_lookup_insert_eq.
  - by rewrite list_lookup_insert_ne by done.
Qed.

Lemma swap_remove_perm {A} (i : nat) (x : A) (l : list A) :
  l !! i = Some x → x :: swap_remove i l ≡ₚ l.
Proof.
  intros Hx. unfold swap_remove.
  destruct l as [|y l _] using rev_ind; [done|].
  rewrite length_app. simpl. rewrite Nat.add_sub.
  rewrite list_lookup_middle by done.
  destruct (decide (i = length l)) as [->|Hi].
  - rewrite list_lookup_middle in Hx by done. simplify_eq.
    rewrite take_insert_ge by lia. rewrite take_app_length.
    by rewrite Permutation_cons_append.
  - assert (i < length l) as Hlt.
    { apply lookup_lt_Some in Hx. rewrite length_app in Hx. simpl in Hx. lia. }
    rewrite lookup_app_l in Hx by lia.
    rewrite insert_app_l by lia. rewrite take_app_length' by (by rewrite length_insert).
    rewrite <-(take_drop_middle l i x Hx) at 2. rewrite insert_take_drop by lia.
    rewrite (Permutation_app_comm _ [y]). simpl. rewrite <-!Permutation_middle.
    apply perm_swap.
Qed.

Lemma swap_remove_length {A} (i : nat) (l : list A) :
  i < length l → length (swap_remove i l) = length l - 1.
Proof.
  intros Hi. destruct (lookup_lt_is_Some_2 l i Hi) as [x Hx].
  apply swap_remove_perm, Permutation_length in Hx. simpl in Hx. lia.
Qed.

Lemma swap_remove_NoDup {A} (i : nat) (x : A) (l : list A) :
  l !! i = Some x → NoDup l →
  NoDup (swap_remove i l) ∧ ∀ y, y ∈ swap_remove i l ↔ y ∈ l ∧ y ≠ x.
Proof.
  intros Hx Hnd. pose proof (swap_remove_perm i x l Hx) as Hp.
  rewrite <-Hp in Hnd. apply NoDup_cons in Hnd as [Hn Hnd]. split; [done|].
  intros y. assert (y ∈ l ↔ y = x ∨ y ∈ swap_remove i l) as ->.
  { rewrite <-elem_of_cons. by rewrite Hp. }
  split; [|naive_solver]. intros Hy. split; [by right|]. by intros ->.
Qed.

(** ** Runs *)

(** What every step keeps holds at the end of a run. *)
Lemma rtc_preserves {A} (R : relation A) (P : A → Prop) :
  (∀ x y, R x y → P x → P y) → ∀ x, P x → ∀ y, rtc R x y → P y.
Proof. intros Hstep x Hx y Hr. induction Hr; eauto. Qed.

(** ** Tactics *)

(** The same call cannot have two results: the variable of [H1]'s result is
    replaced by that of [H2]. *)
Ltac ok_inj H1 H2 := rewrite H1 in H2; injection H2 as ->.

(** Facts that close side conditions: well-formed initial states, nonempty
    paths, and steps that send nothing. *)
Create HintDb go discriminated.
