(* ===== verification/GoStrings.v ===== *)
(** The functions of Go's [strings] and [strconv] packages that the controller
    uses, on byte strings, with the lemmas the components share.

    A pair of calls [i := strings.Index(s, "c")] and [s[:i]], [s[i+1:]] with a
    one-byte separator is [cut c s]: [None] stands for [i == -1].
    [strings.ToLower] is modelled on ASCII letters; other bytes are kept. *)
From stdpp Require Import base list strings pretty.
From Stdlib Require Import ZArith Lia.
From Stdlib Require Import Ascii.
From S2P Require Import Prelude.

(** ** Characters *)
Definition is_upper (a : ascii) : bool :=
  let n := Ascii.N_of_ascii a in (65 <=? n)%N && (n <=? 90)%N.

Definition lower_ascii (a : ascii) : ascii :=
  if is_upper a then Ascii.ascii_of_N (Ascii.N_of_ascii a + 32)%N else a.

Definition is_digit (a : ascii) : bool :=
  let n := Ascii.N_of_ascii a in (48 <=? n)%N && (n <=? 57)%N.

Fixpoint string_map (f : ascii → ascii) (s : string) : string :=
  match s with
  | EmptyString => EmptyString
  | String a s' => String (f a) (string_map f s')
  end.

Fixpoint string_forallb (p : ascii → bool) (s : string) : bool :=
  match s with
  | EmptyString => true
  | String a s' => p a && string_forallb p s'
  end.

(** ** package strings *)
Definition ToLower (s : string) : string := string_map lower_ascii s.

Definition HasPrefix (s p : string) : bool := String.prefix p s.

Fixpoint sdrop (n : nat) (s : string) : string :=
  match n, s with
  | O, _ => s
  | S n', String _ s' => sdrop n' s'
  | S _, EmptyString => EmptyString
  end.

Definition TrimPrefix (s p : string) : string :=
  if HasPrefix s p then sdrop (String.length p) s else s.

Definition HasSuffix (s p : string) : bool :=
  HasPrefix (String.rev s) (String.rev p).

(** [strings.TrimSuffix(s, "c")] for a one-byte suffix. *)
Fixpoint trim_suffix (c : ascii) (s : string) : string :=
  match s with
  | EmptyString => EmptyString
  | String a EmptyString => if bool_decide (a = c) then EmptyString else s
  | String a s' => String a (trim_suffix c s')
  end.

(** The text before and after the first [c]. *)
Fixpoint cut (c : ascii) (s : string) : option (string * string) :=
  match s with
  | EmptyString => None
  | String a s' =>
      if bool_decide (a = c) then Some (EmptyString, s')
      else match cut c s' with
           | Some (h, t) => Some (String a h, t)
           | None => None
           end
  end.

(** [strings.SplitN(s, "c", 2)]. *)
Definition SplitN2 (c : ascii) (s : string) : list string :=
  match cut c s with
  | Some (h, t) => [h; t]
  | None => [s]
  end.

(** [strings.Split(s, "c")]. *)
Fixpoint Split (c : ascii) (s : string) : list string :=
  match s with
  | EmptyString => [EmptyString]
  | String a s' =>
      if bool_decide (a = c) then EmptyString :: Split c s'
      else match Split c s' with
           | h :: t => String a h :: t
           | [] => [String a EmptyString]
           end
  end.

Fixpoint Join (c : ascii) (l : list string) : string :=
  match l with
  | [] => EmptyString
  | [x] => x
  | x :: l' => x +:+ String c (Join c l')
  end.

Fixpoint count_char (c : ascii) (s : string) : nat :=
  match s with
  | EmptyString => 0
  | String a s' => (if bool_decide (a = c) then 1 else 0) + count_char c s'
  end.

Definition contains_char (c : ascii) (s : string) : bool :=
  bool_decide (count_char c s ≠ 0).

(** [strings.Contains(s, sub)]. *)
Fixpoint Contains (s sub : string) : bool :=
  HasPrefix s sub ||
  match s with
  | EmptyString => false
  | String _ s' => Contains s' sub
  end.

(** [strings.Replace(s, "c", "d", -1)]. *)
Definition replace_char (c d : ascii) (s : string) : string :=
  string_map (fun a => if bool_decide (a = c) then d else a) s.

(** [strconv.Itoa] and the verb [%d]. *)
Definition Itoa (z : Z) : string := pretty z.

(** ** Lemmas *)
Lemma bool_decide_refl {A} `{EqDecision A} (a : A) : bool_decide (a = a) = true.
Proof. by rewrite bool_decide_eq_true. Qed.

Lemma sapp_assoc s1 s2 s3 : (s1 +:+ s2) +:+ s3 = s1 +:+ (s2 +:+ s3).
Proof. induction s1 as [|a s1 IH]; [done|]. unfold String.app in *; simpl; by f_equal. Qed.

Lemma sapp_nil_r s : s +:+ EmptyString = s.
Proof. induction s as [|a s IH]; [done|]. unfold String.app in *; simpl; by f_equal. Qed.

Lemma sapp_cons a s1 s2 : String a s1 +:+ s2 = String a (s1 +:+ s2).
Proof. done. Qed.

Lemma slength_app s1 s2 : String.length (s1 +:+ s2) = String.length s1 + String.length s2.
Proof. induction s1 as [|a s1 IH]; [done|]. rewrite sapp_cons; simpl; by rewrite IH. Qed.

Lemma cut_Some c s h t :
  cut c s = Some (h, t) ↔ s = h +:+ String c t ∧ count_char c h = 0.
Proof.
  revert h t. induction s as [|a s IH]; intros h t; simpl.
  - split; [done|]. intros [E _]. by destruct h.
  - case_bool_decide as Ha.
    + split.
      * intros [= <- <-]. by subst.
      * intros [E Hc]. destruct h as [|b h]; [by injection E as [= -> ->]|].
        rewrite sapp_cons in E. injection E as [= -> E]. simpl in Hc.
        rewrite Ha, bool_decide_refl in Hc. lia.
    + split.
      * destruct (cut c s) as [[h' t']|]; [|done]. intros [= <- <-].
        destruct (proj1 (IH h' t')) as [-> Hc]; [done|]. split; [done|]. simpl.
        by rewrite bool_decide_eq_false_2.
      * intros [E Hc]. destruct h as [|b h]; [by injection E as [= -> ->]|].
        rewrite sapp_cons in E. injection E as [= -> ->]. simpl in Hc.
        rewrite bool_decide_eq_false_2 in Hc by done.
        assert (cut c (h +:+ String c t) = Some (h, t)) as -> by (apply IH; split; [done|lia]).
        done.
Qed.

Lemma cut_None c s : cut c s = None ↔ count_char c s = 0.
Proof.
  induction s as [|a s IH]; simpl; [done|].
  case_bool_decide; [split; [done|lia]|].
  destruct (cut c s) as [[]|]; naive_solver.
Qed.

Lemma cut_length c s h t : cut c s = Some (h, t) → String.length t < String.length s.
Proof. intros [-> _]%cut_Some. rewrite slength_app. simpl. lia. Qed.

Lemma Split_cut c s :
  Split c s = match cut c s with Some (h, t) => h :: Split c t | None => [s] end.
Proof.
  induction s as [|a s IH]; simpl; [done|].
  case_bool_decide; [done|]. rewrite IH.
  by destruct (cut c s) as [[h t]|].
Qed.

Lemma Split_not_nil c s : Split c s ≠ [].
Proof. rewrite Split_cut. by destruct (cut c s) as [[]|]. Qed.

Lemma Join_cons c x l : l ≠ [] → Join c (x :: l) = x +:+ String c (Join c l).
Proof. by destruct l. Qed.

Lemma Split_no_sep c s : count_char c s = 0 → Split c s = [s].
Proof. intros H. rewrite Split_cut. by apply cut_None in H as ->. Qed.

Lemma Split_app c h t : count_char c h = 0 → Split c (h +:+ String c t) = h :: Split c t.
Proof.
  intros H. rewrite Split_cut.
  assert (cut c (h +:+ String c t) = Some (h, t)) as -> by (by apply cut_Some). done.
Qed.

Lemma Join_Split c s : Join c (Split c s) = s.
Proof.
  induction s as [s IH] using (well_founded_induction
    (Wf_nat.well_founded_ltof _ String.length)).
  rewrite Split_cut. destruct (cut c s) as [[h t]|] eqn:E; [|done].
  rewrite Join_cons by apply Split_not_nil. rewrite IH.
  - by apply cut_Some in E as [-> _].
  - unfold Wf_nat.ltof. eauto using cut_length.
Qed.

Lemma Split_Join c l :
  l ≠ [] → Forall (λ s, count_char c s = 0) l → Split c (Join c l) = l.
Proof.
  intros Hl H. induction H as [|x l Hx H IH]; [done|].
  destruct l as [|y l]; [by apply Split_no_sep|].
  rewrite Join_cons by done. rewrite Split_app by done. by rewrite IH.
Qed.

Lemma Split_Forall c s : Forall (λ s, count_char c s = 0) (Split c s).
Proof.
  induction s as [s IH] using (well_founded_induction
    (Wf_nat.well_founded_ltof _ String.length)).
  rewrite Split_cut. destruct (cut c s) as [[h t]|] eqn:E.
  - constructor; [by apply cut_Some in E as [_ ?]|].
    apply IH. unfold Wf_nat.ltof. eauto using cut_length.
  - apply cut_None in E. by repeat constructor.
Qed.

Lemma Join_snoc c l x : l ≠ [] → Join c (l ++ [x]) = Join c l +:+ String c x.
Proof.
  induction l as [|a l IH]; [done|]. intros _. destruct l as [|b l]; [done|].
  cbn [app] in *. rewrite (Join_cons c a (b :: l ++ [x])), (Join_cons c a (b :: l)) by done.
  by rewrite IH, sapp_assoc, sapp_cons.
Qed.

Lemma Split_snoc c s x : count_char c x = 0 → Split c (s +:+ String c x) = Split c s ++ [x].
Proof.
  intros Hx. rewrite <-(Join_Split c s) at 1. rewrite <-Join_snoc by apply Split_not_nil.
  apply Split_Join; [by destruct (Split c s)|]. apply Forall_app. split; [apply Split_Forall|by constructor].
Qed.

Lemma Split_inj c s1 s2 : Split c s1 = Split c s2 → s1 = s2.
Proof. intros H. by rewrite <-(Join_Split c s1), H, Join_Split. Qed.

Lemma Split_length_count c s : length (Split c s) = S (count_char c s).
Proof.
  induction s as [|a s IH]; simpl; [done|].
  case_bool_decide; simpl; [by rewrite IH|].
  destruct (Split c s) eqn:E; [by apply Split_not_nil in E|]. simpl in *. lia.
Qed.

Lemma count_char_app c s1 s2 : count_char c (s1 +:+ s2) = count_char c s1 + count_char c s2.
Proof. induction s1 as [|a s1 IH]; [done|]. rewrite sapp_cons; simpl; lia. Qed.

Lemma contains_char_false c s : contains_char c s = false ↔ count_char c s = 0.
Proof. unfold contains_char. rewrite bool_decide_eq_false. lia. Qed.

Lemma contains_char_true c s : contains_char c s = true ↔ count_char c s ≠ 0.
Proof. unfold contains_char. by rewrite bool_decide_eq_true. Qed.

Lemma lower_ascii_idemp a : lower_ascii (lower_ascii a) = lower_ascii a.
Proof. by destruct a as [[] [] [] [] [] [] [] []]. Qed.

Lemma ToLower_idemp s : ToLower (ToLower s) = ToLower s.
Proof.
  unfold ToLower. induction s as [|a s IH]; simpl; [done|].
  by rewrite lower_ascii_idemp, IH.
Qed.

Lemma string_map_app f s1 s2 : string_map f (s1 +:+ s2) = string_map f s1 +:+ string_map f s2.
Proof. induction s1 as [|a s1 IH]; [done|]. rewrite !sapp_cons; simpl. by rewrite IH. Qed.

Lemma trim_suffix_spec c s :
  s = trim_suffix c s +:+ String c EmptyString ∨ s = trim_suffix c s.
Proof.
  induction s as [|a s IH]; [by right|]. simpl.
  destruct s as [|b s].
  - case_bool_decide; subst; [by left|by right].
  - destruct IH as [IH|IH]; [left|right].
    + rewrite sapp_cons. by rewrite <-IH.
    + by rewrite <-IH.
Qed.

Lemma trim_suffix_app c s : trim_suffix c (s +:+ String c EmptyString) = s.
Proof.
  induction s as [|a s IH].
  - unfold String.app; simpl. by rewrite bool_decide_refl.
  - rewrite sapp_cons. simpl. rewrite IH. by destruct s.
Qed.

Lemma HasPrefix_app p s : HasPrefix (p +:+ s) p = true.
Proof.
  unfold HasPrefix. induction p as [|a p IH]; [by destruct s|].
  rewrite sapp_cons; simpl. by destruct (Ascii.ascii_dec a a).
Qed.

Lemma sdrop_app p s : sdrop (String.length p) (p +:+ s) = s.
Proof. induction p as [|a p IH]; simpl; [done|]. by rewrite <-IH at 2. Qed.

Lemma HasPrefix_spec s p : HasPrefix s p = true ↔ ∃ t, s = p +:+ t.
Proof.
  split; [|intros [t ->]; apply HasPrefix_app].
  unfold HasPrefix. revert s. induction p as [|a p IH]; intros s H; [by exists s|].
  destruct s as [|b s]; simpl in H; [done|].
  destruct (Ascii.ascii_dec a b) as [->|]; [|done].
  apply IH in H as [t ->]. by exists t.
Qed.

Lemma TrimPrefix_app p s : TrimPrefix (p +:+ s) p = s.
Proof. unfold TrimPrefix. by rewrite HasPrefix_app, sdrop_app. Qed.

Lemma Itoa_inj : Inj (=) (=) Itoa.
Proof. unfold Itoa. intros x y. apply (inj pretty). Qed.

Lemma sapp_inj_l s s1 s2 : s +:+ s1 = s +:+ s2 → s1 = s2.
Proof. induction s as [|a s IH]; [done|]. rewrite !sapp_cons. by intros [= ?%IH]. Qed.

(** Cutting two strings at a separator absent from the heads is unambiguous. *)
Lemma sapp_sep_inj c h1 t1 h2 t2 :
  count_char c h1 = 0 → count_char c h2 = 0 →
  h1 +:+ String c t1 = h2 +:+ String c t2 → h1 = h2 ∧ t1 = t2.
Proof.
  intros H1 H2 E.
  assert (cut c (h1 +:+ String c t1) = Some (h1, t1)) as Ha by (by apply cut_Some).
  assert (cut c (h2 +:+ String c t2) = Some (h2, t2)) as Hb by (by apply cut_Some).
  rewrite E, Hb in Ha. by simplify_eq.
Qed.

#[export] Hint Rewrite Split_Join Join_Split using done : go.
#[export] Hint Resolve Split_not_nil : go.
