(* ===== verification/Uri.v ===== *)
(** Route URIs: [src/route/uris.go].

    [Uri] is Go's [type Uri string].  [Uri_String] is the method [String],
    which drops one trailing slash; [RouteKey] is the key under which the
    registry stores a route; [NextWildcard] walks [a.b.c], [*.b.c], [*.c]. *)
From stdpp Require Import base list strings.
From Stdlib Require Import Ascii ZArith Lia.
From S2P Require Import Prelude GoStrings.

Notation Uri := string (only parsing).

Definition Uri_String (u : Uri) : string := trim_suffix "/" u.

Definition Uri_ToLower (u : Uri) : Uri := ToLower (Uri_String u).

Definition NextWildcard (u : Uri) : Uri * option string :=
  let uri := TrimPrefix (Uri_String u) "*." in
  match cut "." uri with
  | None => (u, Some "no next wildcard available")
  | Some (_, suffix) => ("*." +:+ suffix, None)
  end.

Definition RouteKey (u : Uri) : Uri :=
  let key := Uri_ToLower u in
  match cut "?" key with
  | Some (h, _) => h
  | None => key
  end.

(** Number of [NextWildcard] steps left: the dots after an optional [*.]. *)
Definition wildcard_steps (u : Uri) : nat :=
  count_char "." (TrimPrefix (Uri_String u) "*.").

Lemma count_char_trim_suffix c d s : count_char c (trim_suffix d s) ≤ count_char c s.
Proof.
  destruct (trim_suffix_spec d s) as [E|E]; rewrite E at 2; [|done].
  rewrite count_char_app. lia.
Qed.

Lemma NextWildcard_None u : (NextWildcard u).2 = None ↔ wildcard_steps u ≠ 0.
Proof.
  unfold NextWildcard, wildcard_steps.
  destruct (cut "." _) as [[h t]|] eqn:E; simpl.
  - apply cut_Some in E as [-> _]. rewrite count_char_app. simpl. split; [lia|done].
  - apply cut_None in E. rewrite E. naive_solver.
Qed.

Lemma trim_suffix_cons2 c a b s :
  trim_suffix c (String a (String b s)) = String a (trim_suffix c (String b s)).
Proof. done. Qed.

Lemma wildcard_prefix_steps s : s ≠ "/" →
  wildcard_steps ("*." +:+ s) ≤ count_char "." s.
Proof.
  intros Hs. unfold wildcard_steps, Uri_String.
  destruct s as [|a s]; [done|].
  change ("*." +:+ String a s) with (String "*" (String "." (String a s))).
  rewrite trim_suffix_cons2, trim_suffix_cons2.
  change (String "*" (String "." ?x)) with ("*." +:+ x).
  rewrite TrimPrefix_app. apply count_char_trim_suffix.
Qed.

(** A successful [NextWildcard] strictly decreases the number of steps left,
    so the registry's wildcard search ends. *)
Lemma NextWildcard_decreases u u' :
  NextWildcard u = (u', None) → wildcard_steps u' < wildcard_steps u.
Proof.
  unfold NextWildcard. intros H.
  destruct (cut "." _) as [[h t]|] eqn:E; [|done]. simplify_eq.
  apply cut_Some in E as [E Hh]. unfold wildcard_steps at 2. rewrite E.
  rewrite count_char_app. simpl.
  destruct (decide (t = "/")) as [->|Ht].
  { assert (wildcard_steps ("*." +:+ "/") = 0) as -> by done. lia. }
  pose proof (wildcard_prefix_steps t Ht). lia.
Qed.
