(* ===== verification/Trie.v ===== *)
(** The route trie: [src/registry/container/trie.go].

    A route is stored under its slash-separated segments.  The node type, the
    loops over [parts(key)] and their early exits are those of the source;
    the loops run on fuel [S (length key)], which the lemmas [*_segments]
    show to be enough.  A node's [Parent] is its position in the tree: the
    functions that walk up ([Snip]) take the path of the node.  A
    [*route.Pool] is an address in the registry's pool store. *)
From stdpp Require Import base list gmap strings.
From Stdlib Require Import Ascii ZArith Lia.
From S2P Require Import Prelude GoStrings Uri.

Abbreviation loc := nat (only parsing).
Abbreviation path := (list string) (only parsing).

Inductive Trie : Type := mkTrie {
  Segment : string;
  TPool : option loc;
  ChildNodes : gmap string Trie
}.

Definition set_pool (v : option loc) (t : Trie) : Trie :=
  mkTrie (Segment t) v (ChildNodes t).
Definition set_children (cs : gmap string Trie) (t : Trie) : Trie :=
  mkTrie (Segment t) (TPool t) cs.

(** ** Operations *)
Definition NewTrie : Trie := mkTrie EmptyString None ∅.

Definition parts (key : string) : list string := SplitN2 "/" key.

Definition uri_key (uri : Uri) : string := TrimPrefix (Uri_String uri) "/".

Definition isLeaf (t : Trie) : bool := bool_decide (size (ChildNodes t) = 0).

Fixpoint Find_loop (fuel : nat) (node : Trie) (key : string) : option loc :=
  match fuel with
  | O => None
  | S fuel' =>
      match parts key with
      | [] => None
      | SegmentValue :: rest =>
          match ChildNodes node !! SegmentValue with
          | None => None
          | Some matchingChild =>
              match rest with
              | [] => TPool matchingChild
              | key' :: _ => Find_loop fuel' matchingChild key'
              end
          end
      end
  end.

Definition Find (r : Trie) (uri : Uri) : option loc :=
  let key := uri_key uri in Find_loop (S (String.length key)) r key.

(** The loop state is the current node and [lastPool]; after the loop the
    current node's own pool has precedence. *)
Fixpoint MatchUri_loop (fuel : nat) (node : Trie) (lastPool : option loc) (key : string)
  : option loc :=
  match fuel with
  | O => None
  | S fuel' =>
      match parts key with
      | [] => None
      | SegmentValue :: rest =>
          match ChildNodes node !! SegmentValue with
          | None => match TPool node with Some p => Some p | None => lastPool end
          | Some matchingChild =>
              let lastPool' :=
                match TPool matchingChild with Some p => Some p | None => lastPool end in
              match rest with
              | [] => match TPool matchingChild with Some p => Some p | None => lastPool' end
              | key' :: _ => MatchUri_loop fuel' matchingChild lastPool' key'
              end
          end
      end
  end.

Definition MatchUri (r : Trie) (uri : Uri) : option loc :=
  let key := uri_key uri in MatchUri_loop (S (String.length key)) r None key.

Fixpoint Insert_loop (fuel : nat) (node : Trie) (key : string) (value : loc) : Trie :=
  match fuel with
  | O => node
  | S fuel' =>
      match parts key with
      | [] => node
      | SegmentValue :: rest =>
          let matchingChild :=
            match ChildNodes node !! SegmentValue with
            | Some c => c
            | None => mkTrie SegmentValue None ∅
            end in
          let child' :=
            match rest with
            | [] => set_pool (Some value) matchingChild
            | key' :: _ => Insert_loop fuel' matchingChild key' value
            end in
          set_children (<[SegmentValue := child']> (ChildNodes node)) node
      end
  end.

Definition Insert (r : Trie) (uri : Uri) (value : loc) : Trie :=
  let key := uri_key uri in Insert_loop (S (String.length key)) r key value.

(** The node at a path, and the update of the subtree at a path: following
    [ChildNodes] pointers and writing through them. *)
Fixpoint node_at (t : Trie) (p : path) : option Trie :=
  match p with
  | [] => Some t
  | s :: p' => match ChildNodes t !! s with Some c => node_at c p' | None => None end
  end.

Fixpoint update_at (f : Trie → Trie) (t : Trie) (p : path) : Trie :=
  match p with
  | [] => f t
  | s :: p' =>
      match ChildNodes t !! s with
      | Some c => set_children (<[s := update_at f c p']> (ChildNodes t)) t
      | None => t
      end
  end.

(** First loop of [Delete]: the path of the node it ends on; a missing child
    is a nil node, dereferenced in the next iteration or by [node.Pool = nil]. *)
Fixpoint Delete_walk (fuel : nat) (node : Trie) (key : string) : result path :=
  match fuel with
  | O => Err "fuel"
  | S fuel' =>
      match parts key with
      | [] => Panic "index out of range"
      | SegmentValue :: rest =>
          match ChildNodes node !! SegmentValue with
          | None => Panic "nil pointer dereference"
          | Some matchingChild =>
              match rest with
              | [] => Ok [SegmentValue]
              | key' :: _ =>
                  rbind (Delete_walk fuel' matchingChild key')
                        (λ p, Ok (SegmentValue :: p))
              end
          end
      end
  end.

(** One iteration's choice in [deleteEmptyNodes]: [matchingChild] becomes
    [nodeToRemove], becomes [nodeToKeep], or changes neither. *)
Definition deleteEmptyNodes_step (keep : path) (rem : option string) (here : path)
  (matchingChild : Trie) : path * option string :=
  let n := size (ChildNodes matchingChild) in
  let nopool := bool_decide (TPool matchingChild = None) in
  if bool_decide (rem = None) && nopool && (n <? 2)%nat
  then (keep, Some (Segment matchingChild))
  else if negb nopool || (1 <? n)%nat
  then (here, None)
  else (keep, rem).

(** State of the loop of [deleteEmptyNodes]: [here] is the path of [node],
    [keep] the path of [nodeToKeep], [rem] the segment of [nodeToRemove]. *)
Fixpoint deleteEmptyNodes_loop (fuel : nat) (node : Trie) (key : string)
  (here keep : path) (rem : option string) : result (Trie * path * option string) :=
  match fuel with
  | O => Err "fuel"
  | S fuel' =>
      match parts key with
      | [] => Panic "index out of range"
      | SegmentValue :: rest =>
          match ChildNodes node !! SegmentValue with
          | None => Panic "nil pointer dereference"
          | Some matchingChild =>
              let here' := here ++ [SegmentValue] in
              let '(keep', rem') := deleteEmptyNodes_step keep rem here' matchingChild in
              match rest with
              | [] => Ok (matchingChild, keep', rem')
              | key' :: _ => deleteEmptyNodes_loop fuel' matchingChild key' here' keep' rem'
              end
          end
      end
  end.

Definition delete_child (s : string) (t : Trie) : Trie :=
  set_children (delete s (ChildNodes t)) t.

Definition deleteEmptyNodes (r : Trie) (key : string) : result Trie :=
  rbind (deleteEmptyNodes_loop (S (String.length key)) r key [] [] None)
    (λ '(node, keep, rem),
      if isLeaf node then
        match rem with
        | None => Panic "nil pointer dereference"
        | Some s => Ok (update_at (delete_child s) r keep)
        end
      else Ok r).

Definition Delete (r : Trie) (uri : Uri) : result (Trie * bool) :=
  let key := uri_key uri in
  rbind (Delete_walk (S (String.length key)) r key)
    (λ p, rbind (deleteEmptyNodes (update_at (set_pool None) r p) key)
      (λ r', Ok (r', true))).

(** [EachNodeWithPool] visits the nodes that hold a pool; the list gives each
    with its path (in the source the callback reaches it through [Parent]). *)
Fixpoint EachNodeWithPool (r : Trie) : list (path * loc) :=
  (match TPool r with Some l => [([], l)] | None => [] end) ++
  map_fold (λ s child acc, ((λ '(p, l), (s :: p, l)) <$> EachNodeWithPool child) ++ acc)
    [] (ChildNodes r).

Definition PoolCount (r : Trie) : nat := length (EachNodeWithPool r).

(** [Snip] at the node whose reversed path is [rp]. [isEmpty] is
    [Pool.IsEmpty] on the pool store. *)
Fixpoint Snip (isEmpty : loc → bool) (r : Trie) (rp : path) : Trie :=
  match node_at r (rev rp) with
  | None => r
  | Some node =>
      let drop := match TPool node with Some l => isEmpty l | None => false end in
      let r1 := if drop then update_at (set_pool None) r (rev rp) else r in
      let pool' := if drop then None else TPool node in
      match rp with
      | [] => r1
      | _ :: rp' =>
          if bool_decide (pool' ≠ None) || negb (isLeaf node) then r1
          else Snip isEmpty (update_at (delete_child (Segment node)) r1 (rev rp')) rp'
      end
  end.

(** [ToPath] of the node at a non-empty path; on the root the source
    dereferences a nil [Parent]. *)
Fixpoint ToPath_rev (rp : path) : string :=
  match rp with
  | [] => EmptyString
  | [s] => s
  | s :: rp' => ToPath_rev rp' +:+ "/" +:+ s
  end.
Definition ToPath (p : path) : result string :=
  match p with
  | [] => Panic "nil pointer dereference"
  | _ => Ok (ToPath_rev (rev p))
  end.

(** [toMap]: the key of a node is built from the segments on its path. *)
Definition newseg (segment s : string) : string :=
  if bool_decide (segment = EmptyString) then segment +:+ s else segment +:+ "/" +:+ s.
Definition ToMap (r : Trie) : gmap string loc :=
  list_to_map (rev ((λ '(p, l), (fold_left newseg p (Segment r), l)) <$> EachNodeWithPool r)).

(** All nodes in the order [PruneDeadLeaves] visits them: a leaf it meets is
    snipped, which may remove ancestors that have no other child. *)
Fixpoint all_paths (r : Trie) : list path :=
  [] :: map_fold (λ s child acc, ((s ::.) <$> all_paths child) ++ acc) [] (ChildNodes r).

Definition PruneDeadLeaves (isEmpty : loc → bool) (r : Trie) : Trie :=
  fold_left (λ t p,
      match node_at t p with
      | Some node => if isLeaf node then Snip isEmpty t (rev p) else t
      | None => t
      end) (all_paths r) r.

(** ** The trie as a map from paths to pools *)
Definition segments (uri : Uri) : path := Split "/" (uri_key uri).

Definition pool_at (t : Trie) (p : path) : option loc :=
  match node_at t p with Some n => TPool n | None => None end.

Lemma segments_not_nil uri : segments uri ≠ [].
Proof. apply Split_not_nil. Qed.

#[export] Hint Resolve segments_not_nil : go.

Lemma Split_parts key :
  Split "/" key = match parts key with
                  | [s] => [s]
                  | s :: key' :: _ => s :: Split "/" key'
                  | [] => []
                  end.
Proof. unfold parts, SplitN2. rewrite Split_cut. by destruct (cut "/" key) as [[]|]. Qed.

Lemma parts_cases key :
  (parts key = [key] ∧ Split "/" key = [key]) ∨
  ∃ s key', parts key = [s; key'] ∧ Split "/" key = s :: Split "/" key'
            ∧ String.length key' < String.length key.
Proof.
  unfold parts, SplitN2. rewrite Split_cut.
  destruct (cut "/" key) as [[s key']|] eqn:E; [right|by left].
  eauto 6 using cut_length.
Qed.

(** Case analysis on the two outcomes of [parts], in every loop proof. *)
Tactic Notation "case_parts" constr(key) ident(sg) ident(ky) :=
  let Hp := fresh "Hp" in let Hs := fresh "Hs" in
  destruct (parts_cases key) as [[Hp Hs]|(sg & ky & Hp & Hs & ?)]; rewrite Hp, Hs; simpl.

Lemma Find_loop_segments fuel node key :
  String.length key < fuel → Find_loop fuel node key = pool_at node (Split "/" key).
Proof.
  revert node key. induction fuel as [|fuel IH]; intros node key Hf; [lia|]; simpl.
  unfold pool_at in *. case_parts key sg ky; destruct (ChildNodes node !! _); try done.
  rewrite IH by lia. done.
Qed.

Lemma Find_segments t uri : Find t uri = pool_at t (segments uri).
Proof. apply Find_loop_segments. lia. Qed.

Fixpoint insert_path (t : Trie) (p : path) (v : loc) : Trie :=
  match p with
  | [] => set_pool (Some v) t
  | s :: p' =>
      let c := match ChildNodes t !! s with Some c => c | None => mkTrie s None ∅ end in
      set_children (<[s := insert_path c p' v]> (ChildNodes t)) t
  end.

Lemma Insert_loop_segments fuel node key v :
  String.length key < fuel → Insert_loop fuel node key v = insert_path node (Split "/" key) v.
Proof.
  revert node key. induction fuel as [|fuel IH]; intros node key Hf; [lia|]; simpl.
  case_parts key sg ky; [done|]. by rewrite IH by lia.
Qed.

Lemma Insert_segments t uri v : Insert t uri v = insert_path t (segments uri) v.
Proof. apply Insert_loop_segments. lia. Qed.

Lemma node_at_app t p q :
  node_at t (p ++ q) = match node_at t p with Some n => node_at n q | None => None end.
Proof.
  revert t. induction p as [|s p IH]; intros t; simpl; [done|].
  by destruct (ChildNodes t !! s).
Qed.

Lemma pool_at_app t p q :
  pool_at t (p ++ q) = match node_at t p with Some n => pool_at n q | None => None end.
Proof. unfold pool_at. rewrite node_at_app. by destruct (node_at t p). Qed.

Lemma pool_at_cons t s p :
  pool_at t (s :: p) = match ChildNodes t !! s with Some c => pool_at c p | None => None end.
Proof. unfold pool_at. simpl. by destruct (ChildNodes t !! s). Qed.

Lemma pool_at_empty s p : pool_at (mkTrie s None ∅) p = None.
Proof. destruct p; [done|]. by rewrite pool_at_cons. Qed.

Lemma pool_at_insert_path t p v q :
  pool_at (insert_path t p v) q = if decide (q = p) then Some v else pool_at t q.
Proof.
  revert t q. induction p as [|s p IH]; intros t q.
  - destruct q as [|k q]; simpl; [done|]. by rewrite !pool_at_cons.
  - destruct q as [|k q]; [done|]. rewrite !pool_at_cons; simpl.
    destruct (decide (s = k)) as [<-|Hk].
    + rewrite lookup_insert_eq, IH.
      destruct (ChildNodes t !! s); [|rewrite pool_at_empty];
        repeat case_decide; naive_solver.
    + rewrite lookup_insert_ne by done. case_decide; naive_solver.
Qed.

(** ** Longest match *)
Fixpoint best (t : Trie) (p : path) : option loc :=
  match p with
  | [] => None
  | s :: p' =>
      match ChildNodes t !! s with
      | None => None
      | Some c => match best c p' with Some l => Some l | None => TPool c end
      end
  end.

Lemma MatchUri_loop_best fuel node last key :
  String.length key < fuel → (last = TPool node ∨ TPool node = None) →
  MatchUri_loop fuel node last key =
    match best node (Split "/" key) with Some l => Some l | None => last end.
Proof.
  revert node last key. induction fuel as [|fuel IH]; intros node last key Hf Hl; [lia|]; simpl.
  case_parts key sg ky; destruct (ChildNodes node !! _) as [c|].
  - by destruct (TPool c).
  - destruct Hl as [->| ->]; [by destruct (TPool node)|done].
  - rewrite IH; [|lia|destruct (TPool c); auto].
    destruct (best c _); [done|]. by destruct (TPool c).
  - destruct Hl as [->| ->]; [by destruct (TPool node)|done].
Qed.

Lemma MatchUri_best t uri :
  TPool t = None → MatchUri t uri = best t (segments uri).
Proof.
  intros Ht. unfold MatchUri. rewrite MatchUri_loop_best; [|lia|by right].
  unfold segments. by destruct (best t _).
Qed.

Lemma best_None t p :
  best t p = None ↔ ∀ q r, p = q ++ r → q ≠ [] → pool_at t q = None.
Proof.
  revert t. induction p as [|s p IH]; intros t; simpl.
  { split; [|done]. intros _ q r E Hq. by destruct q. }
  destruct (ChildNodes t !! s) as [c|] eqn:Hs.
  - specialize (IH c). split.
    + intros H q r E Hq. destruct (best c p); [done|]. destruct q as [|k q]; [done|].
      simplify_eq/=. rewrite pool_at_cons, Hs. destruct q as [|k' q]; [done|].
      by eapply IH.
    + intros H. assert (best c p = None) as ->.
      { apply IH. intros q r -> Hq. specialize (H (s :: q) r eq_refl).
        rewrite pool_at_cons, Hs in H. by apply H. }
      specialize (H [s] p eq_refl). rewrite pool_at_cons, Hs in H. by apply H.
  - split; [|done]. intros _ q r E Hq. destruct q as [|k q]; [done|]. simplify_eq/=.
    by rewrite pool_at_cons, Hs.
Qed.

Lemma best_Some t p l :
  best t p = Some l ↔
  ∃ q r, p = q ++ r ∧ q ≠ [] ∧ pool_at t q = Some l ∧
         ∀ r1 r2, r = r1 ++ r2 → r1 ≠ [] → pool_at t (q ++ r1) = None.
Proof.
  revert t l. induction p as [|s p IH]; intros t l; simpl.
  { split; [done|]. intros (q & r & E & Hq & _). by destruct q. }
  destruct (ChildNodes t !! s) as [c|] eqn:Hs.
  2:{ split; [done|]. intros (q & r & E & Hq & Hp & _).
      destruct q as [|k q]; [done|]. simplify_eq/=. by rewrite pool_at_cons, Hs in Hp. }
  assert (∀ x, pool_at t (s :: x) = pool_at c x) as Hc by (intros; by rewrite pool_at_cons, Hs).
  specialize (IH c). destruct (best c p) as [l'|] eqn:Hb.
  - split.
    + intros [= ->]. destruct (proj1 (IH l) eq_refl) as (q & r & -> & Hq & Hp & Hr).
      exists (s :: q), r. split_and!; try done; [by rewrite Hc|].
      intros r1 r2 E Hr1. simpl. rewrite Hc. eauto.
    + intros (q & r & E & Hq & Hp & Hr). destruct q as [|k q]; [done|]. simplify_eq/=.
      rewrite Hc in Hp. apply IH. destruct q as [|k' q].
      * destruct (proj1 (IH l') eq_refl) as (q' & r' & E & Hq' & Hp' & _). simpl in *.
        specialize (Hr q' r' E Hq'). rewrite Hc in Hr. congruence.
      * exists (k' :: q), r. split_and!; try done.
        intros r1 r2 E Hr1. specialize (Hr r1 r2 E Hr1). simpl in Hr. by rewrite Hc in Hr.
  - rewrite best_None in Hb. split.
    + intros Hl. exists [s], p. split_and!; try done; [by rewrite Hc|].
      intros r1 r2 E Hr1. simpl. rewrite Hc. eauto.
    + intros (q & r & E & Hq & Hp & Hr). destruct q as [|k q]; [done|]. simplify_eq/=.
      rewrite Hc in Hp. destruct q as [|k' q]; [done|]. exfalso.
      specialize (Hb (k' :: q) r eq_refl). naive_solver.
Qed.

(** ** Writing through a path *)
Lemma node_at_update f t p q n :
  node_at t p = Some n → node_at (update_at f t p) (p ++ q) = node_at (f n) q.
Proof.
  revert t. induction p as [|s p IH]; intros t Hn; simpl in *; [by simplify_eq|].
  destruct (ChildNodes t !! s) as [c|] eqn:Hs; [|done].
  simpl. rewrite lookup_insert_eq. by apply IH.
Qed.

Lemma pool_at_update_here f t p q n :
  node_at t p = Some n → pool_at (update_at f t p) (p ++ q) = pool_at (f n) q.
Proof. intros Hn. unfold pool_at. by rewrite (node_at_update _ _ _ _ n). Qed.

Lemma pool_at_update_other f t p q :
  ¬ p `prefix_of` q → pool_at (update_at f t p) q = pool_at t q.
Proof.
  revert t q. induction p as [|s p IH]; intros t q Hpq; [destruct Hpq; apply prefix_nil|].
  destruct q as [|k q]; simpl.
  { by destruct (ChildNodes t !! s). }
  destruct (ChildNodes t !! s) as [c|] eqn:Hs; [|done].
  rewrite !pool_at_cons; simpl. destruct (decide (s = k)) as [<-|Hk].
  - rewrite lookup_insert_eq, Hs. apply IH. intros ?. apply Hpq. by apply prefix_cons.
  - by rewrite lookup_insert_ne.
Qed.

Lemma node_at_update_sub f t p q n :
  (∀ m k c, ChildNodes (f m) !! k = Some c → ChildNodes m !! k = Some c) →
  node_at (update_at f t p) q = Some n → ∃ n', node_at t q = Some n'.
Proof.
  intros Hf. revert t q. induction p as [|s p IH]; intros t q; simpl.
  - destruct q as [|k q]; [eauto|]. simpl.
    destruct (ChildNodes (f t) !! k) eqn:E; [|done]. apply Hf in E as ->. eauto.
  - destruct (ChildNodes t !! s) as [c|] eqn:Hs; [|eauto].
    destruct q as [|k q]; simpl; [eauto|].
    destruct (decide (s = k)) as [<-|Hk].
    + rewrite lookup_insert_eq, Hs. eauto.
    + rewrite lookup_insert_ne by done. eauto.
Qed.

Lemma pool_at_set_pool t p n q :
  node_at t p = Some n →
  pool_at (update_at (set_pool None) t p) q = if decide (q = p) then None else pool_at t q.
Proof.
  intros Hn. destruct (decide (p `prefix_of` q)) as [[r ->]|Hpq].
  - rewrite (pool_at_update_here _ _ _ _ n), pool_at_app, Hn by done.
    destruct r as [|k r].
    + rewrite app_nil_r. by rewrite decide_True.
    + rewrite !pool_at_cons. rewrite decide_False; [done|]. intros E. apply (f_equal length) in E.
      rewrite length_app in E. simpl in E. lia.
  - rewrite pool_at_update_other by done. rewrite decide_False; [done|]. by intros ->.
Qed.

Lemma pool_at_delete_child t p n s q :
  node_at t p = Some n →
  pool_at (update_at (delete_child s) t p) q =
    if decide ((p ++ [s]) `prefix_of` q) then None else pool_at t q.
Proof.
  intros Hn. destruct (decide (p `prefix_of` q)) as [[r ->]|Hpq].
  - rewrite (pool_at_update_here _ _ _ _ n), pool_at_app, Hn by done.
    destruct r as [|k r].
    + rewrite app_nil_r, decide_False; [done|]. intros [x E]. apply (f_equal length) in E.
      rewrite !length_app in E. simpl in E. lia.
    + rewrite !pool_at_cons; simpl. destruct (decide (s = k)) as [<-|Hk].
      * rewrite lookup_delete_eq. rewrite decide_True; [done|]. exists r. by rewrite <-app_assoc.
      * rewrite lookup_delete_ne by done. rewrite decide_False; [done|].
        intros [x E]. rewrite <-app_assoc in E. by simplify_list_eq.
  - rewrite pool_at_update_other by done. rewrite decide_False; [done|].
    intros [x ->]. apply Hpq. rewrite <-app_assoc. by apply prefix_app_r.
Qed.

(** ** Well-formed tries *)

(** The [Segment] of a node is the key it is stored under. *)
Definition segs_ok (t : Trie) : Prop :=
  ∀ p k c, node_at t (p ++ [k]) = Some c → Segment c = k.

(** No dead branch: below every node except the root there is a pool. *)
Definition no_dead (t : Trie) : Prop :=
  ∀ p n, p ≠ [] → node_at t p = Some n → ∃ q l, pool_at t (p ++ q) = Some l.

(** [dead n]: no pool at or below [n]. *)
Definition dead (n : Trie) : Prop := ∀ q, pool_at n q = None.

(** The root holds no pool and has the empty segment. *)
Definition root_ok (t : Trie) : Prop := TPool t = None ∧ Segment t = EmptyString.

Record trie_wf (t : Trie) : Prop := {
  wf_root : root_ok t;
  wf_segs : segs_ok t;
  wf_live : no_dead t
}.

Lemma segs_ok_child t s c : segs_ok t → ChildNodes t !! s = Some c → segs_ok c.
Proof.
  intros H Hs p k d Hd. apply (H (s :: p) k d). simpl. by rewrite Hs.
Qed.

Lemma segs_ok_here t s c : segs_ok t → ChildNodes t !! s = Some c → Segment c = s.
Proof. intros H Hs. apply (H [] s c). simpl. by rewrite Hs. Qed.

Lemma segs_ok_update f t p :
  (∀ m, Segment (f m) = Segment m) →
  (∀ m k c, ChildNodes (f m) !! k = Some c → ChildNodes m !! k = Some c) →
  segs_ok t → segs_ok (update_at f t p).
Proof.
  intros Hf1 Hf2. revert t. induction p as [|s p IH]; intros t Ht q k c; simpl.
  - destruct q as [|x q]; simpl.
    + destruct (ChildNodes (f t) !! k) eqn:E; [|done]. intros [= <-].
      apply (Ht [] k). simpl. by rewrite (Hf2 _ _ _ E).
    + destruct (ChildNodes (f t) !! x) eqn:E; [|done]. intros Hc.
      apply (Ht (x :: q) k). simpl. by rewrite (Hf2 _ _ _ E).
  - destruct (ChildNodes t !! s) as [d|] eqn:Hs; [|apply Ht].
    assert (Segment (update_at f d p) = s) as Hseg.
    { rewrite <-(segs_ok_here t s d Ht Hs). destruct p as [|x p]; simpl; [done|].
      by destruct (ChildNodes d !! x). }
    destruct q as [|x q]; simpl.
    + destruct (decide (s = k)) as [<-|Hk].
      * rewrite lookup_insert_eq. by intros [= <-].
      * rewrite lookup_insert_ne by done. destruct (ChildNodes t !! k) eqn:E; [|done].
        intros [= <-]. by apply segs_ok_here with t.
    + destruct (decide (s = x)) as [<-|Hk].
      * rewrite lookup_insert_eq. apply IH. by eapply segs_ok_child.
      * rewrite lookup_insert_ne by done. intros Hc. apply (Ht (x :: q) k). done.
Qed.

Lemma segs_ok_insert t p v : segs_ok t → segs_ok (insert_path t p v).
Proof.
  assert (∀ s, segs_ok (mkTrie s None ∅)) as Hempty.
  { intros s [|x q] k c; simpl; by rewrite lookup_empty. }
  revert t. induction p as [|s p IH]; intros t Ht q k c; simpl.
  { destruct q; apply (Ht (_ :: _)) || apply (Ht []). }
  set (d := match ChildNodes t !! s with Some c => c | None => _ end).
  assert (segs_ok d ∧ Segment d = s) as [Hd Hds].
  { subst d. destruct (ChildNodes t !! s) eqn:Hs; [|done].
    split; [by eapply segs_ok_child|by eapply segs_ok_here]. }
  assert (Segment (insert_path d p v) = s) as Hseg by (by destruct p).
  destruct q as [|x q]; simpl.
  - destruct (decide (s = k)) as [<-|Hk].
    + rewrite lookup_insert_eq. by intros [= <-].
    + rewrite lookup_insert_ne by done. apply (Ht [] k).
  - destruct (decide (s = x)) as [<-|Hk].
    + rewrite lookup_insert_eq. by apply IH.
    + rewrite lookup_insert_ne by done. apply (Ht (x :: q) k).
Qed.

Lemma node_at_insert t p v q n :
  node_at (insert_path t p v) q = Some n → q `prefix_of` p ∨ ∃ n', node_at t q = Some n'.
Proof.
  revert t q. induction p as [|s p IH]; intros t q; simpl.
  - destruct q as [|k q]; [left; apply prefix_nil|]. simpl. eauto.
  - destruct q as [|k q]; [left; apply prefix_nil|]. simpl.
    destruct (decide (s = k)) as [<-|Hk].
    + rewrite lookup_insert_eq. intros [?|[n' Hn]]%IH; [left; by apply prefix_cons|].
      destruct (ChildNodes t !! s); [eauto|]. destruct q as [|x q]; simpl in Hn.
      * left. apply prefix_cons, prefix_nil.
      * by rewrite lookup_empty in Hn.
    + rewrite lookup_insert_ne by done. eauto.
Qed.

Lemma insert_path_wf t p v : p ≠ [] → trie_wf t → trie_wf (insert_path t p v).
Proof.
  intros Hp [H1 H2 H3]. split; [by destruct p|by apply segs_ok_insert|].
  intros q n Hq Hn.
  destruct (node_at_insert _ _ _ _ _ Hn) as [[r ->]|[n' Hn']].
  - exists r, v. rewrite pool_at_insert_path. by rewrite decide_True.
  - destruct (H3 q n' Hq Hn') as (r & l & Hr).
    exists r. rewrite pool_at_insert_path. case_decide; eauto.
Qed.

(** ** Deletion *)
Lemma Delete_walk_segments fuel node key n :
  String.length key < fuel → node_at node (Split "/" key) = Some n →
  Delete_walk fuel node key = Ok (Split "/" key).
Proof.
  revert node key. induction fuel as [|fuel IH]; intros node key Hf; [lia|].
  cbn [Delete_walk]. case_parts key sg ky; destruct (ChildNodes node !! _); try done.
  intros Hn. by rewrite IH by (done || lia).
Qed.

Lemma Delete_walk_missing fuel node key :
  String.length key < fuel → node_at node (Split "/" key) = None →
  ∃ w : string, Delete_walk fuel node key = Panic w.
Proof.
  revert node key. induction fuel as [|fuel IH]; intros node key Hf; [lia|].
  cbn [Delete_walk]. case_parts key sg ky; destruct (ChildNodes node !! _); try by eauto.
  intros Hn. destruct (IH t ky) as [w ->]; [lia|done|]. by exists w.
Qed.

(** A node that [deleteEmptyNodes] may remove, resp. must keep. *)
Definition thin (n : Trie) : Prop := TPool n = None ∧ size (ChildNodes n) < 2.
Definition thick (n : Trie) : Prop := TPool n ≠ None ∨ 2 ≤ size (ChildNodes n).

(** Loop invariant of [deleteEmptyNodes] at the node with path [here]. *)
Definition del_inv (t : Trie) (here keep : path) (rem : option string) : Prop :=
  (keep = [] ∨ ∃ n, node_at t keep = Some n ∧ thick n) ∧
  match rem with
  | None => keep = here
  | Some s => ∃ m, here = keep ++ s :: m ∧
      ∀ m1 m2 n, m = m1 ++ m2 → node_at t (keep ++ s :: m1) = Some n → thin n
  end.

Lemma del_inv_step t here keep rem s c :
  segs_ok t → node_at t (here ++ [s]) = Some c →
  del_inv t here keep rem →
  let '(keep', rem') := deleteEmptyNodes_step keep rem (here ++ [s]) c in
  del_inv t (here ++ [s]) keep' rem'.
Proof.
  intros Hseg Hc [Hk Hrem]. unfold deleteEmptyNodes_step. pose proof (Hseg _ _ _ Hc) as Hs.
  destruct (bool_decide (TPool c = None)) eqn:Hp; simpl;
    [apply bool_decide_eq_true in Hp|apply bool_decide_eq_false in Hp].
  - rewrite andb_true_r.
    destruct (Nat.ltb_spec (size (ChildNodes c)) 2) as [Hn|Hn].
    + assert (thin c) as Hthin by done.
      rewrite (proj2 (Nat.ltb_ge 1 _)) by lia. rewrite andb_true_r. case_bool_decide as Hr.
      * subst rem keep. split; [done|]. exists []. rewrite Hs. split; [done|].
        intros m1 m2 n E Hn1. destruct m1; [|done]. congruence.
      * destruct rem as [s0|]; [|done]. split; [done|].
        destruct Hrem as (m & -> & Hm). exists (m ++ [s]). rewrite <-app_assoc. split; [done|].
        intros m1 m2 n E Hn1. destruct m2 as [|x m2 _] using rev_ind.
        { rewrite app_nil_r in E. subst m1. rewrite <-app_assoc in Hc. simpl in Hc. congruence. }
        rewrite app_assoc in E. apply app_inj_tail in E as [-> _]. by eapply Hm.
    + rewrite andb_false_r. rewrite (proj2 (Nat.ltb_lt 1 _)) by lia.
      split; [|done]. right. exists c. split; [done|]. right. lia.
  - rewrite andb_false_r. simpl. split; [|done]. right. exists c. split; [done|]. by left.
Qed.

Lemma deleteEmptyNodes_loop_inv t fuel node key here keep rem n :
  segs_ok t → node_at t here = Some node →
  String.length key < fuel → node_at node (Split "/" key) = Some n →
  del_inv t here keep rem →
  ∃ keep' rem', deleteEmptyNodes_loop fuel node key here keep rem = Ok (n, keep', rem')
                ∧ del_inv t (here ++ Split "/" key) keep' rem'.
Proof.
  intros Hseg. revert node key here keep rem.
  induction fuel as [|fuel IH]; intros node key here keep rem Hh Hf Hn Hinv; [lia|].
  cbn [deleteEmptyNodes_loop]. revert Hn. case_parts key sg ky.
  - destruct (ChildNodes node !! key) as [c|] eqn:Hc; [|done]. intros [= ->].
    assert (node_at t (here ++ [key]) = Some n) as Hc'.
    { rewrite node_at_app, Hh. simpl. by rewrite Hc. }
    pose proof (del_inv_step t here keep rem key n Hseg Hc' Hinv) as Hstep.
    destruct (deleteEmptyNodes_step _ _ _ _) as [keep' rem']. eauto.
  - destruct (ChildNodes node !! sg) as [c|] eqn:Hc; [|done]. intros Hn.
    assert (node_at t (here ++ [sg]) = Some c) as Hc'.
    { rewrite node_at_app, Hh. simpl. by rewrite Hc. }
    pose proof (del_inv_step t here keep rem sg c Hseg Hc' Hinv) as Hstep.
    destruct (deleteEmptyNodes_step _ _ _ _) as [keep' rem'].
    destruct (IH c ky (here ++ [sg]) keep' rem' Hc') as (k2 & r2 & -> & H2); [lia|done..|].
    rewrite <-app_assoc in H2. eauto.
Qed.

(** A chain of thin nodes that ends in a thin leaf holds no pool. *)
Lemma thin_chain_dead d m leaf :
  node_at d m = Some leaf → size (ChildNodes leaf) = 0 →
  (∀ m1 m2 n, m = m1 ++ m2 → node_at d m1 = Some n → thin n) → dead d.
Proof.
  revert d. induction m as [|s m IH]; intros d Hd Hl Hthin q.
  - simplify_eq/=. destruct (Hthin [] [] leaf eq_refl eq_refl) as [Hp _].
    destruct q as [|k q]; [done|]. apply map_size_empty_inv in Hl.
    by rewrite pool_at_cons, Hl.
  - destruct (Hthin [] (s :: m) d eq_refl eq_refl) as [Hp Hsz].
    destruct q as [|k q]; [done|]. simpl in Hd. rewrite pool_at_cons.
    destruct (ChildNodes d !! s) as [c|] eqn:Hc; [|done].
    destruct (decide (s = k)) as [<-|Hk].
    + rewrite Hc. apply IH; [done..|]. intros m1 m2 n -> Hn.
      apply (Hthin (s :: m1) m2); [done|]. simpl. by rewrite Hc.
    + destruct (ChildNodes d !! k) as [c'|] eqn:Hc'; [|done]. exfalso.
      rewrite <-(insert_delete_id (ChildNodes d) s c Hc) in Hsz.
      rewrite map_size_insert_None in Hsz by (by rewrite lookup_delete_eq).
      assert (size (delete s (ChildNodes d)) = 0) as Hz by lia.
      apply map_size_empty_inv in Hz.
      assert (delete s (ChildNodes d) !! k = Some c') as Hx by (by rewrite lookup_delete_ne).
      by rewrite Hz in Hx.
Qed.

Lemma TPool_update f t p :
  (p = [] → TPool (f t) = TPool t) → TPool (update_at f t p) = TPool t.
Proof. destruct p as [|s p]; simpl; [auto|]. by destruct (ChildNodes t !! s). Qed.

Lemma Segment_update f t p :
  (p = [] → Segment (f t) = Segment t) → Segment (update_at f t p) = Segment t.
Proof. destruct p as [|s p]; simpl; [auto|]. by destruct (ChildNodes t !! s). Qed.

Lemma root_ok_update f t p :
  (p = [] → TPool (f t) = TPool t ∧ Segment (f t) = Segment t) → root_ok t → root_ok (update_at f t p).
Proof. intros Hf [H1 H2]. split; [rewrite TPool_update|rewrite Segment_update]; naive_solver. Qed.

Lemma other_key {V} (m : gmap string V) s : 2 ≤ size m → ∃ k v, k ≠ s ∧ m !! k = Some v.
Proof.
  intros Hm. destruct (decide (delete s m = ∅)) as [E|(k & v & Hk)%map_choose].
  - exfalso. destruct (m !! s) as [v|] eqn:Hs.
    + rewrite <-(insert_delete_id m s v Hs), E, insert_empty, map_size_singleton in Hm. lia.
    + rewrite delete_id in E by done. subst. rewrite map_size_empty in Hm. lia.
  - apply lookup_delete_Some in Hk as [? ?]. eauto.
Qed.

Lemma node_at_delete_child t p s q :
  (p ++ [s]) `prefix_of` q → node_at t p ≠ None →
  node_at (update_at (delete_child s) t p) q = None.
Proof.
  intros [r ->] Hp. destruct (node_at t p) as [n|] eqn:Hn; [|done].
  rewrite <-app_assoc, (node_at_update _ _ _ _ n) by done. simpl.
  by rewrite lookup_delete_eq.
Qed.

Lemma ChildNodes_delete_child s n k c :
  ChildNodes (delete_child s n) !! k = Some c → ChildNodes n !! k = Some c.
Proof. simpl. by intros [_ ?]%lookup_delete_Some. Qed.

(** What emptying the pool of a path [p] and then dropping a dead child [s] of
    a kept ancestor [keep] does to the invariant: the common core of
    [Delete] and [Snip]. *)
Lemma cut_branch_wf t1 keep s m :
  root_ok t1 → segs_ok t1 →
  (keep = [] ∨ ∃ n, node_at t1 keep = Some n ∧ thick n) →
  (∃ d, node_at t1 (keep ++ [s]) = Some d ∧ dead d) →
  (∀ q n, q ≠ [] → node_at t1 q = Some n →
     (∃ r l, pool_at t1 (q ++ r) = Some l) ∨ ∃ r, keep ++ s :: m = q ++ r) →
  let t2 := update_at (delete_child s) t1 keep in
  trie_wf t2 ∧ ∀ q, pool_at t2 q = pool_at t1 q.
Proof.
  intros Hroot Hseg Hkeep (d & Hd & Hdead) Hlive t2.
  assert (∃ nk, node_at t1 keep = Some nk) as [nk Hnk].
  { rewrite node_at_app in Hd. destruct (node_at t1 keep); [eauto|done]. }
  assert (∀ q, pool_at t2 q = pool_at t1 q) as Hpool.
  { intros q. unfold t2. rewrite (pool_at_delete_child _ _ nk) by done.
    case_decide as Hq; [|done]. destruct Hq as [r ->].
    rewrite pool_at_app, Hd. by rewrite Hdead. }
  split; [|done]. split.
  - by apply root_ok_update.
  - apply segs_ok_update; eauto using ChildNodes_delete_child.
  - intros q n Hq Hn. setoid_rewrite Hpool.
    destruct (node_at_update_sub (delete_child s) t1 keep q n) as [n' Hn'];
      [eauto using ChildNodes_delete_child|done|].
    destruct (Hlive q n' Hq Hn') as [?|[r Hr]]; [done|].
    assert (∃ r', keep = q ++ r') as [r' ->].
    { destruct (decide ((keep ++ [s]) `prefix_of` q)) as [Hpre|Hpre].
      - unfold t2 in Hn. by rewrite node_at_delete_child in Hn by (done || congruence).
      - destruct (prefix_weak_total q keep (keep ++ s :: m)) as [[x ->]|[x ->]];
          [by exists r|by apply prefix_app_r|by exists x|].
        destruct x as [|a x]; [exists []; by rewrite !app_nil_r|].
        rewrite <-app_assoc in Hr. simplify_list_eq. destruct Hpre. exists x.
        by rewrite <-app_assoc. }
    destruct Hkeep as [E|(n2 & Hn2 & [Hthick|Hthick])].
    + destruct q; [done|]. by destruct r'.
    + exists r'. unfold pool_at. rewrite Hn2. by destruct (TPool n2); [eauto|].
    + apply (other_key _ s) in Hthick as (k & c & Hks & Hkc).
      assert (node_at t1 ((q ++ r') ++ [k]) = Some c) as Hc.
      { rewrite node_at_app, Hn2. simpl. by rewrite Hkc. }
      destruct (Hlive ((q ++ r') ++ [k]) c) as [(x & l & Hx)|[x Hx]];
        [by destruct (q ++ r')|done|..].
      * exists (r' ++ k :: x), l. rewrite <-Hx. f_equal. by rewrite <-!app_assoc.
      * exfalso. rewrite <-app_assoc in Hx. simplify_list_eq.
Qed.

(** What [Delete] does to a path that holds a pool: the pool of that path is
    gone, every other pool is untouched, and the trie stays well-formed. *)
(** Where only the nodes on the path to [p] may be dead, and [p] has children,
    none is. *)
Lemma inner_live t p n :
  node_at t p = Some n → size (ChildNodes n) ≠ 0 →
  (∀ q m, q ≠ [] → node_at t q = Some m → (∃ r l, pool_at t (q ++ r) = Some l) ∨ q `prefix_of` p) →
  ∀ q m, q ≠ [] → node_at t q = Some m → ∃ r l, pool_at t (q ++ r) = Some l.
Proof.
  intros Hn Hsz Hlive q m Hq Hm. destruct (Hlive q m Hq Hm) as [?|[r ->]]; [done|].
  destruct (decide (ChildNodes n = ∅)) as [E|(k & c & Hk)%map_choose]; [by rewrite E, map_size_empty in Hsz|].
  destruct (Hlive ((q ++ r) ++ [k]) c) as [(x & l & Hx)|Hpre].
  - by destruct (q ++ r).
  - rewrite node_at_app, Hn. simpl. by rewrite Hk.
  - exists (r ++ k :: x), l. rewrite <-Hx. f_equal. by rewrite <-!app_assoc.
  - by apply prefix_snoc_not in Hpre.
Qed.

(** Without its pool, a node and those on the path to it may be dead. *)
Lemma cleared_live t p n q m :
  trie_wf t → node_at t p = Some n → q ≠ [] → node_at (update_at (set_pool None) t p) q = Some m →
  (∃ r l, pool_at (update_at (set_pool None) t p) (q ++ r) = Some l) ∨ q `prefix_of` p.
Proof.
  intros Hwf Hn Hq Hm. apply node_at_update_sub in Hm as [m' Hm]; [|done].
  destruct (wf_live t Hwf q m' Hq Hm) as (r & l & Hr).
  destruct (decide (q ++ r = p)) as [<-|Hne]; [by right; exists r|left].
  exists r, l. by rewrite (pool_at_set_pool _ _ n), decide_False.
Qed.

Lemma Delete_spec t uri l :
  trie_wf t → pool_at t (segments uri) = Some l →
  ∃ t', Delete t uri = Ok (t', true) ∧ trie_wf t' ∧
        ∀ q, pool_at t' q = if decide (q = segments uri) then None else pool_at t q.
Proof.
  intros Hwf Hl. set (p := segments uri) in *.
  assert (p ≠ []) as Hp by apply segments_not_nil.
  destruct (node_at t p) as [n|] eqn:Hn; [|by unfold pool_at in Hl; rewrite Hn in Hl].
  set (t1 := update_at (set_pool None) t p).
  assert (∀ q, pool_at t1 q = if decide (q = p) then None else pool_at t q) as Hpool.
  { intros q. by apply pool_at_set_pool with n. }
  assert (node_at t1 p = Some (set_pool None n)) as Hn1.
  { rewrite <-(app_nil_r p). unfold t1. by rewrite (node_at_update _ _ _ _ n). }
  assert (segs_ok t1) as Hseg1 by (by apply segs_ok_update, wf_segs).
  assert (root_ok t1) as Hroot1.
  { apply root_ok_update; [done|by apply wf_root]. }
  assert (∀ q m, q ≠ [] → node_at t1 q = Some m →
    (∃ r l', pool_at t1 (q ++ r) = Some l') ∨ q `prefix_of` p) as Hlive1 by (intros q m; by apply cleared_live with n).
  unfold Delete. rewrite (Delete_walk_segments _ _ _ n) by (lia || done). simpl.
  fold (segments uri) p t1. unfold deleteEmptyNodes.
  destruct (deleteEmptyNodes_loop_inv t1 (S (String.length (uri_key uri))) t1 (uri_key uri)
    [] [] None (set_pool None n)) as (keep & rem & -> & [Hkeep Hrem]); [done..|lia|done| |].
  { split; [by left|done]. }
  fold (segments uri) p in Hrem. simpl in Hrem. simpl.
  destruct (isLeaf (set_pool None n)) eqn:Hleaf;
    [apply bool_decide_eq_true in Hleaf|apply bool_decide_eq_false in Hleaf]; simpl in Hleaf.
  - destruct rem as [s|].
    + destruct Hrem as (m & Hpm & Hthin). simpl.
      assert (∃ d, node_at t1 (keep ++ [s]) = Some d ∧ node_at d m = Some (set_pool None n))
        as (d & Hd & Hdm).
      { rewrite Hpm in Hn1. change (s :: m) with ([s] ++ m) in Hn1.
        rewrite app_assoc, node_at_app in Hn1. destruct (node_at t1 (keep ++ [s])); [eauto|done]. }
      destruct (cut_branch_wf t1 keep s m) as [Hwf2 Hpool2]; [done..| | |].
      * exists d. split; [done|]. apply thin_chain_dead with m (set_pool None n); [done..|].
        intros m1 m2 n1 -> Hn3. apply (Hthin m1 m2); [done|].
        change (s :: m1) with ([s] ++ m1). by rewrite app_assoc, node_at_app, Hd.
      * intros q n1. rewrite <-Hpm. apply Hlive1.
      * eexists. split_and!; [done|done|]. intros q. by rewrite Hpool2.
    + exfalso. subst keep. destruct Hkeep as [?|(n1 & ? & [?|?])]; [done|..];
        simplify_eq/=; lia.
  - eexists. split_and!; [done| |done]. split; [done..|]. exact (inner_live t1 p (set_pool None n) Hn1 Hleaf Hlive1).
Qed.

(** ** Snip *)

(** Climbing: every node outside the path is live and no pool on the path is
    empty; [Snip] removes the dead tail of the path and nothing else. *)
Lemma Snip_climb isEmpty t rp :
  root_ok t → segs_ok t → node_at t (rev rp) ≠ None →
  (∀ q n, q ≠ [] → node_at t q = Some n →
     (∃ r l, pool_at t (q ++ r) = Some l) ∨ q `prefix_of` rev rp) →
  (∀ q l, q `prefix_of` rev rp → pool_at t q = Some l → isEmpty l = false) →
  trie_wf (Snip isEmpty t rp) ∧ ∀ q, pool_at (Snip isEmpty t rp) q = pool_at t q.
Proof.
  revert t. induction rp as [|s rp IH]; intros t Hroot Hseg Hex Hlive Hne; simpl Snip.
  - simpl. rewrite (proj1 Hroot). split; [|done]. split; [done..|].
    intros q n Hq Hn. destruct (Hlive q n Hq Hn) as [?|E]; [done|].
    by apply prefix_nil_inv in E.
  - simpl in *. destruct (node_at t (rev rp ++ [s])) as [n|] eqn:Hn; [|done].
    assert ((match TPool n with Some l => isEmpty l | None => false end) = false) as ->.
    { destruct (TPool n) as [l|] eqn:Hl; [|done]. apply (Hne (rev rp ++ [s])); [done|].
      unfold pool_at. by rewrite Hn. }
    rewrite (Hseg _ _ _ Hn).
    destruct (bool_decide (TPool n ≠ None)) eqn:Hp;
      [apply bool_decide_eq_true in Hp|apply bool_decide_eq_false in Hp]; simpl.
    { split; [|done]. split; [done..|]. intros q m Hq Hm.
      destruct (Hlive q m Hq Hm) as [?|[r E]]; [done|].
      destruct (TPool n) as [l|] eqn:Hl; [|done]. exists r, l.
      unfold pool_at. by rewrite <-E, Hn. }
    destruct (isLeaf n) eqn:Hleaf; simpl;
      [apply bool_decide_eq_true in Hleaf|apply bool_decide_eq_false in Hleaf].
    2:{ split; [|done]. split; [done..|]. exact (inner_live t (rev rp ++ [s]) n Hn Hleaf Hlive). }
    assert (dead n) as Hdead.
    { destruct (TPool n) eqn:E; [by destruct Hp|]. apply map_size_empty_inv in Hleaf.
      intros [|k q]; [done|]. by rewrite pool_at_cons, Hleaf. }
    assert (∃ np, node_at t (rev rp) = Some np) as [np Hnp].
    { rewrite node_at_app in Hn. destruct (node_at t (rev rp)); [eauto|done]. }
    set (t2 := update_at (delete_child s) t (rev rp)).
    assert (∀ q, pool_at t2 q = pool_at t q) as Hpool.
    { intros q. unfold t2. rewrite (pool_at_delete_child _ _ np) by done.
      case_decide as Hq; [|done]. destruct Hq as [r ->]. by rewrite pool_at_app, Hn, Hdead. }
    setoid_rewrite <-Hpool. apply IH.
    + by apply root_ok_update.
    + apply segs_ok_update; eauto using ChildNodes_delete_child.
    + unfold t2. rewrite <-(app_nil_r (rev rp)) at 2. by rewrite (node_at_update _ _ _ _ np).
    + intros q m Hq Hm. setoid_rewrite Hpool.
      destruct (node_at_update_sub (delete_child s) t (rev rp) q m) as [m' Hm'];
        [eauto using ChildNodes_delete_child|done|].
      destruct (Hlive q m' Hq Hm') as [?|[r E]]; [by left|right].
      destruct r as [|a r _] using rev_ind.
      * rewrite app_nil_r in E. subst q. unfold t2 in Hm.
        by rewrite node_at_delete_child in Hm by (done || congruence).
      * rewrite app_assoc in E. apply app_inj_tail in E as [-> _]. by apply prefix_app_r.
    + intros q l Hq. rewrite Hpool. apply Hne. by apply prefix_app_r.
Qed.

(** [Snip] on a node whose pool is not empty changes nothing. *)
Lemma Snip_nonempty isEmpty t p l :
  p ≠ [] → pool_at t p = Some l → isEmpty l = false → Snip isEmpty t (rev p) = t.
Proof.
  intros Hp Hl He. unfold pool_at in Hl. destruct (node_at t p) as [n|] eqn:Hn; [|done].
  destruct p as [|s p _] using rev_ind; [done|].
  rewrite rev_unit. simpl. rewrite rev_involutive, Hn, Hl, He.
  by rewrite bool_decide_eq_true_2.
Qed.

Lemma Snip_drop isEmpty t p n l :
  p ≠ [] → node_at t p = Some n → TPool n = Some l → isEmpty l = true →
  Snip isEmpty t (rev p) = Snip isEmpty (update_at (set_pool None) t p) (rev p).
Proof.
  intros Hp Hn Hl He.
  assert (node_at (update_at (set_pool None) t p) p = Some (set_pool None n)) as Hn1.
  { rewrite <-(app_nil_r p) at 2. by rewrite (node_at_update _ _ _ _ n). }
  destruct p as [|s p _] using rev_ind; [done|].
  rewrite rev_unit. simpl. by rewrite rev_involutive, Hn, Hn1, Hl, He.
Qed.

(** [Snip] on a node whose pool is empty drops that pool and no other. *)
Lemma Snip_empty isEmpty t p l :
  trie_wf t → p ≠ [] → pool_at t p = Some l → isEmpty l = true →
  (∀ q l', q `prefix_of` p → q ≠ p → pool_at t q = Some l' → isEmpty l' = false) →
  trie_wf (Snip isEmpty t (rev p)) ∧
  ∀ q, pool_at (Snip isEmpty t (rev p)) q = if decide (q = p) then None else pool_at t q.
Proof.
  intros [Hroot Hseg Hlive] Hp Hl He Hne.
  destruct (node_at t p) as [n|] eqn:Hn; [|unfold pool_at in Hl; by rewrite Hn in Hl].
  set (t1 := update_at (set_pool None) t p).
  assert (∀ q, pool_at t1 q = if decide (q = p) then None else pool_at t q) as Hpool.
  { intros q. by apply pool_at_set_pool with n. }
  assert (node_at t1 p = Some (set_pool None n)) as Hn1.
  { rewrite <-(app_nil_r p). unfold t1. by rewrite (node_at_update _ _ _ _ n). }
  unfold pool_at in Hl. rewrite Hn in Hl. rewrite (Snip_drop _ _ _ n l) by done. fold t1.
  setoid_rewrite <-Hpool. apply Snip_climb; rewrite ?rev_involutive.
  - by apply root_ok_update.
  - by apply segs_ok_update.
  - by rewrite Hn1.
  - intros q m Hq Hm. apply node_at_update_sub in Hm as [m' Hm]; [|done].
    destruct (Hlive q m' Hq Hm) as (r & l' & Hr).
    destruct (decide (q ++ r = p)) as [<-|?]; [right; by exists r|left].
    exists r, l'. by rewrite Hpool, decide_False.
  - intros q l' Hq. rewrite Hpool. case_decide; [done|]. by apply Hne.
Qed.

(** ** Walking the trie *)
Lemma map_fold_app_Permutation {V A} (f : string → V → list A) (m : gmap string V) :
  map_fold (λ k v acc, f k v ++ acc) [] m ≡ₚ (map_to_list m) ≫= (λ '(k, v), f k v).
Proof.
  induction m as [|k v m Hk Hfold IH] using map_first_key_ind.
  - by rewrite map_fold_empty, map_to_list_empty.
  - rewrite map_fold_insert_first_key by done. rewrite map_to_list_insert by done.
    rewrite bind_cons. by rewrite IH.
Qed.

Fixpoint trie_size (t : Trie) : nat :=
  S (map_fold (λ _ c acc, trie_size c + acc) 0 (ChildNodes t)).

Lemma trie_size_child t k c :
  ChildNodes t !! k = Some c → trie_size c < trie_size t.
Proof.
  intros Hk. destruct t as [s p cs]; simpl in *.
  rewrite (map_fold_delete_L _ _ k c cs) by (try done; intros; lia). lia.
Qed.

Lemma Trie_induction (P : Trie → Prop) :
  (∀ t, (∀ k c, ChildNodes t !! k = Some c → P c) → P t) → ∀ t, P t.
Proof.
  intros H t. induction t as [t IH] using
    (well_founded_induction (Wf_nat.well_founded_ltof _ trie_size)).
  apply H. intros k c Hc. apply IH. unfold Wf_nat.ltof. eauto using trie_size_child.
Qed.

Lemma EachNodeWithPool_unfold t :
  EachNodeWithPool t ≡ₚ
  (match TPool t with Some l => [([], l)] | None => [] end) ++
  (map_to_list (ChildNodes t) ≫= λ '(s, c), (λ '(p, l), (s :: p, l)) <$> EachNodeWithPool c).
Proof. destruct t as [s o cs]. simpl. f_equiv. apply map_fold_app_Permutation. Qed.

Lemma elem_of_EachNodeWithPool t p l :
  (p, l) ∈ EachNodeWithPool t ↔ pool_at t p = Some l.
Proof.
  revert p. induction t as [t IH] using Trie_induction; intros p.
  rewrite EachNodeWithPool_unfold, elem_of_app, list_elem_of_bind.
  destruct p as [|s p].
  - split.
    + intros [H|([s c] & H & _)].
      * destruct (TPool t) eqn:E; [|by apply not_elem_of_nil in H].
        apply list_elem_of_singleton in H. unfold pool_at; simpl. congruence.
      * apply list_elem_of_fmap in H as ([??] & ? & _). done.
    + unfold pool_at; simpl. intros ->. left. by apply list_elem_of_singleton.
  - rewrite pool_at_cons. split.
    + intros [H|([k c] & H & Hk)].
      * destruct (TPool t); [|by apply not_elem_of_nil in H].
        apply list_elem_of_singleton in H. done.
      * apply elem_of_map_to_list in Hk. apply list_elem_of_fmap in H as ([??] & ? & H).
        simplify_eq. rewrite Hk. by eapply IH.
    + destruct (ChildNodes t !! s) as [c|] eqn:Hc; [|done]. intros H. right.
      exists (s, c). rewrite elem_of_map_to_list. split; [|done].
      apply list_elem_of_fmap. exists (p, l). split; [done|]. by eapply IH.
Qed.

Lemma NoDup_EachNodeWithPool t : NoDup (EachNodeWithPool t).*1.
Proof.
  induction t as [t IH] using Trie_induction.
  rewrite EachNodeWithPool_unfold, fmap_app. apply NoDup_app. split_and!.
  - destruct (TPool t); repeat constructor; set_solver.
  - intros p Hp. destruct (TPool t); [|by apply not_elem_of_nil in Hp].
    apply list_elem_of_singleton in Hp as ->. rewrite list_elem_of_fmap.
    intros ([p l] & ? & ([s c] & Hx & _)%list_elem_of_bind).
    apply list_elem_of_fmap in Hx as ([??] & ? & _). by simplify_eq/=.
  - rewrite fmap_bind. apply NoDup_bind.
    + intros [s1 c1] [s2 c2] p H1 H2 Hp1 Hp2. simpl in *.
      rewrite elem_of_map_to_list in H1, H2.
      apply list_elem_of_fmap in Hp1 as ([p1 l1] & -> & Hp1).
      apply list_elem_of_fmap in Hp2 as ([p2 l2] & ? & Hp2).
      apply list_elem_of_fmap in Hp1 as ([q1 m1] & ? & _).
      apply list_elem_of_fmap in Hp2 as ([q2 m2] & ? & _). simplify_eq/=. congruence.
    + intros [s c] Hc%elem_of_map_to_list. simpl.
      assert (((λ '(p, l), (s :: p, l)) <$> EachNodeWithPool c).*1
              = (s ::.) <$> (EachNodeWithPool c).*1) as ->.
      { rewrite <-!list_fmap_compose. apply list_fmap_ext. by intros ? [??] _. }
      apply NoDup_fmap_2; [|by eapply IH]. by intros ?? [= ->].
    + apply NoDup_map_to_list.
Qed.

(** The pools of a trie as a map from paths. *)
Definition pool_map (t : Trie) : gmap path loc := list_to_map (EachNodeWithPool t).

Lemma pool_map_lookup t p : pool_map t !! p = pool_at t p.
Proof.
  apply option_eq. intros l. rewrite <-elem_of_EachNodeWithPool. symmetry.
  apply elem_of_list_to_map, NoDup_EachNodeWithPool.
Qed.

Lemma PoolCount_size t : PoolCount t = size (pool_map t).
Proof.
  unfold PoolCount, pool_map. rewrite <-length_map_to_list, map_to_list_to_map; [done|].
  apply NoDup_EachNodeWithPool.
Qed.

Lemma pool_map_Insert t uri v : pool_map (Insert t uri v) = <[segments uri := v]> (pool_map t).
Proof.
  apply map_eq. intros p. rewrite pool_map_lookup, Insert_segments, pool_at_insert_path, lookup_insert.
  rewrite pool_map_lookup. repeat case_decide; congruence.
Qed.

Lemma NewTrie_wf : trie_wf NewTrie.
Proof.
  assert (∀ p : path, p ≠ [] → node_at NewTrie p = None) as Hn by (by intros [|s p]).
  split; [done| |].
  - intros p k c. by rewrite Hn by (by destruct p).
  - intros p n Hp. by rewrite Hn.
Qed.

#[export] Hint Resolve NewTrie_wf : go.

(** ** Properties *)

(** C11. Inserting a pool under a URI keeps the trie well formed and is the
    update of a finite map: afterwards [Find] returns the new pool for the
    URIs with the same segments and what it returned before for all others. *)
Theorem trie_insert_find t uri v :
  trie_wf t →
  trie_wf (Insert t uri v) ∧
  ∀ uri', Find (Insert t uri v) uri' =
    if decide (segments uri' = segments uri) then Some v else Find t uri'.
Proof.
  intros Hwf. rewrite Insert_segments. split.
  - apply insert_path_wf; [auto with go|done].
  - intros uri'. by rewrite !Find_segments, pool_at_insert_path.
Qed.

Lemma trie_insert_find_witness :
  Find (Insert (Insert NewTrie "foo.com/a" 1) "foo.com/a/b" 2) "foo.com/a" = Some 1.
Proof.
  pose proof (trie_insert_find NewTrie "foo.com/a" 1 NewTrie_wf) as [Hwf H1].
  rewrite (proj2 (trie_insert_find _ "foo.com/a/b" 2 Hwf)). vm_compute. reflexivity.
Defined.

(** C9. Deleting a stored URI succeeds, removes exactly its pool and leaves a
    well-formed trie: no node without a pool at or below it is left behind. *)
Theorem trie_delete_exact t uri l :
  trie_wf t → Find t uri = Some l →
  ∃ t', Delete t uri = Ok (t', true) ∧ trie_wf t' ∧
    ∀ uri', Find t' uri' = if decide (segments uri' = segments uri) then None else Find t uri'.
Proof.
  rewrite Find_segments. intros Hwf Hl.
  destruct (Delete_spec t uri l Hwf Hl) as (t' & HD & Hwf' & Hp).
  exists t'. split_and!; [done|done|]. intros uri'. by rewrite !Find_segments, Hp.
Qed.

Lemma trie_delete_exact_witness :
  ∃ t', Delete (Insert NewTrie "foo.com/a/b" 2) "foo.com/a/b" = Ok (t', true) ∧ trie_wf t'.
Proof.
  destruct (trie_delete_exact (Insert NewTrie "foo.com/a/b" 2) "foo.com/a/b" 2) as (t' & H1 & H2 & _).
  - rewrite Insert_segments. apply insert_path_wf; [done|auto with go].
  - vm_compute. reflexivity.
  - exists t'. split; [exact H1|exact H2].
Defined.

(** [MatchUri] returns the pool of the longest stored prefix of the URI's
    segments: a pool at a nonempty prefix such that no longer prefix has one. *)
Theorem trie_match_longest t uri l :
  TPool t = None →
  MatchUri t uri = Some l ↔
  ∃ q r, segments uri = q ++ r ∧ q ≠ [] ∧ pool_at t q = Some l ∧
         ∀ r1 r2, r = r1 ++ r2 → r1 ≠ [] → pool_at t (q ++ r1) = None.
Proof. intros Ht. rewrite MatchUri_best by done. apply best_Some. Qed.

Lemma trie_match_longest_witness :
  MatchUri (Insert (Insert NewTrie "foo.com" 1) "foo.com/a" 2) "foo.com/a/b" = Some 2.
Proof.
  apply (trie_match_longest (Insert (Insert NewTrie "foo.com" 1) "foo.com/a" 2)); [reflexivity|].
  exists ["foo.com"; "a"], ["b"]. split_and!; [reflexivity|discriminate|reflexivity|].
  intros [|x [|y r1]] r2 H Hne; [done| |discriminate H].
  injection H as <- _. reflexivity.
Defined.

(** [PoolCount] counts the stored routes: an insertion adds one for a new
    route and none for a route that is there. *)
Theorem trie_pool_count t uri v :
  PoolCount (Insert t uri v) =
    match Find t uri with Some _ => PoolCount t | None => S (PoolCount t) end.
Proof.
  rewrite !PoolCount_size, pool_map_Insert, Find_segments, <-pool_map_lookup.
  destruct (pool_map t !! segments uri) eqn:E.
  - by eapply map_size_insert_Some.
  - by apply map_size_insert_None.
Qed.
