(* ===== verification/Pool.v ===== *)
(** The endpoint pool of a route: [src/route/pool.go].

    The slice [endpoints] and the map [index] of the source hold pointers to
    the same [endpointElem] objects, and operations write through either.
    Here a pool owns a store [elems] of such objects; the slice and the map
    hold their addresses.  [time.Now()] is the argument [now] (nanoseconds).

    A [*route.Endpoint] is compared by pointer in [Put]; [ep_loc] is that
    pointer.  The connection counter behind [Stats] lives in the store of
    [LoadBalance]. *)
From stdpp Require Import base list gmap strings.
From Stdlib Require Import Ascii ZArith Lia.
From S2P Require Import Prelude GoStrings Uri.

Abbreviation loc := nat (only parsing).

(** ** Data *)

(** [models.ModificationTag] of the routing API and its [SucceededBy]. *)
Record ModificationTag := mkTag { Guid : string; TagIndex : Z }.

#[global] Instance ModificationTag_eq_dec : EqDecision ModificationTag.
Proof. solve_decision. Defined.

Definition SucceededBy (m other : ModificationTag) : bool :=
  if bool_decide (Guid m = EmptyString) || bool_decide (Guid other = EmptyString) then true
  else negb (bool_decide (Guid m = Guid other)) || (TagIndex m <? TagIndex other)%Z.

Record Endpoint := mkEndpoint {
  ep_loc : loc;
  ApplicationId : string;
  Address : string;
  Port : Z;
  Tags : gmap string string;
  PrivateInstanceId : string;
  staleThreshold : Z;
  RouteServiceUrl : string;
  PrivateInstanceIndex : string;
  EpTag : ModificationTag
}.

#[global] Instance Endpoint_eq_dec : EqDecision Endpoint.
Proof. solve_decision. Defined.

Record endpointElem := mkElem {
  endpoint : Endpoint;
  el_index : nat;
  updated : Z;
  failedAt : option Z
}.

Record Pool := mkPool {
  elems : gmap loc endpointElem;
  next_elem : loc;
  endpoints : list loc;
  index : gmap string loc;
  contextPath : string;
  retryAfterFailure : Z;
  nextIdx : Z
}.

Definition set_elems (m : gmap loc endpointElem) (p : Pool) : Pool :=
  mkPool m (next_elem p) (endpoints p) (index p) (contextPath p) (retryAfterFailure p) (nextIdx p).
Definition set_index (m : gmap string loc) (p : Pool) : Pool :=
  mkPool (elems p) (next_elem p) (endpoints p) m (contextPath p) (retryAfterFailure p) (nextIdx p).
Definition set_endpoints (es : list loc) (p : Pool) : Pool :=
  mkPool (elems p) (next_elem p) es (index p) (contextPath p) (retryAfterFailure p) (nextIdx p).
Definition set_nextIdx (i : Z) (p : Pool) : Pool :=
  mkPool (elems p) (next_elem p) (endpoints p) (index p) (contextPath p) (retryAfterFailure p) i.

Definition set_updated (t : Z) (e : endpointElem) : endpointElem :=
  mkElem (endpoint e) (el_index e) t (failedAt e).
Definition set_el_endpoint (ep : Endpoint) (e : endpointElem) : endpointElem :=
  mkElem ep (el_index e) (updated e) (failedAt e).
Definition set_el_index (i : nat) (e : endpointElem) : endpointElem :=
  mkElem (endpoint e) i (updated e) (failedAt e).
Definition set_failedAt (t : option Z) (e : endpointElem) : endpointElem :=
  mkElem (endpoint e) (el_index e) (updated e) t.

(** ** Operations *)
Definition NewEndpoint (l : loc) (appId host : string) (port : Z)
  (privateInstanceId privateInstanceIndex : string) (tags : gmap string string)
  (staleThresholdInSeconds : Z) (routeServiceUrl : string) (tag : ModificationTag) : Endpoint :=
  mkEndpoint l appId host port tags privateInstanceId
    (wrap64 (staleThresholdInSeconds * Second)) routeServiceUrl privateInstanceIndex tag.

Definition CanonicalAddr (e : Endpoint) : string := Address e +:+ ":" +:+ Itoa (Port e).

Definition Component (e : Endpoint) : string :=
  default EmptyString (Tags e !! "component").

Definition modificationTagSameOrNewer (e other : Endpoint) : bool :=
  bool_decide (EpTag e = EpTag other) || SucceededBy (EpTag e) (EpTag other).

Definition NewPool (retry : Z) (ctx : string) : Pool :=
  mkPool ∅ 0 [] ∅ ctx retry (-1).

Definition Put (now : Z) (p : Pool) (ep : Endpoint) : Pool * bool :=
  match index p !! CanonicalAddr ep ≫= λ l, (l,.) <$> elems p !! l with
  | Some (l, e) =>
      if bool_decide (ep_loc (endpoint e) = ep_loc ep) then
        (set_elems (<[l := set_updated now e]> (elems p)) p, true)
      else if negb (SucceededBy (EpTag (endpoint e)) (EpTag ep)) then (p, false)
      else
        let oldEndpoint := endpoint e in
        let e' := set_el_endpoint ep e in
        let p1 :=
          if bool_decide (PrivateInstanceId oldEndpoint = PrivateInstanceId ep) then p
          else set_index (<[PrivateInstanceId ep := l]>
                           (delete (PrivateInstanceId oldEndpoint) (index p))) p in
        (set_elems (<[l := set_updated now e']> (elems p1)) p1, true)
  | None =>
      let l := next_elem p in
      let e := mkElem ep (length (endpoints p)) now None in
      (mkPool (<[l := e]> (elems p)) (S l) (endpoints p ++ [l])
         (<[PrivateInstanceId ep := l]> (<[CanonicalAddr ep := l]> (index p)))
         (contextPath p) (retryAfterFailure p) (nextIdx p), true)
  end.

Definition Pool_RouteServiceUrl (p : Pool) : string :=
  match endpoints p with
  | l :: _ => match elems p !! l with Some e => RouteServiceUrl (endpoint e) | None => EmptyString end
  | [] => EmptyString
  end.

(** [es[last-1], es[i], es = nil, es[last-1], es[:last-1]] and the two map
    deletions. *)
Definition removeEndpoint (p : Pool) (l : loc) : Pool :=
  match elems p !! l with
  | None => p
  | Some e =>
      let i := el_index e in
      let es := endpoints p in
      let n := length es in
      match es !! (n - 1) with
      | None => p
      | Some lastl =>
          let elems' :=
            if (i <? n - 1)%nat then alter (set_el_index i) lastl (elems p) else elems p in
          let index' := delete (PrivateInstanceId (endpoint e))
                          (delete (CanonicalAddr (endpoint e)) (index p)) in
          set_index index' (set_elems elems' (set_endpoints (swap_remove i es) p))
      end
  end.

Definition stale_at (now defaultThreshold : Z) (ep : Endpoint) (updated : Z) : bool :=
  let st := staleThreshold ep in
  let staleTime :=
    if (0 <? st)%Z && (st <? defaultThreshold)%Z then (now - st)%Z
    else (now - defaultThreshold)%Z in
  (updated <? staleTime)%Z.

Definition stale (now dflt : Z) (e : endpointElem) : bool :=
  stale_at now dflt (endpoint e) (updated e).

(** [for i := 0; i < last;]: the slice is re-read after each removal. *)
Fixpoint PruneEndpoints_loop (fuel : nat) (now dflt : Z) (i : nat) (p : Pool)
  (pruned : list Endpoint) : Pool * list Endpoint :=
  match fuel with
  | O => (p, pruned)
  | S fuel' =>
      match endpoints p !! i with
      | None => (p, pruned)
      | Some l =>
          match elems p !! l with
          | None => (p, pruned)
          | Some e =>
              if stale now dflt e
              then PruneEndpoints_loop fuel' now dflt i (removeEndpoint p l) (pruned ++ [endpoint e])
              else PruneEndpoints_loop fuel' now dflt (S i) p pruned
          end
      end
  end.

Definition PruneEndpoints (now dflt : Z) (p : Pool) : Pool * list Endpoint :=
  PruneEndpoints_loop (length (endpoints p)) now dflt 0 p [].

Definition Remove (p : Pool) (ep : Endpoint) : Pool * bool :=
  if bool_decide (length (endpoints p) = 0) then (p, false)
  else
    match index p !! CanonicalAddr ep ≫= λ l, (l,.) <$> elems p !! l with
    | Some (l, e) =>
        if modificationTagSameOrNewer (endpoint e) ep then (removeEndpoint p l, true)
        else (p, false)
    | None => (p, false)
    end.

Definition FindById (p : Pool) (id : string) : option Endpoint :=
  index p !! id ≫= λ l, endpoint <$> elems p !! l.

Definition IsEmpty (p : Pool) : bool := bool_decide (length (endpoints p) = 0).

Definition MarkUpdated (t : Z) (p : Pool) : Pool :=
  set_elems (fold_left (λ m l, alter (set_updated t) l m) (endpoints p) (elems p)) p.

Definition endpointFailed (now : Z) (p : Pool) (ep : Endpoint) : Pool :=
  match index p !! CanonicalAddr ep with
  | Some l => set_elems (alter (set_failedAt (Some now)) l (elems p)) p
  | None => p
  end.

(** [Each] applies a callback to the endpoints in slice order. *)
Definition Each (p : Pool) : list Endpoint :=
  omap (λ l, endpoint <$> elems p !! l) (endpoints p).

(** ** Abstract view: what a pool holds, by canonical address *)
Definition entries (p : Pool) : list endpointElem :=
  omap (λ l, elems p !! l) (endpoints p).

Definition abs (p : Pool) : gmap string (Endpoint * Z) :=
  list_to_map ((λ e, (CanonicalAddr (endpoint e), (endpoint e, updated e))) <$> entries p).

(** Instance ids never look like an address: they contain no colon.  (Cloud
    Foundry uses GUIDs.) *)
Definition ep_valid (e : Endpoint) : Prop := count_char ":" (PrivateInstanceId e) = 0.

Record pool_ok (p : Pool) : Prop := {
  ok_nodup : NoDup (endpoints p);
  ok_pos : ∀ i l, endpoints p !! i = Some l → ∃ e, elems p !! l = Some e ∧ el_index e = i;
  ok_addr : ∀ l e, l ∈ endpoints p → elems p !! l = Some e →
              index p !! CanonicalAddr (endpoint e) = Some l;
  ok_index : ∀ k l, index p !! k = Some l →
              l ∈ endpoints p ∧ ∃ e, elems p !! l = Some e ∧
              (k = CanonicalAddr (endpoint e) ∨ k = PrivateInstanceId (endpoint e));
  ok_valid : ∀ l e, l ∈ endpoints p → elems p !! l = Some e → ep_valid (endpoint e);
  ok_fresh : ∀ l e, elems p !! l = Some e → l < next_elem p
}.

Lemma CanonicalAddr_colon e : count_char ":" (CanonicalAddr e) ≠ 0.
Proof. unfold CanonicalAddr. rewrite !count_char_app. simpl. lia. Qed.

Lemma addr_not_pid e1 e2 : ep_valid e2 → CanonicalAddr e1 ≠ PrivateInstanceId e2.
Proof. intros Hv E. apply (CanonicalAddr_colon e1). by rewrite E. Qed.

(** The canonical address determines host and port. *)
Lemma CanonicalAddr_inj e1 e2 :
  count_char ":" (Address e1) = 0 → count_char ":" (Address e2) = 0 →
  CanonicalAddr e1 = CanonicalAddr e2 → Address e1 = Address e2 ∧ Port e1 = Port e2.
Proof.
  unfold CanonicalAddr. intros H1 H2 E.
  apply sapp_sep_inj in E as [? ?]; [|done..]. split; [done|]. by apply Itoa_inj.
Qed.

Section pool_facts.
Context (p : Pool) (Hok : pool_ok p).

Lemma held_elem l : l ∈ endpoints p → ∃ e, elems p !! l = Some e.
Proof.
  intros [i Hi]%list_elem_of_lookup. destruct (ok_pos p Hok i l Hi) as (e & ? & _). eauto.
Qed.

Lemma elem_of_entries e : e ∈ entries p ↔ ∃ l, l ∈ endpoints p ∧ elems p !! l = Some e.
Proof. unfold entries. apply list_elem_of_omap. Qed.

Lemma NoDup_entries_addr : NoDup ((λ e, CanonicalAddr (endpoint e)) <$> entries p).
Proof.
  unfold entries. pose proof (ok_nodup p Hok) as Hnd.
  assert (∀ l, l ∈ endpoints p → l ∈ endpoints p) as Hsub by done.
  revert Hsub Hnd. generalize (endpoints p) at 1 3 4 as ls.
  induction ls as [|l ls IH]; intros Hsub Hnd; [constructor|].
  apply NoDup_cons in Hnd as [Hl Hnd]. cbn [omap list_omap].
  destruct (held_elem l) as [e He]; [set_solver|]. rewrite He. csimpl.
  constructor; [|apply IH; set_solver].
  intros (e' & E & (l' & Hl' & He')%list_elem_of_omap)%list_elem_of_fmap.
  assert (index p !! CanonicalAddr (endpoint e) = Some l) as H1 by (apply (ok_addr p Hok); set_solver).
  assert (index p !! CanonicalAddr (endpoint e') = Some l') as H2 by (apply (ok_addr p Hok); set_solver).
  rewrite <-E in H2. by simplify_eq.
Qed.

Lemma abs_lookup a ep u :
  abs p !! a = Some (ep, u) ↔
  ∃ l e, l ∈ endpoints p ∧ elems p !! l = Some e ∧
         a = CanonicalAddr (endpoint e) ∧ ep = endpoint e ∧ u = updated e.
Proof.
  unfold abs. rewrite <-elem_of_list_to_map.
  - rewrite list_elem_of_fmap. setoid_rewrite elem_of_entries. naive_solver.
  - rewrite <-list_fmap_compose. apply NoDup_entries_addr.
Qed.

Lemma abs_addr a ep u : abs p !! a = Some (ep, u) → a = CanonicalAddr ep.
Proof. rewrite abs_lookup. naive_solver. Qed.

(** The lookup by canonical address in [Put], [Remove] and [endpointFailed]. *)
Lemma found_iff ep l e :
  (index p !! CanonicalAddr ep ≫= λ l, (l,.) <$> elems p !! l) = Some (l, e) ↔
  l ∈ endpoints p ∧ elems p !! l = Some e ∧ CanonicalAddr (endpoint e) = CanonicalAddr ep.
Proof.
  split.
  - intros (l' & Hl & H)%bind_Some. apply fmap_Some in H as (e' & He & [= -> ->]).
    destruct (ok_index p Hok _ _ Hl) as (Hin & e2 & He2 & Hk). simplify_eq.
    split_and!; [done..|]. destruct Hk as [|Hk]; [done|].
    by apply addr_not_pid in Hk; [|by eapply ok_valid].
  - intros (Hl & He & E). rewrite <-E, (ok_addr p Hok l e) by done. simpl. by rewrite He.
Qed.

Lemma found_None ep :
  (index p !! CanonicalAddr ep ≫= λ l, (l,.) <$> elems p !! l) = None ↔
  abs p !! CanonicalAddr ep = None.
Proof.
  rewrite !eq_None_not_Some. apply not_iff_compat. split.
  - intros [[l e] (Hl & He & E)%found_iff]. exists (endpoint e, updated e).
    apply abs_lookup. naive_solver.
  - intros [[ep' u'] (l & e & Hl & He & E & _)%abs_lookup]. exists (l, e).
    by apply found_iff.
Qed.

Lemma FindById_abs ep : FindById p (CanonicalAddr ep) = fst <$> abs p !! CanonicalAddr ep.
Proof.
  unfold FindById.
  destruct (index p !! CanonicalAddr ep ≫= λ l, (l,.) <$> elems p !! l) as [[l e]|] eqn:E.
  - pose proof E as (Hl & He & Ha)%found_iff.
    rewrite <-Ha at 1. rewrite (ok_addr p Hok l e) by done. simpl. rewrite He.
    assert (abs p !! CanonicalAddr ep = Some (endpoint e, updated e)) as ->; [|done].
    apply abs_lookup. naive_solver.
  - pose proof E as ->%found_None. simpl.
    destruct (index p !! CanonicalAddr ep) as [l|]; [|done]. simpl in *.
    by destruct (elems p !! l).
Qed.

Lemma abs_empty : IsEmpty p = true ↔ abs p = ∅.
Proof.
  unfold IsEmpty. rewrite bool_decide_eq_true. split.
  - intros E%nil_length_inv. unfold abs, entries. by rewrite E.
  - intros E. destruct (endpoints p) as [|l ls] eqn:Hl; [done|].
    destruct (held_elem l) as [e He]; [rewrite Hl; set_solver|].
    assert (abs p !! CanonicalAddr (endpoint e) = Some (endpoint e, updated e)) as H.
    { apply abs_lookup. exists l, e. rewrite Hl. set_solver. }
    by rewrite E in H.
Qed.
End pool_facts.

(** ** Invariant preservation *)
Lemma NewPool_ok retry ctx : pool_ok (NewPool retry ctx).
Proof. split; simpl; try done; try constructor; set_solver. Qed.

(** Writing to an element without moving it in the slice. *)
Lemma abs_update p p' l e e' :
  pool_ok p → pool_ok p' → endpoints p' = endpoints p → l ∈ endpoints p →
  elems p !! l = Some e → elems p' = <[l := e']> (elems p) →
  CanonicalAddr (endpoint e') = CanonicalAddr (endpoint e) →
  abs p' = <[CanonicalAddr (endpoint e) := (endpoint e', updated e')]> (abs p).
Proof.
  intros Hp Hp' Hend Hl He Hel Ha. apply map_eq; intros a. apply option_eq; intros [ep u].
  rewrite lookup_insert_Some, !abs_lookup by done. rewrite Hend, Hel. split.
  - intros (l2 & e2 & Hl2 & He2 & -> & -> & ->). destruct (decide (l = l2)) as [<-|Hne].
    + rewrite lookup_insert_eq in He2. simplify_eq. left. by rewrite Ha.
    + rewrite lookup_insert_ne in He2 by done. right. split; [|naive_solver].
      intros E. pose proof (ok_addr p Hp l e Hl He) as H1.
      rewrite E, (ok_addr p Hp l2 e2 Hl2 He2) in H1. by simplify_eq.
  - intros [[<- [= <- <-]]|[Hne (l2 & e2 & Hl2 & He2 & -> & -> & ->)]].
    + exists l, e'. by rewrite lookup_insert_eq, Ha.
    + exists l2, e2. rewrite lookup_insert_ne; [done|]. intros <-. simplify_eq.
Qed.

(** Rewriting element [l] in place, with the index entry of its instance id
    moved when the id changes. *)
Lemma write_ok p l e e' :
  pool_ok p → l ∈ endpoints p → elems p !! l = Some e →
  el_index e' = el_index e → ep_valid (endpoint e') →
  CanonicalAddr (endpoint e') = CanonicalAddr (endpoint e) →
  pool_ok (set_elems (<[l := e']> (elems p))
    (if bool_decide (PrivateInstanceId (endpoint e) = PrivateInstanceId (endpoint e')) then p
     else set_index (<[PrivateInstanceId (endpoint e') := l]>
            (delete (PrivateInstanceId (endpoint e)) (index p))) p)).
Proof.
  intros Hok Hl He Hi Hv Ha. pose proof Hok as [H1 H2 H3 H4 H5 H6].
  pose proof (H5 l e Hl He) as Hv0.
  set (idx := if bool_decide (PrivateInstanceId (endpoint e) = PrivateInstanceId (endpoint e'))
              then index p
              else <[PrivateInstanceId (endpoint e') := l]>
                     (delete (PrivateInstanceId (endpoint e)) (index p))).
  assert (∀ l2 e2, l2 ∈ endpoints p → elems p !! l2 = Some e2 →
    idx !! CanonicalAddr (endpoint e2) = Some l2) as Haddr.
  { intros l2 e2 Hl2 He2. unfold idx. case_bool_decide; [by apply H3|].
    rewrite lookup_insert_ne, lookup_delete_ne; [by apply H3|..];
      apply not_eq_sym; by apply addr_not_pid. }
  assert (∀ k l2, idx !! k = Some l2 → l2 ∈ endpoints p ∧
    ((l2 = l ∧ (k = CanonicalAddr (endpoint e') ∨ k = PrivateInstanceId (endpoint e'))) ∨
     (l2 ≠ l ∧ index p !! k = Some l2))) as Hidx.
  { intros k l2. unfold idx. case_bool_decide as Hb.
    - intros Hk. destruct (H4 k l2 Hk) as (? & e2 & He2 & Hk2). split; [done|].
      destruct (decide (l2 = l)) as [->|]; [|by right]. left. simplify_eq.
      rewrite Ha, <-Hb. done.
    - intros [[<- <-]|[Hk1 [Hk2 Hk]%lookup_delete_Some]]%lookup_insert_Some; [naive_solver|].
      destruct (H4 k l2 Hk) as (? & e2 & He2 & Hk3). split; [done|].
      destruct (decide (l2 = l)) as [->|]; [|by right]. left. simplify_eq.
      rewrite Ha. naive_solver. }
  assert (∀ q, endpoints q = endpoints p → next_elem q = next_elem p → elems q = <[l:=e']> (elems p) →
    index q = idx → pool_ok q) as Hgen.
  { intros q Eq1 Eq2 Eq3 Eq4. split; rewrite ?Eq1, ?Eq2, ?Eq3, ?Eq4; try done.
    - intros i l2 Hl2. destruct (H2 i l2 Hl2) as (e2 & He2 & Hi2).
      destruct (decide (l = l2)) as [<-|?].
      + exists e'. rewrite lookup_insert_eq. split; [done|]. congruence.
      + exists e2. by rewrite lookup_insert_ne.
    - intros l2 e2 Hl2. destruct (decide (l = l2)) as [<-|?].
      + rewrite lookup_insert_eq. intros [= <-]. rewrite Ha. by apply Haddr.
      + rewrite lookup_insert_ne by done. by apply Haddr.
    - intros k l2 [Hin [[-> Hk]|[Hne Hk]]]%Hidx; (split; [done|]).
      + exists e'. by rewrite lookup_insert_eq.
      + destruct (H4 _ _ Hk) as (_ & e2 & He2 & ?). exists e2. by rewrite lookup_insert_ne.
    - intros l2 e2 Hl2. destruct (decide (l = l2)) as [<-|?].
      + rewrite lookup_insert_eq. by intros [= <-].
      + rewrite lookup_insert_ne by done. by apply H5.
    - intros l2 e2 [[<- _]|[_ ?]]%lookup_insert_Some; eauto. }
  apply Hgen; unfold idx; by case_bool_decide.
Qed.

Lemma touch_ok p l e e' :
  pool_ok p → l ∈ endpoints p → elems p !! l = Some e →
  el_index e' = el_index e → endpoint e' = endpoint e →
  pool_ok (set_elems (<[l := e']> (elems p)) p).
Proof.
  intros Hok Hl He Hi Hep.
  pose proof (write_ok p l e e' Hok Hl He Hi) as H.
  rewrite Hep, bool_decide_refl in H. apply H; [|done]. by apply (ok_valid p Hok l e).
Qed.

(** A new element at the end of the slice. *)
Lemma append_ok p ep now :
  pool_ok p → ep_valid ep → abs p !! CanonicalAddr ep = None →
  let l := next_elem p in
  let p' := mkPool (<[l := mkElem ep (length (endpoints p)) now None]> (elems p)) (S l)
    (endpoints p ++ [l])
    (<[PrivateInstanceId ep := l]> (<[CanonicalAddr ep := l]> (index p)))
    (contextPath p) (retryAfterFailure p) (nextIdx p) in
  pool_ok p' ∧ abs p' = <[CanonicalAddr ep := (ep, now)]> (abs p).
Proof.
  intros Hok Hv Hnew l p'. pose proof Hok as [H1 H2 H3 H4 H5 H6].
  assert (∀ l2, l2 ∈ endpoints p → l2 ≠ l) as Hl.
  { intros l2 Hl2 ->. destruct (held_elem p Hok _ Hl2) as [e He].
    apply H6 in He. unfold l in He. lia. }
  assert (∀ l2 e2, l2 ∈ endpoints p → elems p !! l2 = Some e2 →
    CanonicalAddr (endpoint e2) ≠ CanonicalAddr ep) as Hfresh.
  { intros l2 e2 Hl2 He2 E. assert (abs p !! CanonicalAddr ep = Some (endpoint e2, updated e2)) as H.
    { apply abs_lookup; naive_solver. } congruence. }
  assert (pool_ok p') as Hok'.
  { split; simpl.
    - apply NoDup_app. split_and!; [done| |apply NoDup_singleton]. set_solver.
    - intros i l2 [Hi|[Hi Hi2]]%lookup_app_Some.
      + destruct (H2 i l2 Hi) as (e & He & ?). exists e.
        rewrite lookup_insert_ne; [done|]. apply not_eq_sym, Hl. by eapply list_elem_of_lookup_2.
      + apply list_lookup_singleton_Some in Hi2 as [? <-]. eexists.
        rewrite lookup_insert_eq. split; [done|]. simpl. lia.
    - intros l2 e2 [Hl2|Hl2]%elem_of_app.
      + rewrite lookup_insert_ne by (by apply not_eq_sym, Hl). intros He2.
        rewrite !lookup_insert_ne; [by apply H3| |].
        * apply not_eq_sym. eauto.
        * apply not_eq_sym. by apply addr_not_pid.
      + apply list_elem_of_singleton in Hl2 as ->. rewrite lookup_insert_eq. intros [= <-]. simpl.
        rewrite lookup_insert_ne by (apply not_eq_sym; by apply addr_not_pid).
        by rewrite lookup_insert_eq.
    - intros k l2 [[<- <-]|[_ [[<- <-]|[_ Hk]]%lookup_insert_Some]]%lookup_insert_Some.
      + split; [set_solver|]. eexists. rewrite lookup_insert_eq. eauto.
      + split; [set_solver|]. eexists. rewrite lookup_insert_eq. eauto.
      + destruct (H4 k l2 Hk) as (Hin & e & He & ?). split; [set_solver|]. exists e.
        rewrite lookup_insert_ne; [done|]. by apply not_eq_sym, Hl.
    - intros l2 e2 [Hl2|Hl2]%elem_of_app.
      + rewrite lookup_insert_ne by (by apply not_eq_sym, Hl). eauto.
      + apply list_elem_of_singleton in Hl2 as ->. rewrite lookup_insert_eq. by intros [= <-].
    - intros l2 e2 [[<- _]|[_ He2]]%lookup_insert_Some; [lia|]. apply H6 in He2. lia. }
  split; [done|]. apply map_eq; intros a. apply option_eq; intros [ep2 u2].
  rewrite lookup_insert_Some, !abs_lookup by done. simpl. split.
  - intros (l2 & e2 & [Hl2|Hl2]%elem_of_app & He2 & -> & -> & ->).
    + rewrite lookup_insert_ne in He2 by (by apply not_eq_sym, Hl). right.
      split; [|naive_solver]. apply not_eq_sym. eauto.
    + apply list_elem_of_singleton in Hl2 as ->. rewrite lookup_insert_eq in He2. simplify_eq. by left.
  - intros [[<- [= <- <-]]|[_ (l2 & e2 & Hl2 & He2 & ?)]].
    + exists l. eexists. rewrite lookup_insert_eq, elem_of_app, list_elem_of_singleton. naive_solver.
    + exists l2, e2. rewrite lookup_insert_ne by (by apply not_eq_sym, Hl).
      rewrite elem_of_app. naive_solver.
Qed.

(** What [Put] does to the abstract pool, and the value it returns. *)
Definition put_spec (now : Z) (m : gmap string (Endpoint * Z)) (ep : Endpoint)
  : gmap string (Endpoint * Z) * bool :=
  match m !! CanonicalAddr ep with
  | None => (<[CanonicalAddr ep := (ep, now)]> m, true)
  | Some (old, _) =>
      if bool_decide (ep_loc old = ep_loc ep) then (<[CanonicalAddr ep := (old, now)]> m, true)
      else if SucceededBy (EpTag old) (EpTag ep) then (<[CanonicalAddr ep := (ep, now)]> m, true)
      else (m, false)
  end.

Lemma Put_spec now p ep :
  pool_ok p → ep_valid ep →
  pool_ok (Put now p ep).1 ∧
  (abs (Put now p ep).1, (Put now p ep).2) = put_spec now (abs p) ep.
Proof.
  intros Hok Hv. unfold Put, put_spec.
  destruct (index p !! CanonicalAddr ep ≫= λ l, (l,.) <$> elems p !! l) as [[l e]|] eqn:E.
  - apply found_iff in E as (Hl & He & Ha); [|done].
    assert (abs p !! CanonicalAddr ep = Some (endpoint e, updated e)) as ->.
    { apply abs_lookup; naive_solver. }
    case_bool_decide as Hb; simpl.
    + assert (pool_ok (set_elems (<[l:=set_updated now e]> (elems p)) p)) as Hok'
        by (by eapply touch_ok).
      split; [done|]. f_equal.
      by rewrite (abs_update p _ l e (set_updated now e)), Ha by done.
    + destruct (SucceededBy (EpTag (endpoint e)) (EpTag ep)); simpl; [|done].
      pose proof (write_ok p l e (set_updated now (set_el_endpoint ep e)) Hok Hl He eq_refl Hv
        (eq_sym Ha)) as Hok'. simpl in Hok'.
      split.
      * revert Hok'. by case_bool_decide.
      * f_equal. revert Hok'. case_bool_decide; intros Hok';
          by rewrite (abs_update p _ l e (set_updated now (set_el_endpoint ep e))), Ha by done.
  - apply found_None in E; [|done]. rewrite E. simpl.
    destruct (append_ok p ep now Hok Hv E) as [? ?]. split; [done|]. by f_equal.
Qed.

(** Two states of an element that differ at most in its slice index. *)
Definition same_data (e e' : endpointElem) : Prop := ∃ i, e' = set_el_index i e.

Lemma removeEndpoint_unfold p l e :
  pool_ok p → l ∈ endpoints p → elems p !! l = Some e →
  endpoints p !! el_index e = Some l ∧
  endpoints (removeEndpoint p l) = swap_remove (el_index e) (endpoints p) ∧
  index (removeEndpoint p l) = delete (PrivateInstanceId (endpoint e))
                                 (delete (CanonicalAddr (endpoint e)) (index p)) ∧
  next_elem (removeEndpoint p l) = next_elem p ∧
  (∀ l2 e2, elems p !! l2 = Some e2 →
     ∃ e2', elems (removeEndpoint p l) !! l2 = Some e2' ∧ same_data e2 e2') ∧
  (∀ i l2, swap_remove (el_index e) (endpoints p) !! i = Some l2 →
     ∃ e2', elems (removeEndpoint p l) !! l2 = Some e2' ∧ el_index e2' = i) ∧
  (∀ l2 e2', elems (removeEndpoint p l) !! l2 = Some e2' →
     ∃ e2, elems p !! l2 = Some e2 ∧ same_data e2 e2').
Proof.
  intros Hok Hl He. pose proof Hl as [i Hi]%list_elem_of_lookup.
  destruct (ok_pos p Hok i l Hi) as (e0 & He0 & Hei). simplify_eq.
  pose proof (lookup_lt_Some _ _ _ Hi) as Hlt.
  destruct (lookup_lt_is_Some_2 (endpoints p) (length (endpoints p) - 1)) as [z Hz]; [lia|].
  destruct (ok_pos p Hok _ z Hz) as (ez & Hez & Hzi).
  unfold removeEndpoint. rewrite He, Hz. simpl.
  split_and!; try done.
  - intros l2 e2 He2. destruct (Nat.ltb_spec (el_index e) (length (endpoints p) - 1)).
    + rewrite lookup_alter. case_decide; subst; rewrite He2; simpl.
      * eexists. split; [done|]. by eexists.
      * exists e2. split; [done|]. exists (el_index e2). by destruct e2.
    + exists e2. split; [done|]. exists (el_index e2). by destruct e2.
  - intros i l2. rewrite swap_remove_lookup by done. case_decide; [done|].
    destruct (Nat.ltb_spec (el_index e) (length (endpoints p) - 1)) as [Hlt'|Hge].
    + case_decide as Hij.
      * subst i. rewrite Hz. intros [= <-]. rewrite lookup_alter_eq, Hez. eexists. by split.
      * intros Hl2. destruct (ok_pos p Hok i l2 Hl2) as (e2 & He2 & Hi2). exists e2.
        rewrite lookup_alter_ne; [done|]. intros <-. simplify_eq. lia.
    + case_decide as Hij; [lia|]. apply (ok_pos p Hok).
  - intros l2 e2'. destruct (Nat.ltb_spec (el_index e) (length (endpoints p) - 1)).
    + rewrite lookup_alter. case_decide; subst.
      * destruct (elems p !! l2) as [e2|]; [|done]. simpl. intros [= <-].
        exists e2. split; [done|]. by eexists.
      * intros. exists e2'. split; [done|]. exists (el_index e2'). by destruct e2'.
    + intros. exists e2'. split; [done|]. exists (el_index e2'). by destruct e2'.
Qed.

Lemma removeEndpoint_spec p l e :
  pool_ok p → l ∈ endpoints p → elems p !! l = Some e →
  pool_ok (removeEndpoint p l) ∧
  abs (removeEndpoint p l) = delete (CanonicalAddr (endpoint e)) (abs p).
Proof.
  intros Hok Hl He.
  destruct (removeEndpoint_unfold p l e Hok Hl He) as (Hi & E1 & E2 & E3 & Hfw & Hpos & Hbw).
  destruct (swap_remove_NoDup _ _ _ Hi (ok_nodup p Hok)) as [Hnd Hin].
  assert (∀ l2 e2, l2 ∈ endpoints p → elems p !! l2 = Some e2 → l2 ≠ l →
    CanonicalAddr (endpoint e2) ≠ CanonicalAddr (endpoint e)) as Hne.
  { intros l2 e2 Hl2 He2 Hll E. pose proof (ok_addr p Hok l2 e2 Hl2 He2) as H.
    rewrite E, (ok_addr p Hok l e) in H by done. congruence. }
  assert (pool_ok (removeEndpoint p l)) as Hok'.
  { split; rewrite ?E1, ?E2, ?E3; try done.
    - intros l2 e2' [Hl2 Hll]%Hin (e2 & He2 & j & ->)%Hbw. simpl.
      rewrite lookup_delete_ne, lookup_delete_ne; [by apply (ok_addr p Hok)|..]; apply not_eq_sym.
      + by apply (Hne l2 e2).
      + apply addr_not_pid. by apply (ok_valid p Hok l).
    - intros k l2 [Hk1 [Hk2 Hk]%lookup_delete_Some]%lookup_delete_Some.
      destruct (ok_index p Hok k l2 Hk) as (Hl2 & e2 & He2 & Hk3).
      destruct (decide (l2 = l)) as [->|Hll].
      { simplify_eq. naive_solver. }
      split; [by apply Hin|]. destruct (Hfw l2 e2 He2) as (e2' & He2' & j & ->). by eexists.
    - intros l2 e2' [Hl2 Hll]%Hin (e2 & He2 & j & ->)%Hbw. simpl. by apply (ok_valid p Hok l2).
    - intros l2 e2' (e2 & He2 & _)%Hbw. by eapply (ok_fresh p Hok). }
  split; [done|]. apply map_eq; intros a. apply option_eq; intros [ep u].
  rewrite lookup_delete_Some, !abs_lookup by done. rewrite E1. split.
  - intros (l2 & e2' & [Hl2 Hll]%Hin & (e2 & He2 & j & ->)%Hbw & -> & -> & ->). simpl.
    split; [apply not_eq_sym; by apply (Hne l2)|naive_solver].
  - intros (Ha & l2 & e2 & Hl2 & He2 & -> & -> & ->).
    destruct (Hfw l2 e2 He2) as (e2' & He2' & j & ->). exists l2. eexists. split_and!; [|done..].
    apply Hin. split; [done|]. intros ->. simplify_eq.
Qed.

Lemma Remove_spec p ep :
  pool_ok p →
  pool_ok (Remove p ep).1 ∧
  (abs (Remove p ep).1, (Remove p ep).2) =
    match abs p !! CanonicalAddr ep with
    | Some (old, _) =>
        if modificationTagSameOrNewer old ep then (delete (CanonicalAddr ep) (abs p), true)
        else (abs p, false)
    | None => (abs p, false)
    end.
Proof.
  intros Hok. unfold Remove. case_bool_decide as Hn.
  - assert (abs p = ∅) as Hz; [|simpl; rewrite Hz; by rewrite lookup_empty]. apply abs_empty; [done|].
    unfold IsEmpty. by apply bool_decide_eq_true.
  - destruct (index p !! CanonicalAddr ep ≫= λ l, (l,.) <$> elems p !! l) as [[l e]|] eqn:E.
    + apply found_iff in E as (Hl & He & Ha); [|done].
      assert (abs p !! CanonicalAddr ep = Some (endpoint e, updated e)) as ->.
      { apply abs_lookup; naive_solver. }
      destruct (modificationTagSameOrNewer _ _); [|done]. simpl.
      destruct (removeEndpoint_spec p l e Hok Hl He) as [? Habs]. split; [done|].
      by rewrite Habs, Ha.
    + by apply found_None in E as ->.
Qed.

Lemma fold_alter_lookup (f : endpointElem → endpointElem) (ls : list loc)
  (m : gmap loc endpointElem) l :
  (∀ e, f (f e) = f e) →
  fold_left (λ m l, alter f l m) ls m !! l =
    if decide (l ∈ ls) then f <$> m !! l else m !! l.
Proof.
  intros Hf. revert m. induction ls as [|x ls IH]; intros m.
  { by rewrite decide_False by set_solver. }
  cbn [fold_left]. rewrite IH, lookup_alter. repeat case_decide; try set_solver; subst.
  destruct (m !! l); simpl; by rewrite ?Hf.
Qed.

(** [MarkUpdated] stamps every endpoint and changes nothing else. *)
Lemma MarkUpdated_spec t p :
  pool_ok p → pool_ok (MarkUpdated t p) ∧ abs (MarkUpdated t p) = (λ x, (x.1, t)) <$> abs p.
Proof.
  intros Hok. pose proof Hok as [H1 H2 H3 H4 H5 H6].
  assert (∀ l, elems (MarkUpdated t p) !! l =
    if decide (l ∈ endpoints p) then set_updated t <$> elems p !! l else elems p !! l) as Hel.
  { intros l. apply fold_alter_lookup. by intros []. }
  assert (pool_ok (MarkUpdated t p)) as Hok'.
  { split; simpl; try done.
    - intros i l Hi. rewrite Hel. destruct (H2 i l Hi) as (e & -> & <-).
      rewrite decide_True by (by eapply list_elem_of_lookup_2). by eexists.
    - intros l e Hl. rewrite Hel, decide_True by done. intros (e0 & He & ->)%fmap_Some. by apply (H3 l e0).
    - intros k l Hk. destruct (H4 k l Hk) as (Hl & e & He & ?). split; [done|].
      rewrite Hel, decide_True, He by done. by eexists.
    - intros l e Hl. rewrite Hel, decide_True by done. intros (e0 & He & ->)%fmap_Some. by apply (H5 l e0).
    - intros l e. rewrite Hel. case_decide; [intros (e0 & He & _)%fmap_Some|]; eauto. }
  split; [done|]. apply map_eq; intros a. apply option_eq; intros [ep u].
  rewrite lookup_fmap_Some, abs_lookup by done. split.
  - intros (l & e & Hl & He & -> & -> & ->). simpl in Hl. rewrite Hel, decide_True in He by done.
    apply fmap_Some in He as (e0 & He & ->). exists (endpoint e0, updated e0). split; [done|].
    apply abs_lookup; naive_solver.
  - intros ([ep0 u0] & [= <- <-] & (l & e & Hl & He & -> & -> & ->)%abs_lookup); [|done].
    exists l, (set_updated t e). rewrite Hel, decide_True, He by done. done.
Qed.

Lemma endpointFailed_ok now p ep :
  pool_ok p → pool_ok (endpointFailed now p ep) ∧ abs (endpointFailed now p ep) = abs p.
Proof.
  intros Hok. unfold endpointFailed. destruct (index p !! _) as [l|] eqn:Hl; [|done].
  destruct (ok_index p Hok _ _ Hl) as (Hin & e & He & _).
  assert (alter (set_failedAt (Some now)) l (elems p) = <[l := set_failedAt (Some now) e]> (elems p)) as ->.
  { apply map_eq; intros j. rewrite lookup_alter, lookup_insert. case_decide; [|done]. by subst; rewrite He. }
  assert (pool_ok (set_elems (<[l:=set_failedAt (Some now) e]> (elems p)) p)) as Hok'
    by (by eapply touch_ok).
  split; [done|]. rewrite (abs_update p _ l e (set_failedAt (Some now) e)) by done. simpl.
  apply insert_id. apply abs_lookup; naive_solver.
Qed.

(** ** Pruning *)
Definition fresh_entry (now dflt : Z) (x : string * (Endpoint * Z)) : Prop :=
  stale_at now dflt x.2.1 x.2.2 = false.

#[global] Instance fresh_entry_dec now dflt x : Decision (fresh_entry now dflt x).
Proof. unfold fresh_entry. apply _. Defined.

Definition pruned_ok (now dflt : Z) (m : gmap string (Endpoint * Z)) (pr : list Endpoint) : Prop :=
  NoDup (CanonicalAddr <$> pr) ∧
  ∀ ep, ep ∈ pr ↔ ∃ u, m !! CanonicalAddr ep = Some (ep, u) ∧ stale_at now dflt ep u = true.

Lemma all_fresh now dflt p :
  pool_ok p →
  (∀ l e, l ∈ endpoints p → elems p !! l = Some e → stale now dflt e = false) →
  abs p = filter (fresh_entry now dflt) (abs p) ∧ pruned_ok now dflt (abs p) [].
Proof.
  intros Hok Hall.
  assert (∀ a ep u, abs p !! a = Some (ep, u) → stale_at now dflt ep u = false) as Hf.
  { intros a ep u (l & e & Hl & He & -> & -> & ->)%abs_lookup; [|done]. by apply (Hall l e). }
  split.
  - symmetry. apply map_filter_id. intros a [ep u] Hu. by apply Hf in Hu.
  - split; [constructor|]. intros ep. split; [by intros ?%not_elem_of_nil|].
    intros (u & Hu & Hs). apply Hf in Hu. congruence.
Qed.

Lemma pruned_ok_cons now dflt m ep u pr :
  m !! CanonicalAddr ep = Some (ep, u) → stale_at now dflt ep u = true →
  pruned_ok now dflt (delete (CanonicalAddr ep) m) pr → pruned_ok now dflt m (ep :: pr).
Proof.
  intros Hm Hs [Hnd Hpr]. split.
  - csimpl. constructor; [|done]. intros (ep2 & E & H)%list_elem_of_fmap.
    apply Hpr in H as (u2 & H & _). rewrite <-E, lookup_delete_eq in H. done.
  - intros ep2. rewrite elem_of_cons, Hpr. split.
    + intros [->|(u2 & [_ H]%lookup_delete_Some & ?)]; eauto.
    + intros (u2 & H & Hs2). destruct (decide (CanonicalAddr ep = CanonicalAddr ep2)) as [E|E].
      * left. rewrite <-E in H. congruence.
      * right. exists u2. by rewrite lookup_delete_ne.
Qed.

Lemma PruneEndpoints_loop_spec now dflt fuel i p acc :
  pool_ok p → length (endpoints p) ≤ i + fuel →
  (∀ j l e, j < i → endpoints p !! j = Some l → elems p !! l = Some e → stale now dflt e = false) →
  ∃ pr, (PruneEndpoints_loop fuel now dflt i p acc).2 = acc ++ pr ∧
    pool_ok (PruneEndpoints_loop fuel now dflt i p acc).1 ∧
    abs (PruneEndpoints_loop fuel now dflt i p acc).1 = filter (fresh_entry now dflt) (abs p) ∧
    pruned_ok now dflt (abs p) pr.
Proof.
  revert i p acc. induction fuel as [|fuel IH]; intros i p acc Hok Hlen Hfresh; simpl.
  - destruct (all_fresh now dflt p Hok) as [H1 H2].
    { intros l e [j Hj]%list_elem_of_lookup. apply Hfresh with j; [|done].
      apply lookup_lt_Some in Hj. lia. }
    exists []. by rewrite app_nil_r.
  - destruct (endpoints p !! i) as [l|] eqn:Hi.
    2:{ destruct (all_fresh now dflt p Hok) as [H1 H2].
        { intros l e [j Hj]%list_elem_of_lookup. apply Hfresh with j; [|done].
          apply lookup_ge_None in Hi. apply lookup_lt_Some in Hj. lia. }
        exists []. by rewrite app_nil_r. }
    assert (l ∈ endpoints p) as Hl by (by eapply list_elem_of_lookup_2).
    destruct (ok_pos p Hok i l Hi) as (e & He & Hei). rewrite He.
    destruct (stale now dflt e) eqn:Hs.
    + destruct (removeEndpoint_spec p l e Hok Hl He) as [Hok' Habs].
      destruct (removeEndpoint_unfold p l e Hok Hl He) as (_ & Hend & _ & _ & _ & _ & Hbw).
      pose proof (lookup_lt_Some _ _ _ Hi) as Hlt.
      destruct (IH i (removeEndpoint p l) (acc ++ [endpoint e])) as (pr & -> & ? & -> & Hpr);
        [done| | |].
      { rewrite Hend, swap_remove_length by lia. lia. }
      { intros j l2 e2 Hj. rewrite Hend, swap_remove_lookup by lia.
        repeat case_decide; try lia. intros Hl2 (e2' & He2 & k & ->)%Hbw.
        by apply (Hfresh j l2 e2'). }
      assert (abs p !! CanonicalAddr (endpoint e) = Some (endpoint e, updated e)) as Hm.
      { apply abs_lookup; naive_solver. }
      exists (endpoint e :: pr). rewrite Habs in *. rewrite <-app_assoc. split_and!; try done.
      * rewrite map_filter_delete. apply delete_id, map_lookup_filter_None. right.
        intros x Hx Hf. rewrite Hm in Hx. simplify_eq. unfold fresh_entry in Hf; simpl in Hf.
        unfold stale in Hs. congruence.
      * by eapply pruned_ok_cons.
    + destruct (IH (S i) p acc) as (pr & -> & ? & -> & ?); [done|lia| |eauto].
      intros j l2 e2 Hj Hl2 He2. destruct (decide (j = i)) as [->|]; [congruence|].
      apply (Hfresh j l2 e2); [lia|done..].
Qed.

Lemma PruneEndpoints_spec now dflt p :
  pool_ok p →
  pool_ok (PruneEndpoints now dflt p).1 ∧
  abs (PruneEndpoints now dflt p).1 = filter (fresh_entry now dflt) (abs p) ∧
  pruned_ok now dflt (abs p) (PruneEndpoints now dflt p).2.
Proof.
  intros Hok. unfold PruneEndpoints.
  destruct (PruneEndpoints_loop_spec now dflt (length (endpoints p)) 0 p []) as (pr & E & ? & ? & ?);
    [done|lia|lia|]. simpl in E. by rewrite E.
Qed.

#[export] Hint Resolve NewPool_ok : go.

(** ** Properties *)

(** C8. [Put] refines an update of the map from addresses to endpoints: a new
    address is added, a known endpoint is refreshed, a newer modification tag
    replaces the entry and an older one is refused without a change; the
    pool's slice, index map and element positions stay consistent. *)
Theorem pool_put_refines now p ep :
  pool_ok p → ep_valid ep →
  pool_ok (Put now p ep).1 ∧
  (abs (Put now p ep).1, (Put now p ep).2) = put_spec now (abs p) ep.
Proof. apply Put_spec. Qed.

(** Two endpoints for the witnesses. *)
Definition ep1 : Endpoint := mkEndpoint 1 "app" "10.0.0.1" 8080 ∅ "guid-1" 0 EmptyString "0" (mkTag "g" 1).
Definition ep2 : Endpoint := mkEndpoint 2 "app" "10.0.0.2" 8080 ∅ "guid-2" 0 EmptyString "1" (mkTag "g" 1).
Definition pool12 : Pool := (Put 20 (Put 10 (NewPool 30 EmptyString) ep1).1 ep2).1.

Lemma pool12_ok : pool_ok pool12.
Proof.
  unfold pool12. apply Put_spec; [|reflexivity]. apply Put_spec; [auto with go|reflexivity].
Qed.

Lemma pool_put_refines_witness :
  abs (Put 30 pool12 ep1).1 !! "10.0.0.1:8080" = Some (ep1, 30%Z).
Proof.
  destruct (pool_put_refines 30 pool12 ep1 pool12_ok eq_refl) as [_ H].
  apply (f_equal fst) in H. cbn [fst] in H. rewrite H. vm_compute. reflexivity.
Defined.

(** [Remove] deletes the entry of the endpoint's address when the stored
    modification tag is the same or older, and nothing otherwise; the answer
    says which, and the pool stays consistent. *)
Theorem pool_remove_refines p ep :
  pool_ok p →
  pool_ok (Remove p ep).1 ∧
  (abs (Remove p ep).1, (Remove p ep).2) =
    match abs p !! CanonicalAddr ep with
    | Some (old, _) =>
        if modificationTagSameOrNewer old ep then (delete (CanonicalAddr ep) (abs p), true)
        else (abs p, false)
    | None => (abs p, false)
    end.
Proof. apply Remove_spec. Qed.

Lemma pool_remove_refines_witness :
  (Remove pool12 ep1).2 = true ∧ abs (Remove pool12 ep1).1 !! "10.0.0.1:8080" = None.
Proof.
  destruct (pool_remove_refines pool12 ep1 pool12_ok) as [_ H].
  pose proof (f_equal fst H) as H1. pose proof (f_equal snd H) as H2. cbn [fst snd] in H1, H2.
  rewrite H1, H2. vm_compute. split; reflexivity.
Defined.

(** [PruneEndpoints] terminates with exactly the endpoints that are not
    stale kept, and returns each stale endpoint once. *)
Theorem pool_prune_exact now dflt p :
  pool_ok p →
  pool_ok (PruneEndpoints now dflt p).1 ∧
  abs (PruneEndpoints now dflt p).1 = filter (fresh_entry now dflt) (abs p) ∧
  pruned_ok now dflt (abs p) (PruneEndpoints now dflt p).2.
Proof. apply PruneEndpoints_spec. Qed.

Lemma pool_prune_exact_witness :
  abs (PruneEndpoints 25 10 pool12).1 = filter (fresh_entry 25 10) (abs pool12) ∧
  (PruneEndpoints 25 10 pool12).2 = [ep1].
Proof.
  destruct (pool_prune_exact 25 10 pool12 pool12_ok) as (_ & H & _).
  split; [exact H|]. vm_compute. reflexivity.
Defined.
