(* ===== verification/LoadBalance.v ===== *)
(** The endpoint iterators: [src/route/roundrobin.go], [src/route/leastconnection.go],
    the counters of [src/route/pool.go] and [Pool.Endpoints].

    [random.Intn(n)] is the argument [rnd], [randomize.Perm(n)] the argument
    [perm]; [clock k] is the value of [time.Now()] in iteration [k] of the
    round-robin loop.  Connection counters are shared by every holder of an
    endpoint pointer: they live in a store indexed by [ep_loc]. *)
From stdpp Require Import base list gmap strings.
From Stdlib Require Import Ascii ZArith Lia.
From S2P Require Import Prelude GoStrings Uri Pool.

(** ** Counters *)
Abbreviation counters := (gmap loc Z) (only parsing).

Definition Count (st : counters) (e : Endpoint) : Z := default 0%Z (st !! ep_loc e).
Definition Increment (st : counters) (e : Endpoint) : counters :=
  <[ep_loc e := wrap64 (Count st e + 1)]> st.
Definition Decrement (st : counters) (e : Endpoint) : counters :=
  <[ep_loc e := wrap64 (Count st e - 1)]> st.

(** ** Iterators *)
Record Iterator := mkIterator {
  initialEndpoint : string;
  lastEndpoint : option Endpoint
}.

Inductive EndpointIterator :=
| RoundRobin (it : Iterator)
| LeastConnection (it : Iterator).

Definition LOAD_BALANCE_RR : string := "round-robin".
Definition LOAD_BALANCE_LC : string := "least-connection".

(** [Pool.Endpoints]: the iterator for the configured balancing algorithm. *)
Definition Endpoints (defaultLoadBalance initial : string) : EndpointIterator :=
  if bool_decide (defaultLoadBalance = LOAD_BALANCE_LC)
  then LeastConnection (mkIterator initial None)
  else RoundRobin (mkIterator initial None).

(** ** Round robin *)
Definition clear_failed (p : Pool) : Pool :=
  set_elems (fold_left (λ m l, alter (set_failedAt None) l m) (endpoints p) (elems p)) p.

Definition expire (now retry : Z) (e : endpointElem) : endpointElem :=
  match failedAt e with
  | Some t => if (retry <? now - t)%Z then set_failedAt None e else e
  | None => e
  end.

Fixpoint rr_loop (fuel k : nat) (clock : nat → Z) (startIdx curIdx : nat) (p : Pool)
  : option (Endpoint * Pool) :=
  match fuel with
  | O => None
  | S fuel' =>
      match endpoints p !! curIdx with
      | None => None
      | Some l =>
          match elems p !! l with
          | None => None
          | Some e =>
              let curIdx' := if bool_decide (S curIdx = length (endpoints p)) then 0 else S curIdx in
              let e' := expire (clock k) (retryAfterFailure p) e in
              let p' := set_elems (<[l := e']> (elems p)) p in
              if bool_decide (failedAt e' = None) then
                Some (endpoint e', set_nextIdx (Z.of_nat curIdx') p')
              else
                let p'' := if bool_decide (curIdx' = startIdx) then clear_failed p' else p' in
                rr_loop fuel' (S k) clock startIdx curIdx' p''
          end
      end
  end.

(** The start index: random on first use, wrapped when out of range. *)
Definition rr_start (rnd : nat) (p : Pool) : nat :=
  if bool_decide (nextIdx p = (-1)%Z) then rnd
  else if (Z.of_nat (length (endpoints p)) <=? nextIdx p)%Z then 0 else Z.to_nat (nextIdx p).

Definition rr_next (rnd : nat) (clock : nat → Z) (p : Pool) : option (Endpoint * Pool) :=
  if bool_decide (length (endpoints p) = 0) then None
  else
    let startIdx := rr_start rnd p in
    rr_loop (S (length (endpoints p))) 0 clock startIdx startIdx
      (set_nextIdx (Z.of_nat startIdx) p).

Definition rr_Next (rnd : nat) (clock : nat → Z) (it : Iterator) (p : Pool)
  : option Endpoint * Iterator * Pool :=
  let e := if bool_decide (initialEndpoint it = EmptyString) then None
           else FindById p (initialEndpoint it) in
  match e with
  | Some ep => (Some ep, mkIterator EmptyString (Some ep), p)
  | None =>
      match rr_next rnd clock p with
      | Some (ep, p') => (Some ep, mkIterator EmptyString (Some ep), p')
      | None => (None, mkIterator EmptyString None, p)
      end
  end.

(** [EndpointFailed] of both iterators. *)
Definition EndpointFailed (now : Z) (it : Iterator) (p : Pool) : Pool :=
  match lastEndpoint it with
  | Some ep => endpointFailed now p ep
  | None => p
  end.

(** ** Least connection *)
Definition lc_PreRequest := Increment.
Definition lc_PostRequest := Decrement.

Fixpoint lc_loop (st : counters) (eps : list Endpoint) (selected : option Endpoint) : option Endpoint :=
  match eps with
  | [] => selected
  | cur :: eps' =>
      match selected with
      | None => lc_loop st eps' (Some cur)
      | Some s => lc_loop st eps' (if (Count st cur <? Count st s)%Z then Some cur else Some s)
      end
  end.

Definition lc_next (perm : list nat) (st : counters) (p : Pool) : option Endpoint :=
  match Each p with
  | [] => None
  | [e] => Some e
  | es => lc_loop st (omap (λ i, es !! i) perm) None
  end.

Definition lc_Next (perm : list nat) (st : counters) (it : Iterator) (p : Pool)
  : option Endpoint * Iterator :=
  let e := if bool_decide (initialEndpoint it = EmptyString) then None
           else FindById p (initialEndpoint it) in
  let r := match e with Some ep => Some ep | None => lc_next perm st p end in
  (r, mkIterator EmptyString r).

(** ** Round robin: termination and choice *)

(** Endpoint at slice position [i], and whether it may be chosen at [now]. *)
Definition elem_at (p : Pool) (i : nat) : option endpointElem :=
  endpoints p !! i ≫= λ l, elems p !! l.

Definition available (now retry : Z) (e : endpointElem) : bool :=
  bool_decide (failedAt (expire now retry e) = None).

Definition cyc (n s j : nat) : nat := (s + j) mod n.

Lemma cyc_succ n s j : 0 < n → cyc n s (S j) = if decide (S (cyc n s j) = n) then 0 else S (cyc n s j).
Proof.
  intros Hn. unfold cyc. replace (s + S j) with (s + j + 1) by lia.
  rewrite <-Nat.Div0.add_mod_idemp_l.
  pose proof (Nat.mod_upper_bound (s + j) n). case_decide as E.
  - replace ((s + j) mod n + 1) with n by lia. apply Nat.Div0.mod_same.
  - rewrite Nat.mod_small; lia.
Qed.

Lemma cyc_lt n s j : 0 < n → cyc n s j < n.
Proof. intros. apply Nat.mod_upper_bound. lia. Qed.

Lemma cyc_0 n s : s < n → cyc n s 0 = s.
Proof. intros. unfold cyc. rewrite Nat.add_0_r. by apply Nat.mod_small. Qed.

Lemma cyc_n n s : s < n → cyc n s n = s.
Proof.
  intros. unfold cyc. replace (s + n) with (s + 1 * n) by lia.
  rewrite Nat.Div0.mod_add. by apply Nat.mod_small.
Qed.

Lemma cyc_start n s j : s < n → 0 < j < n → cyc n s j ≠ s.
Proof.
  intros Hs Hj E. unfold cyc in E.
  destruct (decide (s + j < n)) as [Hlt|Hge].
  - rewrite Nat.mod_small in E by lia. lia.
  - assert (s + j = n + (s + j - n)) as Ej by lia. rewrite Ej in E.
    rewrite <-Nat.Div0.add_mod_idemp_l, Nat.Div0.mod_same in E. simpl in E.
    rewrite Nat.mod_small in E by lia. lia.
Qed.

Lemma expire_unavailable now retry e : available now retry e = false → expire now retry e = e.
Proof.
  unfold available, expire. destruct (failedAt e) as [t|] eqn:E.
  - destruct (retry <? now - t)%Z; [|done]. by rewrite bool_decide_eq_true_2.
  - by rewrite bool_decide_eq_true_2.
Qed.

Lemma expire_available now retry e :
  available now retry e = true → expire now retry e = set_failedAt None e.
Proof.
  unfold available, expire. destruct (failedAt e) as [t|] eqn:E.
  - destruct (retry <? now - t)%Z; [done|]. by rewrite bool_decide_eq_false_2 by congruence.
  - destruct e; simpl in *. by subst.
Qed.

(** Reference definition: the first available position in cyclic order from
    [s], searched at distances [j], [j+1], ..., [j+m-1]. *)
Fixpoint first_available (clock : nat → Z) (p : Pool) (s j m : nat) : option nat :=
  match m with
  | O => None
  | S m' =>
      match elem_at p (cyc (length (endpoints p)) s j) with
      | Some e => if available (clock j) (retryAfterFailure p) e then Some j
                  else first_available clock p s (S j) m'
      | None => None
      end
  end.

(** The pool after choosing position [i]. *)
Definition chosen (p : Pool) (i : nat) (reset : bool) : Pool :=
  let p' := if reset then clear_failed p
            else match endpoints p !! i with
                 | Some l => set_elems (alter (set_failedAt None) l (elems p)) p
                 | None => p
                 end in
  set_nextIdx (Z.of_nat (cyc (length (endpoints p)) i 1)) p'.

Definition rr_result (p : Pool) (i : nat) (reset : bool) : option (Endpoint * Pool) :=
  (λ e, (endpoint e, chosen p i reset)) <$> elem_at p i.

Lemma elem_at_Some p i :
  pool_ok p → i < length (endpoints p) →
  ∃ l e, endpoints p !! i = Some l ∧ elems p !! l = Some e ∧ elem_at p i = Some e.
Proof.
  intros Hok Hi. destruct (lookup_lt_is_Some_2 _ _ Hi) as [l Hl].
  destruct (ok_pos p Hok i l Hl) as (e & He & _). exists l, e.
  unfold elem_at. by rewrite Hl.
Qed.

Lemma cyc_next n s j :
  s < n → (if bool_decide (S (cyc n s j) = n) then 0 else S (cyc n s j)) = cyc n s (S j).
Proof. intros Hs. rewrite cyc_succ by lia. case_bool_decide; case_decide; done. Qed.

Lemma cyc_one n s j : s < n → cyc n (cyc n s j) 1 = cyc n s (S j).
Proof.
  intros. unfold cyc. rewrite Nat.Div0.add_mod_idemp_l. f_equal. lia.
Qed.

Lemma alter_insert_elem f (m : gmap loc endpointElem) l e :
  m !! l = Some e → alter f l m = <[l := f e]> m.
Proof.
  intros He. apply map_eq; intros j. rewrite lookup_alter, lookup_insert.
  case_decide; [|done]. subst. by rewrite He.
Qed.

Lemma rr_loop_unfold fuel k clock s cur p l e :
  endpoints p !! cur = Some l → elems p !! l = Some e →
  rr_loop (S fuel) k clock s cur p =
    let cur' := if bool_decide (S cur = length (endpoints p)) then 0 else S cur in
    let e' := expire (clock k) (retryAfterFailure p) e in
    let p' := set_elems (<[l := e']> (elems p)) p in
    if bool_decide (failedAt e' = None) then Some (endpoint e', set_nextIdx (Z.of_nat cur') p')
    else rr_loop fuel (S k) clock s cur'
           (if bool_decide (cur' = s) then clear_failed p' else p').
Proof. intros Hl He. cbn [rr_loop]. by rewrite Hl, He. Qed.

Lemma rr_loop_spec clock p s j m :
  pool_ok p → s < length (endpoints p) → j + S m = length (endpoints p) →
  rr_loop (S (S m)) j clock s (cyc (length (endpoints p)) s j) p =
    match first_available clock p s j (S m) with
    | Some j' => rr_result p (cyc (length (endpoints p)) s j') false
    | None => rr_result p s true
    end.
Proof.
  intros Hok Hs. set (n := length (endpoints p)) in *.
  revert j. induction m as [|m IH]; intros j Hj;
    destruct (elem_at_Some p (cyc n s j) Hok) as (l & e & Hl & He & Hat);
    try (apply cyc_lt; lia).
  all: rewrite (rr_loop_unfold _ _ _ _ _ _ l e) by done; cbn [first_available]; cbv zeta;
    fold n; rewrite Hat, cyc_next by done.
  all: destruct (available (clock j) (retryAfterFailure p) e) eqn:Hav;
    [pose proof (expire_available _ _ _ Hav) as Hex|pose proof (expire_unavailable _ _ _ Hav) as Hex];
    unfold available in Hav; rewrite Hav, Hex.
  all: try (unfold rr_result, chosen; rewrite Hat, Hl; simpl; fold n;
    by rewrite cyc_one, (alter_insert_elem _ _ _ _ He)).
  all: assert (set_elems (<[l:=e]> (elems p)) p = p) as -> by (rewrite insert_id by done; by destruct p).
  - assert (S j = n) as -> by lia. rewrite cyc_n by done. rewrite bool_decide_refl.
    destruct (elem_at_Some p s Hok Hs) as (l0 & e0 & Hl0 & He0 & Hat0).
    assert (elems (clear_failed p) !! l0 = Some (set_failedAt None e0)) as Hc.
    { unfold clear_failed. simpl. rewrite fold_alter_lookup by (by intros []).
      rewrite decide_True by (by eapply list_elem_of_lookup_2). by rewrite He0. }
    unfold rr_result, chosen. fold n. rewrite Hat0. cbn [fmap option_fmap option_map].
    assert (endpoints (clear_failed p) = endpoints p) as Hp1 by done.
    generalize dependent (clear_failed p). intros p1 Hc Hp1.
    rewrite (rr_loop_unfold _ _ _ _ _ _ l0 (set_failedAt None e0)) by congruence. cbv zeta.
    rewrite Hp1. fold n. cbn [expire failedAt set_failedAt].
    rewrite bool_decide_eq_true_2, insert_id by done.
    pose proof (cyc_next n s 0 Hs) as Hcn. rewrite cyc_0 in Hcn by done. rewrite Hcn.
    by destruct p1.
  - rewrite bool_decide_eq_false_2 by (apply cyc_start; lia).
    rewrite IH by lia. done.
Qed.

Lemma rr_result_nextIdx i p k b : rr_result (set_nextIdx i p) k b = rr_result p k b.
Proof.
  unfold rr_result, chosen, elem_at. simpl. destruct b; [done|].
  by destruct (endpoints p !! k).
Qed.

Lemma rr_next_spec rnd clock p :
  pool_ok p → endpoints p ≠ [] → rr_start rnd p < length (endpoints p) →
  let s := rr_start rnd p in
  rr_next rnd clock p =
    match first_available clock p s 0 (length (endpoints p)) with
    | Some j => rr_result p (cyc (length (endpoints p)) s j) false
    | None => rr_result p s true
    end.
Proof.
  intros Hok Hne Hs s. unfold rr_next.
  rewrite bool_decide_eq_false_2 by (by intros ?%nil_length_inv).
  set (p0 := set_nextIdx (Z.of_nat s) p).
  assert (pool_ok p0) as Hok0 by (destruct Hok; by split).
  destruct (length (endpoints p)) as [|m] eqn:Hn; [lia|].
  pose proof (rr_loop_spec clock p0 s 0 m Hok0) as H. cbn [p0 endpoints set_nextIdx] in H.
  rewrite Hn in H. rewrite cyc_0 in H by done.
  assert (∀ j k, first_available clock p0 s j k = first_available clock p s j k) as Hfa.
  { intros j k. revert j. induction k as [|k IH]; intros j; [done|].
    cbn [first_available]. unfold elem_at. cbn [p0 endpoints elems set_nextIdx retryAfterFailure].
    destruct (endpoints p !! _ ≫= _); [|done]. by rewrite IH. }
  cbv zeta. fold s. fold p0. rewrite H, Hfa by (done || lia). unfold p0.
  by destruct (first_available clock p s 0 (S m)); rewrite rr_result_nextIdx.
Qed.

(** ** Rotation: without failures, successive calls walk the slice *)

Fixpoint rr_calls (k : nat) (rnd : nat) (clock : nat → Z) (p : Pool) : list Endpoint * Pool :=
  match k with
  | O => ([], p)
  | S k' =>
      match rr_next rnd clock p with
      | Some (e, p') => let '(es, p'') := rr_calls k' rnd clock p' in (e :: es, p'')
      | None => ([], p)
      end
  end.

Definition healthy (p : Pool) : Prop :=
  ∀ l e, l ∈ endpoints p → elems p !! l = Some e → failedAt e = None.

Lemma healthy_first_available clock p s :
  pool_ok p → healthy p → s < length (endpoints p) →
  first_available clock p s 0 (length (endpoints p)) = Some 0.
Proof.
  intros Hok Hh Hs. destruct (length (endpoints p)) as [|n] eqn:Hn; [lia|].
  cbn [first_available]. rewrite Hn, cyc_0 by done.
  destruct (elem_at_Some p s Hok) as (l & e & Hl & He & ->); [lia|].
  assert (failedAt e = None) as Hf by (apply (Hh l); [by eapply list_elem_of_lookup_2|done]).
  unfold available, expire. rewrite Hf. by rewrite bool_decide_eq_true_2.
Qed.

Lemma chosen_healthy p i :
  pool_ok p → healthy p → i < length (endpoints p) →
  chosen p i false = set_nextIdx (Z.of_nat (cyc (length (endpoints p)) i 1)) p.
Proof.
  intros Hok Hh Hi. unfold chosen.
  destruct (elem_at_Some p i Hok Hi) as (l & e & Hl & He & _). rewrite Hl.
  rewrite (alter_insert_elem _ _ _ _ He), insert_id; [by destruct p|].
  rewrite He. f_equal. assert (failedAt e = None) as Hf.
  { apply (Hh l); [by eapply list_elem_of_lookup_2|done]. }
  destruct e; simpl in *. by subst.
Qed.

Lemma rr_calls_healthy k rnd clock p s :
  pool_ok p → healthy p → s = rr_start rnd p → s < length (endpoints p) →
  (rr_calls k rnd clock p).1 =
    omap (λ j, endpoint <$> elem_at p (cyc (length (endpoints p)) s j)) (seq 0 k).
Proof.
  revert p s. induction k as [|k IH]; intros p s Hok Hh Hst Hs; [done|].
  cbn [rr_calls]. rewrite rr_next_spec; [|done| |by rewrite <-Hst].
  2:{ intros E. rewrite E in Hs. simpl in Hs. lia. }
  rewrite <-Hst, healthy_first_available, cyc_0 by done. unfold rr_result.
  destruct (elem_at_Some p s Hok Hs) as (l & e & _ & _ & Hat). rewrite Hat.
  cbn [fmap option_fmap option_map]. rewrite chosen_healthy by done.
  set (n := length (endpoints p)) in *.
  set (p1 := set_nextIdx (Z.of_nat (cyc n s 1)) p).
  assert (pool_ok p1) as Hok1 by (destruct Hok; by split).
  pose proof (cyc_lt n s 1) as Hlt.
  assert (cyc n s 1 = rr_start rnd p1) as Hst1.
  { unfold rr_start, p1. cbn [nextIdx set_nextIdx endpoints]. fold n.
    rewrite bool_decide_eq_false_2 by lia.
    destruct (Z.leb_spec (Z.of_nat n) (Z.of_nat (cyc n s 1))); lia. }
  specialize (IH p1 (cyc n s 1) Hok1 Hh Hst1 ltac:(simpl; fold n; lia)).
  destruct (rr_calls k rnd clock p1) as [es p2]. simpl in IH |- *. fold n in IH.
  cbn [omap list_omap]. rewrite cyc_0 by done. rewrite Hat. simpl. f_equal. rewrite IH.
  rewrite <-(fmap_S_seq 0 k), omap_fmap. apply omap_ext_in. intros j _. simpl.
  unfold elem_at. simpl. unfold cyc. rewrite Nat.Div0.add_mod_idemp_l.
  by rewrite <-Nat.add_assoc.
Qed.

(** ** Least connection *)
Lemma lc_loop_spec st eps sel :
  (sel = None → eps ≠ []) →
  ∃ e, lc_loop st eps sel = Some e ∧ (e ∈ eps ∨ sel = Some e) ∧
       (∀ x, x ∈ eps ∨ sel = Some x → (Count st e ≤ Count st x)%Z).
Proof.
  revert sel. induction eps as [|cur eps IH]; intros sel Hne; simpl.
  - destruct sel as [s|]; [|by destruct Hne]. exists s. set_solver by lia.
  - destruct sel as [s|].
    + destruct (IH (if (Count st cur <? Count st s)%Z then Some cur else Some s)) as (e & -> & Hin & Hmin).
      { by destruct (Count st cur <? Count st s)%Z. }
      exists e. split_and!; [done| |].
      * destruct (Count st cur <? Count st s)%Z; set_solver.
      * intros x Hx. destruct (Z.ltb_spec (Count st cur) (Count st s)).
        -- pose proof (Hmin cur (or_intror eq_refl)). set_unfold. destruct Hx as [[->|?]|[= ->]]; eauto. lia.
        -- pose proof (Hmin s (or_intror eq_refl)). set_unfold. destruct Hx as [[->|?]|[= ->]]; eauto. lia.
    + destruct (IH (Some cur)) as (e & -> & Hin & Hmin); [done|].
      exists e. split_and!; [done|set_solver|]. intros x [Hx|?]; [|done]. apply Hmin. set_solver.
Qed.

Lemma lc_next_spec perm st p :
  Each p ≠ [] → perm ≡ₚ seq 0 (length (Each p)) →
  ∃ e, lc_next perm st p = Some e ∧ e ∈ Each p ∧ ∀ x, x ∈ Each p → (Count st e ≤ Count st x)%Z.
Proof.
  intros Hne Hperm. unfold lc_next.
  assert (omap (λ i, Each p !! i) perm ≡ₚ Each p) as Ho.
  { rewrite Hperm. clear. induction (Each p) as [|e es IH] using rev_ind; [done|].
    rewrite length_app. simpl. rewrite seq_app, omap_app. simpl.
    rewrite list_lookup_middle by done. apply Permutation_app_tail. rewrite <-IH at 2.
    assert (omap (λ i, (es ++ [e]) !! i) (seq 0 (length es)) = omap (λ i, es !! i) (seq 0 (length es)))
      as ->; [|done].
    apply omap_ext_in. intros i Hi%elem_of_seq. by rewrite lookup_app_l by lia. }
  destruct (lc_loop_spec st (omap (λ i, Each p !! i) perm) None) as (e & He & Hin & Hmin).
  { intros _ E. rewrite E in Ho. by apply Permutation_nil in Ho. }
  destruct (Each p) as [|e1 [|e2 es]]; [done| |].
  - exists e1. split_and!; [done|set_solver|]. intros x ->%list_elem_of_singleton. done.
  - exists e. rewrite He. split_and!; [done| |].
    + destruct Hin as [Hin|?]; [|done]. by rewrite Ho in Hin.
    + intros x Hx. apply Hmin. left. by rewrite Ho.
Qed.

Lemma Count_Increment st e e' :
  Count (Increment st e) e' =
    if decide (ep_loc e = ep_loc e') then wrap64 (Count st e + 1) else Count st e'.
Proof. unfold Count, Increment. rewrite lookup_insert. by case_decide. Qed.

Lemma wrap64_plus_minus z : fits64 z → wrap64 (wrap64 (z + 1) - 1) = z.
Proof.
  unfold fits64, wrap64. intros Hz.
  destruct (decide (z = 2 ^ 63 - 1)%Z) as [->|Hne]; [done|].
  rewrite (Z.mod_small (z + 1 + 2 ^ 63)) by lia. rewrite Z.mod_small by lia. lia.
Qed.

Lemma Pre_Post st e e' :
  fits64 (Count st e) → (ep_loc e = ep_loc e' → e = e') →
  Count (lc_PostRequest (lc_PreRequest st e) e) e' = Count st e'.
Proof.
  intros Hf Hinj. unfold lc_PostRequest, lc_PreRequest, Decrement.
  unfold Count at 1. rewrite lookup_insert, Count_Increment.
  rewrite (decide_True (P := ep_loc e = ep_loc e)) by done. case_decide as E; simpl.
  - rewrite <-(Hinj E). by apply wrap64_plus_minus.
  - unfold Increment. by rewrite lookup_insert_ne.
Qed.

(** ** Properties *)

(** Round robin terminates with an endpoint on every nonempty pool: the
    first one in cyclic order from the start index that is healthy or whose
    failure is older than the retry period; when every endpoint is failed
    the failure marks are cleared and the one at the start index is taken. *)
Theorem rr_chooses_first_available rnd clock p :
  pool_ok p → endpoints p ≠ [] → rr_start rnd p < length (endpoints p) →
  is_Some (rr_next rnd clock p) ∧
  rr_next rnd clock p =
    match first_available clock p (rr_start rnd p) 0 (length (endpoints p)) with
    | Some j => rr_result p (cyc (length (endpoints p)) (rr_start rnd p) j) false
    | None => rr_result p (rr_start rnd p) true
    end.
Proof.
  intros Hok Hne Hs. pose proof (rr_next_spec rnd clock p Hok Hne Hs) as H. cbv zeta in H.
  split; [|done]. rewrite H. unfold rr_result.
  assert (∀ i, i < length (endpoints p) → is_Some (elem_at p i)) as Hat.
  { intros i Hi. destruct (elem_at_Some p i Hok Hi) as (? & e & _ & _ & ->). by eexists. }
  destruct (first_available _ _ _ _ _); apply fmap_is_Some, Hat; [|done]. apply cyc_lt. lia.
Qed.

Lemma rr_chooses_first_available_witness :
  fst <$> rr_next 0 (λ _, 25%Z) (endpointFailed 20 pool12 ep1) = Some ep2.
Proof.
  destruct (rr_chooses_first_available 0 (λ _, 25%Z) (endpointFailed 20 pool12 ep1)) as [_ H].
  - apply endpointFailed_ok, pool12_ok.
  - vm_compute. discriminate.
  - vm_compute. lia.
  - rewrite H. vm_compute. reflexivity.
Defined.

(** On a healthy pool successive choices go round the endpoints: call
    [j] returns the endpoint at distance [j] from the start index, so any
    [n] successive calls on [n] endpoints return each of them once. *)
Theorem rr_rotates k rnd clock p :
  pool_ok p → healthy p → rr_start rnd p < length (endpoints p) →
  (rr_calls k rnd clock p).1 =
    omap (λ j, endpoint <$> elem_at p (cyc (length (endpoints p)) (rr_start rnd p) j)) (seq 0 k).
Proof. intros. by apply rr_calls_healthy. Qed.

Lemma rr_rotates_witness : (rr_calls 4 1 (λ _, 0%Z) pool12).1 = [ep2; ep1; ep2; ep1].
Proof.
  rewrite (rr_rotates 4 1 (λ _, 0%Z) pool12).
  - vm_compute. reflexivity.
  - apply pool12_ok.
  - assert (map_Forall (λ _ e, failedAt e = None) (elems pool12)) as Hall.
    { apply (bool_decide_unpack _). vm_compute. exact I. }
    intros l e _ He. exact (Hall l e He).
  - vm_compute. lia.
Defined.

(** Least connection returns an endpoint of the pool with the least
    connection count, whatever permutation the random generator yields. *)
Theorem lc_minimal perm st p :
  Each p ≠ [] → perm ≡ₚ seq 0 (length (Each p)) →
  ∃ e, lc_next perm st p = Some e ∧ e ∈ Each p ∧ ∀ x, x ∈ Each p → (Count st e ≤ Count st x)%Z.
Proof. apply lc_next_spec. Qed.

Lemma lc_minimal_witness :
  ∃ e, lc_next [1; 0] (Increment ∅ ep1) pool12 = Some e ∧
       ∀ x, x ∈ Each pool12 → (Count (Increment ∅ ep1) e ≤ Count (Increment ∅ ep1) x)%Z.
Proof.
  destruct (lc_minimal [1; 0] (Increment ∅ ep1) pool12) as (e & He & _ & Hmin).
  - vm_compute. discriminate.
  - change (length (Each pool12)) with 2. apply perm_swap.
  - exists e. split; [exact He|exact Hmin].
Defined.

(** A request's [PreRequest] and [PostRequest] leave every connection
    count as it was, also at the bounds of [int64]. *)
Theorem lc_pre_post st e e' :
  fits64 (Count st e) → (ep_loc e = ep_loc e' → e = e') →
  Count (lc_PostRequest (lc_PreRequest st e) e) e' = Count st e'.
Proof. apply Pre_Post. Qed.

Lemma lc_pre_post_witness : Count (lc_PostRequest (lc_PreRequest ∅ ep1) ep1) ep1 = 0%Z.
Proof.
  rewrite (lc_pre_post ∅ ep1 ep1); [vm_compute; reflexivity| |done].
  change (Count ∅ ep1) with 0%Z. unfold fits64. lia.
Defined.
