(* ===== verification/GoNet.v ===== *)
(** The part of Go's package [net] that the controller uses (Go 1.7):
    textual IP addresses, CIDR networks and masks.  An [IP] is its byte
    slice, of length 4 or 16; [ParseIP] returns the 16-byte form of an IPv4
    address, as Go does. *)
From stdpp Require Import base list strings.
From Stdlib Require Import Ascii ZArith Lia.
From S2P Require Import Prelude GoStrings.
Local Open Scope Z_scope.

Abbreviation IP := (list Z) (only parsing).

Definition digit_val (a : ascii) : option Z :=
  if is_digit a then Some (Z.of_N (Ascii.N_of_ascii a) - 48) else None.

Definition hex_val (a : ascii) : option Z :=
  let n := Z.of_N (Ascii.N_of_ascii a) in
  if (48 <=? n) && (n <=? 57) then Some (n - 48)
  else if (97 <=? n) && (n <=? 102) then Some (n - 97 + 10)
  else if (65 <=? n) && (n <=? 70) then Some (n - 65 + 10)
  else None.

Definition big : Z := 16777215.

(** [dtoi]/[xtoi]: the number in base [base] at the start of the string and the
    text after it; [None] when there is no digit or the number reaches [big]. *)
Fixpoint scan_num (val : ascii → option Z) (base acc : Z) (seen : bool) (s : string)
  : option (Z * string) :=
  match s with
  | String a s' =>
      match val a with
      | Some d =>
          let n := acc * base + d in
          if big <=? n then None else scan_num val base n true s'
      | None => if seen then Some (acc, s) else None
      end
  | EmptyString => if seen then Some (acc, s) else None
  end.

Definition dtoi (s : string) : option (Z * string) := scan_num digit_val 10 0 false s.
Definition xtoi (s : string) : option (Z * string) := scan_num hex_val 16 0 false s.

Definition v4InV6Prefix : list Z := [0;0;0;0;0;0;0;0;0;0;255;255].

(** [parseIPv4] reads [k] more octets. *)
Fixpoint parseIPv4_octets (k : nat) (first : bool) (s : string) : option (list Z) :=
  match k with
  | O => match s with EmptyString => Some [] | _ => None end
  | S k' =>
      let s1 := if first then Some s
                else match s with
                     | String a s' => if bool_decide (a = "."%char) then Some s' else None
                     | EmptyString => None
                     end in
      match s1 with
      | None => None
      | Some s1 =>
          match dtoi s1 with
          | None => None
          | Some (n, rest) =>
              if 255 <? n then None
              else match parseIPv4_octets k' false rest with
                   | Some l => Some (n :: l)
                   | None => None
                   end
          end
      end
  end.

Definition parseIPv4 (s : string) : option IP :=
  match parseIPv4_octets 4 true s with
  | Some l => Some (v4InV6Prefix ++ l)
  | None => None
  end.

(** Main loop of [parseIPv6]: [acc] holds the bytes read so far; the result is
    the bytes, the position of the ellipsis and the text left. *)
Fixpoint parseIPv6_loop (fuel : nat) (s : string) (acc : list Z) (ellipsis : option nat)
  : option (list Z * option nat * string) :=
  match fuel with
  | O => Some (acc, ellipsis, s)
  | S fuel' =>
      match xtoi s with
      | None => None
      | Some (n, rest) =>
          if 65535 <? n then None
          else if HasPrefix rest "." then
            if bool_decide (ellipsis = None) && negb (bool_decide (length acc = 12%nat)) then None
            else if (16 <? length acc + 4)%nat then None
            else match parseIPv4 s with
                 | None => None
                 | Some ip4 => Some (acc ++ drop 12 ip4, ellipsis, EmptyString)
                 end
          else
            let acc' := acc ++ [Z.shiftr n 8; Z.land n 255] in
            match rest with
            | EmptyString => Some (acc', ellipsis, EmptyString)
            | String a r1 =>
                if negb (bool_decide (a = ":"%char)) then None
                else match r1 with
                     | EmptyString => None
                     | String b r2 =>
                         if bool_decide (b = ":"%char) then
                           match ellipsis with
                           | Some _ => None
                           | None =>
                               match r2 with
                               | EmptyString => Some (acc', Some (length acc'), EmptyString)
                               | _ => parseIPv6_loop fuel' r2 acc' (Some (length acc'))
                               end
                           end
                         else parseIPv6_loop fuel' r1 acc' ellipsis
                     end
            end
      end
  end.

Definition parseIPv6 (s : string) : option IP :=
  let lead := HasPrefix s "::" in
  let s1 := if lead then sdrop 2 s else s in
  if lead && bool_decide (s1 = EmptyString) then Some (replicate 16 0)
  else
    match parseIPv6_loop 8 s1 [] (if lead then Some 0%nat else None) with
    | None => None
    | Some (acc, ellipsis, rest) =>
        if negb (bool_decide (rest = EmptyString)) then None
        else if (length acc <? 16)%nat then
          match ellipsis with
          | None => None
          | Some e => Some (take e acc ++ replicate (16 - length acc) 0 ++ drop e acc)
          end
        else match ellipsis with Some _ => None | None => Some acc end
    end.

(** [ParseIP]: the first dot or colon decides the syntax. *)
Fixpoint ip_syntax (s : string) : option bool :=
  match s with
  | EmptyString => None
  | String a s' =>
      if bool_decide (a = "."%char) then Some true
      else if bool_decide (a = ":"%char) then Some false
      else ip_syntax s'
  end.

Definition ParseIP (s : string) : option IP :=
  match ip_syntax s with
  | Some true => parseIPv4 s
  | Some false => parseIPv6 s
  | None => None
  end.

Definition To4 (ip : IP) : option IP :=
  if bool_decide (length ip = 4%nat) then Some ip
  else if bool_decide (length ip = 16%nat) && bool_decide (take 12 ip = v4InV6Prefix)
  then Some (drop 12 ip) else None.

(** ** Text form *)
Definition hex_digit (n : Z) : ascii :=
  Ascii.ascii_of_N (Z.to_N (if n <? 10 then 48 + n else 87 + n)).

Fixpoint hex_aux (fuel : nat) (n : Z) (acc : string) : string :=
  match fuel with
  | O => acc
  | S f => let acc' := String (hex_digit (n mod 16)) acc in
           if n <? 16 then acc' else hex_aux f (n / 16) acc'
  end.
Definition hex (n : Z) : string := hex_aux 4 n EmptyString.

Fixpoint ip_groups (ip : IP) : list Z :=
  match ip with
  | a :: b :: rest => (a * 256 + b) :: ip_groups rest
  | _ => []
  end.

Fixpoint zero_run (g : list Z) : nat :=
  match g with 0 :: g' => S (zero_run g') | _ => O end.

(** Longest run of zero groups, the first one on ties: start and length. *)
Fixpoint longest_run (fuel i : nat) (g : list Z) (best : nat * nat) : nat * nat :=
  match fuel with
  | O => best
  | S f =>
      match g with
      | [] => best
      | _ :: g' =>
          let n := zero_run g in
          if (snd best <? n)%nat then longest_run f (i + S n) (drop (S n) g) (i, n)
          else longest_run f (S i) g' best
      end
  end.

Fixpoint hex_join (l : list Z) : string :=
  match l with
  | [] => EmptyString
  | [x] => hex x
  | x :: l' => hex x +:+ ":" +:+ hex_join l'
  end.

Definition IP_String (ip : IP) : string :=
  match To4 ip with
  | Some l => Join "." (Itoa <$> l)
  | None =>
      if negb (bool_decide (length ip = 16%nat)) then "?"
      else
        let g := ip_groups ip in
        let '(i, n) := longest_run 9 0 g (0%nat, 0%nat) in
        if (n <? 2)%nat then hex_join g
        else hex_join (take i g) +:+ "::" +:+ hex_join (drop (i + n) g)
  end.

(** ** Networks *)
Record IPNet := mkIPNet { net_ip : IP; net_mask : list Z }.

Fixpoint mask_bytes (k : nat) (ones : Z) : list Z :=
  match k with
  | O => []
  | S k' =>
      let b := if 8 <=? ones then 255
               else if ones <=? 0 then 0 else Z.lxor 255 (Z.shiftr 255 ones) in
      b :: mask_bytes k' (ones - 8)
  end.

Definition CIDRMask (ones bits : Z) : option (list Z) :=
  if negb ((bits =? 32) || (bits =? 128)) then None
  else if (ones <? 0) || (bits <? ones) then None
  else Some (mask_bytes (Z.to_nat (bits / 8)) ones).

Definition IP_Mask (ip : IP) (mask : list Z) : option IP :=
  let mask1 :=
    if bool_decide (length mask = 16%nat) && bool_decide (length ip = 4%nat)
       && bool_decide (take 12 mask = replicate 12 255)
    then drop 12 mask else mask in
  let ip1 :=
    if bool_decide (length mask1 = 4%nat) && bool_decide (length ip = 16%nat)
       && bool_decide (take 12 ip = v4InV6Prefix)
    then drop 12 ip else ip in
  if bool_decide (length ip1 = length mask1) then Some (zip_with Z.land ip1 mask1) else None.

Definition IP_Equal (a b : IP) : bool :=
  if bool_decide (length a = length b) then bool_decide (a = b)
  else if bool_decide (length a = 4%nat) && bool_decide (length b = 16%nat)
  then bool_decide (take 12 b = v4InV6Prefix) && bool_decide (a = drop 12 b)
  else if bool_decide (length a = 16%nat) && bool_decide (length b = 4%nat)
  then bool_decide (take 12 a = v4InV6Prefix) && bool_decide (drop 12 a = b)
  else false.

Definition IsLoopback (ip : IP) : bool :=
  match To4 ip with
  | Some l => match l with a :: _ => a =? 127 | [] => false end
  | None => IP_Equal ip (replicate 15 0 ++ [1])
  end.

(** [networkNumberAndMask] and [IPNet.Contains]. *)
Definition network (n : IPNet) : option (IP * list Z) :=
  let ip := match To4 (net_ip n) with
            | Some x => Some x
            | None => if bool_decide (length (net_ip n) = 16%nat) then Some (net_ip n) else None
            end in
  match ip with
  | None => None
  | Some ip =>
      let m := net_mask n in
      if bool_decide (length m = 4%nat) then
        if bool_decide (length ip = 4%nat) then Some (ip, m) else None
      else if bool_decide (length m = 16%nat) then
        if bool_decide (length ip = 4%nat) then Some (ip, drop 12 m) else Some (ip, m)
      else None
  end.

Definition IPNet_Contains (n : IPNet) (ip : IP) : bool :=
  let ip1 := match To4 ip with Some x => x | None => ip end in
  match network n with
  | None => bool_decide (ip1 = [])
  | Some (nn, m) =>
      bool_decide (length ip1 = length nn) &&
      bool_decide (zip_with Z.land nn m = zip_with Z.land ip1 m)
  end.

Definition ParseCIDR (s : string) : option (IP * IPNet) :=
  match cut "/" s with
  | None => None
  | Some (addr, mask) =>
      let parsed := match parseIPv4 addr with
                    | Some ip => Some (ip, 32)
                    | None => match parseIPv6 addr with
                              | Some ip => Some (ip, 128)
                              | None => None
                              end
                    end in
      match parsed, dtoi mask with
      | Some (ip, bits), Some (n, EmptyString) =>
          if bits <? n then None
          else match CIDRMask n bits with
               | None => None
               | Some m => match IP_Mask ip m with
                           | Some nip => Some (ip, mkIPNet nip m)
                           | None => None
                           end
               end
      | _, _ => None
      end
  end.

(** ** Checks against known values *)
Example ParseIP_v4 : ParseIP "172.0.0.1" = Some (v4InV6Prefix ++ [172;0;0;1]).
Proof. vm_compute. reflexivity. Qed.
Example ParseIP_v6 : IP_String <$> ParseIP "2001:db8:0:0:1::8" = Some "2001:db8::1:0:0:8".
Proof. vm_compute. reflexivity. Qed.
Example ParseIP_bad : ParseIP "1.2.3" = None ∧ ParseIP "1.2.3.256" = None ∧ ParseIP "::1::" = None.
Proof. vm_compute. auto. Qed.
Example ParseCIDR_ex :
  option_map (λ x, IPNet_Contains x.2 (v4InV6Prefix ++ [172;0;0;255])) (ParseCIDR "172.0.0.0/24")
  = Some true.
Proof. vm_compute. reflexivity. Qed.

(** ** No address contains a percent sign *)
Lemma scan_num_rest val base acc seen s n rest c :
  val c = None → scan_num val base acc seen s = Some (n, rest) →
  count_char c rest = count_char c s.
Proof.
  intros Hc. revert acc seen. induction s as [|a s IH]; intros acc seen; simpl.
  - destruct seen; [|done]. by intros [= _ <-].
  - destruct (val a) as [d|] eqn:Ha.
    + destruct (big <=? _); [done|]. intros H%IH. rewrite H.
      rewrite bool_decide_eq_false_2; [done|]. intros ->. congruence.
    + destruct seen; [|done]. by intros [= _ <-].
Qed.

Lemma parseIPv4_octets_percent k first s :
  count_char "%" s ≠ 0%nat → parseIPv4_octets k first s = None.
Proof.
  revert first s. induction k as [|k IH]; intros first s Hs; [by destruct s|]. simpl.
  assert (∀ s1, count_char "%" s1 ≠ 0%nat →
    match dtoi s1 with
    | None => None
    | Some (n, rest) =>
        if 255 <? n then None
        else match parseIPv4_octets k false rest with Some l => Some (n :: l) | None => None end
    end = None) as Hmain.
  { intros s1 H1. destruct (dtoi s1) as [[n rest]|] eqn:E; [|done].
    destruct (255 <? n); [done|]. rewrite IH; [done|].
    apply (scan_num_rest _ _ _ _ _ _ _ "%") in E; [by rewrite E|done]. }
  destruct first; [by apply Hmain|]. destruct s as [|a s]; [done|].
  case_bool_decide as Ha; [|done]. apply Hmain. by subst.
Qed.

Lemma parseIPv6_loop_percent fuel s acc e acc' e' rest :
  count_char "%" s ≠ 0%nat → parseIPv6_loop fuel s acc e = Some (acc', e', rest) →
  rest ≠ EmptyString.
Proof.
  revert s acc e. induction fuel as [|fuel IH]; intros s acc e Hs; simpl.
  - intros [= _ _ <-] ->. done.
  - destruct (xtoi s) as [[n r]|] eqn:E; [|done].
    apply (scan_num_rest _ _ _ _ _ _ _ "%") in E; [|done]. rewrite <-E in Hs.
    destruct (65535 <? n); [done|]. destruct (HasPrefix r "."); simpl.
    + destruct (_ && _); [done|]. destruct (16 <? _)%nat; [done|].
      unfold parseIPv4. by rewrite parseIPv4_octets_percent by congruence.
    + destruct r as [|a r1]; [done|]. case_bool_decide as Ha; [|done]. subst a. simpl in *.
      destruct r1 as [|b r2]; [done|]. case_bool_decide as Hb; [|by apply IH].
      subst b. destruct e; [done|]. destruct r2; [done|]. by apply IH.
Qed.

(** A route-domain suffix [%n] makes an address unparsable. *)
Lemma ParseIP_percent s : count_char "%" s ≠ 0%nat → ParseIP s = None.
Proof.
  intros Hs. unfold ParseIP. destruct (ip_syntax s) as [[]|]; [| |done].
  - unfold parseIPv4. by rewrite parseIPv4_octets_percent.
  - unfold parseIPv6.
    assert (count_char "%" (if HasPrefix s "::" then sdrop 2 s else s) ≠ 0%nat) as Hs1.
    { destruct (HasPrefix s "::") eqn:Hp; [|done].
      apply HasPrefix_spec in Hp as [t ->]. done. }
    set (s1 := if HasPrefix s "::" then sdrop 2 s else s) in *. clearbody s1.
    rewrite (bool_decide_eq_false_2 (s1 = EmptyString)) by (by intros ->).
    rewrite andb_false_r. destruct (parseIPv6_loop _ _ _ _) as [[[acc e] rest]|] eqn:E; [|done].
    apply parseIPv6_loop_percent in E; [|done]. by rewrite bool_decide_eq_false_2.
Qed.
