(* ===== verification/GoSha.v ===== *)
(** SHA-256 ([crypto/sha256], FIPS 180-4), used by [makeObjectName] to derive
    object names.  Words are [N] below [2^32]. *)
From stdpp Require Import base list strings.
From Stdlib Require Import Ascii ZArith NArith Lia.
From S2P Require Import Prelude GoStrings.
Local Open Scope N_scope.

Definition w32 (n : N) : N := N.land n 4294967295.
Definition rotr (k n : N) : N := N.lor (N.shiftr n k) (w32 (N.shiftl n (32 - k))).
Definition shr (k n : N) : N := N.shiftr n k.
Definition not32 (n : N) : N := N.lxor n 4294967295.
Definition ch (x y z : N) : N := N.lxor (N.land x y) (N.land (not32 x) z).
Definition maj (x y z : N) : N := N.lxor (N.land x y) (N.lxor (N.land x z) (N.land y z)).
Definition bsig0 (x : N) : N := N.lxor (rotr 2 x) (N.lxor (rotr 13 x) (rotr 22 x)).
Definition bsig1 (x : N) : N := N.lxor (rotr 6 x) (N.lxor (rotr 11 x) (rotr 25 x)).
Definition ssig0 (x : N) : N := N.lxor (rotr 7 x) (N.lxor (rotr 18 x) (shr 3 x)).
Definition ssig1 (x : N) : N := N.lxor (rotr 17 x) (N.lxor (rotr 19 x) (shr 10 x)).

(** The standard defines its constants as the first 32 bits of the fractional
    parts of roots of the first primes: cube roots for the round constants,
    square roots for the initial hash value. *)
Definition isprime (n : nat) : bool :=
  forallb (λ d, negb (Nat.eqb (Nat.modulo n d) 0)) (seq 2 (n - 2)).

Definition primes : list N := N.of_nat <$> List.filter isprime (seq 2 310).

(** Integer cube root, one bit at a time from bit [k - 1] down. *)
Fixpoint cbrt_bits (k : nat) (acc n : N) : N :=
  match k with
  | O => acc
  | S k' =>
      let r := acc + N.shiftl 1 (N.of_nat k') in
      cbrt_bits k' (if r * r * r <=? n then r else acc) n
  end.

Definition K256 : list N :=
  Eval vm_compute in (λ p, w32 (cbrt_bits 40 0 (N.shiftl p 96))) <$> primes.

Definition H256 : list N :=
  Eval vm_compute in (λ p, w32 (N.sqrt (N.shiftl p 64))) <$> take 8 primes.

(** Message schedule; [w] holds the last 16 words, newest first. *)
Fixpoint schedule (k : nat) (w : list N) : list N :=
  match k with
  | O => []
  | S k' =>
      let x := w32 (ssig1 (nth 1 w 0) + nth 6 w 0 + ssig0 (nth 14 w 0) + nth 15 w 0) in
      x :: schedule k' (x :: firstn 15 w)
  end.

Definition round (s : list N) (kw : N * N) : list N :=
  match s with
  | [a;b;c;d;e;f;g;h] =>
      let t1 := w32 (h + bsig1 e + ch e f g + fst kw + snd kw) in
      let t2 := w32 (bsig0 a + maj a b c) in
      [w32 (t1 + t2); a; b; c; w32 (d + t1); e; f; g]
  | _ => s
  end.

Definition compress (h block : list N) : list N :=
  let w := block ++ schedule 48 (rev block) in
  zip_with (λ x y, w32 (x + y)) h (fold_left round (zip K256 w) h).

Fixpoint words (bytes : list N) : list N :=
  match bytes with
  | a :: b :: c :: d :: rest =>
      N.lor (N.shiftl a 24) (N.lor (N.shiftl b 16) (N.lor (N.shiftl c 8) d)) :: words rest
  | _ => []
  end.

Definition be_bytes (k : nat) (n : N) : list N :=
  rev (map (λ i, N.land (N.shiftr n (8 * N.of_nat i)) 255) (seq 0 k)).

Definition pad (bytes : list N) : list N :=
  let len := length bytes in
  let z := ((119 - len mod 64) mod 64)%nat in
  bytes ++ [128] ++ replicate z 0 ++ be_bytes 8 (8 * N.of_nat len).

Fixpoint blocks (fuel : nat) (ws h : list N) : list N :=
  match fuel with
  | O => h
  | S f => match ws with
           | [] => h
           | _ => blocks f (drop 16 ws) (compress h (take 16 ws))
           end
  end.

Fixpoint string_bytes (s : string) : list N :=
  match s with
  | EmptyString => []
  | String a s' => Ascii.N_of_ascii a :: string_bytes s'
  end.

(** [sha256.Sum256]: the 32 bytes of the digest. *)
Definition Sum256 (s : string) : list N :=
  let ws := words (pad (string_bytes s)) in
  blocks (length ws) ws H256 ≫= be_bytes 4.

Definition hex_nibble (n : N) : ascii := Ascii.ascii_of_N (if n <? 10 then 48 + n else 87 + n).

(** The verb [%x] on a byte slice. *)
Fixpoint hex_bytes (l : list N) : string :=
  match l with
  | [] => EmptyString
  | b :: l' => String (hex_nibble (N.shiftr b 4)) (String (hex_nibble (N.land b 15)) (hex_bytes l'))
  end.

Example sha256_abc : hex_bytes (Sum256 "abc") =
  "ba7816bf8f01cfea414140de5dae2223b00361a396177a9cb410ff61f20015ad".
Proof. vm_compute. reflexivity. Qed.

Example sha256_long :
  hex_bytes (take 8 (Sum256 "abcdbcdecdefdefgefghfghighijhijkijkljklmklmnlmnomnopnopq")) =
  "248d6a61d20638b8".
Proof. vm_compute. reflexivity. Qed.

Lemma hex_bytes_length l : String.length (hex_bytes l) = (2 * length l)%nat.
Proof. induction l as [|b l IH]; [done|]. cbn [hex_bytes String.length length]. lia. Qed.
