(* ===== verification/Config.v ===== *)
(** Configuration: [src/config/config.go].

    [Config] keeps the fields the controller's logic reads or [Process]
    writes.  What [Process] takes from its environment is its argument:
    [numCPU] ([runtime.NumCPU]), [localIP] ([localip.LocalIP]) and
    [loadCert] ([tls.LoadX509KeyPair]).  Durations are nanoseconds. *)
From stdpp Require Import base list gmap strings.
From Stdlib Require Import Ascii ZArith Lia.
From S2P Require Import Prelude GoStrings.
Local Open Scope Z_scope.

Inductive RoutingMode := TCP | HTTP | all.

#[global] Instance RoutingMode_eq_dec : EqDecision RoutingMode.
Proof. solve_decision. Defined.

Definition RoutingMode_String (rm : RoutingMode) : string :=
  match rm with TCP => "tcp" | HTTP => "http" | all => "all" end.

Definition LoadBalancingStrategies : list string := ["round-robin"; "least-connection"].

Definition DefaultTier2IPRange : string := "172.0.0.0/24".

Record BigIPConfig := mkBigIP {
  URL : string;
  User : string;
  Pass : string;
  Partitions : list string;
  LoadBalancingMode : string;
  VerifyInterval : Z;
  ExternalAddr : string;
  SSLProfiles : list string;
  Policies : list string;
  Profiles : list string;
  HealthMonitors : list string;
  DriverCmd : string;
  Tier2IPRange : string
}.

Record StatusConfig := mkStatus {
  StHost : string; StPort : Z; StUser : string; StPass : string
}.

Record Config := mkConfig {
  BigIP : BigIPConfig;
  Status : StatusConfig;
  LogLevel : string;
  JobName : string;
  GoMaxProcs : Z;
  EnableSSL : bool;
  SSLCertPath : string;
  SSLKeyPath : string;
  SSLCertificate : option string;
  CipherString : string;
  CipherSuites : list Z;
  PruneStaleDropletsInterval : Z;
  DropletStaleThreshold : Z;
  StartResponseDelayInterval : Z;
  EndpointTimeout : Z;
  DrainTimeout : Z;
  SuspendPruningIfNatsUnavailable : bool;
  RouteMode : string;
  BrokerMode : bool;
  RoutingModeOf : RoutingMode;
  RouterGroupName : string;
  TCPRouterGroupName : string;
  RoutingApiUri : string;
  RoutingApiPort : Z;
  RouteServiceSecret : string;
  RouteServiceEnabled : bool;
  Ip : string;
  NatsClientPingInterval : Z;
  LoadBalance : string;
  SessionPersistence : bool
}.

Definition defaultBigIPConfig : BigIPConfig :=
  mkBigIP EmptyString EmptyString EmptyString [] "round-robin" 30 EmptyString [] [] [] []
    EmptyString DefaultTier2IPRange.

Definition defaultStatusConfig : StatusConfig := mkStatus "0.0.0.0" 8080 EmptyString EmptyString.

Definition defaultEndpointTimeout : Z := 60 * Second.

(** [DrainTimeout] is not in the default literal: it starts at zero. *)
Definition defaultConfig : Config :=
  mkConfig defaultBigIPConfig defaultStatusConfig "info" EmptyString (-1) false
    EmptyString EmptyString None EmptyString [] (30 * Second) (120 * Second) (5 * Second)
    defaultEndpointTimeout 0 false (RoutingMode_String HTTP) false TCP EmptyString EmptyString
    EmptyString 0 EmptyString false EmptyString 0 "round-robin" true.

Definition RoutingApiEnabled (c : Config) : bool :=
  negb (bool_decide (RoutingApiUri c = EmptyString)) && negb (RoutingApiPort c =? 0).

(** ** Cipher suites *)
Definition cipherMap : gmap string Z := list_to_map [
  ("TLS_RSA_WITH_RC4_128_SHA", 0x0005);
  ("TLS_RSA_WITH_3DES_EDE_CBC_SHA", 0x000a);
  ("TLS_RSA_WITH_AES_128_CBC_SHA", 0x002f);
  ("TLS_RSA_WITH_AES_256_CBC_SHA", 0x0035);
  ("TLS_RSA_WITH_AES_128_GCM_SHA256", 0x009c);
  ("TLS_RSA_WITH_AES_256_GCM_SHA384", 0x009d);
  ("TLS_ECDHE_ECDSA_WITH_RC4_128_SHA", 0xc007);
  ("TLS_ECDHE_ECDSA_WITH_AES_128_CBC_SHA", 0xc009);
  ("TLS_ECDHE_ECDSA_WITH_AES_256_CBC_SHA", 0xc00a);
  ("TLS_ECDHE_RSA_WITH_RC4_128_SHA", 0xc011);
  ("TLS_ECDHE_RSA_WITH_3DES_EDE_CBC_SHA", 0xc012);
  ("TLS_ECDHE_RSA_WITH_AES_128_CBC_SHA", 0xc013);
  ("TLS_ECDHE_RSA_WITH_AES_256_CBC_SHA", 0xc014);
  ("TLS_ECDHE_RSA_WITH_AES_128_GCM_SHA256", 0xc02f);
  ("TLS_ECDHE_ECDSA_WITH_AES_128_GCM_SHA256", 0xc02b);
  ("TLS_ECDHE_RSA_WITH_AES_256_GCM_SHA384", 0xc030);
  ("TLS_ECDHE_ECDSA_WITH_AES_256_GCM_SHA384", 0xc02c)].

Fixpoint convertCipherStringToInt (cipherStrs : list string) (m : gmap string Z)
  : result (list Z) :=
  match cipherStrs with
  | [] => Ok []
  | cipher :: rest =>
      match m !! cipher with
      | Some val => rbind (convertCipherStringToInt rest m) (λ l, Ok (val :: l))
      | None => Panic ("Invalid cipher string configuration: " +:+ cipher)
      end
  end.

Definition is_space (a : ascii) : bool :=
  let n := Ascii.N_of_ascii a in ((9 <=? n)%N && (n <=? 13)%N) || (n =? 32)%N.

(** [len(strings.TrimSpace(s)) == 0] on ASCII text: [s] is all white space. *)
Definition processCipherSuites (c : Config) : result (list Z) :=
  if string_forallb is_space (CipherString c)
  then Panic "must specify list of cipher suite when ssl is enabled"
  else convertCipherStringToInt (Split ":" (CipherString c)) cipherMap.

(** ** Process *)
Section process.
Context (numCPU : Z) (localIP : result string).
Context (loadCert : string → string → result string).

(** [if err != nil { panic(err) }] *)
Definition must {A} (m : result A) : result A :=
  match m with Err e => Panic e | _ => m end.

Definition parseRouteMode (s : string) : result RoutingMode :=
  if bool_decide (s = "http") then Ok HTTP
  else if bool_decide (s = "tcp") then Ok TCP
  else if bool_decide (s = "all") then Ok all
  else Panic ("Invalid Router Mode set " +:+ s).

Definition processSSL (c : Config) : result (list Z * option string) :=
  if EnableSSL c then
    rbind (processCipherSuites c) (λ suites,
    rbind (must (loadCert (SSLCertPath c) (SSLKeyPath c))) (λ cert,
    Ok (suites, Some cert)))
  else Ok (CipherSuites c, SSLCertificate c).

(** The checks after the certificates are loaded, in source order; the result
    is the routing mode. *)
Definition processMode (c : Config) : result RoutingMode :=
  if negb (bool_decide (LoadBalance c ∈ LoadBalancingStrategies))
  then Panic ("Invalid load balancing algorithm " +:+ LoadBalance c)
  else if negb (bool_decide (RouterGroupName c = EmptyString)) && negb (RoutingApiEnabled c)
  then Panic "Routing API must be enabled to assign Router Group"
  else
    rbind (parseRouteMode (RouteMode c)) (λ mode,
    let mode' := if bool_decide (mode = all) && negb (RoutingApiEnabled c) then HTTP else mode in
    if bool_decide (mode' = TCP) && negb (RoutingApiEnabled c)
    then Panic "Routing API must be enable for TCP only route mode"
    else if BrokerMode c && (bool_decide (StUser (Status c) = EmptyString)
                             || bool_decide (StPass (Status c) = EmptyString))
    then Panic "status user and pass must be set to run in service_broker mode"
    else Ok mode').

Definition Process (c : Config) : result Config :=
  rbind (must localIP) (λ ip,
  rbind (processSSL c) (λ '(suites, cert),
  rbind (processMode c) (λ mode,
  Ok (mkConfig (BigIP c) (Status c) (LogLevel c) "cf-bigip-ctlr"
    (if GoMaxProcs c =? -1 then numCPU else GoMaxProcs c)
    (EnableSSL c) (SSLCertPath c) (SSLKeyPath c) cert (CipherString c) suites
    (PruneStaleDropletsInterval c)
    (if DropletStaleThreshold c <? StartResponseDelayInterval c
     then StartResponseDelayInterval c else DropletStaleThreshold c)
    (StartResponseDelayInterval c) (EndpointTimeout c)
    (if (DrainTimeout c =? 0) || (DrainTimeout c =? defaultEndpointTimeout)
     then EndpointTimeout c else DrainTimeout c)
    (SuspendPruningIfNatsUnavailable c) (RouteMode c) (BrokerMode c) mode
    (RouterGroupName c)
    (if bool_decide (TCPRouterGroupName c = EmptyString) then "default-tcp" else TCPRouterGroupName c)
    (RoutingApiUri c) (RoutingApiPort c) (RouteServiceSecret c)
    (if bool_decide (RouteServiceSecret c = EmptyString) then RouteServiceEnabled c else true)
    ip (20 * Second) (LoadBalance c) (SessionPersistence c))))).

Definition DefaultConfig : result Config := Process defaultConfig.
End process.

Lemma convertCipherStringToInt_spec cs m l :
  convertCipherStringToInt cs m = Ok l ↔ Forall2 (λ s v, m !! s = Some v) cs l.
Proof.
  revert l. induction cs as [|s cs IH]; intros l; simpl.
  - split; [by intros [= <-]|]. by intros ->%Forall2_nil_inv_l.
  - destruct (m !! s) as [v|] eqn:Hs.
    + rewrite rbind_Ok. setoid_rewrite IH. split.
      * intros (l' & H & [= <-]). by constructor.
      * intros H. apply Forall2_cons_inv_l in H as (v' & l' & Hv & H & ->). simplify_eq. eauto.
    + split; [done|]. intros H. apply Forall2_cons_inv_l in H as (v' & l' & Hv & _). congruence.
Qed.

(** What a configuration that [Process] accepts guarantees. *)
Lemma Process_Ok numCPU localIP loadCert c c' :
  Process numCPU localIP loadCert c = Ok c' →
  StartResponseDelayInterval c' ≤ DropletStaleThreshold c' ∧
  LoadBalance c' ∈ LoadBalancingStrategies ∧
  (RoutingModeOf c' = TCP ∨ RoutingModeOf c' = all → RoutingApiEnabled c' = true) ∧
  (BrokerMode c' = true → StUser (Status c') ≠ EmptyString ∧ StPass (Status c') ≠ EmptyString) ∧
  TCPRouterGroupName c' ≠ EmptyString ∧
  (RouteServiceSecret c' ≠ EmptyString → RouteServiceEnabled c' = true).
Proof.
  unfold Process. intros H.
  apply rbind_Ok in H as (ip & _ & H). apply rbind_Ok in H as ([suites cert] & _ & H).
  apply rbind_Ok in H as (mode & Hm & [= <-]). simpl.
  unfold processMode in Hm.
  case_bool_decide as Hlb; [|done]. simpl in Hm.
  destruct (negb _ && negb _) eqn:Hrg in Hm; [done|].
  apply rbind_Ok in Hm as (mode0 & _ & Hm).
  destruct (bool_decide _ && negb (RoutingApiEnabled c)) eqn:Htcp in Hm; [done|].
  destruct (BrokerMode c && _) eqn:Hbr in Hm; [done|]. injection Hm as <-.
  split_and!.
  - destruct (Z.ltb_spec (DropletStaleThreshold c) (StartResponseDelayInterval c)); lia.
  - done.
  - change (RoutingApiEnabled _) with (RoutingApiEnabled c).
    destruct (RoutingApiEnabled c) eqn:Hr; [done|]. simpl in *.
    destruct mode0; simpl in *; naive_solver.
  - intros Hb. rewrite Hb in Hbr. simpl in Hbr. apply orb_false_iff in Hbr as [H1 H2].
    by rewrite !bool_decide_eq_false in *.
  - destruct (bool_decide_reflect (TCPRouterGroupName c = EmptyString)); [discriminate|done].
  - intros Hs. by rewrite bool_decide_eq_false_2.
Qed.


(** ** Properties *)

(** A configuration that [Process] accepts has a stale threshold no
    shorter than the start delay, a known load-balancing strategy, the
    routing API enabled whenever TCP routes are handled, credentials in
    broker mode, a TCP router group, and route services on when there is a
    secret. *)
Theorem config_process_guarantees numCPU localIP loadCert c c' :
  Process numCPU localIP loadCert c = Ok c' →
  StartResponseDelayInterval c' ≤ DropletStaleThreshold c' ∧
  LoadBalance c' ∈ LoadBalancingStrategies ∧
  (RoutingModeOf c' = TCP ∨ RoutingModeOf c' = all → RoutingApiEnabled c' = true) ∧
  (BrokerMode c' = true → StUser (Status c') ≠ EmptyString ∧ StPass (Status c') ≠ EmptyString) ∧
  TCPRouterGroupName c' ≠ EmptyString ∧
  (RouteServiceSecret c' ≠ EmptyString → RouteServiceEnabled c' = true).
Proof. apply Process_Ok. Qed.

Lemma config_process_guarantees_witness :
  ∃ c', DefaultConfig 4 (Ok "10.0.0.5") (λ _ _, Err "no file") = Ok c' ∧
        StartResponseDelayInterval c' ≤ DropletStaleThreshold c' ∧ RoutingModeOf c' = HTTP.
Proof.
  destruct (DefaultConfig 4 (Ok "10.0.0.5") (λ _ _, Err "no file")) as [c'|e|w] eqn:E;
    [|vm_compute in E; discriminate E..].
  exists c'. split; [reflexivity|]. split.
  - exact (proj1 (config_process_guarantees 4 (Ok "10.0.0.5") (λ _ _, Err "no file") defaultConfig c' E)).
  - vm_compute in E. injection E as <-. reflexivity.
Defined.

(** The cipher string is accepted exactly when every name in it is a
    supported suite, and the suites are then those of the names, in order. *)
Theorem cipher_suites_exact c l :
  string_forallb is_space (CipherString c) = false →
  processCipherSuites c = Ok l ↔
  Forall2 (λ s v, cipherMap !! s = Some v) (Split ":" (CipherString c)) l.
Proof. intros Hs. unfold processCipherSuites. rewrite Hs. apply convertCipherStringToInt_spec. Qed.

Definition two_ciphers : Config :=
  mkConfig defaultBigIPConfig defaultStatusConfig "info" EmptyString (-1) true "cert" "key" None
    "TLS_RSA_WITH_RC4_128_SHA:TLS_ECDHE_RSA_WITH_AES_128_GCM_SHA256" [] 0 0 0 0 0 false "http" false
    HTTP EmptyString EmptyString EmptyString 0 EmptyString false EmptyString 0 "round-robin" true.

Lemma cipher_suites_exact_witness : processCipherSuites two_ciphers = Ok [0x0005; 0xc02f].
Proof.
  apply (cipher_suites_exact two_ciphers); [reflexivity|].
  change (Split ":" (CipherString two_ciphers)) with
    ["TLS_RSA_WITH_RC4_128_SHA"; "TLS_ECDHE_RSA_WITH_AES_128_GCM_SHA256"].
  constructor; [vm_compute; reflexivity|]. constructor; [vm_compute; reflexivity|constructor].
Defined.
