(* ===== verification/Resources.v ===== *)
(** The objects the controller configures on a BIG-IP and the plans of its
    service broker: [src/f5router/bigipResources] (bigipResources.go,
    internalDataGroup.go, the two iRules) and [src/servicebroker/planResources].

    Slices of pointers that are only read through are lists of values; a nil
    and an empty slice are both [[]].  The records' JSON tags are
    in [ConfigJson], which encodes the file the controller writes, and for
    [VirtualAddress] in [Codec]. *)
From stdpp Require Import base list gmap strings.
From Stdlib Require Import Ascii ZArith Lia.
From S2P Require Import Prelude GoStrings.
Local Open Scope Z_scope.

Module bigipResources.

Record GlobalConfig := mkGlobal { GLogLevel : string; GVerifyInterval : Z }.

(** Frontend address and port; [Port] is an [int32]. *)
Record VirtualAddress := mkVA { BindAddr : string; Port : Z }.

Record NameRef := mkNameRef { RefName : string; RefPartition : string }.

Record ProfileRef := mkProfileRef { PrfName : string; PrfPartition : string; PrfContext : string }.

Record Virtual := mkVirtual {
  VirtualServerName : string;
  PoolName : string;
  Mode : string;
  Enabled : bool;
  Destination : string;
  SourceAddress : string;
  Policies : list NameRef;
  Profiles : list ProfileRef;
  IRules : list string;
  SourceAddrTranslation : string
}.

Record Member := mkMember { MAddress : string; MPort : Z; Session : string }.

Record Pool := mkPool {
  Name : string;
  Balance : string;
  Members : list Member;
  MonitorNames : list string;
  Description : string
}.

Record Monitor := mkMonitor {
  MonName : string; Interval : Z; Type_ : string; Send : string; Recv : string; Timeout : Z
}.

Record Action := mkAction {
  Forward : bool; ActName : string; ActPool : string; ActRequest : bool;
  Expression : string; TmName : string; Tcl : bool; SetVariable : bool
}.

Record Condition := mkCondition {
  Equals : bool; StartsWith : bool; EndsWith : bool; Host : bool; HTTPHost : bool;
  HTTPURI : bool; PathSegment : bool; CondName : string; Index : Z; CondRequest : bool;
  Values : list string
}.

Record Rule := mkRule {
  FullURI : string;
  Actions : list Action;
  Conditions : list Condition;
  RuleName : string;
  Ordinal : Z;
  RuleDescription : string
}.

Record Policy := mkPolicy {
  Controls : list string;
  PolDescription : string;
  Legacy : bool;
  PolName : string;
  Requires : list string;
  PolRules : list Rule;
  Strategy : string
}.

Record IRule := mkIRule { IRuleName : string; Code : string }.

Record InternalDataGroupRecord := mkRecord { RecName : string; Data : string }.

Record InternalDataGroup := mkDataGroup { DgName : string; Records : list InternalDataGroupRecord }.

Record Resources := mkResources {
  Virtuals : list Virtual;
  Pools : list Pool;
  Monitors : list Monitor;
  RPolicies : list Policy;
  RIRules : list IRule;
  InternalDataGroups : list InternalDataGroup
}.

Definition emptyResources : Resources := mkResources [] [] [] [] [] [].

#[global] Instance VirtualAddress_eq_dec : EqDecision VirtualAddress.
Proof. solve_decision. Defined.
#[global] Instance NameRef_eq_dec : EqDecision NameRef.
Proof. solve_decision. Defined.
#[global] Instance ProfileRef_eq_dec : EqDecision ProfileRef.
Proof. solve_decision. Defined.
#[global] Instance Virtual_eq_dec : EqDecision Virtual.
Proof. solve_decision. Defined.
#[global] Instance Member_eq_dec : EqDecision Member.
Proof. solve_decision. Defined.
#[global] Instance BPool_eq_dec : EqDecision Pool.
Proof. solve_decision. Defined.
#[global] Instance Monitor_eq_dec : EqDecision Monitor.
Proof. solve_decision. Defined.
#[global] Instance Record_eq_dec : EqDecision InternalDataGroupRecord.
Proof. solve_decision. Defined.

(** [VirtualAddress.String] *)
Definition VA_String (va : VirtualAddress) : string :=
  BindAddr va +:+ ":" +:+ Itoa (Port va).

Definition set_Destination (d : string) (v : Virtual) : Virtual :=
  mkVirtual (VirtualServerName v) (PoolName v) (Mode v) (Enabled v) d (SourceAddress v)
    (Policies v) (Profiles v) (IRules v) (SourceAddrTranslation v).
Definition set_Profiles (ps : list ProfileRef) (v : Virtual) : Virtual :=
  mkVirtual (VirtualServerName v) (PoolName v) (Mode v) (Enabled v) (Destination v)
    (SourceAddress v) (Policies v) ps (IRules v) (SourceAddrTranslation v).
Definition set_Policies (ps : list NameRef) (v : Virtual) : Virtual :=
  mkVirtual (VirtualServerName v) (PoolName v) (Mode v) (Enabled v) (Destination v)
    (SourceAddress v) ps (Profiles v) (IRules v) (SourceAddrTranslation v).
Definition set_Members (ms : list Member) (p : Pool) : Pool :=
  mkPool (Name p) (Balance p) ms (MonitorNames p) (Description p).
Definition set_Balance (b : string) (p : Pool) : Pool :=
  mkPool (Name p) b (Members p) (MonitorNames p) (Description p).
Definition set_MonitorNames (ns : list string) (p : Pool) : Pool :=
  mkPool (Name p) (Balance p) (Members p) ns (Description p).
Definition set_Ordinal (o : Z) (r : Rule) : Rule :=
  mkRule (FullURI r) (Actions r) (Conditions r) (RuleName r) o (RuleDescription r).

(** ** Internal data groups *)
Definition NewInternalDataGroup (name : string) : InternalDataGroup := mkDataGroup name [].

(** Position of the first record with this name. *)
Fixpoint record_index (rs : list InternalDataGroupRecord) (name : string) : option nat :=
  match rs with
  | [] => None
  | r :: rs' => if bool_decide (RecName r = name) then Some 0%nat else S <$> record_index rs' name
  end.

Definition ReturnRecord (idg : InternalDataGroup) (name : string) : option InternalDataGroupRecord :=
  record_index (Records idg) name ≫= λ i, Records idg !! i.

Definition AddRecord (idg : InternalDataGroup) (name data : string) : InternalDataGroup :=
  match ReturnRecord idg name with
  | None => mkDataGroup (DgName idg) (Records idg ++ [mkRecord name data])
  | Some _ => idg
  end.

(** The last record is moved over the removed one. *)
Definition RemoveRecord (idg : InternalDataGroup) (name : string) : InternalDataGroup :=
  match record_index (Records idg) name with
  | Some i => mkDataGroup (DgName idg) (swap_remove i (Records idg))
  | None => idg
  end.

Definition ReturnRouteURIAndPlanName (r : InternalDataGroupRecord) : result (string * string) :=
  match Split "|" (Data r) with
  | [routeURI; planName] =>
      if bool_decide (routeURI = EmptyString) || bool_decide (planName = EmptyString)
      then Err ("Incorrect data missing routeURI: " +:+ routeURI +:+ " or planName: " +:+ planName)
      else Ok (routeURI, planName)
  | _ => Err ("Improperly formatted record: " +:+ Data r)
  end.

(** ** iRules

    The texts are written with a tilde for each double quote. *)
Definition quoted (s : string) : string := replace_char "~" (Ascii.ascii_of_nat 34) s.

Definition HTTPForwardingiRuleName : string := "forward-to-vip".

Definition ForwardToVIPiRule : string := quoted
"
when HTTP_REQUEST {
  if {[info exists target_vip] && [string length $target_vip] != 0} {
    if { [catch { virtual $target_vip } ] } {
      log local0. ~ERROR: Attempting to assign traffic to non-existent virtual $target_vip~
      reject
    }
  }
}".

Definition JsessionidIRuleName : string := "jsessionid-persistence".

Definition JsessionidIRule : string := quoted
"
when HTTP_RESPONSE {
  set jsessionid [lsearch -inline -regexp [HTTP::cookie names] (?i)^jsessionid$]
  set cookieVal [HTTP::cookie value $jsessionid]
  if { $jsessionid ne ~~ } {
    set maxAge [HTTP::cookie maxage $jsessionid]
    if { $maxAge < 0 } {
      persist add uie $cookieVal 3600
    } elseif { $maxAge == 0 } {
      if { [persist lookup uie $cookieVal] } {
        persist delete uie $cookieVal
      }
    } else {
      persist add uie $cookieVal $maxAge
    }
  }
}
when HTTP_REQUEST {
  set jsessionid [lsearch -inline -regexp [HTTP::cookie names] (?i)^jsessionid$]
  set cookieVal [HTTP::cookie value $jsessionid]
  if { $jsessionid ne ~~ } {
    set forwardNode [persist lookup uie $cookieVal node]
    set forwardPort [persist lookup uie $cookieVal port]
    set forwardIP $forwardNode:$forwardPort
    if { $forwardNode ne ~~ && $forwardPort ne ~~ } {
      node $forwardIP
    } else {
      log local0. ~Could not find endpoint for persistence record: $cookieVal. \
      Check to see if this record still exists (check Statistics -> Module Statistics -> Local \
      Traffic -> Persistence Records) or the status of the records endpoint.~
    }
  }
}".

End bigipResources.

(** ** Plans of the service broker *)
Module planResources.
Import bigipResources.

Record PoolType := mkPoolType { PlanBalance : string; PlanHealthMonitors : list Monitor }.

Record VirtualType := mkVirtualType {
  PlanPolicies : list string; PlanProfiles : list string; PlanSslProfiles : list string
}.

Record Plan := mkPlan {
  PlanName : string; PlanDescription : string; PlanPool : PoolType;
  VirtualServer : VirtualType; ID : string
}.

Definition Plans : Type := list Plan.
End planResources.

(** ** Route update operations: [src/f5router/routeUpdate/routeUpdate.go]

    [Other] is any value of the type [Operation] besides the four constants. *)
Module routeUpdate.
Inductive Operation := Add | Remove | Bind | Unbind | Other (n : Z).

#[global] Instance Operation_eq_dec : EqDecision Operation.
Proof. solve_decision. Defined.

Definition Operation_String (op : Operation) : string :=
  match op with
  | Add => "Add" | Remove => "Remove" | Bind => "Bind" | Unbind => "Unbind"
  | Other _ => "Unknown"
  end.
End routeUpdate.

(** ** Properties of data groups *)
Module DataGroupFacts.
Import bigipResources.

(** A data group seen as a map; record names are distinct in a group built
    with [AddRecord] and [RemoveRecord]. *)
Definition dg_map (idg : InternalDataGroup) : gmap string string :=
  list_to_map ((λ r, (RecName r, Data r)) <$> Records idg).

Definition dg_ok (idg : InternalDataGroup) : Prop := NoDup (RecName <$> Records idg).

Lemma record_index_Some rs name i :
  record_index rs name = Some i → ∃ r, rs !! i = Some r ∧ RecName r = name.
Proof.
  revert i. induction rs as [|r rs IH]; intros i; simpl; [done|].
  case_bool_decide as Hr; [intros [= <-]; eauto|].
  destruct (record_index rs name) as [j|]; [|done]. simpl. intros [= <-]. by apply IH.
Qed.

Lemma record_index_None rs name :
  record_index rs name = None ↔ name ∉ (RecName <$> rs).
Proof.
  induction rs as [|r rs IH]; simpl; [set_solver|].
  case_bool_decide as Hr; [set_solver|].
  rewrite not_elem_of_cons, <-IH. destruct (record_index rs name); naive_solver.
Qed.

Lemma names_keys rs : ((λ r, (RecName r, Data r)) <$> rs).*1 = RecName <$> rs.
Proof. by rewrite <-list_fmap_compose. Qed.

Lemma ReturnRecord_None idg name : ReturnRecord idg name = None ↔ name ∉ (RecName <$> Records idg).
Proof.
  rewrite <-record_index_None. unfold ReturnRecord. destruct (record_index _ _) as [i|] eqn:E; [|done].
  apply record_index_Some in E as (r & Hr & _). simpl. rewrite Hr. naive_solver.
Qed.

(** [ReturnRecord] is the lookup of the map. *)
Lemma ReturnRecord_map idg name :
  dg_ok idg → Data <$> ReturnRecord idg name = dg_map idg !! name.
Proof.
  intros Hok. destruct (ReturnRecord idg name) as [r|] eqn:E.
  - unfold ReturnRecord in E. destruct (record_index _ _) as [i|] eqn:Ei; [|done]. simpl in E.
    apply record_index_Some in Ei as (r' & Hr & <-). rewrite Hr in E. injection E as ->. symmetry.
    apply elem_of_list_to_map_1; [by rewrite names_keys|].
    apply list_elem_of_fmap. exists r. split; [done|]. eapply list_elem_of_lookup_2; eauto.
  - apply ReturnRecord_None in E. symmetry. apply not_elem_of_list_to_map_1. by rewrite names_keys.
Qed.

Lemma AddRecord_ok idg name data :
  dg_ok idg →
  dg_ok (AddRecord idg name data) ∧
  dg_map (AddRecord idg name data) =
    (if decide (is_Some (dg_map idg !! name)) then dg_map idg else <[name := data]> (dg_map idg)).
Proof.
  intros Hok. rewrite <-ReturnRecord_map by done. unfold AddRecord.
  destruct (ReturnRecord idg name) as [r|] eqn:E.
  - by rewrite decide_True by (simpl; eauto).
  - rewrite decide_False by (intros [? [=]]). apply ReturnRecord_None in E.
    unfold dg_ok, dg_map; simpl. rewrite !fmap_app; simpl. split.
    + apply NoDup_app. split; [done|]. split; [|apply NoDup_singleton]. set_solver.
    + rewrite list_to_map_snoc; [done|]. by rewrite names_keys.
Qed.

Lemma RemoveRecord_ok idg name :
  dg_ok idg →
  dg_ok (RemoveRecord idg name) ∧
  dg_map (RemoveRecord idg name) = delete name (dg_map idg).
Proof.
  intros Hok. unfold RemoveRecord.
  destruct (record_index (Records idg) name) as [i|] eqn:Ei; simpl.
  - apply record_index_Some in Ei as (r & Hr & <-). apply swap_remove_perm in Hr.
    unfold dg_ok, dg_map in *; cbn [Records]. rewrite <-Hr, fmap_cons in Hok.
    pose proof Hok as [Hn Hnd]%NoDup_cons. split; [done|].
    transitivity (delete (RecName r) (list_to_map (M := gmap string string)
      ((λ r, (RecName r, Data r)) <$> r :: swap_remove i (Records idg)))).
    2: { f_equal. apply list_to_map_proper; [by rewrite names_keys, fmap_cons|].
         by apply fmap_Permutation. }
    rewrite fmap_cons. simpl. rewrite delete_insert_id; [done|].
    apply not_elem_of_list_to_map_1. by rewrite names_keys.
  - split; [done|]. apply record_index_None in Ei. symmetry. apply delete_id.
    apply not_elem_of_list_to_map_1. by rewrite names_keys.
Qed.

(** ** Properties *)

(** Data groups built with [AddRecord] and [RemoveRecord] are finite maps
    with distinct names: adding keeps an existing record, removing deletes
    the record of that name only, and [ReturnRecord] is the lookup. *)
Theorem data_group_map idg name data :
  dg_ok idg →
  dg_ok (AddRecord idg name data) ∧ dg_ok (RemoveRecord idg name) ∧
  dg_map (AddRecord idg name data) =
    (if decide (is_Some (dg_map idg !! name)) then dg_map idg else <[name := data]> (dg_map idg)) ∧
  dg_map (RemoveRecord idg name) = delete name (dg_map idg) ∧
  Data <$> ReturnRecord idg name = dg_map idg !! name.
Proof.
  intros Hok. destruct (AddRecord_ok idg name data Hok), (RemoveRecord_ok idg name Hok).
  split_and!; try done. by apply ReturnRecord_map.
Qed.

Lemma data_group_map_witness :
  dg_ok (RemoveRecord (AddRecord (AddRecord (NewInternalDataGroup "g") "a" "1") "b" "2") "a").
Proof.
  assert (dg_ok (NewInternalDataGroup "g")) as H0 by constructor.
  pose proof (proj1 (data_group_map _ "a" "1" H0)) as H1.
  pose proof (proj1 (data_group_map _ "b" "2" H1)) as H2.
  exact (proj1 (proj2 (data_group_map _ "a" "x" H2))).
Defined.
End DataGroupFacts.
