(* ===== verification/Codec.v ===== *)
(** How a tier-2 virtual address is stored in a data-group record:
    [VirtualAddress.Encode] and [ReturnTier2VirtualAddress] of
    [src/f5router/bigipResources], with the parts of Go's [encoding/base64]
    and [encoding/json] they use.

    A string is a list of bytes.  JSON text is handled byte by byte: bytes
    from 128 up inside strings are copied (Go does the same for valid UTF-8).
    The parser runs on fuel; the length of the text is always enough, since
    every nested value starts with a byte of its own. *)
From stdpp Require Import base list gmap strings pretty.
From Stdlib Require Import Ascii ZArith Lia.
From S2P Require Import Prelude GoStrings Resources.
Import bigipResources.
Local Open Scope Z_scope.

Definition byte_val (a : ascii) : Z := Z.of_N (Ascii.N_of_ascii a).
Definition byte_of (z : Z) : ascii := Ascii.ascii_of_N (Z.to_N z).

(** ** base64.StdEncoding *)
Definition b64_char (d : Z) : ascii :=
  if d <? 26 then byte_of (65 + d)
  else if d <? 52 then byte_of (97 + (d - 26))
  else if d <? 62 then byte_of (48 + (d - 52))
  else if d =? 62 then "+"%char else "/"%char.

Definition b64_val (a : ascii) : option Z :=
  let n := byte_val a in
  if (65 <=? n) && (n <=? 90) then Some (n - 65)
  else if (97 <=? n) && (n <=? 122) then Some (n - 97 + 26)
  else if (48 <=? n) && (n <=? 57) then Some (n - 48 + 52)
  else if n =? 43 then Some 62
  else if n =? 47 then Some 63
  else None.

Fixpoint EncodeToString (s : string) : string :=
  match s with
  | EmptyString => EmptyString
  | String a EmptyString =>
      let n := byte_val a in
      String (b64_char (n / 4)) (String (b64_char (n mod 4 * 16)) "==")
  | String a (String b EmptyString) =>
      let n := byte_val a * 256 + byte_val b in
      String (b64_char (n / 1024)) (String (b64_char (n / 16 mod 64))
        (String (b64_char (n mod 16 * 4)) "="))
  | String a (String b (String c rest)) =>
      let n := (byte_val a * 256 + byte_val b) * 256 + byte_val c in
      String (b64_char (n / 262144)) (String (b64_char (n / 4096 mod 64))
        (String (b64_char (n / 64 mod 64)) (String (b64_char (n mod 64)) (EncodeToString rest))))
  end.

(** Line breaks are skipped by the decoder. *)
Fixpoint strip_newlines (s : string) : string :=
  match s with
  | EmptyString => EmptyString
  | String a s' =>
      if (byte_val a =? 10) || (byte_val a =? 13) then strip_newlines s'
      else String a (strip_newlines s')
  end.

Fixpoint decode_quanta (s : string) : option string :=
  match s with
  | EmptyString => Some EmptyString
  | String a (String b (String c (String d rest))) =>
      match b64_val a, b64_val b with
      | Some va, Some vb =>
          match b64_val c with
          | Some vc =>
              match b64_val d with
              | Some vd =>
                  let n := ((va * 64 + vb) * 64 + vc) * 64 + vd in
                  match decode_quanta rest with
                  | Some t => Some (String (byte_of (n / 65536))
                                (String (byte_of (n / 256 mod 256)) (String (byte_of (n mod 256)) t)))
                  | None => None
                  end
              | None =>
                  if bool_decide (d = "="%char) && bool_decide (rest = EmptyString) then
                    let n := (va * 64 + vb) * 64 + vc in
                    Some (String (byte_of (n / 1024)) (String (byte_of (n / 4 mod 256)) EmptyString))
                  else None
              end
          | None =>
              if bool_decide (c = "="%char) && bool_decide (d = "="%char)
                 && bool_decide (rest = EmptyString) then
                Some (String (byte_of ((va * 64 + vb) / 16)) EmptyString)
              else None
          end
      | _, _ => None
      end
  | _ => None
  end.

Definition DecodeString (s : string) : result string :=
  match decode_quanta (strip_newlines s) with
  | Some t => Ok t
  | None => Err "illegal base64 data"
  end.

(** ** JSON text *)
Definition dquote : ascii := byte_of 34.
Definition backslash : ascii := byte_of 92.

Definition hex_char (d : Z) : ascii := if d <? 10 then byte_of (48 + d) else byte_of (87 + d).

(** Escaping of [json.Marshal], which also escapes the HTML characters. *)
Definition escape_char (a : ascii) : string :=
  let n := byte_val a in
  if (n =? 34) || (n =? 92) then String backslash (String a EmptyString)
  else if n =? 10 then String backslash "n"
  else if n =? 13 then String backslash "r"
  else if n =? 9 then String backslash "t"
  else if (n <? 32) || (n =? 60) || (n =? 62) || (n =? 38) then
    String backslash ("u00" +:+ String (hex_char (n / 16)) (String (hex_char (n mod 16)) EmptyString))
  else String a EmptyString.

Fixpoint escape (s : string) : string :=
  match s with
  | EmptyString => EmptyString
  | String a s' => escape_char a +:+ escape s'
  end.

Definition json_string (s : string) : string :=
  String dquote (escape s +:+ String dquote EmptyString).

(** [json.Marshal] of a [VirtualAddress]: both fields are [omitempty]. *)
Definition Marshal (va : VirtualAddress) : string :=
  let f1 := if bool_decide (BindAddr va = EmptyString) then []
            else [json_string "bindAddr" +:+ ":" +:+ json_string (BindAddr va)] in
  let f2 := if Port va =? 0 then [] else [json_string "port" +:+ ":" +:+ Itoa (Port va)] in
  "{" +:+ Join "," (f1 ++ f2) +:+ "}".

Inductive json :=
| JNull
| JBool (b : bool)
| JNum (text : string)
| JStr (s : string)
| JArr (l : list json)
| JObj (l : list (string * json)).

Fixpoint skip_ws (s : string) : string :=
  match s with
  | String a s' =>
      let n := byte_val a in
      if (n =? 32) || (n =? 9) || (n =? 10) || (n =? 13) then skip_ws s' else s
  | EmptyString => EmptyString
  end.

Definition hex_digit_val (a : ascii) : option Z :=
  let n := byte_val a in
  if (48 <=? n) && (n <=? 57) then Some (n - 48)
  else if (97 <=? n) && (n <=? 102) then Some (n - 87)
  else if (65 <=? n) && (n <=? 70) then Some (n - 55)
  else None.

Definition hex4 (a b c d : ascii) : option Z :=
  match hex_digit_val a, hex_digit_val b, hex_digit_val c, hex_digit_val d with
  | Some x, Some y, Some z, Some w => Some (((x * 16 + y) * 16 + z) * 16 + w)
  | _, _, _, _ => None
  end.

(** UTF-8 of a code point; a lone surrogate becomes U+FFFD. *)
Definition utf8 (n : Z) : string :=
  let n := if (55296 <=? n) && (n <=? 57343) then 65533 else n in
  if n <? 128 then String (byte_of n) EmptyString
  else if n <? 2048 then
    String (byte_of (192 + n / 64)) (String (byte_of (128 + n mod 64)) EmptyString)
  else if n <? 65536 then
    String (byte_of (224 + n / 4096)) (String (byte_of (128 + n / 64 mod 64))
      (String (byte_of (128 + n mod 64)) EmptyString))
  else
    String (byte_of (240 + n / 262144)) (String (byte_of (128 + n / 4096 mod 64))
      (String (byte_of (128 + n / 64 mod 64)) (String (byte_of (128 + n mod 64)) EmptyString))).

(** The escape after a backslash: the bytes it stands for and the text left.
    [\u] escapes of a surrogate pair make one code point. *)
Definition unescape (s : string) : option (string * string) :=
  match s with
  | String e r =>
      let n := byte_val e in
      if (n =? 34) || (n =? 92) || (n =? 47) then Some (String e EmptyString, r)
      else if n =? 98 then Some (String (byte_of 8) EmptyString, r)
      else if n =? 102 then Some (String (byte_of 12) EmptyString, r)
      else if n =? 110 then Some (String (byte_of 10) EmptyString, r)
      else if n =? 114 then Some (String (byte_of 13) EmptyString, r)
      else if n =? 116 then Some (String (byte_of 9) EmptyString, r)
      else if n =? 117 then
        match r with
        | String a (String b (String c (String d r'))) =>
            match hex4 a b c d with
            | Some hi =>
                let pair :=
                  if (55296 <=? hi) && (hi <? 56320) then
                    match r' with
                    | String b1 (String u (String a' (String b' (String c' (String d' r''))))) =>
                        if (byte_val b1 =? 92) && (byte_val u =? 117) then
                          match hex4 a' b' c' d' with
                          | Some lo =>
                              if (56320 <=? lo) && (lo <? 57344)
                              then Some (65536 + (hi - 55296) * 1024 + (lo - 56320), r'')
                              else None
                          | None => None
                          end
                        else None
                    | _ => None
                    end
                  else None in
                match pair with
                | Some (n, rest) => Some (utf8 n, rest)
                | None => Some (utf8 hi, r')
                end
            | None => None
            end
        | _ => None
        end
      else None
  | EmptyString => None
  end.

(** The rest of a string literal, after its opening quote. *)
Fixpoint parse_string (fuel : nat) (s : string) : option (string * string) :=
  match fuel with
  | O => None
  | S fuel' =>
      match s with
      | EmptyString => None
      | String a r =>
          if byte_val a =? 34 then Some (EmptyString, r)
          else if byte_val a =? 92 then
            match unescape r with
            | Some (t, r') =>
                match parse_string fuel' r' with
                | Some (u, r'') => Some (t +:+ u, r'')
                | None => None
                end
            | None => None
            end
          else if byte_val a <? 32 then None
          else match parse_string fuel' r with
               | Some (u, r') => Some (String a u, r')
               | None => None
               end
      end
  end.

Fixpoint take_digits (s : string) : string * string :=
  match s with
  | String a s' =>
      if is_digit a then let '(d, r) := take_digits s' in (String a d, r) else (EmptyString, s)
  | EmptyString => (EmptyString, EmptyString)
  end.

(** A number literal: its text and what follows it. *)
Definition parse_number (s : string) : option (string * string) :=
  let '(sign, s1) := match s with
    | String a r => if byte_val a =? 45 then (String a EmptyString, r) else (EmptyString, s)
    | EmptyString => (EmptyString, s) end in
  let '(ds, s2) := take_digits s1 in
  let int_ok := match ds with
    | EmptyString => false
    | String a EmptyString => true
    | String a _ => negb (byte_val a =? 48) end in
  if negb int_ok then None else
  let frac := match s2 with
    | String a r =>
        if byte_val a =? 46 then
          let '(fs, s3) := take_digits r in
          if bool_decide (fs = EmptyString) then None else Some (String a fs, s3)
        else Some (EmptyString, s2)
    | EmptyString => Some (EmptyString, s2) end in
  match frac with
  | None => None
  | Some (fs, s3) =>
      match s3 with
      | String a r =>
          if (byte_val a =? 101) || (byte_val a =? 69) then
            let '(sg, r1) := match r with
              | String b r' => if (byte_val b =? 43) || (byte_val b =? 45)
                               then (String b EmptyString, r') else (EmptyString, r)
              | EmptyString => (EmptyString, r) end in
            let '(es, r2) := take_digits r1 in
            if bool_decide (es = EmptyString) then None
            else Some (sign +:+ ds +:+ fs +:+ String a EmptyString +:+ sg +:+ es, r2)
          else Some (sign +:+ ds +:+ fs, s3)
      | EmptyString => Some (sign +:+ ds +:+ fs, s3)
      end
  end.

(** The rest of an object, after a member's value or the opening brace. *)
Fixpoint parse_members (value : string → option (json * string)) (fuel : nat) (s : string)
  : option (list (string * json) * string) :=
  match fuel with
  | O => None
  | S fuel' =>
      match skip_ws s with
      | String q r =>
          if byte_val q =? 34 then
            match parse_string (String.length r) r with
            | Some (k, r1) =>
                match skip_ws r1 with
                | String c r2 =>
                    if byte_val c =? 58 then
                      match value r2 with
                      | Some (v, r3) =>
                          match skip_ws r3 with
                          | String e r4 =>
                              if byte_val e =? 125 then Some ([(k, v)], r4)
                              else if byte_val e =? 44 then
                                match parse_members value fuel' r4 with
                                | Some (l, r5) => Some ((k, v) :: l, r5)
                                | None => None
                                end
                              else None
                          | EmptyString => None
                          end
                      | None => None
                      end
                    else None
                | EmptyString => None
                end
            | None => None
            end
          else None
      | EmptyString => None
      end
  end.

Fixpoint parse_elements (value : string → option (json * string)) (fuel : nat) (s : string)
  : option (list json * string) :=
  match fuel with
  | O => None
  | S fuel' =>
      match value s with
      | Some (v, r) =>
          match skip_ws r with
          | String e r1 =>
              if byte_val e =? 93 then Some ([v], r1)
              else if byte_val e =? 44 then
                match parse_elements value fuel' r1 with
                | Some (l, r2) => Some (v :: l, r2)
                | None => None
                end
              else None
          | EmptyString => None
          end
      | None => None
      end
  end.

Fixpoint parse_value (fuel : nat) (s : string) : option (json * string) :=
  match fuel with
  | O => None
  | S fuel' =>
      match skip_ws s with
      | EmptyString => None
      | String a r =>
          let n := byte_val a in
          if n =? 34 then
            match parse_string (String.length r) r with
            | Some (t, r') => Some (JStr t, r')
            | None => None
            end
          else if n =? 123 then
            match skip_ws r with
            | String b r' =>
                if byte_val b =? 125 then Some (JObj [], r')
                else match parse_members (parse_value fuel') fuel' r with
                     | Some (l, r'') => Some (JObj l, r'')
                     | None => None
                     end
            | EmptyString => None
            end
          else if n =? 91 then
            match skip_ws r with
            | String b r' =>
                if byte_val b =? 93 then Some (JArr [], r')
                else match parse_elements (parse_value fuel') fuel' r with
                     | Some (l, r'') => Some (JArr l, r'')
                     | None => None
                     end
            | EmptyString => None
            end
          else if HasPrefix (String a r) "null" then Some (JNull, sdrop 3 r)
          else if HasPrefix (String a r) "true" then Some (JBool true, sdrop 3 r)
          else if HasPrefix (String a r) "false" then Some (JBool false, sdrop 4 r)
          else match parse_number (String a r) with
               | Some (t, r') => Some (JNum t, r')
               | None => None
               end
      end
  end.

Definition parse_json (s : string) : option json :=
  match parse_value (S (String.length s)) s with
  | Some (v, r) => if bool_decide (skip_ws r = EmptyString) then Some v else None
  | None => None
  end.

(** [strconv.ParseInt] of a JSON number, with the overflow check of an
    [int32] field; a fraction or an exponent is refused. *)
Fixpoint digits_val (acc : Z) (s : string) : option Z :=
  match s with
  | EmptyString => Some acc
  | String a s' => if is_digit a then digits_val (acc * 10 + (byte_val a - 48)) s' else None
  end.

Definition parse_int32 (s : string) : option Z :=
  let v := match s with
    | String a r => if byte_val a =? 45 then Z.opp <$> digits_val 0 r else digits_val 0 s
    | EmptyString => None end in
  match v with
  | Some z => if (- 2 ^ 31 <=? z) && (z <? 2 ^ 31) then Some z else None
  | None => None
  end.

(** One member of the object decoded into the struct; [false] when the value
    has the wrong type.  Keys are matched without regard to case, [null]
    leaves a field alone, unknown keys are ignored. *)
Definition decode_field (acc : VirtualAddress * bool) (kv : string * json) : VirtualAddress * bool :=
  let '(va, ok) := acc in
  if bool_decide (ToLower kv.1 = "bindaddr") then
    match kv.2 with
    | JStr s => (mkVA s (Port va), ok)
    | JNull => (va, ok)
    | _ => (va, false)
    end
  else if bool_decide (ToLower kv.1 = "port") then
    match kv.2 with
    | JNum t => match parse_int32 t with
                | Some z => (mkVA (BindAddr va) z, ok)
                | None => (va, false)
                end
    | JNull => (va, ok)
    | _ => (va, false)
    end
  else (va, ok).

(** [json.Unmarshal] into a [*VirtualAddress]; the pointer stays nil on [null]. *)
Definition Unmarshal (s : string) : result (option VirtualAddress) :=
  match parse_json s with
  | None => Err "invalid character in JSON text"
  | Some JNull => Ok None
  | Some (JObj l) =>
      let '(va, ok) := foldl decode_field (mkVA EmptyString 0, true) l in
      if ok then Ok (Some va) else Err "json: cannot unmarshal into Go struct field"
  | Some _ => Err "json: cannot unmarshal into Go value of type bigipResources.VirtualAddress"
  end.

(** ** The two methods *)
Definition Encode (va : VirtualAddress) : string := EncodeToString (Marshal va).

Definition ReturnTier2VirtualAddress (r : InternalDataGroupRecord) : result (option VirtualAddress) :=
  rbind (DecodeString (Data r)) Unmarshal.

Example Encode_example : Encode (mkVA "10.0.0.1" 10000) = "eyJiaW5kQWRkciI6IjEwLjAuMC4xIiwicG9ydCI6MTAwMDB9".
Proof. vm_compute. reflexivity. Qed.

Example Decode_example :
  ReturnTier2VirtualAddress (mkRecord "x" "eyJiaW5kQWRkciI6IjEwLjAuMC4xIiwicG9ydCI6MTAwMDB9")
  = Ok (Some (mkVA "10.0.0.1" 10000)).
Proof. vm_compute. reflexivity. Qed.

(** ** Round trip *)
Lemma byte_val_bounds a : 0 ≤ byte_val a < 256.
Proof. destruct a as [[] [] [] [] [] [] [] []]; vm_compute; split; congruence. Qed.

Lemma byte_of_val a : byte_of (byte_val a) = a.
Proof. unfold byte_of, byte_val. by rewrite N2Z.id, Ascii.ascii_N_embedding. Qed.

(** A boolean fact of the digits below 64, by inspection. *)
Lemma below64 (P : Z → bool) :
  forallb P (seqZ 0 64) = true → ∀ d, 0 ≤ d < 64 → P d = true.
Proof.
  intros H d Hd. rewrite forallb_forall in H. apply H.
  apply list_elem_of_In, elem_of_seqZ. lia.
Qed.

Lemma b64_val_char d : 0 ≤ d < 64 → b64_val (b64_char d) = Some d.
Proof.
  intros Hd. apply (bool_decide_eq_true_1 _).
  revert d Hd. apply (below64 (λ d, bool_decide (b64_val (b64_char d) = Some d))).
  vm_compute. reflexivity.
Qed.

Lemma b64_char_no_newline d :
  0 ≤ d < 64 → (byte_val (b64_char d) =? 10) || (byte_val (b64_char d) =? 13) = false.
Proof.
  intros Hd. apply negb_true_iff. revert d Hd.
  apply (below64 (λ d, negb ((byte_val (b64_char d) =? 10) || (byte_val (b64_char d) =? 13)))).
  vm_compute. reflexivity.
Qed.

Lemma string_ind3 (P : string → Prop) :
  P EmptyString → (∀ a, P (String a EmptyString)) → (∀ a b, P (String a (String b EmptyString))) →
  (∀ a b c s, P s → P (String a (String b (String c s)))) → ∀ s, P s.
Proof.
  intros H0 H1 H2 H3. fix IH 1. intros [|a [|b [|c s]]]; [done|apply H1|apply H2|].
  apply H3, IH.
Qed.

Ltac div_mod_bounds := Z.div_mod_to_equations; lia.

Ltac byte_digits :=
  match goal with |- byte_of _ = ?x =>
    transitivity (byte_of (byte_val x)); [f_equal; div_mod_bounds|apply byte_of_val] end.

Lemma strip_newlines_Encode s : strip_newlines (EncodeToString s) = EncodeToString s.
Proof.
  induction s as [|a|a b|a b c s IH] using string_ind3; [done|..];
    pose proof (byte_val_bounds a); try pose proof (byte_val_bounds b);
    try pose proof (byte_val_bounds c); cbn [EncodeToString strip_newlines];
    rewrite !b64_char_no_newline by div_mod_bounds; [done..|]. by rewrite IH.
Qed.

Lemma decode_Encode s : decode_quanta (EncodeToString s) = Some s.
Proof.
  induction s as [|a|a b|a b c s IH] using string_ind3; [done|..];
    pose proof (byte_val_bounds a); try pose proof (byte_val_bounds b);
    try pose proof (byte_val_bounds c); cbn [EncodeToString decode_quanta];
    rewrite !b64_val_char by div_mod_bounds.
  - simpl. do 2 f_equal. byte_digits.
  - simpl. do 2 f_equal; [|f_equal]; byte_digits.
  - rewrite IH. do 2 f_equal; [|f_equal; [|f_equal]]; byte_digits.
Qed.

Lemma DecodeString_Encode s : DecodeString (EncodeToString s) = Ok s.
Proof. unfold DecodeString. by rewrite strip_newlines_Encode, decode_Encode. Qed.

Lemma parse_escape_char a fuel t :
  parse_string (S fuel) (escape_char a +:+ t) =
    match parse_string fuel t with Some (u, r) => Some (String a u, r) | None => None end.
Proof. destruct a as [[] [] [] [] [] [] [] []]; reflexivity. Qed.

Lemma escape_char_length a : (1 ≤ String.length (escape_char a))%nat.
Proof. destruct a as [[] [] [] [] [] [] [] []]; vm_compute; lia. Qed.

(** A literal is read back whatever follows it. *)
Lemma parse_string_escape s r fuel :
  (String.length (escape s) < fuel)%nat →
  parse_string fuel (escape s +:+ String dquote r) = Some (s, r).
Proof.
  revert fuel. induction s as [|a s IH]; intros [|fuel] Hf; simpl in Hf; try lia; [done|].
  cbn [escape]. rewrite sapp_assoc, parse_escape_char, IH; [done|].
  rewrite slength_app in Hf. pose proof (escape_char_length a). lia.
Qed.

(** *** Decimal numbers *)
Lemma pretty_char_val d :
  (d < 10)%N → byte_val (pretty_N_char d) = 48 + Z.of_N d ∧ is_digit (pretty_N_char d) = true.
Proof.
  intros Hd.
  assert (d = 0 ∨ d = 1 ∨ d = 2 ∨ d = 3 ∨ d = 4 ∨ d = 5 ∨ d = 6 ∨ d = 7 ∨ d = 8 ∨ d = 9)%N
    as Hc by lia.
  destruct Hc as [->|[->|[->|[->|[->|[->|[->|[->|[->| ->]]]]]]]]]; done.
Qed.

Lemma pretty_N_go_spec x s :
  ∃ p, pretty_N_go x s = p +:+ s ∧ string_forallb is_digit p = true ∧
    ((0 < x)%N → ∃ a t, p = String a t ∧ byte_val a ≠ 48) ∧
    ∀ r, digits_val 0 (p +:+ r) = digits_val (Z.of_N x) r.
Proof.
  revert s. induction (N.lt_wf_0 x) as [x _ IH]; intros s.
  destruct (decide (x = 0)%N) as [->|Hx].
  - exists EmptyString. rewrite pretty_N_go_0. split_and!; [done|done|lia|done].
  - rewrite pretty_N_go_step by lia.
    pose proof (N.mod_lt x 10 ltac:(lia)) as Hm.
    destruct (pretty_char_val _ Hm) as [Hv Hd].
    destruct (IH (x `div` 10)%N ltac:(apply N.div_lt; lia) (String (pretty_N_char (x `mod` 10)) s))
      as (p & Hp & Hall & Hlead & Hval).
    exists (p +:+ String (pretty_N_char (x `mod` 10)) EmptyString). split_and!.
    + by rewrite Hp, sapp_assoc.
    + clear -Hall Hd. induction p as [|a p IHp]; simpl in *; [by rewrite Hd|].
      apply andb_true_iff in Hall as [-> ?]. by apply IHp.
    + intros _. destruct (decide (x `div` 10 = 0)%N) as [H0|H0].
      * destruct p as [|a p].
        -- exists (pretty_N_char (x `mod` 10)), EmptyString. split; [done|].
           rewrite Hv. pose proof (N.div_mod' x 10). lia.
        -- specialize (Hval EmptyString). rewrite H0, sapp_nil_r in Hval.
           rewrite H0, pretty_N_go_0 in Hp. apply (f_equal String.length) in Hp.
           rewrite slength_app in Hp. simpl in Hp. lia.
      * destruct Hlead as (a & t & -> & ?); [by apply N.neq_0_lt_0|]. simpl. eauto.
    + intros r. rewrite sapp_assoc, Hval. simpl. rewrite Hd, Hv. f_equal.
      pose proof (N.div_mod' x 10) as Hdm. apply (f_equal Z.of_N) in Hdm.
      rewrite N2Z.inj_add, N2Z.inj_mul in Hdm. lia.
Qed.

(** The text of an integer: an optional minus sign and digits without a
    leading zero, whose value is the integer. *)
Lemma Itoa_shape z :
  ∃ neg a t, Itoa z = (if neg : bool then "-" else EmptyString) +:+ String a t ∧
    is_digit a = true ∧ string_forallb is_digit t = true ∧
    (byte_val a = 48 → t = EmptyString) ∧
    digits_val 0 (String a t) = Some (if neg then - z else z).
Proof.
  assert (∀ p, ∃ a t, pretty (N.pos p) = String a t ∧ is_digit a = true ∧
    string_forallb is_digit t = true ∧ byte_val a ≠ 48 ∧ digits_val 0 (String a t) = Some (Z.pos p)) as Hpos.
  { intros p. destruct (pretty_N_go_spec (N.pos p) EmptyString) as (q & Hq & Hd & Hl & Hv).
    destruct Hl as (a & t & -> & Ha); [lia|]. specialize (Hv EmptyString).
    rewrite sapp_nil_r in Hq, Hv. simpl in Hd. apply andb_true_iff in Hd as [??].
    exists a, t. unfold pretty at 1, pretty_N. rewrite decide_False by done. by rewrite Hq. }
  destruct z as [|p|p].
  - exists false, "0"%char, EmptyString. done.
  - destruct (Hpos p) as (a & t & Hp & ? & ? & ? & ?). exists false, a, t. by split_and!.
  - destruct (Hpos p) as (a & t & Hp & ? & ? & ? & ?). exists true, a, t.
    split_and!; [|done..].
    change (Itoa (Z.neg p)) with ("-" +:+ pretty (N.pos p)). by rewrite Hp.
Qed.

Lemma take_digits_all s c r :
  string_forallb is_digit s = true → is_digit c = false →
  take_digits (s +:+ String c r) = (s, String c r).
Proof.
  intros Hs Hc. induction s as [|a s IH]; simpl in *; [by rewrite Hc|].
  apply andb_true_iff in Hs as [-> Hs]. by rewrite IH.
Qed.

Lemma digit_not_minus a : is_digit a = true → (byte_val a =? 45) = false.
Proof. destruct a as [[] [] [] [] [] [] [] []]; done. Qed.

(** A number followed by a closing brace is read whole. *)
Lemma parse_number_Itoa z r :
  parse_number (Itoa z +:+ String "}" r) = Some (Itoa z, String "}" r).
Proof.
  destruct (Itoa_shape z) as (neg & a & t & -> & Ha & Ht & Hlead & _).
  assert ((match t with EmptyString => true | String _ _ => negb (byte_val a =? 48) end) = true) as Hok.
  { destruct t; [done|]. apply negb_true_iff, Z.eqb_neq. intros H. by specialize (Hlead H). }
  unfold parse_number. destruct neg; simpl; rewrite ?(digit_not_minus a Ha); simpl;
    rewrite Ha, (take_digits_all t) by done; rewrite Hok; simpl; by rewrite !sapp_nil_r.
Qed.

Lemma parse_int32_Itoa z : - 2 ^ 31 ≤ z < 2 ^ 31 → parse_int32 (Itoa z) = Some z.
Proof.
  intros Hz. destruct (Itoa_shape z) as (neg & a & t & -> & Ha & _ & _ & Hv).
  unfold parse_int32. destruct neg; simpl String.append; simpl in Hv; simpl;
    rewrite ?(digit_not_minus a Ha), Ha in *; rewrite Hv; simpl;
    rewrite ?Z.opp_involutive; destruct (_ && _) eqn:E; try done;
    apply andb_false_iff in E as [E|E]; lia.
Qed.

Lemma parse_literal s r :
  parse_string (String.length (escape s +:+ String dquote r)) (escape s +:+ String dquote r) = Some (s, r).
Proof. apply parse_string_escape. rewrite slength_app. simpl. lia. Qed.

Lemma json_string_cons s r : json_string s +:+ r = String dquote (escape s +:+ String dquote r).
Proof. unfold json_string. by rewrite sapp_cons, sapp_assoc. Qed.

Lemma parse_value_string fuel s r : parse_value (S fuel) (json_string s +:+ r) = Some (JStr s, r).
Proof.
  rewrite json_string_cons. cbn [parse_value skip_ws].
  change (byte_val dquote) with 34. simpl. by rewrite parse_literal.
Qed.

Lemma parse_value_num_start fuel c s :
  is_digit c || (byte_val c =? 45) = true →
  parse_value (S fuel) (String c s) =
    match parse_number (String c s) with Some (t, r) => Some (JNum t, r) | None => None end.
Proof. destruct c as [[] [] [] [] [] [] [] []]; intros H; try discriminate H; reflexivity. Qed.

Lemma parse_value_number fuel z r :
  parse_value (S fuel) (Itoa z +:+ String "}" r) = Some (JNum (Itoa z), String "}" r).
Proof.
  pose proof (parse_number_Itoa z r) as Hn.
  destruct (Itoa_shape z) as ([] & a & t & Hi & Ha & _);
    rewrite Hi in *; rewrite ?sapp_cons, ?sapp_assoc in *.
  - rewrite parse_value_num_start by done. by rewrite Hn.
  - change (EmptyString +:+ ?x) with x in *. rewrite sapp_cons in *.
    rewrite parse_value_num_start by (by rewrite Ha). by rewrite Hn.
Qed.

Lemma parse_member_step value fuel k v vs rest :
  value vs = Some (v, rest) →
  parse_members value (S fuel) (json_string k +:+ String ":" vs) =
    match rest with
    | String "}" r => Some ([(k, v)], r)
    | String "," r => match parse_members value fuel r with
                      | Some (l, r5) => Some ((k, v) :: l, r5)
                      | None => None
                      end
    | _ => parse_members value (S fuel) (json_string k +:+ String ":" vs)
    end.
Proof.
  intros Hv. rewrite json_string_cons. cbn [parse_members skip_ws].
  change (byte_val dquote) with 34. simpl. rewrite parse_literal. simpl. rewrite Hv.
  destruct rest as [|e r]; [done|]. by destruct e as [[] [] [] [] [] [] [] []].
Qed.

Lemma parse_json_object k vs l :
  (∀ f, parse_members (parse_value (S (S f))) (S (S f)) (json_string k +:+ String ":" vs) =
        Some (l, EmptyString)) →
  parse_json (String "{" (json_string k +:+ String ":" vs)) = Some (JObj l).
Proof.
  intros H. unfold parse_json. rewrite json_string_cons in *.
  set (body := String dquote _) in *.
  assert (∃ f, String.length (String "{" body) = S (S f)) as [f ->].
  { unfold body. simpl. eauto. }
  transitivity (match (match parse_members (parse_value (S (S f))) (S (S f)) body with
    | Some (l, r) => Some (JObj l, r) | None => None end) with
    | Some (v, r) => if bool_decide (skip_ws r = EmptyString) then Some v else None
    | None => None end); [reflexivity|]. by rewrite H.
Qed.

(** [Unmarshal] inverts [Marshal] on every address whose port is an [int32]. *)
Lemma Unmarshal_Marshal va :
  - 2 ^ 31 ≤ Port va < 2 ^ 31 → Unmarshal (Marshal va) = Ok (Some va).
Proof.
  intros Hp. destruct va as [addr port]. simpl in Hp.
  unfold Unmarshal, Marshal. cbn [BindAddr Port].
  pose proof (parse_int32_Itoa port Hp) as Hi.
  case_bool_decide as Ha; destruct (Z.eqb_spec port 0) as [H0|H0]; subst; [done| | |];
    cbn [app Join]; repeat (rewrite sapp_assoc || rewrite sapp_cons);
    repeat change (EmptyString +:+ ?x) with x.
  - rewrite (parse_json_object "port" (Itoa port +:+ "}") [("port", JNum (Itoa port))]).
    + simpl. by rewrite Hi.
    + intros f. by erewrite parse_member_step by apply (parse_value_number _ port EmptyString).
  - rewrite (parse_json_object "bindAddr" (json_string addr +:+ "}") [("bindAddr", JStr addr)]).
    + done.
    + intros f. by erewrite parse_member_step by apply (parse_value_string _ addr "}").
  - rewrite (parse_json_object "bindAddr"
      (json_string addr +:+ String "," (json_string "port" +:+ String ":" (Itoa port +:+ "}")))
      [("bindAddr", JStr addr); ("port", JNum (Itoa port))]).
    + simpl. by rewrite Hi.
    + intros f. erewrite parse_member_step by apply parse_value_string. cbv iota beta.
      by erewrite parse_member_step by apply (parse_value_number _ port EmptyString).
Qed.

Lemma Return_Encode name va :
  - 2 ^ 31 ≤ Port va < 2 ^ 31 →
  ReturnTier2VirtualAddress (mkRecord name (Encode va)) = Ok (Some va).
Proof.
  intros Hp. unfold ReturnTier2VirtualAddress, Encode. cbn [Data].
  rewrite DecodeString_Encode. cbn [rbind]. by apply Unmarshal_Marshal.
Qed.

(** ** Properties *)

(** A virtual address survives its encoding in a data-group record: the
    record made by [Encode] decodes to the same address for every text and
    every [int32] port. *)
Theorem virtual_address_roundtrip name va :
  - 2 ^ 31 ≤ Port va < 2 ^ 31 →
  ReturnTier2VirtualAddress (mkRecord name (Encode va)) = Ok (Some va).
Proof. apply Return_Encode. Qed.

Lemma virtual_address_roundtrip_witness :
  ReturnTier2VirtualAddress (mkRecord "cf-foo" (Encode (mkVA "2001:db8::1" 10000))) =
    Ok (Some (mkVA "2001:db8::1" 10000)).
Proof. apply (virtual_address_roundtrip "cf-foo" (mkVA "2001:db8::1" 10000)). cbn [Port]. lia. Defined.
