(* ===== verification/Json.v ===== *)
(** The JSON encoder of encoding/json, which the controller uses for what it
    publishes: the start message of mbus/subscriber.go, the routes that the
    status server shows and the configuration file.

    The encoder is a function from JSON values to text; the decoder is the
    parser of Codec.v, which the controller also uses for what it receives.
    They are inverse on every value with integer numbers. *)

From Stdlib Require Import Ascii ZArith Lia.
From stdpp Require Import base gmap list strings sorting.
From S2P Require Import Prelude GoStrings Codec.

Open Scope go_scope.
Open Scope Z_scope.

(** ** The encoder *)
Fixpoint print_json (v : json) : string :=
  match v with
  | JNull => "null"
  | JBool b => if b then "true" else "false"
  | JNum t => t
  | JStr s => json_string s
  | JArr l => String "[" (Join "," (map print_json l) +:+ "]")
  | JObj l => String "{" (Join "," (map (λ kv, json_string kv.1 +:+ String ":" (print_json kv.2)) l) +:+ "}")
  end.

(** Numbers are integers. *)
Fixpoint integral (v : json) : Prop :=
  match v with
  | JNum t => ∃ z, t = Itoa z
  | JArr l => fold_right (λ v P, integral v ∧ P) True l
  | JObj l => fold_right (λ kv P, integral kv.2 ∧ P) True l
  | _ => True
  end.

Lemma json_ind' (P : json → Prop) :
  P JNull → (∀ b, P (JBool b)) → (∀ t, P (JNum t)) → (∀ s, P (JStr s)) →
  (∀ l, Forall P l → P (JArr l)) → (∀ l, Forall (λ kv, P kv.2) l → P (JObj l)) → ∀ v, P v.
Proof.
  intros H0 H1 H2 H3 H4 H5. fix IH 1. intros [|b|t|s|l|l]; [done|done|done|done| |].
  - apply H4. induction l as [|v l IHl]; constructor; [apply IH|done].
  - apply H5. induction l as [|kv l IHl]; constructor; [apply IH|done].
Qed.

(** ** The decoder reads the encoder's text *)

(** What may follow a value. *)
Definition value_end (r : string) : Prop :=
  match r with EmptyString => True | String c _ => c = ","%char ∨ c = "]"%char ∨ c = "}"%char end.

Lemma take_digits_end s r : string_forallb is_digit s = true → value_end r → take_digits (s +:+ r) = (s, r).
Proof.
  intros Hs Hr. destruct r as [|c r].
  - rewrite sapp_nil_r. induction s as [|a s IH]; simpl in *; [done|].
    apply andb_true_iff in Hs as [-> Hs]. by rewrite IH.
  - apply take_digits_all; [done|]. by destruct Hr as [->|[->| ->]].
Qed.

Lemma end_not_number c :
  c = ","%char ∨ c = "]"%char ∨ c = "}"%char →
  (byte_val c =? 46) = false ∧ (byte_val c =? 101) || (byte_val c =? 69) = false.
Proof. by intros [->|[->| ->]]. Qed.

Lemma parse_number_end z r : value_end r → parse_number (Itoa z +:+ r) = Some (Itoa z, r).
Proof.
  intros Hr. destruct (Itoa_shape z) as (neg & a & t & -> & Ha & Ht & Hlead & _).
  assert ((match t with EmptyString => true | String _ _ => negb (byte_val a =? 48) end) = true) as Hok.
  { destruct t; [done|]. apply negb_true_iff, Z.eqb_neq. intros H. by specialize (Hlead H). }
  assert (string_forallb is_digit (String a t) = true) as Hd by (cbn; by rewrite Ha).
  pose proof (take_digits_end _ r Hd Hr) as Htd. rewrite sapp_cons in Htd.
  unfold parse_number. destruct neg.
  - change (("-" +:+ String a t) +:+ r) with (String "-" (String a (t +:+ r))). cbn [byte_val]. cbv beta iota.
    change (byte_val "-" =? 45) with true. cbv iota beta. rewrite Htd. cbv iota beta. rewrite Hok. cbn [negb]. cbv iota.
    destruct r as [|c r]; [by rewrite sapp_nil_r|].
    destruct (end_not_number c Hr) as [E1 E2]. rewrite E1. cbv iota beta. rewrite E2. by rewrite sapp_nil_r.
  - change ((EmptyString +:+ String a t) +:+ r) with (String a (t +:+ r)). cbv beta iota.
    rewrite (digit_not_minus a Ha). cbv iota beta. rewrite Htd. cbv iota beta. rewrite Hok. cbn [negb]. cbv iota.
    destruct r as [|c r]; [by rewrite sapp_nil_r|].
    destruct (end_not_number c Hr) as [E1 E2]. rewrite E1. cbv iota beta. rewrite E2. by rewrite sapp_nil_r.
Qed.

(** Every value starts with a character that is not white space, which also
    decides how it is read. *)
Lemma print_integral_num t : integral (JNum t) → ∃ c s, t = String c s ∧ is_digit c || (byte_val c =? 45) = true.
Proof.
  intros [z ->]. destruct (Itoa_shape z) as ([] & a & t & -> & Ha & _); [by exists "-"%char, (String a t)|].
  exists a, t. by rewrite Ha.
Qed.

Lemma Join_length c l : (list_sum (String.length <$> l) ≤ String.length (Join c l))%nat ∧
  (length l ≤ S (String.length (Join c l)))%nat.
Proof.
  induction l as [|x [|y l] IH]; [cbn; lia|cbn; lia|]. rewrite Join_cons by done.
  rewrite slength_app. cbn [String.length fmap list_fmap list_sum foldr length] in *. lia.
Qed.

(** The fuel: more than the length of the text. *)
Definition reads (v : json) : Prop :=
  ∀ fuel r, (String.length (print_json v) < fuel)%nat → value_end r →
    parse_value fuel (print_json v +:+ r) = Some (v, r).

Lemma parse_elements_print l : ∀ fuel r,
  l ≠ [] → Forall reads l → (String.length (Join "," (map print_json l)) < fuel)%nat →
  parse_elements (parse_value fuel) fuel (Join "," (map print_json l) +:+ String "]" r) = Some (l, r).
Proof.
  intros fuel r Hne HF.
  assert (∀ k, (length l ≤ k)%nat → (String.length (Join "," (map print_json l)) < fuel)%nat →
    parse_elements (parse_value fuel) k (Join "," (map print_json l) +:+ String "]" r) = Some (l, r)) as H.
  { revert Hne. induction HF as [|v l Hv HF IH]; [done|]. intros _ [|k] Hk Hlen; [cbn in Hk; lia|].
    destruct l as [|w l].
    - cbn [map Join] in *. cbn [parse_elements]. rewrite Hv by (done || by right; left).
      cbn [skip_ws]. by change (byte_val "]") with 93.
    - cbn [map] in *. rewrite Join_cons in * by done. rewrite slength_app in Hlen. cbn [String.length] in Hlen.
      rewrite sapp_assoc, sapp_cons. cbn [parse_elements]. rewrite Hv by (lia || by left).
      cbn [skip_ws]. change (byte_val ",") with 44. cbn -[Join parse_elements String.app].
      change (print_json w :: map print_json l) with (map print_json (w :: l)) in *.
      rewrite IH; [done|done|cbn in *; lia|]. cbn [map] in *. lia. }
  intros Hlen. apply H; [|done]. pose proof (Join_length "," (map print_json l)) as [_ Hj]. rewrite length_map in Hj. lia.
Qed.

Abbreviation print_member := (λ kv : string * json, json_string kv.1 +:+ String ":" (print_json kv.2)) (only parsing).

Lemma parse_members_print l : ∀ fuel r,
  l ≠ [] → Forall (λ kv, reads kv.2) l → (String.length (Join "," (map print_member l)) < fuel)%nat →
  parse_members (parse_value fuel) fuel (Join "," (map print_member l) +:+ String "}" r) = Some (l, r).
Proof.
  intros fuel r Hne HF.
  assert (∀ k, (length l ≤ k)%nat → (String.length (Join "," (map print_member l)) < fuel)%nat →
    parse_members (parse_value fuel) k (Join "," (map print_member l) +:+ String "}" r) = Some (l, r)) as H.
  { revert Hne. induction HF as [|[key v] l Hv HF IH]; [done|]. intros _ [|k] Hk Hlen; [cbn in Hk; lia|]. cbn [snd] in Hv.
    destruct l as [|w l].
    - cbn [map Join fst snd] in *. rewrite slength_app in Hlen. cbn [String.length] in Hlen.
      rewrite sapp_assoc, sapp_cons. erewrite parse_member_step by (apply Hv; [lia|by right; right]). done.
    - cbn [map fst snd] in *. rewrite Join_cons in * by done. rewrite !slength_app in Hlen. cbn [String.length] in Hlen.
      repeat (rewrite sapp_assoc || rewrite sapp_cons).
      erewrite parse_member_step by (apply Hv; [lia|by left]). cbv iota.
      rewrite IH; [done|done|cbn in *; lia|lia]. }
  intros Hlen. apply H; [|done]. pose proof (Join_length "," (map print_member l)) as [_ Hj]. rewrite length_map in Hj. lia.
Qed.

(** White space is decided by the first character. *)
Definition is_ws (c : ascii) : bool :=
  (byte_val c =? 32) || (byte_val c =? 9) || (byte_val c =? 10) || (byte_val c =? 13).

Lemma skip_head c s : is_ws c = false → skip_ws (String c s) = String c s.
Proof. unfold is_ws. cbn [skip_ws]. by intros ->. Qed.

Lemma print_nonempty v : integral v → ∃ c s, print_json v = String c s ∧ is_ws c = false ∧
  (byte_val c =? 93) = false ∧ (byte_val c =? 125) = false.
Proof.
  destruct v as [|b|t|s|l|l]; intros Hi; cbn [print_json].
  - eexists _, _. done.
  - destruct b; by eexists _, _.
  - destruct (print_integral_num t Hi) as (c & s & -> & Hc). exists c, s. split; [done|].
    destruct c as [[] [] [] [] [] [] [] []]; try discriminate Hc; done.
  - eexists _, _. done.
  - eexists _, _. done.
  - eexists _, _. done.
Qed.

Lemma integral_arr l : integral (JArr l) ↔ Forall integral l.
Proof. induction l as [|v l IH]; [done|]. rewrite Forall_cons, <-IH. done. Qed.

Lemma integral_obj l : integral (JObj l) ↔ Forall (λ kv, integral kv.2) l.
Proof. induction l as [|v l IH]; [done|]. rewrite Forall_cons, <-IH. done. Qed.

(** The three literals. *)
Lemma parse_literals fuel r :
  parse_value (S fuel) ("null" +:+ r) = Some (JNull, r) ∧
  parse_value (S fuel) ("true" +:+ r) = Some (JBool true, r) ∧
  parse_value (S fuel) ("false" +:+ r) = Some (JBool false, r).
Proof.
  pose proof (HasPrefix_app "null" r) as Hn. pose proof (HasPrefix_app "true" r) as Ht.
  pose proof (HasPrefix_app "false" r) as Hf. unfold String.app in *. cbn [String.append] in *.
  split_and!; cbn [parse_value]; rewrite skip_head by done; cbv beta iota zeta;
    [change (byte_val "n") with 110|change (byte_val "t") with 116|change (byte_val "f") with 102];
    cbn -[HasPrefix parse_string parse_members parse_elements parse_number skip_ws]; [by rewrite Hn|by rewrite Ht|by rewrite Hf].
Qed.

Lemma reads_all v : integral v → reads v.
Proof.
  induction v as [|b|t|s|l IH|l IH] using json_ind'; intros Hi [|fuel] r Hf Hr; try lia.
  - apply parse_literals.
  - destruct b; apply parse_literals.
  - cbn [print_json]. destruct Hi as [z ->].
    destruct (print_integral_num (Itoa z)) as (c & s & Hz & Hc); [by exists z|].
    pose proof (parse_number_end z r Hr) as Hn. rewrite Hz in *. rewrite sapp_cons in *.
    rewrite parse_value_num_start by done. by rewrite Hn.
  - apply parse_value_string.
  - apply integral_arr in Hi. assert (Forall reads l) as HF.
    { eapply Forall_impl; [apply Forall_and; split; [exact IH|exact Hi]|]. cbn. intros v [H1 H2]. by apply H1. }
    cbn [print_json] in *. cbn [String.length] in Hf. rewrite slength_app in Hf. cbn [String.length] in Hf.
    rewrite sapp_cons, sapp_assoc. change ("]" +:+ r) with (String "]" r).
    destruct l as [|v l]; [done|].
    pose proof (parse_elements_print (v :: l) fuel r ltac:(done) HF ltac:(lia)) as Hp.
    inversion_clear Hi as [|?? Hv _]. destruct (print_nonempty v Hv) as (c & s & Hs & Hws & H93 & _).
    set (text := Join "," (map print_json (v :: l)) +:+ String "]" r) in *.
    assert (∃ s', text = String c s' ∧ skip_ws text = String c s') as (s' & Ht & Hst).
    { unfold text. cbn [map]. rewrite Hs. destruct l; cbn [map];
        [|rewrite Join_cons by done]; cbn [Join]; rewrite ?sapp_assoc, ?sapp_cons; (eexists; split; [done|]); by rewrite skip_head. }
    cbn [parse_value skip_ws]. change (byte_val "[") with 91. cbn -[parse_elements text skip_ws].
    rewrite Hst, H93. by rewrite Hp.
  - apply integral_obj in Hi. assert (Forall (λ kv, reads kv.2) l) as HF.
    { eapply Forall_impl; [apply Forall_and; split; [exact IH|exact Hi]|]. cbn. intros v [H1 H2]. by apply H1. }
    cbn [print_json] in *. cbn [String.length] in Hf. rewrite slength_app in Hf. cbn [String.length] in Hf.
    rewrite sapp_cons, sapp_assoc. change ("}" +:+ r) with (String "}" r).
    destruct l as [|[k v] l]; [done|].
    pose proof (parse_members_print ((k, v) :: l) fuel r ltac:(done) HF ltac:(lia)) as Hp.
    set (text := Join "," (map print_member ((k, v) :: l)) +:+ String "}" r) in *.
    assert (∃ s', text = String dquote s') as [s' Ht].
    { unfold text. cbn [map]. destruct l; cbn [map]; [|rewrite Join_cons by done]; cbn [Join fst];
        rewrite ?sapp_assoc, json_string_cons; by eexists. }
    cbn [parse_value skip_ws]. change (byte_val "{") with 123. cbn -[parse_members text skip_ws].
    rewrite Ht, skip_head by done. change (byte_val dquote =? 125) with false. rewrite <-Ht. by rewrite Hp.
Qed.

(** The decoder reads back every value from the encoder's text. *)
Lemma parse_print v : integral v → parse_json (print_json v) = Some v.
Proof.
  intros Hi. unfold parse_json. pose proof (reads_all v Hi (S (String.length (print_json v))) EmptyString) as Hr.
  rewrite sapp_nil_r in Hr. rewrite Hr by (done || lia). by rewrite bool_decide_eq_true_2.
Qed.
