(* ===== verification/GoUrl.v ===== *)
(** The part of Go's package [net/url] that builds route rules: [Parse] of a
    hierarchical URL with a fixed scheme, its [Host] and [EscapedPath].
    A string is a list of bytes. *)
From stdpp Require Import base list strings.
From Stdlib Require Import Ascii ZArith Lia.
From S2P Require Import Prelude GoStrings GoNet Codec.
Local Open Scope Z_scope.

Inductive encoding := encodePath | encodeHost | encodeZone | encodeUserPassword | encodeFragment.

Definition is_alnum (n : Z) : bool :=
  ((97 <=? n) && (n <=? 122)) || ((65 <=? n) && (n <=? 90)) || ((48 <=? n) && (n <=? 57)).

Definition byte_in (s : string) (a : ascii) : bool := contains_char a s.

Definition shouldEscape (a : ascii) (mode : encoding) : bool :=
  if is_alnum (byte_val a) then false
  else if match mode with
          | encodeHost | encodeZone => byte_in "!$&'()*+,;=:[]<>" a || (byte_val a =? 34)
          | _ => false end then false
  else if byte_in "-_.~" a then false
  else if byte_in "$&+,/:;=?@" a then
    match mode with
    | encodePath => byte_val a =? 63
    | encodeUserPassword => byte_in "@/?:" a
    | encodeFragment => false
    | _ => true
    end
  else true.

Definition is_25 (a b : ascii) : bool := (byte_val a =? 50) && (byte_val b =? 53).

(** [unescape]: the decoded text, or [None] for a malformed escape or a byte
    that may not stand in a host. *)
Fixpoint unescape (s : string) (mode : encoding) : option string :=
  match s with
  | EmptyString => Some EmptyString
  | String a s' =>
      if byte_val a =? 37 then
        match s' with
        | String x (String y rest) =>
            match hex_val x, hex_val y with
            | Some vx, Some vy =>
                let v := vx * 16 + vy in
                let bad := match mode with
                  | encodeHost => (vx <? 8) && negb (is_25 x y)
                  | encodeZone => negb (is_25 x y) && negb (v =? 32) && shouldEscape (byte_of v) encodeHost
                  | _ => false end in
                if bad then None
                else match unescape rest mode with
                     | Some t => Some (String (byte_of v) t)
                     | None => None
                     end
            | _, _ => None
            end
        | _ => None
        end
      else
        let bad := match mode with
          | encodeHost | encodeZone => (byte_val a <? 128) && shouldEscape a mode
          | _ => false end in
        if bad then None
        else match unescape s' mode with
             | Some t => Some (String a t)
             | None => None
             end
  end.

Definition upper_hex (d : Z) : ascii := if d <? 10 then byte_of (48 + d) else byte_of (55 + d).

Fixpoint escape (s : string) (mode : encoding) : string :=
  match s with
  | EmptyString => EmptyString
  | String a s' =>
      if shouldEscape a mode then
        String "%" (String (upper_hex (byte_val a / 16)) (String (upper_hex (byte_val a mod 16))
          (escape s' mode)))
      else String a (escape s' mode)
  end.

Definition validEncodedPath (s : string) : bool :=
  string_forallb (λ a, byte_in "!$&'()*+,;=:@[]%" a || negb (shouldEscape a encodePath)) s.

(** Text after the last occurrence of a byte. *)
Fixpoint cut_last (c : ascii) (s : string) : option (string * string) :=
  match s with
  | EmptyString => None
  | String a s' =>
      match cut_last c s' with
      | Some (h, t) => Some (String a h, t)
      | None => if bool_decide (a = c) then Some (EmptyString, s') else None
      end
  end.

Definition validOptionalPort (s : string) : bool :=
  match s with
  | EmptyString => true
  | String a s' => (byte_val a =? 58) && string_forallb is_digit s'
  end.

(** Position of [%25] in a string: the text before it and the text from it on. *)
Fixpoint cut_zone (s : string) : option (string * string) :=
  if HasPrefix s "%25" then Some (EmptyString, s)
  else match s with
       | EmptyString => None
       | String a s' => match cut_zone s' with Some (h, t) => Some (String a h, t) | None => None end
       end.

Definition parseHost (host : string) : option string :=
  if HasPrefix host "[" then
    match cut_last "]" host with
    | None => None
    | Some (before, colonPort) =>
        if negb (validOptionalPort colonPort) then None
        else match cut_zone before with
             | Some (h, z) =>
                 match unescape h encodeHost, unescape z encodeZone,
                       unescape (String "]" colonPort) encodeHost with
                 | Some h1, Some h2, Some h3 => Some (h1 +:+ h2 +:+ h3)
                 | _, _, _ => None
                 end
             | None => unescape host encodeHost
             end
    end
  else unescape host encodeHost.

Definition is_some_b {A} (o : option A) : bool := match o with Some _ => true | None => false end.

Definition parseAuthority (authority : string) : option string :=
  match cut_last "@" authority with
  | None => parseHost authority
  | Some (userinfo, host) =>
      match parseHost host with
      | None => None
      | Some h =>
          let ok := match cut ":" userinfo with
            | None => is_some_b (unescape userinfo encodeUserPassword)
            | Some (u, p) => is_some_b (unescape u encodeUserPassword) && is_some_b (unescape p encodeUserPassword)
            end in
          if ok then Some h else None
      end
  end.

Record Url := mkUrl { u_host : string; u_path : string; u_rawpath : string }.

Definition before (c : ascii) (s : string) : string :=
  match cut c s with Some (h, _) => h | None => s end.

(** [url.Parse ("scheme:" + s)]. *)
Definition Parse_rest (s : string) : result Url :=
  let '(u, frag) := match cut "#" s with Some (h, t) => (h, t) | None => (s, EmptyString) end in
  let rest := before "?" u in
  let auth :=
    if HasPrefix rest "//" then
      let r := sdrop 2 rest in
      match cut "/" r with
      | Some (h, t) => (parseAuthority h, String "/" t)
      | None => (parseAuthority r, EmptyString)
      end
    else (Some EmptyString, rest) in
  match auth with
  | (None, _) => Err "invalid URL host"
  | (Some host, p) =>
      match unescape p encodePath with
      | None => Err "invalid URL escape"
      | Some path =>
          let raw := if bool_decide (escape path encodePath = p) then EmptyString else p in
          match unescape frag encodeFragment with
          | None => Err "invalid URL escape"
          | Some _ => Ok (mkUrl host path raw)
          end
      end
  end.

Definition EscapedPath (u : Url) : string :=
  if negb (bool_decide (u_rawpath u = EmptyString)) && validEncodedPath (u_rawpath u)
     && bool_decide (unescape (u_rawpath u) encodePath = Some (u_path u))
  then u_rawpath u
  else if bool_decide (u_path u = "*") then "*"
  else escape (u_path u) encodePath.

Example Parse_example :
  Parse_rest "//foo.example.com:80/a%20b/c?x=1#f" = Ok (mkUrl "foo.example.com:80" "/a b/c" EmptyString).
Proof. vm_compute. reflexivity. Qed.

Example Parse_wildcard : Parse_rest "//*.example.com" = Ok (mkUrl "*.example.com" EmptyString EmptyString).
Proof. vm_compute. reflexivity. Qed.

Example Parse_bad_escape : Parse_rest "//foo.com/%zz" = Err "invalid URL escape".
Proof. vm_compute. reflexivity. Qed.
