(* ===== verification/Updates.v ===== *)
(** Route updates, the work items of the router:
    [src/f5router/httpUpdate.go], [tcpUpdate.go], [routeDomain.go] and the
    naming helpers of [f5router.go].

    The interface [RouteUpdate] is a type class with an instance per
    protocol.  [hu_logger] is the identity of the update's logger:
    [NewUpdate] makes a new logger session for every update, so two HTTP
    updates are never equal as work-queue items. *)
From stdpp Require Import base list gmap strings.
From Stdlib Require Import Ascii ZArith Lia.
From S2P Require Import Prelude GoStrings GoNet GoSha Uri Pool Config Resources.
Import bigipResources planResources routeUpdate.
Local Open Scope Z_scope.

(** ** Names *)
Definition makeObjectName (uri : string) : result string :=
  if HasPrefix uri "*." then Ok ("cf-" +:+ TrimPrefix uri "*.")
  else if contains_char "*" uri then Ok ("cf-" +:+ replace_char "*" "_" uri)
  else
    match cut "." uri with
    | Some (host, _) => Ok ("cf-" +:+ host +:+ "-" +:+ hex_bytes (take 8 (Sum256 uri)))
    | None => Panic "slice bounds out of range"
    end.

Definition fixupNames (names : list string) : list string :=
  (λ val, if HasPrefix val "/" then val else "/" +:+ val) <$> names.

Definition makeDescription (uri appID : string) : string :=
  let s := "route: " +:+ uri in
  if bool_decide (appID = EmptyString) then s else s +:+ " - App GUID: " +:+ appID.

(** One name: a reference, or the text that is skipped. *)
Definition nameRef (n : string) : NameRef + string :=
  let p := TrimPrefix n "/" in
  match Split "/" p with
  | [partition; name] => inl (mkNameRef name partition)
  | _ => inr p
  end.

Definition skippedError (skipped : list string) : option string :=
  match skipped with
  | [] => None
  | _ => Some ("skipped names: [" +:+ Join " " skipped +:+ "] need format /[partition]/[name]")
  end.

(** The references and the error, which is returned next to them. *)
Definition generateNameList (names : list string) : list NameRef * option string :=
  let parsed := nameRef <$> names in
  (omap (λ x, match x with inl r => Some r | inr _ => None end) parsed,
   skippedError (omap (λ x, match x with inr p => Some p | inl _ => None end) parsed)).

Definition generateProfileList (names : list string) (context : string)
  : list ProfileRef * option string :=
  let '(nameRefs, err) := generateNameList names in
  ((λ ref, mkProfileRef (RefName ref) (RefPartition ref) context) <$> nameRefs, err).

Definition joinBigipPath (partition objName : string) : result string :=
  if bool_decide (objName = EmptyString) then Err "object name is blank"
  else if bool_decide (partition = EmptyString) then Ok objName
  else Ok ("/" +:+ partition +:+ "/" +:+ objName).

(** [c.BigIP.Partitions[0]] *)
Definition partition0 (c : Config) : result string :=
  match Partitions (BigIP c) with
  | p :: _ => Ok p
  | [] => Panic "index out of range"
  end.

(** The address matches the source's regular expression when it is a text
    without a percent sign, a percent sign, and one or more digits. *)
Definition splitIPWithRouteDomain (address : string) : string * string :=
  match cut "%" address with
  | Some (ip, rd) =>
      if negb (bool_decide (rd = EmptyString)) && string_forallb is_digit rd then (ip, rd)
      else (address, EmptyString)
  | None => (address, EmptyString)
  end.

Definition verifyDestAddress (va : VirtualAddress) (partition : string) : result string :=
  let '(ip, rd) := splitIPWithRouteDomain (BindAddr va) in
  let rd := if bool_decide (rd = EmptyString) then rd else "%" +:+ rd in
  match ParseIP (BindAddr va) with
  | Some addr =>
      let sep := match To4 addr with Some _ => ":" | None => "." end in
      Ok ("/" +:+ partition +:+ "/" +:+ ip +:+ rd +:+ sep +:+ Itoa (bigipResources.Port va))
  | None => Err ("invalid address: " +:+ BindAddr va)
  end.

Definition makePool (name descrip : string) (members : list Member) (balanceMode : string)
  (hmNames : list string) : bigipResources.Pool :=
  bigipResources.mkPool name balanceMode members hmNames descrip.

(** ** The interface *)
Class RouteUpdate (U : Type) := {
  CreateResources : U → Config → result Resources;
  Protocol : U → string;
  Op : U → Operation;
  ru_Name : U → string;
  Route : U → string
}.

(** ** HTTP updates *)
Record updateHTTP := mkHTTP {
  hu_logger : nat;
  hu_op : Operation;
  hu_uri : Uri;
  hu_endpoint : option Endpoint;
  hu_name : string;
  hu_protocol : string;
  hu_planID : string
}.

#[global] Instance updateHTTP_eq_dec : EqDecision updateHTTP.
Proof. solve_decision. Defined.

Definition NewUpdate (l : nat) (op : Operation) (uri : Uri) (ep : option Endpoint) (planID : string)
  : result updateHTTP :=
  if bool_decide (uri = EmptyString) then Err "uri length of zero is not allowed"
  else
    match op with
    | Add | Remove =>
        rbind (makeObjectName (Uri_String uri)) (λ name,
        Ok (mkHTTP l op uri ep name "http" EmptyString))
    | Bind | Unbind =>
        rbind (makeObjectName (Uri_String uri)) (λ name,
        Ok (mkHTTP l op uri None name "http" planID))
    | Other _ => Err "unrecognized route update operation"
    end.

Definition verifyRouteURI (ru : updateHTTP) : result unit :=
  let uri := Uri_String (hu_uri ru) in
  if (1 <? count_char "*" uri)%nat
  then Err ("Invalid URI: " +:+ uri +:+ " multiple wildcards are not supported")
  else Ok tt.

Definition httpProfiles : list ProfileRef :=
  [mkProfileRef "http" "Common" "all"; mkProfileRef "tcp" "Common" "all"].

(** [createResources] of httpUpdate.go. *)
Definition createResources (hu : updateHTTP) (c : Config) (description destination address : string)
  (port : Z) : result Resources :=
  rbind (partition0 c) (λ partition,
  rbind (if SessionPersistence c
         then rbind (joinBigipPath partition JsessionidIRuleName) (λ p, Ok [p])
         else Ok []) (λ iRule,
  rbind (joinBigipPath partition (hu_name hu)) (λ poolPath,
  let '(address, port, description) :=
    match hu_endpoint hu with
    | Some ep => (Pool.Address ep, Pool.Port ep, makeDescription (Uri_String (hu_uri hu)) (ApplicationId ep))
    | None => (address, port, description)
    end in
  if bool_decide (address = EmptyString) || bool_decide (description = EmptyString)
  then Err "createResources error: missing endpoint address or description"
  else
    let vs := mkVirtual (hu_name hu) poolPath "tcp" true destination (Tier2IPRange (BigIP c))
                [] httpProfiles iRule "automap" in
    let member := mkMember address port "user-enabled" in
    let pool := makePool (hu_name hu) description [member] (LoadBalancingMode (BigIP c))
                  (fixupNames (HealthMonitors (BigIP c))) in
    Ok (mkResources [vs] [pool] [] [] [] [])))).

Definition CreateBrokerDefaultResources (hu : updateHTTP) (c : Config)
  (description destination address : string) (port : Z) : result Resources :=
  createResources hu c description destination address port.

Definition HTTP_CreateResources (hu : updateHTTP) (c : Config) : result Resources :=
  createResources hu c EmptyString EmptyString EmptyString 0.

#[global] Instance updateHTTP_RouteUpdate : RouteUpdate updateHTTP := {
  CreateResources := HTTP_CreateResources;
  Protocol := hu_protocol;
  Op := hu_op;
  ru_Name := hu_name;
  Route := λ hu, Uri_String (hu_uri hu)
}.

(** [AppID] dereferences the endpoint. *)
Definition AppID (hu : updateHTTP) : result string :=
  match hu_endpoint hu with
  | Some ep => Ok (ApplicationId ep)
  | None => Panic "invalid memory address or nil pointer dereference"
  end.

(** The monitors of a plan: the names attached to the pool and the monitors
    to create.  A monitor without a type exists on the BIG-IP already; one
    whose name is blank is skipped with a warning. *)
Fixpoint planMonitors (partition : string) (ms : list Monitor) : list string * list Monitor :=
  match ms with
  | [] => ([], [])
  | m :: rest =>
      let '(names, mons) := planMonitors partition rest in
      if bool_decide (Type_ m = EmptyString) then (MonName m :: names, mons)
      else match joinBigipPath partition (MonName m) with
           | Ok hmName => (hmName :: names, m :: mons)
           | _ => (names, mons)
           end
  end.

Definition CreatePlanResources (c : Config) (plan : Plan) : result Resources :=
  let vt := VirtualServer plan in
  let policies := (generateNameList (PlanPolicies vt)).1 in
  let profiles := (generateProfileList (PlanProfiles vt) "all").1
                  ++ (generateProfileList (PlanSslProfiles vt) "serverside").1 in
  let virtual := mkVirtual EmptyString EmptyString EmptyString false EmptyString EmptyString
                   policies profiles [] EmptyString in
  rbind (if existsb (λ m, negb (bool_decide (Type_ m = EmptyString))) (PlanHealthMonitors (PlanPool plan))
         then partition0 c else Ok EmptyString) (λ partition,
  let '(hmNames, monitors) := planMonitors partition (PlanHealthMonitors (PlanPool plan)) in
  let pool := bigipResources.mkPool EmptyString (PlanBalance (PlanPool plan)) [] hmNames EmptyString in
  Ok (mkResources [virtual] [pool] monitors [] [] [])).

(** [l[0] = f(l[0])] *)
Definition update_head {A} (f : A → A) (l : list A) : result (list A) :=
  match l with
  | x :: l' => Ok (f x :: l')
  | [] => Panic "index out of range"
  end.

Definition when {A} (b : bool) (f : A → A) (x : A) : A := if b then f x else x.

Definition nonempty {A} (l : list A) : bool := match l with [] => false | _ => true end.

(** What [UpdateResources] does to the virtual and to the pool. *)
Definition updateVirtual (new old : Virtual) : Virtual :=
  when (nonempty (Policies new)) (set_Policies (Policies new))
    (when (nonempty (Profiles new)) (set_Profiles (Profiles new)) old).

Definition updatePool (new old : bigipResources.Pool) : bigipResources.Pool :=
  when (nonempty (MonitorNames new)) (set_MonitorNames (MonitorNames new))
    (when (negb (bool_decide (Balance new = EmptyString))) (set_Balance (Balance new)) old).

Definition UpdateResources (old new : Resources) : result Resources :=
  rbind (match Virtuals new with
         | v :: _ => if nonempty (Profiles v) || nonempty (Policies v)
                     then update_head (updateVirtual v) (Virtuals old) else Ok (Virtuals old)
         | [] => Ok (Virtuals old)
         end) (λ vs,
  rbind (match Pools new with
         | p :: _ => if negb (bool_decide (Balance p = EmptyString)) || nonempty (MonitorNames p)
                     then update_head (updatePool p) (Pools old) else Ok (Pools old)
         | [] => Ok (Pools old)
         end) (λ ps,
  Ok (mkResources vs ps (if nonempty (Monitors new) then Monitors new else Monitors old)
        (RPolicies old) (RIRules old) (InternalDataGroups old)))).

(** ** TCP updates *)
Record updateTCP := mkTCP {
  tu_c : Config;
  tu_op : Operation;
  tu_routePort : Z;
  tu_member : Member;
  tu_name : string;
  tu_protocol : string
}.

Definition createTCPObjectName (c : Config) (port : Z) : string :=
  "cf-tcp-route-" +:+ TCPRouterGroupName c +:+ "-" +:+ Itoa port.

Definition NewTCPUpdate (c : Config) (op : Operation) (routePort : Z) (member : Member) : updateTCP :=
  mkTCP c op routePort member (createTCPObjectName c routePort) "tcp".

Definition TCP_CreateResources (tu : updateTCP) (c : Config) : result Resources :=
  rbind (partition0 (tu_c tu)) (λ partition,
  rbind (verifyDestAddress (mkVA (ExternalAddr (BigIP (tu_c tu))) (tu_routePort tu)) partition) (λ dest,
  let poolDescrip := "route-port: " +:+ Itoa (tu_routePort tu) +:+ ", router-group: " +:+ TCPRouterGroupName c in
  let pool := makePool (tu_name tu) poolDescrip [tu_member tu] (LoadBalancingMode (BigIP c))
                (fixupNames (HealthMonitors (BigIP c))) in
  rbind (partition0 c) (λ partition',
  rbind (joinBigipPath partition' (tu_name tu)) (λ poolPath,
  let vs := mkVirtual (tu_name tu) poolPath "tcp" true dest EmptyString []
              [mkProfileRef "tcp" "Common" "all"] [] "automap" in
  Ok (mkResources [vs] [pool] [] [] [] []))))).

#[global] Instance updateTCP_RouteUpdate : RouteUpdate updateTCP := {
  CreateResources := TCP_CreateResources;
  Protocol := tu_protocol;
  Op := tu_op;
  ru_Name := tu_name;
  Route := λ tu, Itoa (tu_routePort tu)
}.

(** ** Properties *)

Lemma makeObjectName_total uri : no_panic (makeObjectName uri) → ∃ name, makeObjectName uri = Ok name.
Proof.
  unfold makeObjectName, no_panic. intros H. repeat case_match; eauto. by edestruct H.
Qed.

(** The name of a route object starts with [cf-]. *)
Lemma makeObjectName_prefix uri n : makeObjectName uri = Ok n → ∃ k, n = "cf-" +:+ k.
Proof.
  unfold makeObjectName. destruct (HasPrefix uri "*."); [intros [= <-]; by eexists|].
  destruct (contains_char "*" uri); [intros [= <-]; by eexists|].
  destruct (cut "." uri) as [[h t]|]; [intros [= <-]; by eexists|done].
Qed.

(** [makeObjectName] panics exactly on a URI without a wildcard and
    without a dot; every other URI gets a name that starts with [cf-]. *)
Theorem object_name_panics_iff uri :
  match makeObjectName uri with
  | Ok n => ∃ k, n = "cf-" +:+ k
  | Err _ => False
  | Panic _ => count_char "*" uri = 0%nat ∧ count_char "." uri = 0%nat
  end.
Proof.
  destruct (makeObjectName uri) as [n|e|w] eqn:E; [by eapply makeObjectName_prefix| |].
  - unfold makeObjectName in E. destruct (HasPrefix uri "*."), (contains_char "*" uri); try done.
    by destruct (cut "." uri) as [[]|].
  - unfold makeObjectName in E. destruct (HasPrefix uri "*."); [done|].
    destruct (contains_char "*" uri) eqn:Hc; [done|]. apply contains_char_false in Hc.
    destruct (cut "." uri) as [[]|] eqn:Hd; [done|]. by apply cut_None in Hd.
Qed.

(** An address with a route domain is always refused: the address check
    parses the text with the percent sign still in it, so the route domain
    that [splitIPWithRouteDomain] separates never reaches a destination. *)
Theorem route_domain_refused va partition :
  count_char "%" (BindAddr va) ≠ 0%nat →
  verifyDestAddress va partition = Err ("invalid address: " +:+ BindAddr va).
Proof.
  intros Hc. unfold verifyDestAddress. destruct (splitIPWithRouteDomain (BindAddr va)) as [ip rd].
  by rewrite ParseIP_percent.
Qed.

Lemma route_domain_refused_witness :
  verifyDestAddress (mkVA "10.1.1.1%2" 80) "cf" = Err "invalid address: 10.1.1.1%2".
Proof. rewrite (route_domain_refused (mkVA "10.1.1.1%2" 80) "cf"); [reflexivity|vm_compute; discriminate]. Defined.
