(* ===== verification/Registry.v ===== *)
(** The route registry: [src/registry/registry.go] and [EndpointCount] of
    [src/registry/container/trie.go].

    The registry keeps the HTTP routes that the message bus and the routing
    API announce: a trie from route keys to endpoint pools.  Pools are shared
    by pointer (a caller of [Lookup] gets the registry's own pool), so they
    live in the store [pools] and the trie holds their addresses.  Every
    operation runs under the registry's lock, hence as one step.  [listener]
    is [None] for a nil listener and otherwise the updates handed to
    [UpdateRoute] so far, oldest first.  [suspendPruning] is a function of the
    connection state of the message bus, which the closure that [main]
    installs reads. *)
From Stdlib Require Import Ascii ZArith Lia.
From stdpp Require Import sorting countable base list gmap strings.
From S2P Require Import Prelude GoStrings Uri Trie Pool Config Resources Updates.
Import routeUpdate.
Local Open Scope Z_scope.

Inductive PruneStatus := CONNECTED | DISCONNECTED.

Record RouteRegistry := mkRegistry {
  byURI : Trie;
  pools : gmap nat Pool;
  next_pool : nat;
  suspendPruning : bool → bool;
  pruningStatus : PruneStatus;
  pruneStaleDropletsInterval : Z;
  dropletStaleThreshold : Z;
  ticker : option bool;
  timeOfLastUpdate : Z;
  listener : option (list updateHTTP)
}.

Definition upd_store (t : Trie) (m : gmap nat Pool) (r : RouteRegistry) : RouteRegistry :=
  mkRegistry t m (next_pool r) (suspendPruning r) (pruningStatus r) (pruneStaleDropletsInterval r)
    (dropletStaleThreshold r) (ticker r) (timeOfLastUpdate r) (listener r).
Definition set_suspend (f : bool → bool) (r : RouteRegistry) : RouteRegistry :=
  mkRegistry (byURI r) (pools r) (next_pool r) f (pruningStatus r) (pruneStaleDropletsInterval r)
    (dropletStaleThreshold r) (ticker r) (timeOfLastUpdate r) (listener r).
Definition set_status (s : PruneStatus) (r : RouteRegistry) : RouteRegistry :=
  mkRegistry (byURI r) (pools r) (next_pool r) (suspendPruning r) s (pruneStaleDropletsInterval r)
    (dropletStaleThreshold r) (ticker r) (timeOfLastUpdate r) (listener r).
Definition set_ticker (s : option bool) (r : RouteRegistry) : RouteRegistry :=
  mkRegistry (byURI r) (pools r) (next_pool r) (suspendPruning r) (pruningStatus r)
    (pruneStaleDropletsInterval r) (dropletStaleThreshold r) s (timeOfLastUpdate r) (listener r).
Definition set_lastUpdate (t : Z) (r : RouteRegistry) : RouteRegistry :=
  mkRegistry (byURI r) (pools r) (next_pool r) (suspendPruning r) (pruningStatus r)
    (pruneStaleDropletsInterval r) (dropletStaleThreshold r) (ticker r) t (listener r).
Definition set_listener (l : option (list updateHTTP)) (r : RouteRegistry) : RouteRegistry :=
  mkRegistry (byURI r) (pools r) (next_pool r) (suspendPruning r) (pruningStatus r)
    (pruneStaleDropletsInterval r) (dropletStaleThreshold r) (ticker r) (timeOfLastUpdate r) l.

(** A new pool object and the trie that points to it. *)
Definition new_route (t : Trie) (p : Pool) (r : RouteRegistry) : RouteRegistry :=
  mkRegistry t (<[next_pool r := p]> (pools r)) (S (next_pool r)) (suspendPruning r) (pruningStatus r)
    (pruneStaleDropletsInterval r) (dropletStaleThreshold r) (ticker r) (timeOfLastUpdate r) (listener r).

Definition deref (r : RouteRegistry) (l : nat) : result Pool :=
  match pools r !! l with Some p => Ok p | None => Panic "invalid pointer" end.

(** ** Operations *)
Definition NewRouteRegistry (c : Config) (hasListener : bool) : RouteRegistry :=
  mkRegistry NewTrie ∅ 0 (λ _, false) CONNECTED (PruneStaleDropletsInterval c) (DropletStaleThreshold c)
    None 0 (if hasListener then Some [] else None).

Definition parseContextPath (uri : Uri) : string :=
  let contextPath :=
    match SplitN2 "/" (TrimPrefix (Uri_String uri) "/") with
    | _ :: rest :: _ => "/" +:+ rest
    | _ => "/"
    end in
  match cut "?" contextPath with Some (h, _) => h | None => contextPath end.

(** An update that cannot be made is logged and skipped. *)
Definition updateRouter (op : Operation) (uri : Uri) (ep : Endpoint) (r : RouteRegistry)
  : result RouteRegistry :=
  match listener r with
  | None => Ok r
  | Some us =>
      match NewUpdate (length us) op uri (Some ep) EmptyString with
      | Ok u => Ok (set_listener (Some (us ++ [u])) r)
      | Err _ => Ok r
      | Panic w => Panic w
      end
  end.

(** The pool of a route, made and inserted when the route is new; the flag
    tells whether the endpoint's address is new to it. *)
Definition findOrCreate (uri : Uri) (ep : Endpoint) (r : RouteRegistry)
  : result (RouteRegistry * nat * Pool * bool) :=
  let routekey := RouteKey uri in
  match Find (byURI r) routekey with
  | None =>
      let pool := NewPool (Z.quot (dropletStaleThreshold r) 4) (parseContextPath uri) in
      Ok (new_route (Insert (byURI r) routekey (next_pool r)) pool r, next_pool r, pool, true)
  | Some l =>
      rbind (deref r l) (λ pool,
      Ok (r, l, pool, match FindById pool (CanonicalAddr ep) with None => true | Some _ => false end))
  end.

Definition Register (now : Z) (uri : Uri) (ep : Endpoint) (r : RouteRegistry) : result RouteRegistry :=
  rbind (findOrCreate uri ep r) (λ '(r1, l, pool, updateRoute),
  let '(pool', endpointAdded) := Put now pool ep in
  let r2 := upd_store (byURI r1) (<[l := pool']> (pools r1)) r1 in
  rbind (if endpointAdded && updateRoute then updateRouter Add (RouteKey uri) ep r2 else Ok r2)
    (λ r3, Ok (set_lastUpdate now r3))).

Definition Unregister (uri : Uri) (ep : Endpoint) (r : RouteRegistry) : result RouteRegistry :=
  let uri := RouteKey uri in
  match Find (byURI r) uri with
  | None => Ok r
  | Some l =>
      rbind (deref r l) (λ pool,
      let '(pool', endpointRemoved) := Pool.Remove pool ep in
      let r1 := upd_store (byURI r) (<[l := pool']> (pools r)) r in
      rbind (if IsEmpty pool'
             then rbind (Delete (byURI r1) uri) (λ '(t, _), Ok (upd_store t (pools r1) r1))
             else Ok r1)
        (λ r2, if endpointRemoved then updateRouter routeUpdate.Remove uri ep r2 else Ok r2))
  end.

(** [for pool == nil && err == nil]; after a failed [NextWildcard] the same
    URI is matched once more. *)
Fixpoint Lookup_loop (fuel : nat) (t : Trie) (uri : Uri) : option nat :=
  match MatchUri t uri with
  | Some l => Some l
  | None =>
      match fuel with
      | O => None
      | S fuel' =>
          match NextWildcard uri with
          | (uri', None) => Lookup_loop fuel' t uri'
          | (uri', Some _) => MatchUri t uri'
          end
      end
  end.

Definition Lookup (uri : Uri) (r : RouteRegistry) : option nat :=
  let uri := RouteKey uri in Lookup_loop (S (wildcard_steps uri)) (byURI r) uri.

(** The callback replaces [surgicalPool] at every match: the last one stays. *)
Definition LookupWithInstance (now : Z) (uri : Uri) (appID appIndex : string) (r : RouteRegistry)
  : result (option Pool) :=
  match Lookup (RouteKey uri) r with
  | None => Ok None
  | Some l =>
      rbind (deref r l) (λ p,
      Ok (fold_left (λ surgicalPool e,
            if bool_decide (ApplicationId e = appID) && bool_decide (PrivateInstanceIndex e = appIndex)
            then Some (Put now (NewPool 0 EmptyString) e).1 else surgicalPool) (Each p) None))
  end.

Definition LookupWithoutWildcard (uri : Uri) (r : RouteRegistry) : option nat :=
  Find (byURI r) (RouteKey uri).

Definition NumUris (r : RouteRegistry) : nat := PoolCount (byURI r).

(** [endpointCount] collects the addresses of all pools in one set. *)
Definition EndpointCount (m : gmap nat Pool) (t : Trie) : nat :=
  size (list_to_set (C := gset string)
    (EachNodeWithPool t ≫= λ '(_, l), match m !! l with Some p => CanonicalAddr <$> Each p | None => [] end)).

Definition NumEndpoints (r : RouteRegistry) : nat := EndpointCount (pools r) (byURI r).

Definition TimeOfLastUpdate (r : RouteRegistry) : Z := timeOfLastUpdate r.

Definition SuspendPruning (f : bool → bool) (r : RouteRegistry) : RouteRegistry := set_suspend f r.

(** [EachNodeWithPool] ranges over Go maps: the nodes are visited in an order
    the language leaves open.  Removing nodes by [Snip] inside the callback
    does not hide any other node from the walk, since a node is unlinked only
    when it has neither a pool nor children. *)
Class VisitOrder := {
  visits : Trie → list (list string * nat);
  visits_perm : ∀ t, visits t ≡ₚ EachNodeWithPool t
}.

#[global] Program Instance default_visits : VisitOrder | 100 := { visits := EachNodeWithPool }.
Solve All Obligations with done.

Section prune.
Context `{!VisitOrder}.

(** The callback is called on each node with a pool; [A] is the state it
    keeps. *)
Definition WalkNodesWithPool {A : Type} (f : list string → nat → A → A) (r : RouteRegistry) (a : A) : A :=
  fold_left (λ a '(p, l), f p l a) (visits (byURI r)) a.

Definition freshenRoutes (now : Z) (r : RouteRegistry) : RouteRegistry :=
  upd_store (byURI r)
    (fold_left (λ m '(_, l), alter (MarkUpdated now) l m) (visits (byURI r)) (pools r)) r.

(** One [Remove] update per pruned endpoint, in order. *)
Fixpoint announce_pruned (uri : Uri) (eps : list Endpoint) (r : RouteRegistry) : result RouteRegistry :=
  match eps with
  | [] => Ok r
  | e :: rest => rbind (updateRouter routeUpdate.Remove uri e r) (announce_pruned uri rest)
  end.

(** [Pool.IsEmpty] through the pointer. *)
Definition emptied (m : gmap nat Pool) (l : nat) : bool :=
  match m !! l with Some p => IsEmpty p | None => false end.

(** The callback of the pruning walk at the node with path [p]. *)
Definition pruneNode (now : Z) (p : list string) (l : nat) (r : RouteRegistry) : result RouteRegistry :=
  rbind (deref r l) (λ pool,
  let '(pool', eps) := PruneEndpoints now (dropletStaleThreshold r) pool in
  let m := <[l := pool']> (pools r) in
  let r1 := upd_store (Snip (emptied m) (byURI r) (rev p)) m r in
  match eps with
  | [] => Ok r1
  | _ :: _ => rbind (ToPath p) (λ uri, announce_pruned uri eps r1)
  end).

Fixpoint pruneNodes (now : Z) (nodes : list (list string * nat)) (r : RouteRegistry)
  : result RouteRegistry :=
  match nodes with
  | [] => Ok r
  | (p, l) :: rest => rbind (pruneNode now p l r) (pruneNodes now rest)
  end.

Definition pruneStaleDroplets (now : Z) (disconnected : bool) (r : RouteRegistry) : result RouteRegistry :=
  if suspendPruning r disconnected then Ok (set_status DISCONNECTED r)
  else
    let r1 := match pruningStatus r with DISCONNECTED => freshenRoutes now r | CONNECTED => r end in
    let r2 := set_status CONNECTED r1 in
    pruneNodes now (visits (byURI r2)) r2.

Definition StartPruningCycle (r : RouteRegistry) : RouteRegistry :=
  if 0 <? pruneStaleDropletsInterval r then set_ticker (Some true) r else r.

Definition StopPruningCycle (r : RouteRegistry) : RouteRegistry :=
  match ticker r with Some _ => set_ticker (Some false) r | None => r end.

(** One tick of the goroutine of [StartPruningCycle]; a stopped or missing
    ticker delivers none. *)
Definition tick (now : Z) (disconnected : bool) (r : RouteRegistry) : result RouteRegistry :=
  match ticker r with
  | Some true => pruneStaleDroplets now disconnected r
  | _ => Ok r
  end.
End prune.

(** ** Abstract view: routes as a map from paths to endpoints by address *)
Abbreviation Routes := (gmap (list string) (gmap string (Endpoint * Z))) (only parsing).

Definition held (m : gmap nat Pool) (l : nat) : gmap string (Endpoint * Z) :=
  match m !! l with Some p => abs p | None => ∅ end.

Definition routes_of (t : Trie) (m : gmap nat Pool) : Routes := held m <$> pool_map t.
Definition routes (r : RouteRegistry) : Routes := routes_of (byURI r) (pools r).

(** The paths that come from announced routes: their text is the path joined
    again, and an update can be made for it. *)
Definition good_key (key : string) : Prop :=
  key ≠ EmptyString ∧ no_panic (makeObjectName (Uri_String key)).
Definition good_path (p : list string) : Prop :=
  p = Split "/" (Join "/" p) ∧ good_key (Join "/" p) ∧ HasPrefix (Join "/" p) "/" = false.

(** A URI whose route key has no slash at either end, is not empty, and can be
    given an object name. *)
Definition good_uri (uri : Uri) : Prop :=
  uri_key (RouteKey uri) = RouteKey uri ∧ good_key (RouteKey uri).

Record store_ok (t : Trie) (m : gmap nat Pool) (n : nat) : Prop := {
  so_wf : trie_wf t;
  so_pool : ∀ p l, pool_at t p = Some l → ∃ pl, m !! l = Some pl ∧ pool_ok pl ∧ IsEmpty pl = false;
  so_inj : ∀ p q l, pool_at t p = Some l → pool_at t q = Some l → p = q;
  so_fresh : ∀ l pl, m !! l = Some pl → (l < n)%nat;
  so_path : ∀ p l, pool_at t p = Some l → good_path p
}.

Definition reg_ok (r : RouteRegistry) : Prop := store_ok (byURI r) (pools r) (next_pool r).

Lemma routes_of_lookup t m p : routes_of t m !! p = held m <$> pool_at t p.
Proof. unfold routes_of. by rewrite lookup_fmap, pool_map_lookup. Qed.

Section store.
Context (t : Trie) (m : gmap nat Pool) (n : nat) (Hok : store_ok t m n).

Lemma store_held p l : pool_at t p = Some l →
  ∃ pl, m !! l = Some pl ∧ pool_ok pl ∧ IsEmpty pl = false ∧ routes_of t m !! p = Some (abs pl).
Proof.
  intros Hp. destruct (so_pool _ _ _ Hok p l Hp) as (pl & Hl & H1 & H2).
  exists pl. split_and!; try done. by rewrite routes_of_lookup, Hp; simpl; unfold held; rewrite Hl.
Qed.

(** Writing a pool that stays nonempty. *)
Lemma store_write p l pl :
  pool_at t p = Some l → pool_ok pl → IsEmpty pl = false →
  store_ok t (<[l := pl]> m) n ∧ routes_of t (<[l := pl]> m) = <[p := abs pl]> (routes_of t m).
Proof.
  intros Hp Hpl He. pose proof Hok as [H1 H2 H3 H4 H5]. split.
  - split; try done.
    + intros q l' Hq. destruct (decide (l' = l)) as [->|].
      * exists pl. by rewrite lookup_insert_eq.
      * rewrite lookup_insert_ne by done. eauto.
    + intros l' pl' [[<- _]|[_ Hl']]%lookup_insert_Some; [|eauto].
      destruct (H2 p l Hp) as (pl0 & Hl0 & _). eauto.
  - apply map_eq. intros q. rewrite routes_of_lookup. destruct (decide (q = p)) as [->|Hq].
    + rewrite lookup_insert_eq, Hp. simpl. unfold held. by rewrite lookup_insert_eq.
    + rewrite lookup_insert_ne, routes_of_lookup by done.
      destruct (pool_at t q) as [l'|] eqn:Hl'; [|done]. simpl. unfold held.
      rewrite lookup_insert_ne; [done|]. intros ->. apply Hq. by apply (H3 q p l').
Qed.

(** Dropping a route, whatever its pool holds by then. *)
Lemma store_drop t' p l pl :
  pool_at t p = Some l → trie_wf t' →
  (∀ q, pool_at t' q = if decide (q = p) then None else pool_at t q) →
  store_ok t' (<[l := pl]> m) n ∧ routes_of t' (<[l := pl]> m) = delete p (routes_of t m).
Proof.
  intros Hp Hwf Ht'. pose proof Hok as [H1 H2 H3 H4 H5].
  assert (∀ q l', pool_at t' q = Some l' → q ≠ p ∧ pool_at t q = Some l' ∧ l' ≠ l) as Hin.
  { intros q l'. rewrite Ht'. case_decide as Hd; [done|]. intros Hq. split_and!; [done..|].
    intros ->. apply Hd. eauto. }
  split.
  - split; try done.
    + intros q l' (_ & Hq & Hl)%Hin. rewrite lookup_insert_ne by done. eauto.
    + intros q q' l' (_ & Hq & _)%Hin (_ & Hq' & _)%Hin. eauto.
    + intros l' pl' [[<- _]|[_ Hl']]%lookup_insert_Some; [|eauto].
      destruct (H2 p l Hp) as (pl0 & Hl0 & _). eauto.
    + intros q l' (_ & Hq & _)%Hin. eauto.
  - apply map_eq. intros q. rewrite routes_of_lookup, lookup_delete, routes_of_lookup, Ht'.
    destruct (decide (q = p)) as [->|Hq]; [by rewrite decide_True|]. rewrite decide_False by done.
    destruct (pool_at t q) as [l'|] eqn:Hl'; [|done]. simpl. unfold held.
    rewrite lookup_insert_ne; [done|]. intros ->. apply Hq. eauto.
Qed.

(** A new route with its first pool. *)
Lemma store_new p pl :
  pool_at t p = None → good_path p → pool_ok pl → IsEmpty pl = false → p ≠ [] →
  store_ok (insert_path t p n) (<[n := pl]> m) (S n) ∧
  routes_of (insert_path t p n) (<[n := pl]> m) = <[p := abs pl]> (routes_of t m).
Proof.
  intros Hp Hg Hpl He Hne. pose proof Hok as [H1 H2 H3 H4 H5].
  assert (∀ q l, pool_at t q = Some l → l ≠ n) as Hn.
  { intros q l Hq ->. destruct (H2 q n Hq) as (pl0 & Hl0 & _). apply H4 in Hl0. lia. }
  split.
  - split.
    + by apply insert_path_wf.
    + intros q l. rewrite pool_at_insert_path. case_decide; intros Hq.
      * simplify_eq. exists pl. by rewrite lookup_insert_eq.
      * rewrite lookup_insert_ne by (apply not_eq_sym; eauto). eauto.
    + intros q q' l. rewrite !pool_at_insert_path. intros Hq Hq'.
      destruct (decide (q = p)), (decide (q' = p)); simplify_eq; eauto; exfalso; by eapply Hn.
    + intros l pl' [[<- _]|[_ Hl']]%lookup_insert_Some; [lia|]. apply H4 in Hl'. lia.
    + intros q l. rewrite pool_at_insert_path. case_decide; [by subst|eauto].
  - apply map_eq. intros q. rewrite routes_of_lookup, pool_at_insert_path.
    destruct (decide (q = p)) as [->|Hq].
    + rewrite lookup_insert_eq. simpl. unfold held. by rewrite lookup_insert_eq.
    + rewrite lookup_insert_ne, routes_of_lookup by done.
      destruct (pool_at t q) as [l'|] eqn:Hl'; [|done]. simpl. unfold held.
      rewrite lookup_insert_ne; [done|]. apply not_eq_sym. eauto.
Qed.
End store.

(** ** Updates sent to the listener *)
Definition event : Type := Operation * string * option Endpoint.
Definition event_of (u : updateHTTP) : event := (hu_op u, hu_uri u, hu_endpoint u).

Definition sent (r : RouteRegistry) : list event :=
  match listener r with Some us => event_of <$> us | None => [] end.

(** What reaches the listener of [r], if it has one. *)
Definition tell (r : RouteRegistry) (evs : list event) : list event :=
  match listener r with Some _ => evs | None => [] end.

(** [r'] is [r] after sending [evs]: nothing but the listener has changed. *)
Definition told (r : RouteRegistry) (evs : list event) (r' : RouteRegistry) : Prop :=
  r' = set_listener (listener r') r ∧ (is_Some (listener r') ↔ is_Some (listener r)) ∧
  sent r' = sent r ++ tell r evs.

Lemma told_nil r : told r [] r.
Proof.
  unfold told, tell, sent. split; [by destruct r|]. split; [done|].
  destruct (listener r); by rewrite app_nil_r.
Qed.

#[export] Hint Resolve told_nil : go.

Lemma told_trans r evs1 r1 evs2 r2 :
  told r evs1 r1 → told r1 evs2 r2 → told r (evs1 ++ evs2) r2.
Proof.
  intros (E1 & L1 & S1) (E2 & L2 & S2). split_and!.
  - rewrite E2, E1. done.
  - by rewrite L2.
  - rewrite S2, S1, <-app_assoc. f_equal. unfold tell.
    destruct (listener r1), (listener r); try done.
    + destruct L1 as [L1 _]. by destruct L1.
    + destruct L1 as [_ L1]. by destruct L1.
Qed.

Lemma updateRouter_told op key ep r :
  good_key key → op = Add ∨ op = routeUpdate.Remove →
  ∃ r', updateRouter op key ep r = Ok r' ∧ told r [(op, key, Some ep)] r'.
Proof.
  intros [Hk [name Hn]%makeObjectName_total] Hop. unfold updateRouter.
  destruct (listener r) as [us|] eqn:Hl.
  2:{ exists r. split; [done|]. unfold told, tell, sent. rewrite Hl. by destruct r; simpl in *; subst. }
  assert (∃ u, NewUpdate (length us) op key (Some ep) EmptyString = Ok u ∧ event_of u = (op, key, Some ep))
    as (u & -> & Hu).
  { unfold NewUpdate. rewrite bool_decide_eq_false_2 by done. rewrite Hn.
    destruct Hop as [-> | ->]; simpl; eexists; done. }
  eexists. split; [done|]. unfold told, tell, sent. simpl. rewrite Hl. split_and!; [done|by split; eauto|].
  rewrite fmap_app. simpl. by rewrite Hu.
Qed.

Lemma told_reg_ok r evs r' : told r evs r' → reg_ok r → reg_ok r'.
Proof. intros (-> & _ & _). done. Qed.

Lemma told_routes r evs r' : told r evs r' → routes r' = routes r.
Proof. intros (-> & _ & _). done. Qed.

(** ** Register and Unregister *)
Lemma good_uri_segments uri :
  good_uri uri → segments (RouteKey uri) = Split "/" (RouteKey uri) ∧ good_path (segments (RouteKey uri)) ∧
    Join "/" (segments (RouteKey uri)) = RouteKey uri.
Proof.
  intros [Hk Hg]. unfold segments, good_path. rewrite Hk, Join_Split. split_and!; try done.
  destruct (HasPrefix (RouteKey uri) "/") eqn:Hp; [|done]. exfalso. unfold uri_key, TrimPrefix, Uri_String in Hk.
  destruct (HasPrefix (trim_suffix "/" (RouteKey uri)) "/") eqn:Ht; [|by rewrite Hk, Hp in Ht].
  apply HasPrefix_spec in Ht as [t Ht]. rewrite Ht, sdrop_app in Hk. subst t.
  apply (f_equal String.length) in Ht. rewrite slength_app in Ht. cbn in Ht.
  destruct (trim_suffix_spec "/" (RouteKey uri)) as [E|E]; apply (f_equal String.length) in E; rewrite ?slength_app in E; lia.
Qed.

Lemma Put_nonempty now p ep : pool_ok p → ep_valid ep → IsEmpty (Put now p ep).1 = false.
Proof.
  intros Hok Hv. destruct (Put_spec now p ep Hok Hv) as [Hok' Habs].
  apply not_true_is_false. rewrite abs_empty by done. apply (f_equal fst) in Habs. simpl in Habs.
  rewrite Habs. unfold put_spec. intros E. apply (f_equal (lookup (CanonicalAddr ep))) in E. revert E.
  destruct (abs p !! CanonicalAddr ep) as [[old u]|] eqn:Ha; simpl;
    repeat case_match; simpl; rewrite ?lookup_insert_eq, ?lookup_empty, ?Ha; done.
Qed.

(** What a registration does to the routes, and what it announces. *)
Definition spec_register (now : Z) (p : list string) (ep : Endpoint) (R : Routes) : Routes :=
  <[p := (put_spec now (default ∅ (R !! p)) ep).1]> R.

Definition known (R : Routes) (p : list string) (addr : string) : bool :=
  bool_decide (is_Some (R !! p ≫= λ m, m !! addr)).

Lemma findOrCreate_spec uri ep r :
  reg_ok r → good_uri uri →
  let p := segments (RouteKey uri) in
  ∃ r1 l pool upd, findOrCreate uri ep r = Ok (r1, l, pool, upd) ∧
    pool_ok pool ∧ abs pool = default ∅ (routes r !! p) ∧
    upd = negb (known (routes r) p (CanonicalAddr ep)) ∧ listener r1 = listener r ∧
    ∀ pl, pool_ok pl → IsEmpty pl = false →
      store_ok (byURI r1) (<[l := pl]> (pools r1)) (next_pool r1) ∧
      routes_of (byURI r1) (<[l := pl]> (pools r1)) = <[p := abs pl]> (routes r).
Proof.
  intros Hok Hu p. destruct (good_uri_segments uri Hu) as (_ & Hgp & _). fold p in Hgp.
  assert (p ≠ []) as Hne by apply segments_not_nil.
  unfold findOrCreate. rewrite Find_segments. fold p. unfold known. unfold reg_ok in Hok.
  destruct (pool_at (byURI r) p) as [l|] eqn:Hp.
  - destruct (store_held _ _ _ Hok p l Hp) as (pl & Hl & Hpl & He & HR).
    unfold deref. rewrite Hl. simpl. eexists r, l, pl, _. split; [done|]. unfold routes. rewrite HR.
    split_and!; try done.
    + rewrite (FindById_abs pl) by done. simpl. by destruct (abs pl !! CanonicalAddr ep).
    + intros pl' ??. by apply store_write.
  - assert (routes r !! p = None) as HR by (unfold routes; by rewrite routes_of_lookup, Hp).
    eexists _, _, _, _. split; [done|]. rewrite HR. simpl.
    split_and!; try done; [auto with go|].
    intros pl ??. rewrite insert_insert_eq, Insert_segments. by apply store_new.
Qed.

(** A new address is always taken. *)
Lemma put_spec_new now R p ep :
  known R p (CanonicalAddr ep) = false → (put_spec now (default ∅ (R !! p)) ep).2 = true.
Proof.
  unfold known, put_spec. intros Hk%bool_decide_eq_false. destruct (R !! p) as [m|]; simpl in *.
  - destruct (m !! CanonicalAddr ep); [by destruct Hk|done].
  - by rewrite lookup_empty.
Qed.

Lemma Register_spec now uri ep r :
  reg_ok r → good_uri uri → ep_valid ep →
  ∃ r', Register now uri ep r = Ok r' ∧ reg_ok r' ∧
    routes r' = spec_register now (segments (RouteKey uri)) ep (routes r) ∧
    (is_Some (listener r') ↔ is_Some (listener r)) ∧ timeOfLastUpdate r' = now ∧
    sent r' = sent r ++ tell r (if known (routes r) (segments (RouteKey uri)) (CanonicalAddr ep) then []
                                else [(Add, RouteKey uri, Some ep)]).
Proof.
  intros Hok Hu Hv. set (p := segments (RouteKey uri)).
  destruct (findOrCreate_spec uri ep r Hok Hu) as (r1 & l & pool & upd & E & Hpool & Habs & Hupd & Hl1 & Hstore).
  fold p in Habs, Hupd, Hstore. unfold Register. rewrite E. simpl. clear E.
  destruct (Put_spec now pool ep Hpool Hv) as [Hok' Hput]. rewrite Habs in Hput.
  pose proof (Put_nonempty now pool ep Hpool Hv) as Hne'.
  destruct (Put now pool ep) as [pool' added]. simpl in *.
  destruct (Hstore pool' Hok' Hne') as [Hst HR].
  set (r2 := upd_store (byURI r1) (<[l := pool']> (pools r1)) r1).
  assert (routes r2 = spec_register now p ep (routes r)) as HR2.
  { unfold spec_register. rewrite <-Hput. exact HR. }
  assert (∃ r3, (if added && upd then updateRouter Add (RouteKey uri) ep r2 else Ok r2) = Ok r3 ∧
     told r2 (if known (routes r) p (CanonicalAddr ep) then [] else [(Add, RouteKey uri, Some ep)]) r3)
    as (r3 & -> & Ht).
  { subst upd. destruct (known (routes r) p (CanonicalAddr ep)) eqn:Hk; simpl.
    - rewrite andb_false_r. exists r2. split; [done|auto with go].
    - apply (put_spec_new now) in Hk. rewrite <-Hput in Hk. simpl in Hk. subst added.
      apply updateRouter_told; [apply Hu|by left]. }
  simpl. eexists. split; [done|]. pose proof (told_reg_ok _ _ _ Ht Hst).
  pose proof (told_routes _ _ _ Ht) as HR3. destruct Ht as (_ & HL & HS).
  split_and!; [done|by rewrite <-HR2, <-HR3| |done|].
  - simpl. rewrite HL. simpl. by rewrite Hl1.
  - unfold sent, tell in *. simpl in *. rewrite Hl1 in HS. exact HS.
Qed.

(** A route without endpoints disappears. *)
Definition put_route (p : list string) (m : gmap string (Endpoint * Z)) (R : Routes) : Routes :=
  if decide (m = ∅) then delete p R else <[p := m]> R.

(** Whether the registry holds the endpoint's address with a tag that the
    removal may replace. *)
Definition removable (R : Routes) (p : list string) (ep : Endpoint) : bool :=
  match R !! p ≫= λ m, m !! CanonicalAddr ep with
  | Some (old, _) => modificationTagSameOrNewer old ep
  | None => false
  end.

Definition spec_unregister (p : list string) (ep : Endpoint) (R : Routes) : Routes :=
  if removable R p ep then put_route p (delete (CanonicalAddr ep) (default ∅ (R !! p))) R else R.

(** Writing back a pool, with the route dropped by [t'] when it is empty. *)
Lemma store_put_route t m n p l pl t' :
  store_ok t m n → pool_at t p = Some l → pool_ok pl →
  (if IsEmpty pl
   then trie_wf t' ∧ ∀ q, pool_at t' q = if decide (q = p) then None else pool_at t q
   else t' = t) →
  store_ok t' (<[l := pl]> m) n ∧ routes_of t' (<[l := pl]> m) = put_route p (abs pl) (routes_of t m).
Proof.
  intros Hok Hp Hpl. unfold put_route. destruct (IsEmpty pl) eqn:He.
  - rewrite decide_True by (by apply abs_empty). intros [Hwf Ht]. by apply store_drop.
  - rewrite decide_False by (by rewrite <-abs_empty, He). intros ->. by apply store_write.
Qed.

Lemma Unregister_spec uri ep r :
  reg_ok r → good_uri uri →
  ∃ r', Unregister uri ep r = Ok r' ∧ reg_ok r' ∧
    routes r' = spec_unregister (segments (RouteKey uri)) ep (routes r) ∧
    (is_Some (listener r') ↔ is_Some (listener r)) ∧
    sent r' = sent r ++ tell r (if removable (routes r) (segments (RouteKey uri)) ep
                                then [(routeUpdate.Remove, RouteKey uri, Some ep)] else []).
Proof.
  intros Hok Hu. unfold Unregister, spec_unregister, removable. rewrite Find_segments.
  set (p := segments (RouteKey uri)). unfold reg_ok in Hok.
  destruct (pool_at (byURI r) p) as [l|] eqn:Hp.
  2:{ assert (routes r !! p = None) as -> by (unfold routes; by rewrite routes_of_lookup, Hp).
      exists r. split; [done|]. split; [exact Hok|]. split; [done|]. split; [done|]. apply (told_nil r). }
  destruct (store_held _ _ _ Hok p l Hp) as (pl & Hl & Hpl & He & HR).
  unfold deref. rewrite Hl. simpl. change (routes r !! p = Some (abs pl)) in HR. rewrite !HR. simpl.
  destruct (Remove_spec pl ep Hpl) as [Hok' Hrem].
  destruct (Pool.Remove pl ep) as [pl' removed]. simpl in *.
  assert (∃ t', (if IsEmpty pl' then rbind (Delete (byURI r) (RouteKey uri))
                    (λ '(t, _), Ok (upd_store t (<[l:=pl']> (pools r)) (upd_store (byURI r) (<[l:=pl']> (pools r)) r)))
                 else Ok (upd_store (byURI r) (<[l:=pl']> (pools r)) r))
            = Ok (upd_store t' (<[l:=pl']> (pools r)) r) ∧
            (if IsEmpty pl'
             then trie_wf t' ∧ ∀ q, pool_at t' q = if decide (q = p) then None else pool_at (byURI r) q
             else t' = byURI r)) as (t' & Hd & Ht').
  { destruct (IsEmpty pl'); [|by exists (byURI r)].
    destruct (Delete_spec (byURI r) (RouteKey uri) l (so_wf _ _ _ Hok) Hp) as (t' & -> & Hwf & Hq).
    by exists t'. }
  rewrite Hd. simpl. clear Hd.
  destruct (store_put_route _ _ _ p l pl' t' Hok Hp Hok' Ht') as [Hst HR'].
  assert (put_route p (abs pl) (routes r) = routes r) as Hsame.
  { unfold put_route. rewrite decide_False; [by apply insert_id|].
    by rewrite <-abs_empty, He. }
  destruct (abs pl !! CanonicalAddr ep) as [[old u]|]; [destruct (modificationTagSameOrNewer old ep)|];
    injection Hrem as HA ->; rewrite HA in HR'.
  - destruct (updateRouter_told routeUpdate.Remove (RouteKey uri) ep
      (upd_store t' (<[l:=pl']> (pools r)) r)) as (r' & E & Ht); [apply Hu|by right|].
    exists r'. split; [done|]. pose proof (told_reg_ok _ _ _ Ht Hst).
    pose proof (told_routes _ _ _ Ht) as HR3. destruct Ht as (_ & HL & HS).
    split_and!; [done|by rewrite HR3|done|done].
  - eexists. split; [done|]. split_and!; [done|exact (eq_trans HR' Hsame)|done|apply (told_nil r)].
  - eexists. split; [done|]. split_and!; [done|exact (eq_trans HR' Hsame)|done|apply (told_nil r)].
Qed.

(** ** Pruning *)
Definition settings (r : RouteRegistry) :=
  (suspendPruning r, pruningStatus r, pruneStaleDropletsInterval r, dropletStaleThreshold r, ticker r,
   timeOfLastUpdate r).

Definition live (m : gmap string (Endpoint * Z)) : option (gmap string (Endpoint * Z)) :=
  if decide (m = ∅) then None else Some m.

Lemma put_route_lookup p m R q : put_route p m R !! q = if decide (q = p) then live m else R !! q.
Proof.
  unfold put_route, live. destruct (decide (q = p)) as [->|]; case_decide;
    by simplify_map_eq.
Qed.

Lemma ToPath_Join p : p ≠ [] → ToPath p = Ok (Join "/" p).
Proof.
  intros Hp. unfold ToPath. destruct p as [|s0 p0]; [done|]. f_equal.
  generalize dependent (s0 :: p0). clear. intros p.
  induction p as [|s p IH] using rev_ind; [done|]. intros _.
  destruct (decide (p = [])) as [->|Hp]; [done|].
  rewrite rev_app_distr. simpl. rewrite Join_snoc by done. rewrite <-IH by done.
  destruct (rev p) eqn:E; [|done].
  apply (f_equal (@rev _)) in E. rewrite rev_involutive in E. done.
Qed.

Definition remove_event (uri : string) (e : Endpoint) : event := (routeUpdate.Remove, uri, Some e).

Lemma announce_pruned_told uri eps r :
  good_key uri →
  ∃ r', announce_pruned uri eps r = Ok r' ∧ told r (remove_event uri <$> eps) r'.
Proof.
  intros Hk. revert r. induction eps as [|e eps IH]; intros r; [exists r; split; [done|auto with go]|].
  destruct (updateRouter_told routeUpdate.Remove uri e r Hk) as (r1 & E1 & T1); [by right|].
  destruct (IH r1) as (r2 & E2 & T2). exists r2. simpl. rewrite E1. split; [done|].
  exact (told_trans _ _ _ _ _ T1 T2).
Qed.

Lemma Snip_pruned t m n p l pl :
  store_ok t m n → pool_at t p = Some l →
  let t' := Snip (emptied (<[l := pl]> m)) t (rev p) in
  if IsEmpty pl
  then trie_wf t' ∧ ∀ q, pool_at t' q = if decide (q = p) then None else pool_at t q
  else t' = t.
Proof.
  intros Hok Hp t'. pose proof Hok as [H1 H2 H3 H4 H5].
  assert (p ≠ []) as Hne.
  { intros ->. unfold pool_at in Hp. simpl in Hp. by rewrite (proj1 (wf_root _ H1)) in Hp. }
  assert (emptied (<[l := pl]> m) l = IsEmpty pl) as Hl by (unfold emptied; by rewrite lookup_insert_eq).
  destruct (IsEmpty pl).
  - apply Snip_empty with l; try done. intros q l' Hq Hqp Hl'. unfold emptied.
    rewrite lookup_insert_ne; [|intros ->; apply Hqp; eauto].
    destruct (H2 q l' Hl') as (pl' & -> & _ & ?). done.
  - by apply Snip_nonempty with l.
Qed.

Lemma pruneNode_spec now p l r :
  reg_ok r → pool_at (byURI r) p = Some l →
  ∃ r' m eps, pruneNode now p l r = Ok r' ∧ reg_ok r' ∧ settings r' = settings r ∧
    (is_Some (listener r') ↔ is_Some (listener r)) ∧
    routes r !! p = Some m ∧ pruned_ok now (dropletStaleThreshold r) m eps ∧
    routes r' = put_route p (filter (fresh_entry now (dropletStaleThreshold r)) m) (routes r) ∧
    sent r' = sent r ++ tell r (remove_event (Join "/" p) <$> eps) ∧
    ∀ q, q ≠ p → pool_at (byURI r') q = pool_at (byURI r) q.
Proof.
  intros Hok Hp. unfold pruneNode, reg_ok in *.
  destruct (store_held _ _ _ Hok p l Hp) as (pl & Hl & Hpl & He & HR).
  destruct (so_path _ _ _ Hok p l Hp) as (Hsp & Hgk & _).
  unfold deref. rewrite Hl. simpl.
  destruct (PruneEndpoints_spec now (dropletStaleThreshold r) pl Hpl) as (Hok' & Habs & Hpr).
  destruct (PruneEndpoints now (dropletStaleThreshold r) pl) as [pl' eps]. simpl in *.
  set (m := <[l := pl']> (pools r)). set (t' := Snip (emptied m) (byURI r) (rev p)).
  pose proof (Snip_pruned _ _ _ p l pl' Hok Hp) as Hsnip. simpl in Hsnip. fold m t' in Hsnip.
  destruct (store_put_route _ _ _ p l pl' t' Hok Hp Hok' Hsnip) as [Hst HR'].
  assert (∀ q, q ≠ p → pool_at t' q = pool_at (byURI r) q) as Hother.
  { intros q Hq. destruct (IsEmpty pl'); [|by rewrite Hsnip].
    destruct Hsnip as [_ ->]. by rewrite decide_False. }
  assert (p ≠ []) as Hne by (rewrite Hsp; auto with go).
  destruct (announce_pruned_told (Join "/" p) eps (upd_store t' m r) Hgk) as (r' & Ea & Ht).
  exists r', (abs pl), eps. split.
  { rewrite ToPath_Join by done. destruct eps; simpl in *; [congruence|done]. }
  destruct Ht as (E & HL & HS). split_and!; try done; [by rewrite E|by rewrite E| |by rewrite E].
  rewrite E, <-Habs. exact HR'.
Qed.

Definition event_key (ev : event) : string * option string := (ev.1.2, CanonicalAddr <$> ev.2).

(** Which events a walk over the routes in [ps] sends. *)
Definition removed_ok (now thr : Z) (ps : list (list string)) (R : Routes) (evs : list event) : Prop :=
  NoDup (event_key <$> evs) ∧
  ∀ ev, ev ∈ evs ↔ ∃ p m ep u, p ∈ ps ∧ R !! p = Some m ∧ m !! CanonicalAddr ep = Some (ep, u) ∧
                   stale_at now thr ep u = true ∧ ev = remove_event (Join "/" p) ep.

Lemma removed_ok_cons now thr p ps R m eps evs :
  p ∉ ps → good_path p → (∀ q, q ∈ ps → good_path q) →
  R !! p = Some m → pruned_ok now thr m eps →
  removed_ok now thr ps R evs → removed_ok now thr (p :: ps) R ((remove_event (Join "/" p) <$> eps) ++ evs).
Proof.
  intros Hp Hg Hgs HR [Hnd Heps] [Hnd' Hevs]. split.
  - rewrite fmap_app. apply NoDup_app. split_and!; [| |done].
    + rewrite <-list_fmap_compose. unfold remove_event, compose. simpl.
      rewrite (list_fmap_compose CanonicalAddr (λ a, (Join "/" p, Some a))).
      apply NoDup_fmap_2_strong; [|done]. by intros ???? [= ?].
    + intros x (ev & -> & (e & -> & _)%list_elem_of_fmap)%list_elem_of_fmap (ev' & E & Hev')%list_elem_of_fmap.
      apply Hevs in Hev' as (q & m' & ep & u & Hq & _ & _ & _ & ->). injection E as E _.
      assert (p = q) as ->; [|done]. rewrite (proj1 Hg), (proj1 (Hgs q Hq)). by rewrite E.
  - intros ev. rewrite elem_of_app, list_elem_of_fmap, Hevs. setoid_rewrite Heps. split.
    + intros [(ep & -> & u & H1 & H2)|(q & m' & ep & u & Hq & H)].
      * exists p, m, ep, u. split; [by left|done].
      * exists q, m', ep, u. split; [by right|done].
    + intros (q & m' & ep & u & [->|Hq]%elem_of_cons & H1 & H2 & H3 & H4).
      * left. exists ep. split; [done|]. simplify_eq. eauto.
      * right. exists q, m', ep, u. done.
Qed.

Lemma removed_ok_ext now thr ps R R' evs :
  (∀ p, p ∈ ps → R !! p = R' !! p) → removed_ok now thr ps R evs → removed_ok now thr ps R' evs.
Proof.
  intros E [H1 H2]. split; [done|]. intros ev. rewrite H2.
  split; intros (p & m & ep & u & Hp & Hm & Hr); exists p, m, ep, u;
    (split; [done|]); (split; [|done]); [by rewrite <-E|by rewrite E].
Qed.

Lemma pruneNodes_spec now nodes r :
  reg_ok r → NoDup nodes.*1 → (∀ p l, (p, l) ∈ nodes → pool_at (byURI r) p = Some l) →
  ∃ r' evs, pruneNodes now nodes r = Ok r' ∧ reg_ok r' ∧ settings r' = settings r ∧
    (is_Some (listener r') ↔ is_Some (listener r)) ∧
    sent r' = sent r ++ tell r evs ∧ removed_ok now (dropletStaleThreshold r) nodes.*1 (routes r) evs ∧
    ∀ q, routes r' !! q =
      if decide (q ∈ nodes.*1)
      then routes r !! q ≫= λ m, live (filter (fresh_entry now (dropletStaleThreshold r)) m)
      else routes r !! q.
Proof.
  revert r. induction nodes as [|[p l] nodes IH]; intros r Hok Hnd Hin.
  { exists r, []. split; [done|]. split; [done|]. split; [done|]. split; [done|].
    split; [unfold tell; destruct (listener r); by rewrite app_nil_r|]. split.
    - split; [apply NoDup_nil_2|]. intros ev. split; [by intros ?%elem_of_nil|].
      intros (?&?&?&?&?%elem_of_nil&_). done.
    - intros q. rewrite decide_False; [done|]. apply not_elem_of_nil. }
  apply NoDup_cons in Hnd as [Hp Hnd]. simpl in Hp.
  assert (∀ q, q ∈ (p :: nodes.*1) → good_path q) as Hgp.
  { intros q [[??] [-> Hq]]%(list_elem_of_fmap fst ((p, l) :: nodes)).
    by eapply (so_path _ _ _ Hok), Hin. }
  destruct (pruneNode_spec now p l r Hok) as (r1 & m & eps & E1 & Hok1 & Hs1 & HL1 & Hm & Hpr & HR1 & HS1 & Hq1);
    [apply Hin; by left|].
  assert (dropletStaleThreshold r1 = dropletStaleThreshold r) as Hthr.
  { unfold settings in Hs1. by injection Hs1. }
  destruct (IH r1 Hok1 Hnd) as (r' & evs & E & Hok' & Hs & HL & HS & Hev & HR).
  { intros q l' Hq. rewrite Hq1; [by apply Hin; right|]. intros ->. apply Hp.
    apply list_elem_of_fmap. by exists (p, l'). }
  rewrite Hthr in Hev, HR.
  exists r', ((remove_event (Join "/" p) <$> eps) ++ evs). simpl. rewrite E1. simpl.
  split_and!; [done|done|by rewrite Hs|by rewrite HL| | |].
  - rewrite HS, HS1, <-app_assoc. f_equal. unfold tell.
    destruct (listener r1), (listener r); try done; exfalso; destruct HL1 as [L1 L2]; [by destruct L1|by destruct L2].
  - apply removed_ok_cons with m; try done; [apply Hgp; by left|intros; apply Hgp; by right|].
    apply (removed_ok_ext _ _ _ (routes r1)); [|done].
    intros q Hq. rewrite HR1, put_route_lookup, decide_False; [done|]. by intros ->.
  - intros q. rewrite HR, HR1, put_route_lookup. destruct (decide (q = p)) as [->|Hqp].
    + rewrite (decide_False (P := p ∈ nodes.*1)) by done. rewrite decide_True by by left.
      by rewrite Hm.
    + destruct (decide (q ∈ nodes.*1)).
      * by rewrite decide_True by by right.
      * rewrite decide_False; [done|]. by intros [->|]%elem_of_cons.
Qed.

Section prune_all.
Context `{!VisitOrder}.

Lemma elem_of_visits t p l : (p, l) ∈ visits t ↔ pool_at t p = Some l.
Proof. by rewrite visits_perm, elem_of_EachNodeWithPool. Qed.

Lemma NoDup_visits t : NoDup (visits t).*1.
Proof. rewrite visits_perm. apply NoDup_EachNodeWithPool. Qed.

Lemma fold_alter_nodes (f : Pool → Pool) (nodes : list (list string * nat)) (m : gmap nat Pool) l :
  NoDup nodes.*2 →
  fold_left (λ m '(_, l), alter f l m) nodes m !! l =
    if decide (l ∈ nodes.*2) then f <$> m !! l else m !! l.
Proof.
  revert m. induction nodes as [|[p k] nodes IH]; intros m Hnd.
  { cbn [fold_left]. rewrite decide_False; [done|]. apply not_elem_of_nil. }
  change (((p, k) :: nodes).*2) with (k :: nodes.*2) in *.
  apply NoDup_cons in Hnd as [Hk Hnd]. cbn [fold_left]. rewrite IH by done.
  destruct (decide (l = k)) as [->|Hl].
  - rewrite decide_False by done. rewrite decide_True by by left. by rewrite lookup_alter_eq.
  - rewrite lookup_alter_ne by done. destruct (decide (l ∈ nodes.*2)).
    + by rewrite decide_True by by right.
    + rewrite decide_False; [done|]. by intros [->|]%elem_of_cons.
Qed.

Definition refresh (now : Z) (m : gmap string (Endpoint * Z)) : gmap string (Endpoint * Z) :=
  (λ x, (x.1, now)) <$> m.
Definition refreshed (now : Z) (R : Routes) : Routes := refresh now <$> R.

Lemma freshenRoutes_spec now r :
  reg_ok r → reg_ok (freshenRoutes now r) ∧ routes (freshenRoutes now r) = refreshed now (routes r).
Proof.
  intros Hok. pose proof Hok as [H1 H2 H3 H4 H5].
  assert (NoDup (visits (byURI r)).*2) as Hnd.
  { apply NoDup_fmap_2_strong; [|by eapply NoDup_fmap_1, NoDup_visits].
    intros [p l] [q k] Hp%elem_of_visits Hq%elem_of_visits E. simpl in E. subst k. f_equal. eauto. }
  set (m := pools (freshenRoutes now r)).
  assert (∀ p l, pool_at (byURI r) p = Some l → m !! l = MarkUpdated now <$> pools r !! l) as Hm.
  { intros p l Hp%elem_of_visits. unfold m. simpl. rewrite fold_alter_nodes by done.
    rewrite decide_True; [done|]. apply list_elem_of_fmap. by exists (p, l). }
  split.
  - split; try done.
    + intros p l Hp. destruct (H2 p l Hp) as (pl & Hl & Hpl & He).
      exists (MarkUpdated now pl). change (pools (freshenRoutes now r)) with m.
      rewrite (Hm p) by done. rewrite Hl. split; [done|]. split; [by apply MarkUpdated_spec|done].
    + intros l pl. simpl. rewrite fold_alter_nodes by done.
      case_decide; [|eauto]. intros (pl' & ? & _)%fmap_Some. eauto.
  - apply map_eq. intros p. unfold refreshed, routes. rewrite lookup_fmap, !routes_of_lookup.
    change (byURI (freshenRoutes now r)) with (byURI r).
    destruct (pool_at (byURI r) p) as [l|] eqn:Hp; [|done]. simpl. f_equal. unfold held. fold m.
    rewrite (Hm p) by done. destruct (H2 p l Hp) as (pl & -> & Hpl & _). simpl.
    by apply MarkUpdated_spec.
Qed.

Definition spec_prune (now thr : Z) (R : Routes) : Routes :=
  omap (λ m : gmap string (Endpoint * Z), live (filter (fresh_entry now thr) m)) R.

(** The routes that the walk starts from: after an outage every endpoint counts
    as just updated. *)
Definition walk_start (now : Z) (r : RouteRegistry) : Routes :=
  match pruningStatus r with DISCONNECTED => refreshed now (routes r) | CONNECTED => routes r end.

Definition all_removed_ok (now thr : Z) (R : Routes) (evs : list event) : Prop :=
  NoDup (event_key <$> evs) ∧
  ∀ ev, ev ∈ evs ↔ ∃ p m ep u, R !! p = Some m ∧ m !! CanonicalAddr ep = Some (ep, u) ∧
                   stale_at now thr ep u = true ∧ ev = remove_event (Join "/" p) ep.

Lemma pruneStaleDroplets_spec now disc r :
  reg_ok r →
  ∃ r' evs, pruneStaleDroplets now disc r = Ok r' ∧ reg_ok r' ∧
    (is_Some (listener r') ↔ is_Some (listener r)) ∧ sent r' = sent r ++ tell r evs ∧
    if suspendPruning r disc
    then r' = set_status DISCONNECTED r ∧ evs = []
    else pruningStatus r' = CONNECTED ∧
      routes r' = spec_prune now (dropletStaleThreshold r) (walk_start now r) ∧
      all_removed_ok now (dropletStaleThreshold r) (walk_start now r) evs.
Proof.
  intros Hok. unfold pruneStaleDroplets, walk_start. destruct (suspendPruning r disc).
  { eexists _, []. split_and!; [done|done|done|apply (told_nil r)|done|done]. }
  set (r1 := match pruningStatus r with DISCONNECTED => freshenRoutes now r | CONNECTED => r end).
  assert (reg_ok r1 ∧ routes r1 = match pruningStatus r with DISCONNECTED => refreshed now (routes r)
     | CONNECTED => routes r end ∧ listener r1 = listener r ∧ dropletStaleThreshold r1 = dropletStaleThreshold r)
    as (Hok1 & HR1 & HL1 & HT1).
  { unfold r1. destruct (pruningStatus r); [done|]. by destruct (freshenRoutes_spec now r Hok). }
  destruct (pruneNodes_spec now (visits (byURI r1)) (set_status CONNECTED r1) Hok1) as
    (r' & evs & E & Hok' & Hs & HL & HS & [Hnd Hev] & HR);
    [apply NoDup_visits|by intros p l ?%elem_of_visits|].
  exists r', evs. simpl in *. rewrite HT1 in *. change (routes (set_status CONNECTED r1)) with (routes r1) in *.
  rewrite HR1 in *. split_and!; [done|done|by rewrite HL, HL1| | | |].
  - rewrite HS. unfold sent, tell. simpl. by rewrite HL1.
  - by injection Hs.
  - apply map_eq. intros p. rewrite HR. unfold spec_prune. rewrite lookup_omap, <-HR1.
    case_decide as Hd; [done|]. assert (routes r1 !! p = None) as ->; [|done].
    unfold routes. rewrite routes_of_lookup. destruct (pool_at (byURI r1) p) as [l|] eqn:Hp; [|done].
    destruct Hd. apply elem_of_visits in Hp. apply list_elem_of_fmap. by exists (p, l).
  - split; [done|]. intros ev. rewrite Hev. split; intros (p & m & ep & u & Hx).
    + exists p, m, ep, u. by destruct Hx as [_ ?].
    + exists p, m, ep, u. split; [|done]. destruct Hx as (HRp & _). rewrite <-HR1 in HRp.
      unfold routes in HRp. rewrite routes_of_lookup in HRp.
      apply fmap_Some in HRp as (l & Hp%elem_of_visits & _). apply list_elem_of_fmap. by exists (p, l).
Qed.
End prune_all.

(** ** Lookup *)

(** The wildcard routes that cover a name, most specific first. *)
Fixpoint wild (labels : list string) : list string :=
  match labels with
  | [] => []
  | _ :: rest => match rest with [] => [] | _ :: _ => ("*." +:+ Join "." rest) :: wild rest end
  end.

Definition candidates (key : string) : list string :=
  key :: wild (Split "." (TrimPrefix key "*.")).

Lemma no_slash_suffix h t :
  Uri_String (h +:+ String "." t) = h +:+ String "." t → Uri_String ("*." +:+ t) = "*." +:+ t.
Proof.
  unfold Uri_String. destruct t as [|b t]; [done|]. intros E.
  change ("*." +:+ String b t) with (String "*" (String "." (String b t))).
  rewrite !trim_suffix_cons2. do 2 f_equal. revert E. induction h as [|a h IH]; intros E.
  - change (EmptyString +:+ ?x) with x in E. rewrite trim_suffix_cons2 in E. by injection E.
  - rewrite sapp_cons in E. destruct (h +:+ String "." (String b t)) as [|c s] eqn:Eh; [by destruct h|].
    rewrite trim_suffix_cons2 in E. injection E as E. by apply IH.
Qed.

Lemma TrimPrefix_split u : ∃ h, u = h +:+ TrimPrefix u "*.".
Proof.
  unfold TrimPrefix. destruct (HasPrefix u "*.") eqn:E; [|by exists EmptyString].
  apply HasPrefix_spec in E as [s ->]. exists "*.". by rewrite sdrop_app.
Qed.

Lemma Lookup_loop_spec fuel t u :
  Uri_String u = u → (wildcard_steps u < fuel)%nat →
  Lookup_loop fuel t u = head (omap (MatchUri t) (candidates u)).
Proof.
  revert u. induction fuel as [|fuel IH]; intros u Hu Hf; [lia|].
  unfold candidates. cbn [Lookup_loop].
  change (omap (MatchUri t) (u :: ?l)) with
    (match MatchUri t u with Some y => y :: omap (MatchUri t) l | None => omap (MatchUri t) l end).
  destruct (MatchUri t u) eqn:Em; [done|].
  unfold NextWildcard. rewrite Hu.
  destruct (cut "." (TrimPrefix u "*.")) as [[h s]|] eqn:Ec.
  - rewrite IH.
    + rewrite Split_cut, Ec. cbn [wild]. unfold candidates. rewrite TrimPrefix_app.
      destruct (Split "." s) as [|x l] eqn:Es; [by apply Split_not_nil in Es|].
      rewrite <-Es, Join_Split. done.
    + apply cut_Some in Ec as [Ec _]. destruct (TrimPrefix_split u) as [h0 Eh].
      rewrite Ec, <-sapp_assoc in Eh. apply (no_slash_suffix (h0 +:+ h)). by rewrite <-Eh.
    + assert (wildcard_steps ("*." +:+ s) < wildcard_steps u)%nat; [|lia].
      apply NextWildcard_decreases. unfold NextWildcard. by rewrite Hu, Ec.
  - rewrite Em, Split_cut, Ec. done.
Qed.

(** ** The listener's view *)
Abbreviation View := (gset (string * string)) (only parsing).

Definition apply_event (s : View) (ev : event) : View :=
  match ev with
  | (Add, uri, Some ep) => {[ (uri, CanonicalAddr ep) ]} ∪ s
  | (routeUpdate.Remove, uri, Some ep) => s ∖ {[ (uri, CanonicalAddr ep) ]}
  | _ => s
  end.

(** The pairs of route and address that are left after acting on all updates. *)
Definition replay (evs : list event) : View := fold_left apply_event evs ∅.

Definition listed (R : Routes) (x : string * string) : Prop :=
  ∃ p m, R !! p = Some m ∧ x.1 = Join "/" p ∧ is_Some (m !! x.2).

Record routes_ok (R : Routes) : Prop := {
  rt_path : ∀ p m, R !! p = Some m → good_path p;
  rt_addr : ∀ p m a ep u, R !! p = Some m → m !! a = Some (ep, u) → a = CanonicalAddr ep
}.

Lemma reg_routes_ok r : reg_ok r → routes_ok (routes r).
Proof.
  intros Hok. unfold routes. split.
  - intros p m. rewrite routes_of_lookup. intros (l & Hp & _)%fmap_Some. by eapply so_path.
  - intros p m a ep u. rewrite routes_of_lookup. intros (l & Hp & ->)%fmap_Some.
    destruct (so_pool _ _ _ Hok p l Hp) as (pl & Hl & Hpl & _). unfold held. rewrite Hl. by apply abs_addr.
Qed.

#[export] Hint Resolve reg_routes_ok : go.

Lemma listed_refreshed now R x : listed (refreshed now R) x ↔ listed R x.
Proof.
  unfold listed, refreshed. split.
  - intros (p & m & (m0 & <- & Hm)%lookup_fmap_Some & Hx & Ha). exists p, m0. split_and!; [done..|].
    unfold refresh in Ha. rewrite lookup_fmap in Ha. by apply fmap_is_Some in Ha.
  - intros (p & m & Hm & Hx & Ha). exists p, (refresh now m). rewrite lookup_fmap, Hm.
    split; [done|]. split; [done|]. unfold refresh. rewrite lookup_fmap. by apply fmap_is_Some.
Qed.

Definition view_ok (r : RouteRegistry) : Prop := ∀ x, x ∈ replay (sent r) ↔ listed (routes r) x.

Lemma replay_app evs evs' : replay (evs ++ evs') = fold_left apply_event evs' (replay evs).
Proof. unfold replay. by rewrite fold_left_app. Qed.

Lemma good_path_inj p q : good_path p → good_path q → Join "/" p = Join "/" q → p = q.
Proof. intros [H1 _] [H2 _] E. rewrite H1, H2. by rewrite E. Qed.

Lemma listed_key R x p m :
  routes_ok R → R !! p = Some m → x.1 = Join "/" p → listed R x ↔ is_Some (m !! x.2).
Proof.
  intros Hok Hp Hx. split; [|intros; by exists p, m].
  intros (q & m' & Hq & Hx' & Ha). assert (q = p) as ->; [|by simplify_eq].
  apply good_path_inj; [by eapply rt_path|by eapply rt_path|congruence].
Qed.

Lemma listed_other R R' x p :
  routes_ok R → routes_ok R' → good_path p → (∀ q, q ≠ p → R !! q = R' !! q) → x.1 ≠ Join "/" p →
  listed R x ↔ listed R' x.
Proof.
  intros H1 H2 Hg E Hx. unfold listed. split; intros (q & m & Hq & Hj & Ha); exists q, m;
    (split; [|done]); (assert (q ≠ p) as Hqp by congruence); [by rewrite <-E|by rewrite E].
Qed.

(** Adding an address to one route, and removing one. *)
Lemma listed_insert R R' p a m m' :
  routes_ok R → routes_ok R' → good_path p → (∀ q, q ≠ p → R !! q = R' !! q) →
  R !! p = m → R' !! p = Some m' → (∀ b, is_Some (m' !! b) ↔ b = a ∨ is_Some (m ≫= (.!! b))) →
  ∀ x, listed R' x ↔ x = (Join "/" p, a) ∨ listed R x.
Proof.
  intros H1 H2 Hg E Hm Hm' Hd [u b]. destruct (decide (u = Join "/" p)) as [->|Hu].
  - rewrite (listed_key R' _ p m') by done. simpl. rewrite Hd. destruct m as [m|].
    + rewrite (listed_key R _ p m) by done. simpl. naive_solver.
    + split; [intros [->|[? ?]]; [by left|done]|]. intros [[= ->]|(q & m & Hq & Hj & Ha)]; [by left|].
      simpl in Hj. assert (q = p) as -> by (apply good_path_inj; [by eapply (rt_path R)|done..]). by rewrite Hm in Hq.
  - rewrite (listed_other R R' (u, b) p) by done. naive_solver.
Qed.

Lemma listed_delete R R' p a m :
  routes_ok R → routes_ok R' → good_path p → (∀ q, q ≠ p → R !! q = R' !! q) →
  R !! p = Some m → R' !! p = live (delete a m) →
  ∀ x, listed R' x ↔ listed R x ∧ x ≠ (Join "/" p, a).
Proof.
  intros H1 H2 Hg E Hm Hm' [u b]. destruct (decide (u = Join "/" p)) as [->|Hu].
  - rewrite (listed_key R _ p m) by done. simpl. unfold live in Hm'. case_decide as Hd.
    + split.
      * intros (q & m' & Hq & Hj & Ha). simpl in Hj.
        assert (q = p) as -> by (apply good_path_inj; [by eapply (rt_path R')|done..]). congruence.
      * intros [[y Hy] Hne]. apply (f_equal (lookup b)) in Hd.
        rewrite lookup_delete_ne, lookup_empty in Hd by congruence. congruence.
    + rewrite (listed_key R' _ p (delete a m)) by done. simpl. rewrite lookup_delete_is_Some. naive_solver.
  - rewrite (listed_other R R' (u, b) p) by done. naive_solver.
Qed.

Lemma replay_removes evs s x :
  (∀ ev, ev ∈ evs → ∃ u e, ev = remove_event u e) →
  x ∈ fold_left apply_event evs s ↔ x ∈ s ∧ ∀ u e, remove_event u e ∈ evs → x ≠ (u, CanonicalAddr e).
Proof.
  revert s. induction evs as [|ev evs IH]; intros s Hev; simpl.
  { split; [|naive_solver]. intros ?. split; [done|]. by intros ?? ?%elem_of_nil. }
  destruct (Hev ev) as (u & e & ->); [by left|]. rewrite IH by (intros; apply Hev; by right).
  simpl. rewrite elem_of_difference, elem_of_singleton. split.
  - intros [[Hs Hn] Hr]. split; [done|]. intros u' e' [[= <- <-]|Hin]%elem_of_cons; [done|eauto].
  - intros [Hs Hr]. split; [split; [done|]|]; intros; apply Hr; [by left|by right].
Qed.

Lemma listed_prune now thr R evs x :
  routes_ok R → all_removed_ok now thr R evs →
  listed (spec_prune now thr R) x ↔
  listed R x ∧ ∀ u e, remove_event u e ∈ evs → x ≠ (u, CanonicalAddr e).
Proof.
  intros Hok [_ Hev]. destruct x as [u b]. unfold listed, spec_prune. simpl. split.
  - intros (p & m' & Hm' & -> & [[ep t] Hb]). rewrite lookup_omap in Hm'.
    apply bind_Some in Hm' as (m & Hm & Hl). unfold live in Hl. case_decide; simplify_eq.
    apply map_lookup_filter_Some in Hb as [Hb Hf]. split; [exists p, m; by eauto|].
    intros u e (q & m2 & ep2 & t2 & Hq & Hep & Hst & [= -> ->])%Hev [= Hj ->].
    assert (q = p) as -> by (apply good_path_inj; [by eapply rt_path|by eapply rt_path|done]).
    simplify_eq. unfold fresh_entry in Hf. simpl in Hf. congruence.
  - intros [(p & m & Hm & -> & [[ep t] Hb]) Hr].
    assert (fresh_entry now thr (b, (ep, t))) as Hf.
    { unfold fresh_entry. simpl. apply not_true_is_false. intros Hst.
      pose proof (rt_addr _ Hok _ _ _ _ _ Hm Hb) as ->. apply (Hr (Join "/" p) ep); [|done].
      apply Hev. by exists p, m, ep, t. }
    assert (filter (fresh_entry now thr) m !! b = Some (ep, t)) as Hfb by (by apply map_lookup_filter_Some).
    exists p, (filter (fresh_entry now thr) m). rewrite lookup_omap, Hm. simpl. unfold live.
    rewrite decide_False; [by eauto|]. intros E. by rewrite E in Hfb.
Qed.

(** ** Runs of the registry *)
Section runs.
Context `{!VisitOrder}.

Inductive reg_reach (c : Config) : RouteRegistry → Prop :=
| reach_new : reg_reach c (NewRouteRegistry c true)
| reach_register now uri ep r r' :
    reg_reach c r → good_uri uri → ep_valid ep → Register now uri ep r = Ok r' → reg_reach c r'
| reach_unregister uri ep r r' :
    reg_reach c r → good_uri uri → Unregister uri ep r = Ok r' → reg_reach c r'
| reach_tick now disconnected r r' :
    reg_reach c r → tick now disconnected r = Ok r' → reg_reach c r'
| reach_suspend f r : reg_reach c r → reg_reach c (SuspendPruning f r)
| reach_start r : reg_reach c r → reg_reach c (StartPruningCycle r)
| reach_stop r : reg_reach c r → reg_reach c (StopPruningCycle r).

Definition reg_inv (r : RouteRegistry) : Prop := reg_ok r ∧ is_Some (listener r) ∧ view_ok r.

(** Only the store and the listener matter. *)
Lemma reg_inv_frame r r' :
  byURI r' = byURI r → pools r' = pools r → next_pool r' = next_pool r → listener r' = listener r →
  reg_inv r → reg_inv r'.
Proof.
  intros H1 H2 H3 H4. unfold reg_inv, reg_ok, view_ok, sent, routes. by rewrite H1, H2, H3, H4.
Qed.

Lemma put_spec_dom now m ep b :
  is_Some ((put_spec now m ep).1 !! b) ↔ b = CanonicalAddr ep ∨ is_Some (m !! b).
Proof.
  unfold put_spec. destruct (m !! CanonicalAddr ep) as [[old u]|] eqn:E.
  - assert (b = CanonicalAddr ep ∨ is_Some (m !! b) ↔ is_Some (m !! b)) as -> by naive_solver.
    repeat case_match; simpl; [| |done]; destruct (decide (b = CanonicalAddr ep)) as [->|];
      rewrite ?lookup_insert_eq, ?lookup_insert_ne, ?E by done; naive_solver.
  - simpl. destruct (decide (b = CanonicalAddr ep)) as [->|];
      rewrite ?lookup_insert_eq, ?lookup_insert_ne by done; naive_solver.
Qed.

Lemma listener_tell r evs : is_Some (listener r) → tell r evs = evs.
Proof. intros [us E]. unfold tell. by rewrite E. Qed.

Lemma Register_inv now uri ep r r' :
  reg_inv r → good_uri uri → ep_valid ep → Register now uri ep r = Ok r' → reg_inv r'.
Proof.
  intros (Hok & HL & Hv) Hu Hep E.
  destruct (Register_spec now uri ep r Hok Hu Hep) as (r2 & E2 & Hok' & HR & HL' & _ & HS).
  ok_inj E2 E. unfold view_ok in Hv.
  destruct (good_uri_segments uri Hu) as (_ & Hg & Hj). set (p := segments (RouteKey uri)) in *.
  split_and!; [done|by apply HL'|]. intros x.
  rewrite listener_tell in HS by done. rewrite HS, replay_app.
  rewrite (listed_insert (routes r) (routes r') p (CanonicalAddr ep) (routes r !! p)
    (put_spec now (default ∅ (routes r !! p)) ep).1); try done; auto with go.
  - rewrite Hj, <-Hv. unfold known. case_bool_decide as Hk; simpl; [|set_solver].
    split; [by right|]. intros [->|]; [|done]. apply Hv. destruct Hk as [y Hy].
    apply bind_Some in Hy as (m & Hm & Hy). exists p, m. simpl. split_and!; [done|by rewrite Hj|eauto].
  - intros q Hq. rewrite HR. unfold spec_register. by rewrite lookup_insert_ne.
  - rewrite HR. unfold spec_register. by rewrite lookup_insert_eq.
  - intros b. rewrite put_spec_dom. destruct (routes r !! p); [done|]. simpl. by rewrite lookup_empty.
Qed.

Lemma Unregister_inv uri ep r r' :
  reg_inv r → good_uri uri → Unregister uri ep r = Ok r' → reg_inv r'.
Proof.
  intros (Hok & HL & Hv) Hu E.
  destruct (Unregister_spec uri ep r Hok Hu) as (r2 & E2 & Hok' & HR & HL' & HS).
  ok_inj E2 E. unfold view_ok in Hv.
  destruct (good_uri_segments uri Hu) as (_ & Hg & Hj). set (p := segments (RouteKey uri)) in *.
  split_and!; [done|by apply HL'|]. intros x.
  rewrite listener_tell in HS by done. rewrite HS, replay_app. unfold spec_unregister in HR.
  destruct (removable (routes r) p ep) eqn:Hr; [|simpl; by rewrite HR].
  unfold removable in Hr. destruct (routes r !! p) as [m|] eqn:Hm; [|done]. simpl in HR.
  rewrite (listed_delete (routes r) (routes r') p (CanonicalAddr ep) m); try done; auto with go.
  - rewrite Hj, <-Hv. simpl. set_solver.
  - intros q Hq. rewrite HR, put_route_lookup. by rewrite decide_False.
  - rewrite HR, put_route_lookup. by rewrite decide_True.
Qed.

Lemma walk_start_ok now r : reg_ok r → routes_ok (walk_start now r).
Proof.
  intros Hok%reg_routes_ok. unfold walk_start. destruct (pruningStatus r); [done|]. destruct Hok as [H1 H2].
  split.
  - intros p m (m0 & _ & Hm)%lookup_fmap_Some. eauto.
  - intros p m a ep u (m0 & <- & Hm)%lookup_fmap_Some ([ep0 u0] & [= -> _] & Ha)%lookup_fmap_Some. eauto.
Qed.

#[local] Hint Resolve walk_start_ok : go.

Lemma prune_inv now disc r r' : reg_inv r → pruneStaleDroplets now disc r = Ok r' → reg_inv r'.
Proof.
  intros (Hok & HL & Hv) E.
  destruct (pruneStaleDroplets_spec now disc r Hok) as (r2 & evs & E2 & Hok' & HL' & HS & Hr).
  ok_inj E2 E. unfold view_ok in Hv.
  split_and!; [done|by apply HL'|]. rewrite listener_tell in HS by done.
  destruct (suspendPruning r disc); [by destruct Hr as [-> _]|].
  destruct Hr as (_ & HR & Hrem). intros x. rewrite HS, HR, replay_app, replay_removes.
  - rewrite Hv, (listed_prune now _ _ evs) by (done || auto with go).
    unfold walk_start. destruct (pruningStatus r); [done|]. by rewrite listed_refreshed.
  - intros ev (p & m & ep & u & _ & _ & _ & ->)%(proj2 Hrem). eauto.
Qed.

Lemma reg_reach_inv c r : reg_reach c r → reg_inv r.
Proof.
  induction 1 as [|now uri ep r r' _ IH Hu Hv E|uri ep r r' _ IH Hu E|now d r r' _ IH E|f r _ IH|r _ IH|r _ IH].
  - assert (∀ p, pool_at NewTrie p = None) as Hp by apply pool_at_empty.
    split; [|split; [by eexists|]].
    + split; try done; [auto with go|..]; simpl; intros ??; rewrite ?Hp; done.
    + intros x. split; [set_solver|]. intros (p & m & Hm & _). unfold routes in Hm.
      rewrite routes_of_lookup in Hm. simpl in Hm. by rewrite Hp in Hm.
  - by eapply Register_inv.
  - by eapply Unregister_inv.
  - unfold tick in E. destruct (ticker r) as [[]|]; simplify_eq; [by eapply prune_inv|done|done].
  - by apply (reg_inv_frame r).
  - unfold StartPruningCycle. case_match; [by apply (reg_inv_frame r)|done].
  - unfold StopPruningCycle. case_match; [by apply (reg_inv_frame r)|done].
Qed.
End runs.

Lemma routes_nonempty r p m : reg_ok r → routes r !! p = Some m → m ≠ ∅.
Proof.
  intros Hok. unfold routes. rewrite routes_of_lookup. intros (l & Hp & ->)%fmap_Some.
  destruct (so_pool _ _ _ Hok p l Hp) as (pl & Hl & Hpl & He). unfold held. rewrite Hl.
  by rewrite <-abs_empty, He.
Qed.

(** Right after a refresh nothing is stale. *)
Lemma refreshed_fresh now thr ep : 0 ≤ thr → stale_at now thr ep now = false.
Proof. intros H. unfold stale_at. repeat case_match; lia. Qed.

Lemma spec_prune_refreshed now thr r :
  reg_ok r → 0 ≤ thr → spec_prune now thr (refreshed now (routes r)) = refreshed now (routes r).
Proof.
  intros Hok Ht. apply map_eq. intros p. unfold spec_prune, refreshed. rewrite lookup_omap, lookup_fmap.
  destruct (routes r !! p) as [m|] eqn:Hm; [|done]. simpl.
  rewrite map_filter_id.
  - unfold live. rewrite decide_False; [done|]. unfold refresh. rewrite fmap_empty_iff.
    by eapply routes_nonempty.
  - intros a [ep u] ([ep0 u0] & [= -> ->] & _)%lookup_fmap_Some. by apply refreshed_fresh.
Qed.

(** ** Properties *)

(** C13. Registering an endpoint never panics for a nameable route and refines
    the guarded update of one route in a map of routes; the listener is told
    to add the endpoint exactly when its address is new to the route. *)
Theorem registry_register_refines now uri ep r :
  reg_ok r → good_uri uri → ep_valid ep →
  ∃ r', Register now uri ep r = Ok r' ∧ reg_ok r' ∧
    routes r' = spec_register now (segments (RouteKey uri)) ep (routes r) ∧ timeOfLastUpdate r' = now ∧
    sent r' = sent r ++ tell r (if known (routes r) (segments (RouteKey uri)) (CanonicalAddr ep) then []
                                else [(Add, RouteKey uri, Some ep)]).
Proof.
  intros H1 H2 H3. destruct (Register_spec now uri ep r H1 H2 H3) as (r' & E & Hok & HR & _ & HT & HS).
  by exists r'.
Qed.

(** A registry with one route, for the witnesses. *)
Definition demo_registry : RouteRegistry := NewRouteRegistry defaultConfig true.

Lemma demo_registry_ok : reg_ok demo_registry.
Proof. apply (reg_reach_inv defaultConfig). constructor. Qed.

Lemma demo_uri_good : good_uri "foo.cf.com/a".
Proof. split; [reflexivity|]. split; [discriminate|]. intros w. vm_compute. discriminate. Qed.

Lemma registry_register_refines_witness :
  ∃ r', Register 7 "foo.cf.com/a" ep1 demo_registry = Ok r' ∧ reg_ok r' ∧
    sent r' = [(Add, "foo.cf.com/a", Some ep1)].
Proof.
  destruct (registry_register_refines 7 "foo.cf.com/a" ep1 demo_registry demo_registry_ok demo_uri_good)
    as (r' & E & Hok & _ & _ & HS); [reflexivity|].
  exists r'. split; [exact E|]. split; [exact Hok|]. rewrite HS. vm_compute. reflexivity.
Defined.

(** C14. Unregistering refines the removal of the endpoint's address from one
    route when the stored modification tag allows it; a route whose last
    endpoint goes disappears, and the listener is told exactly when an
    endpoint was removed. *)
Theorem registry_unregister_refines uri ep r :
  reg_ok r → good_uri uri →
  ∃ r', Unregister uri ep r = Ok r' ∧ reg_ok r' ∧
    routes r' = spec_unregister (segments (RouteKey uri)) ep (routes r) ∧
    sent r' = sent r ++ tell r (if removable (routes r) (segments (RouteKey uri)) ep
                                then [(routeUpdate.Remove, RouteKey uri, Some ep)] else []).
Proof.
  intros H1 H2. destruct (Unregister_spec uri ep r H1 H2) as (r' & E & Hok & HR & _ & HS). by exists r'.
Qed.

Definition demo_registered : RouteRegistry :=
  match Register 7 "foo.cf.com/a" ep1 demo_registry with Ok r => r | _ => demo_registry end.

Lemma demo_registered_ok : reg_ok demo_registered ∧ reg_reach defaultConfig demo_registered.
Proof.
  destruct (Register_spec 7 "foo.cf.com/a" ep1 demo_registry demo_registry_ok demo_uri_good)
    as (r' & E & Hok & _); [reflexivity|].
  unfold demo_registered. rewrite E. split; [done|].
  eapply (reach_register _ 7 "foo.cf.com/a" ep1); [apply reach_new|apply demo_uri_good|reflexivity|exact E].
Qed.

Lemma registry_unregister_refines_witness :
  ∃ r', Unregister "foo.cf.com/a" ep1 demo_registered = Ok r' ∧ reg_ok r' ∧
    sent r' = [(Add, "foo.cf.com/a", Some ep1); (routeUpdate.Remove, "foo.cf.com/a", Some ep1)].
Proof.
  destruct (registry_unregister_refines "foo.cf.com/a" ep1 demo_registered (proj1 demo_registered_ok) demo_uri_good)
    as (r' & E & Hok & _ & HS).
  exists r'. split; [exact E|]. split; [exact Hok|]. rewrite HS. vm_compute. reflexivity.
Defined.

(** C15. A pruning cycle succeeds in every state and, whatever order the nodes
    are visited in, keeps exactly the endpoints that are not stale; routes
    left without endpoints go, and the listener gets one removal per stale
    endpoint.  While pruning is suspended nothing is removed or sent. *)
Theorem registry_prune_exact `{!VisitOrder} now disc r :
  reg_ok r →
  ∃ r' evs, pruneStaleDroplets now disc r = Ok r' ∧ reg_ok r' ∧ sent r' = sent r ++ tell r evs ∧
    if suspendPruning r disc
    then r' = set_status DISCONNECTED r ∧ evs = []
    else pruningStatus r' = CONNECTED ∧
      routes r' = spec_prune now (dropletStaleThreshold r) (walk_start now r) ∧
      all_removed_ok now (dropletStaleThreshold r) (walk_start now r) evs.
Proof.
  intros Hr. destruct (pruneStaleDroplets_spec now disc r Hr) as (r' & evs & E & Hok & _ & HS & HR).
  by exists r', evs.
Qed.

Lemma registry_prune_exact_witness :
  ∃ r', pruneStaleDroplets (Z.pow 10 18) false demo_registered = Ok r' ∧ pruningStatus r' = CONNECTED.
Proof.
  destruct (registry_prune_exact (Z.pow 10 18) false demo_registered (proj1 demo_registered_ok))
    as (r' & evs & E & _ & _ & HR).
  assert (suspendPruning demo_registered false = false) as Hs by (vm_compute; reflexivity).
  rewrite Hs in HR. exists r'. split; [exact E|]. apply HR.
Defined.

(** The first cycle after an outage of the message bus removes nothing:
    every endpoint is refreshed before the walk. *)
Theorem registry_reconnect_keeps `{!VisitOrder} now disc r :
  reg_ok r → pruningStatus r = DISCONNECTED → suspendPruning r disc = false →
  0 ≤ dropletStaleThreshold r →
  ∃ r', pruneStaleDroplets now disc r = Ok r' ∧ routes r' = refreshed now (routes r) ∧ sent r' = sent r.
Proof.
  intros Hok Hd Hs Ht.
  destruct (pruneStaleDroplets_spec now disc r Hok) as (r' & evs & E & _ & _ & HS & HR).
  rewrite Hs in HR. destruct HR as (_ & HR & [_ Hev]). unfold walk_start in HR, Hev. rewrite Hd in HR, Hev.
  rewrite spec_prune_refreshed in HR by done. exists r'. split_and!; [done|done|].
  assert (evs = []) as ->.
  { destruct evs as [|ev evs]; [done|]. destruct (proj1 (Hev ev)) as (p & m & ep & u & Hp & Hm & Hst & _).
    { by left. }
    apply lookup_fmap_Some in Hp as (m0 & <- & _). apply lookup_fmap_Some in Hm as ([? ?] & [= -> <-] & _).
    by rewrite refreshed_fresh in Hst. }
  rewrite HS. symmetry. apply (told_nil r).
Qed.

Lemma registry_reconnect_keeps_witness :
  ∃ r', pruneStaleDroplets (Z.pow 10 18) false (set_status DISCONNECTED demo_registered) = Ok r' ∧
    sent r' = sent demo_registered.
Proof.
  destruct (registry_reconnect_keeps (Z.pow 10 18) false (set_status DISCONNECTED demo_registered))
    as (r' & E & _ & HS); [exact (proj1 demo_registered_ok)|reflexivity|vm_compute; reflexivity|vm_compute; discriminate|].
  exists r'. split; [exact E|exact HS].
Defined.

(** C12. In every state the registry reaches with well-formed URIs that can be
    named, acting on the updates sent so far
    gives exactly the routes and addresses the registry holds: no update is
    missed and none is sent twice in a way that matters. *)
Theorem registry_listener_agrees `{!VisitOrder} c r uri addr :
  reg_reach c r →
  (uri, addr) ∈ replay (sent r) ↔
  ∃ p m, routes r !! p = Some m ∧ uri = Join "/" p ∧ is_Some (m !! addr).
Proof. intros Hr. apply (proj2 (proj2 (reg_reach_inv c r Hr))). Qed.

Lemma registry_listener_agrees_witness :
  ∃ p m, routes demo_registered !! p = Some m ∧ "foo.cf.com/a" = Join "/" p ∧ is_Some (m !! "10.0.0.1:8080").
Proof.
  apply (registry_listener_agrees defaultConfig); [exact (proj2 demo_registered_ok)|].
  vm_compute. reflexivity.
Defined.

(** C18. [Lookup] tries the route itself and then its wildcard parents, the most
    specific first, each with the longest matching path; it terminates. *)
Theorem registry_lookup_order uri r :
  Uri_String (RouteKey uri) = RouteKey uri →
  Lookup uri r = head (omap (MatchUri (byURI r)) (candidates (RouteKey uri))).
Proof. intros H. apply Lookup_loop_spec; [done|lia]. Qed.

Lemma registry_lookup_order_witness :
  Lookup "FOO.cf.com/a" demo_registered = Some 0%nat.
Proof.
  rewrite (registry_lookup_order "FOO.cf.com/a" demo_registered); [|reflexivity].
  vm_compute. reflexivity.
Defined.
