(* ===== verification/RoutingTable.v ===== *)
(** The table of TCP routes: [src/routingtable/routingtable.go].

    A table maps the port of a TCP route to its backends, a map from address
    and port to version details.  The operations run under the table's lock,
    hence as one step.  [listener] is [None] for a nil listener and otherwise
    the updates handed to it so far, oldest first.  [time.Now()] is the
    argument [now]; one value serves a whole operation. *)
From Stdlib Require Import Ascii ZArith Lia.
From stdpp Require Import sorting countable base list gmap strings.
From S2P Require Import Prelude GoStrings Pool Config Resources Updates.
Import bigipResources routeUpdate.
Local Open Scope Z_scope.

Record RoutingKey := mkRoutingKey { rk_Port : Z }.
Record BackendServerKey := mkBackendKey { bk_Address : string; bk_Port : Z }.
Record BackendServerInfo := mkInfo {
  bi_Address : string; bi_Port : Z; bi_ModificationTag : ModificationTag; bi_TTL : Z }.
Record BackendServerDetails := mkDetails {
  ModificationTagOf : ModificationTag; TTL : Z; UpdatedTime : Z }.

#[global] Instance RoutingKey_eq_dec : EqDecision RoutingKey.
Proof. solve_decision. Defined.
#[global] Instance RoutingKey_countable : Countable RoutingKey.
Proof. apply (inj_countable' rk_Port mkRoutingKey). by intros []. Defined.
#[global] Instance BackendServerKey_eq_dec : EqDecision BackendServerKey.
Proof. solve_decision. Defined.
#[global] Instance BackendServerKey_countable : Countable BackendServerKey.
Proof.
  apply (inj_countable' (λ k, (bk_Address k, bk_Port k)) (λ x, mkBackendKey x.1 x.2)). by intros [].
Defined.
#[global] Instance BackendServerDetails_eq_dec : EqDecision BackendServerDetails.
Proof. solve_decision. Defined.

Abbreviation entry := (gmap BackendServerKey BackendServerDetails) (only parsing).

Record RoutingTable := mkTable {
  rt_c : Config;
  entries : gmap RoutingKey entry;
  rt_ticker : option bool;
  rt_pruneInterval : Z;
  rt_staleThreshold : Z;
  rt_listener : option (list updateTCP)
}.

Definition upd_entries (f : gmap RoutingKey entry → gmap RoutingKey entry) (t : RoutingTable) : RoutingTable :=
  mkTable (rt_c t) (f (entries t)) (rt_ticker t) (rt_pruneInterval t) (rt_staleThreshold t) (rt_listener t).
Definition set_rt_listener (l : option (list updateTCP)) (t : RoutingTable) : RoutingTable :=
  mkTable (rt_c t) (entries t) (rt_ticker t) (rt_pruneInterval t) (rt_staleThreshold t) l.
Definition set_rt_ticker (b : option bool) (t : RoutingTable) : RoutingTable :=
  mkTable (rt_c t) (entries t) b (rt_pruneInterval t) (rt_staleThreshold t) (rt_listener t).

(** ** Operations *)
Definition NewRoutingTable (c : Config) (hasListener : bool) : RoutingTable :=
  mkTable c ∅ None (PruneStaleDropletsInterval c) (DropletStaleThreshold c)
    (if hasListener then Some [] else None).

Definition serverKeyDetailsFromInfo (now : Z) (info : BackendServerInfo)
  : BackendServerKey * BackendServerDetails :=
  (mkBackendKey (bi_Address info) (bi_Port info), mkDetails (bi_ModificationTag info) (bi_TTL info) now).

Definition newRoutingTableEntry (now : Z) (backends : list BackendServerInfo) : entry :=
  fold_left (λ m b, let '(k, d) := serverKeyDetailsFromInfo now b in <[k := d]> m) backends ∅.

Definition updateSucceededBy (d other : BackendServerDetails) : bool :=
  SucceededBy (ModificationTagOf d) (ModificationTagOf other).

Definition differentFrom (d other : BackendServerDetails) : bool :=
  updateSucceededBy d other && false.

Definition deleteSucceededBy (d other : BackendServerDetails) : bool :=
  bool_decide (ModificationTagOf d = ModificationTagOf other) ||
  SucceededBy (ModificationTagOf d) (ModificationTagOf other).

(** [-ttl * time.Second] is 64-bit arithmetic on a [time.Duration]. *)
Definition expired (now defaultTTL : Z) (d : BackendServerDetails) : bool :=
  let ttl := if TTL d =? 0 then defaultTTL else TTL d in
  let expiryTime := now + wrap64 (wrap64 (- ttl) * Second) in
  UpdatedTime d <? expiryTime.

Definition updateRouter (op : Operation) (routePort : Z) (ea : string) (ep : Z) (t : RoutingTable)
  : RoutingTable :=
  match rt_listener t with
  | None => t
  | Some us =>
      set_rt_listener
        (Some (us ++ [NewTCPUpdate (rt_c t) op routePort (mkMember ea ep "user-enabled")])) t
  end.

Definition UpsertBackendServerKey (now : Z) (key : RoutingKey) (info : BackendServerInfo)
  (t : RoutingTable) : RoutingTable * bool :=
  let '(existingEntry, update0) :=
    match entries t !! key with
    | Some e => (e, false)
    | None => (newRoutingTableEntry now [info], true)
    end in
  let '(newBackendKey, newBackendDetails) := serverKeyDetailsFromInfo now info in
  let currentBackendDetails := existingEntry !! newBackendKey in
  let backendFound := match currentBackendDetails with Some _ => true | None => false end in
  let existingEntry' :=
    if negb backendFound ||
       match currentBackendDetails with Some d => updateSucceededBy d newBackendDetails | None => false end
    then <[newBackendKey := newBackendDetails]> existingEntry else existingEntry in
  let update :=
    if negb backendFound ||
       match currentBackendDetails with Some d => differentFrom d newBackendDetails | None => false end
    then true else update0 in
  let t' := upd_entries <[key := existingEntry']> t in
  (if update then updateRouter Add (rk_Port key) (bi_Address info) (bi_Port info) t' else t', update).

Definition DeleteBackendServerKey (now : Z) (key : RoutingKey) (info : BackendServerInfo)
  (t : RoutingTable) : RoutingTable * bool :=
  let '(backendServerKey, newDetails) := serverKeyDetailsFromInfo now info in
  let '(t', update) :=
    match entries t !! key with
    | None => (t, false)
    | Some existingEntry =>
        match existingEntry !! backendServerKey with
        | None => (t, false)
        | Some existingDetails =>
            if deleteSucceededBy existingDetails newDetails then
              let e' := delete backendServerKey existingEntry in
              (upd_entries (if bool_decide (size e' = 0%nat) then delete key else <[key := e']>) t, true)
            else (t, false)
        end
    end in
  (if update : bool
   then updateRouter routeUpdate.Remove (rk_Port key) (bi_Address info) (bi_Port info) t' else t', update).

Section prune.
Context `{!MapOrder RoutingKey} `{!MapOrder BackendServerKey}.

(** The removed keys, in the order of the iteration, and the map afterwards. *)
Definition pruneBackends (now defaultTTL : Z) (backends : entry) : list BackendServerKey * entry :=
  fold_left (λ '(removed, m) '(k, d),
      if expired now defaultTTL d then (removed ++ [k], delete k m) else (removed, m))
    (go_range backends) ([], backends).

Definition announce_removed (key : RoutingKey) (removed : list BackendServerKey) (t : RoutingTable)
  : RoutingTable :=
  fold_left (λ t b, updateRouter routeUpdate.Remove (rk_Port key) (bk_Address b) (bk_Port b) t) removed t.

(** The body of the loop over the entries. *)
Definition pruneEntry (now defaultTTL : Z) (t : RoutingTable) (kv : RoutingKey * entry) : RoutingTable :=
  let '(removed, e') := pruneBackends now defaultTTL kv.2 in
  let t' := announce_removed kv.1 removed t in
  upd_entries (if bool_decide (size e' = 0%nat) then delete kv.1 else <[kv.1 := e']>) t'.

Definition pruneEntries (now defaultTTL : Z) (t : RoutingTable) : RoutingTable :=
  fold_left (pruneEntry now defaultTTL) (go_range (entries t)) t.

Definition StartPruningCycle (t : RoutingTable) : RoutingTable :=
  if 0 <? rt_pruneInterval t then set_rt_ticker (Some true) t else t.

Definition StopPruningCycle (t : RoutingTable) : RoutingTable :=
  match rt_ticker t with Some _ => set_rt_ticker (Some false) t | None => t end.

(** One tick of the pruning goroutine: the interval is the default TTL. *)
Definition tick (now : Z) (t : RoutingTable) : RoutingTable :=
  match rt_ticker t with
  | Some true => pruneEntries now (rt_pruneInterval t) t
  | _ => t
  end.
End prune.

Definition NumberOfRoutes (t : RoutingTable) : nat := size (entries t).

Definition NumberOfBackends (key : RoutingKey) (t : RoutingTable) : nat :=
  match entries t !! key with Some e => size e | None => 0%nat end.

Definition RouteExists (key : RoutingKey) (t : RoutingTable) : bool :=
  match entries t !! key with Some _ => true | None => false end.

Definition BackendExists (key : RoutingKey) (bk : BackendServerKey) (t : RoutingTable) : bool :=
  match entries t !! key with
  | None => false
  | Some e => match e !! bk with Some _ => true | None => false end
  end.

Definition RoutingKey_String (k : RoutingKey) : string := Itoa (rk_Port k).

(** ** What the operations do to the entries *)
Definition info_key (info : BackendServerInfo) : BackendServerKey :=
  mkBackendKey (bi_Address info) (bi_Port info).
Definition info_details (now : Z) (info : BackendServerInfo) : BackendServerDetails :=
  mkDetails (bi_ModificationTag info) (bi_TTL info) now.

(** A backend is written when it is new or its tag is succeeded. *)
Definition upsert_entry (now : Z) (info : BackendServerInfo) (e : entry) : entry :=
  match e !! info_key info with
  | Some d => if updateSucceededBy d (info_details now info)
              then <[info_key info := info_details now info]> e else e
  | None => <[info_key info := info_details now info]> e
  end.

Definition deletable (now : Z) (key : RoutingKey) (info : BackendServerInfo) (m : gmap RoutingKey entry) : bool :=
  match m !! key ≫= (.!! info_key info) with
  | Some d => deleteSucceededBy d (info_details now info)
  | None => false
  end.

(** An entry without backends disappears. *)
Definition live_entry (e : entry) : option entry := if decide (e = ∅) then None else Some e.
Definition put_entry (key : RoutingKey) (e : entry) (m : gmap RoutingKey entry) : gmap RoutingKey entry :=
  partial_alter (λ _, live_entry e) key m.

Lemma put_entry_eq key (e : entry) :
  (if bool_decide (size e = 0%nat) then delete key else <[key := e]>) = put_entry key e.
Proof.
  unfold put_entry, live_entry. case_bool_decide as H.
  - rewrite map_size_empty_iff in H. rewrite decide_True by done. done.
  - rewrite map_size_empty_iff in H. rewrite decide_False by done. done.
Qed.

(** ** The updates sent *)
Definition tcp_event : Type := Operation * (Z * BackendServerKey).
Definition tcp_event_of (u : updateTCP) : tcp_event :=
  (tu_op u, (tu_routePort u, mkBackendKey (MAddress (tu_member u)) (MPort (tu_member u)))).

Definition table_sent (t : RoutingTable) : list tcp_event :=
  match rt_listener t with Some us => tcp_event_of <$> us | None => [] end.
Definition table_tell (t : RoutingTable) (evs : list tcp_event) : list tcp_event :=
  match rt_listener t with Some _ => evs | None => [] end.

Definition table_told (t : RoutingTable) (evs : list tcp_event) (t' : RoutingTable) : Prop :=
  entries t' = entries t ∧ rt_c t' = rt_c t ∧ rt_ticker t' = rt_ticker t ∧ rt_pruneInterval t' = rt_pruneInterval t ∧
  (is_Some (rt_listener t') ↔ is_Some (rt_listener t)) ∧ table_sent t' = table_sent t ++ table_tell t evs.

Lemma table_told_nil t : table_told t [] t.
Proof. unfold table_told, table_tell. by destruct (rt_listener t); rewrite app_nil_r. Qed.

Lemma table_updateRouter_told op port a p t :
  table_told t [(op, (port, mkBackendKey a p))] (updateRouter op port a p t).
Proof.
  unfold updateRouter, table_told, table_tell, table_sent. destruct (rt_listener t) eqn:E; simpl.
  - split_and!; try done. by rewrite fmap_app.
  - by rewrite E.
Qed.

Lemma table_tell_iff t t' evs :
  (is_Some (rt_listener t') ↔ is_Some (rt_listener t)) → table_tell t' evs = table_tell t evs.
Proof.
  unfold table_tell. destruct (rt_listener t), (rt_listener t'); intros [H1 H2]; try done;
    exfalso; [by destruct H2|by destruct H1].
Qed.

Lemma Upsert_spec now key info t :
  let t' := (UpsertBackendServerKey now key info t).1 in
  let b := (UpsertBackendServerKey now key info t).2 in
  entries t' = <[key := upsert_entry now info (default ∅ (entries t !! key))]> (entries t) ∧
  b = negb (BackendExists key (info_key info) t) ∧
  (is_Some (rt_listener t') ↔ is_Some (rt_listener t)) ∧
  table_sent t' = table_sent t ++ table_tell t (if b then [(Add, (rk_Port key, info_key info))] else []).
Proof.
  unfold UpsertBackendServerKey, upsert_entry, BackendExists. simpl.
  fold (info_key info) (info_details now info).
  assert (newRoutingTableEntry now [info] = {[info_key info := info_details now info]}) as -> by done.
  assert (∀ (e : entry) (b : bool), let t1 := upd_entries <[key := e]> t in
    let t2 := if b then updateRouter Add (rk_Port key) (bi_Address info) (bi_Port info) t1 else t1 in
    entries t2 = <[key := e]> (entries t) ∧ (is_Some (rt_listener t2) ↔ is_Some (rt_listener t)) ∧
    table_sent t2 = table_sent t ++ table_tell t (if b then [(Add, (rk_Port key, info_key info))] else []))
    as Hw.
  { intros e [] t1 t2; subst t2.
    - destruct (table_updateRouter_told Add (rk_Port key) (bi_Address info) (bi_Port info) t1)
        as (E & _ & _ & _ & HL & HS). split_and!; [by rewrite E|done|done].
    - split_and!; [done|done|]. apply (table_told_nil t). }
  destruct (entries t !! key) as [e|]; simpl.
  - destruct (e !! info_key info) as [d|]; simpl; unfold differentFrom; rewrite ?andb_false_r; simpl;
      [destruct (Hw (if updateSucceededBy d (info_details now info)
                     then <[info_key info := info_details now info]> e else e) false) as (H1 & H2 & H3)
      |destruct (Hw (<[info_key info := info_details now info]> e) true) as (H1 & H2 & H3)]; done.
  - rewrite lookup_singleton_eq, lookup_empty. simpl. unfold differentFrom. rewrite andb_false_r. simpl.
    destruct (Hw {[info_key info := info_details now info]} true) as (H1 & H2 & H3).
    assert ((if updateSucceededBy (info_details now info) (info_details now info)
             then <[info_key info:=info_details now info]> {[info_key info := info_details now info]}
             else {[info_key info := info_details now info]}) =
            ({[info_key info := info_details now info]} : entry)) as ->.
    { case_match; [|done]. apply insert_singleton_eq. }
    done.
Qed.

Lemma Delete_backend_spec now key info t :
  let t' := (DeleteBackendServerKey now key info t).1 in
  let b := (DeleteBackendServerKey now key info t).2 in
  b = deletable now key info (entries t) ∧
  entries t' = (if b then put_entry key (delete (info_key info) (default ∅ (entries t !! key))) (entries t)
                else entries t) ∧
  (is_Some (rt_listener t') ↔ is_Some (rt_listener t)) ∧
  table_sent t' = table_sent t ++
    table_tell t (if b then [(routeUpdate.Remove, (rk_Port key, info_key info))] else []).
Proof.
  unfold DeleteBackendServerKey, deletable. simpl. fold (info_key info) (info_details now info).
  assert (t = t ∧ (is_Some (rt_listener t) ↔ is_Some (rt_listener t)) ∧ table_sent t = table_sent t ++ table_tell t [])
    as Hsame by (split_and!; [done|done|apply (table_told_nil t)]).
  destruct (entries t !! key) as [e|]; simpl; [|naive_solver].
  destruct (e !! info_key info) as [d|] eqn:Ed; simpl; [|naive_solver].
  destruct (deleteSucceededBy d (info_details now info)); simpl; [|naive_solver].
  rewrite put_entry_eq.
  destruct (table_updateRouter_told routeUpdate.Remove (rk_Port key) (bi_Address info) (bi_Port info)
    (upd_entries (put_entry key (delete (info_key info) e)) t)) as (E & _ & _ & _ & HL & HS).
  split_and!; [done|by rewrite E|done|done].
Qed.

(** ** Expiry *)
Definition fresh_backend (now ttl : Z) (x : BackendServerKey * BackendServerDetails) : Prop :=
  expired now ttl x.2 = false.
#[global] Instance fresh_backend_dec now ttl x : Decision (fresh_backend now ttl x).
Proof. unfold fresh_backend. apply _. Defined.

(** The default interval of 30 seconds as the default TTL. *)
Lemma wrap_default_interval : wrap64 (wrap64 (- (30 * Second)) * Second) = 6893488147419103232.
Proof. reflexivity. Qed.

Section prune_facts.
Context `{!MapOrder RoutingKey} `{!MapOrder BackendServerKey}.

Lemma prune_fold now ttl (l : list (BackendServerKey * BackendServerDetails)) rem (m : entry) :
  NoDup l.*1 →
  let res := fold_left (λ '(removed, m) '(k, d),
      if expired now ttl d then (removed ++ [k], delete k m) else (removed, m)) l (rem, m) in
  ∃ gone, res.1 = rem ++ gone ∧ NoDup gone ∧ (∀ k, k ∈ gone ↔ ∃ d, (k, d) ∈ l ∧ expired now ttl d = true) ∧
    ∀ k, res.2 !! k = if decide (k ∈ gone) then None else m !! k.
Proof.
  revert rem m. induction l as [|[k d] l IH]; intros rem m Hnd res.
  { exists []. split_and!; [by rewrite app_nil_r|constructor|set_solver|].
    intros k. by rewrite decide_False by apply not_elem_of_nil. }
  apply NoDup_cons in Hnd as [Hk Hnd]. simpl in Hk. subst res. cbn [fold_left].
  destruct (expired now ttl d) eqn:Ed.
  - destruct (IH (rem ++ [k]) (delete k m) Hnd) as (gone & H1 & H2 & H3 & H4).
    assert (k ∉ gone) as Hg.
    { intros (d' & Hd & _)%H3. apply Hk. apply list_elem_of_fmap. by exists (k, d'). }
    exists (k :: gone). split_and!; [by rewrite H1, <-app_assoc|by constructor| |].
    + intros k'. rewrite elem_of_cons, H3. split.
      * intros [->|(d' & Hd & He)]; [exists d|exists d']; (split; [|done]); [by left|by right].
      * intros (d' & [[= -> ->]|Hd]%elem_of_cons & He); [by left|]. right. by exists d'.
    + intros k'. rewrite H4. destruct (decide (k' = k)) as [->|Hne].
      * rewrite decide_False by done. rewrite lookup_delete_eq. by rewrite decide_True by by left.
      * rewrite lookup_delete_ne by done. destruct (decide (k' ∈ gone)).
        -- by rewrite decide_True by by right.
        -- rewrite decide_False; [done|]. by intros [->|]%elem_of_cons.
  - destruct (IH rem m Hnd) as (gone & H1 & H2 & H3 & H4). exists gone. split_and!; try done.
    intros k'. rewrite H3. split.
    + intros (d' & Hd & He). exists d'. split; [by right|done].
    + intros (d' & [[= -> ->]|Hd]%elem_of_cons & He); [congruence|]. by exists d'.
Qed.

Lemma pruneBackends_spec now ttl (e : entry) :
  let '(removed, e') := pruneBackends now ttl e in
  e' = filter (fresh_backend now ttl) e ∧ NoDup removed ∧
  ∀ k, k ∈ removed ↔ ∃ d, e !! k = Some d ∧ expired now ttl d = true.
Proof.
  unfold pruneBackends.
  destruct (prune_fold now ttl (go_range e) [] e (go_range_NoDup_fst e)) as (gone & H1 & H2 & H3 & H4).
  destruct (fold_left _ _ _) as [removed e']. simpl in *. subst removed.
  setoid_rewrite elem_of_go_range in H3. split_and!; try done.
  apply map_eq. intros k. rewrite H4. case_decide as Hd.
  - apply H3 in Hd as (d & Hk & Hx). symmetry. apply map_lookup_filter_None. right. intros d' Hd'.
    unfold fresh_backend. simpl. simplify_eq. congruence.
  - destruct (e !! k) as [d|] eqn:Hk.
    + symmetry. apply map_lookup_filter_Some. split; [done|]. unfold fresh_backend. simpl.
      apply not_true_is_false. intros Hx. apply Hd, H3. eauto.
    + symmetry. apply map_lookup_filter_None. by left.
Qed.

Definition gone_event (key : RoutingKey) (b : BackendServerKey) : tcp_event :=
  (routeUpdate.Remove, (rk_Port key, b)).

Lemma announce_removed_told key removed t :
  table_told t (gone_event key <$> removed) (announce_removed key removed t).
Proof.
  unfold announce_removed. revert t. induction removed as [|b removed IH]; intros t; [apply table_told_nil|].
  simpl. destruct (table_updateRouter_told routeUpdate.Remove (rk_Port key) (bk_Address b) (bk_Port b) t)
    as (A1 & A2 & A3 & A4 & A5 & A6).
  destruct (IH (updateRouter routeUpdate.Remove (rk_Port key) (bk_Address b) (bk_Port b) t))
    as (B1 & B2 & B3 & B4 & B5 & B6).
  unfold table_told. rewrite B1, B2, B3, B4, B5, B6, A6, (table_tell_iff _ _ _ A5), <-app_assoc.
  split_and!; try done. f_equal. unfold table_tell. destruct (rt_listener t); [|done].
  destruct b; done.
Qed.

(** The events of the walk over the entries in [l]. *)
Definition gone_ok (now ttl : Z) (l : list (RoutingKey * entry)) (evs : list tcp_event) : Prop :=
  NoDup evs ∧ ∀ ev, ev ∈ evs ↔ ∃ key e b d, (key, e) ∈ l ∧ e !! b = Some d ∧ expired now ttl d = true ∧
                               ev = gone_event key b.

Lemma gone_ok_cons now ttl key (e : entry) l removed evs :
  key ∉ l.*1 → NoDup removed → (∀ k, k ∈ removed ↔ ∃ d, e !! k = Some d ∧ expired now ttl d = true) →
  gone_ok now ttl l evs → gone_ok now ttl ((key, e) :: l) ((gone_event key <$> removed) ++ evs).
Proof.
  intros Hk Hnd Hrem [Hnd' Hev]. split.
  - apply NoDup_app. split_and!; [| |done].
    + apply NoDup_fmap_2_strong; [|done]. by intros ???? [= ?].
    + intros ev (b & -> & _)%list_elem_of_fmap (key' & e' & b' & d & Hin & _ & _ & [= E _])%Hev.
      apply Hk. apply list_elem_of_fmap. exists (key', e'). split; [|done]. simpl.
      destruct key, key'. simpl in E. by subst.
  - intros ev. rewrite elem_of_app, list_elem_of_fmap, Hev. setoid_rewrite Hrem. setoid_rewrite elem_of_cons. split.
    + intros [(b & -> & d & Hd)|(key' & e' & b & d & H)].
      * exists key, e, b, d. split; [by left|]. by destruct Hd.
      * exists key', e', b, d. destruct H as (Hin & H). split; [by right|done].
    + intros (key' & e' & b & d & [[= -> ->]|Hin] & H1 & H2 & ->).
      * left. eauto.
      * right. exists key', e', b, d. done.
Qed.

Lemma prune_entries_fold now ttl (l : list (RoutingKey * entry)) t :
  NoDup l.*1 →
  let t' := fold_left (pruneEntry now ttl) l t in
  rt_ticker t' = rt_ticker t ∧ (is_Some (rt_listener t') ↔ is_Some (rt_listener t)) ∧
  (∃ evs, table_sent t' = table_sent t ++ table_tell t evs ∧ gone_ok now ttl l evs) ∧
  ∀ key, entries t' !! key =
    match list_to_map (M := gmap RoutingKey entry) l !! key with
    | Some e => live_entry (filter (fresh_backend now ttl) e)
    | None => entries t !! key
    end.
Proof.
  revert t. induction l as [|[key e] l IH]; intros t Hnd t'.
  { split_and!; [done|done| |done]. exists []. split; [apply (table_told_nil t)|].
    split; [constructor|]. intros ev. split; [by intros ?%elem_of_nil|].
    intros (?&?&?&?&?%elem_of_nil&_). done. }
  apply NoDup_cons in Hnd as [Hk Hnd]. simpl in Hk. subst t'. cbn [fold_left].
  pose proof (pruneBackends_spec now ttl e) as Hp.
  unfold pruneEntry at 2 4 6 8. cbn [fst snd].
  destruct (pruneBackends now ttl e) as [removed e']. destruct Hp as (He' & Hndr & Hrem).
  rewrite put_entry_eq.
  destruct (announce_removed_told key removed t) as (A1 & A2 & A3 & A4 & A5 & A6).
  set (t1 := announce_removed key removed t) in *.
  destruct (IH (upd_entries (put_entry key e') t1) Hnd) as (B1 & B2 & (evs & B3 & B4) & B5).
  simpl in B1, B2. split_and!; [by rewrite B1|by rewrite B2| |].
  - exists ((gone_event key <$> removed) ++ evs). split; [|by apply gone_ok_cons].
    rewrite B3. change (table_sent (upd_entries (put_entry key e') t1)) with (table_sent t1).
    change (table_tell (upd_entries (put_entry key e') t1) evs) with (table_tell t1 evs).
    rewrite A6, (table_tell_iff _ _ _ A5), <-app_assoc. f_equal. unfold table_tell. by destruct (rt_listener t).
  - intros key'. rewrite B5. cbn [list_to_map foldr fst snd]. destruct (decide (key' = key)) as [->|Hne].
    + rewrite lookup_insert_eq. rewrite (not_elem_of_list_to_map_1 (M := gmap RoutingKey) l key) by done.
      simpl. unfold put_entry. by rewrite lookup_partial_alter_eq, He'.
    + rewrite lookup_insert_ne by done. case_match; [done|]. simpl. unfold put_entry.
      rewrite lookup_partial_alter_ne by done. by rewrite A1.
Qed.

Definition spec_prune_table (now ttl : Z) (m : gmap RoutingKey entry) : gmap RoutingKey entry :=
  omap (λ e : entry, live_entry (filter (fresh_backend now ttl) e)) m.

Lemma pruneEntries_spec now ttl t :
  let t' := pruneEntries now ttl t in
  entries t' = spec_prune_table now ttl (entries t) ∧ rt_ticker t' = rt_ticker t ∧
  (is_Some (rt_listener t') ↔ is_Some (rt_listener t)) ∧
  ∃ evs, table_sent t' = table_sent t ++ table_tell t evs ∧ NoDup evs ∧
    ∀ ev, ev ∈ evs ↔ ∃ key e b d, entries t !! key = Some e ∧ e !! b = Some d ∧ expired now ttl d = true ∧
                     ev = gone_event key b.
Proof.
  destruct (prune_entries_fold now ttl (go_range (entries t)) t (go_range_NoDup_fst _))
    as (H1 & H2 & (evs & H3 & H4 & H5) & H6).
  unfold pruneEntries. split_and!; [|done|done|].
  - apply map_eq. intros key. rewrite H6, go_range_list_to_map. unfold spec_prune_table. rewrite lookup_omap.
    by destruct (entries t !! key).
  - exists evs. split_and!; [done..|]. intros ev. rewrite H5. by setoid_rewrite elem_of_go_range.
Qed.

(** ** Runs and the listener's view *)
Inductive tbl_reach (c : Config) : RoutingTable → Prop :=
| tbl_new : tbl_reach c (NewRoutingTable c true)
| tbl_upsert now key info t : tbl_reach c t → tbl_reach c (UpsertBackendServerKey now key info t).1
| tbl_delete now key info t : tbl_reach c t → tbl_reach c (DeleteBackendServerKey now key info t).1
| tbl_tick now t : tbl_reach c t → tbl_reach c (tick now t)
| tbl_start t : tbl_reach c t → tbl_reach c (StartPruningCycle t)
| tbl_stop t : tbl_reach c t → tbl_reach c (StopPruningCycle t).

Definition apply_tcp (s : gset (Z * BackendServerKey)) (ev : tcp_event) : gset (Z * BackendServerKey) :=
  match ev.1 with
  | Add => {[ ev.2 ]} ∪ s
  | routeUpdate.Remove => s ∖ {[ ev.2 ]}
  | _ => s
  end.
Definition replay_tcp (evs : list tcp_event) : gset (Z * BackendServerKey) := fold_left apply_tcp evs ∅.

Definition in_table (m : gmap RoutingKey entry) (x : Z * BackendServerKey) : Prop :=
  is_Some (m !! mkRoutingKey x.1 ≫= (.!! x.2)).

Record tbl_inv (t : RoutingTable) : Prop := {
  ti_live : ∀ key e, entries t !! key = Some e → e ≠ ∅;
  ti_listener : is_Some (rt_listener t);
  ti_view : ∀ x, x ∈ replay_tcp (table_sent t) ↔ in_table (entries t) x
}.

Lemma replay_tcp_removes evs s x :
  (∀ ev, ev ∈ evs → ev.1 = routeUpdate.Remove) →
  x ∈ fold_left apply_tcp evs s ↔ x ∈ s ∧ (routeUpdate.Remove, x) ∉ evs.
Proof.
  revert s. induction evs as [|[op y] evs IH]; intros s Hev; cbn [fold_left].
  { split; [|naive_solver]. intros; split; [done|apply not_elem_of_nil]. }
  assert (op = routeUpdate.Remove) as -> by (apply (Hev (op, y)); by left).
  rewrite IH by (intros; apply Hev; by right). unfold apply_tcp. simpl.
  rewrite elem_of_difference, elem_of_singleton, elem_of_cons. naive_solver.
Qed.

Lemma table_listener_tell t evs : is_Some (rt_listener t) → table_tell t evs = evs.
Proof. intros [us E]. unfold table_tell. by rewrite E. Qed.

(** One key changes, all other keys stay. *)
Lemma in_table_alter (m m' : gmap RoutingKey entry) key x :
  (∀ k, k ≠ key → m' !! k = m !! k) → x.1 ≠ rk_Port key → in_table m' x ↔ in_table m x.
Proof. intros E Hx. unfold in_table. rewrite E; [done|]. intros <-. done. Qed.

Lemma upsert_entry_dom now info (e : entry) b :
  is_Some (upsert_entry now info e !! b) ↔ b = info_key info ∨ is_Some (e !! b).
Proof.
  unfold upsert_entry. destruct (e !! info_key info) as [d|] eqn:E.
  - assert (b = info_key info ∨ is_Some (e !! b) ↔ is_Some (e !! b)) as -> by naive_solver.
    case_match; [|done]. rewrite lookup_insert_is_Some.
    destruct (decide (info_key info = b)) as [<-|]; [rewrite E|]; naive_solver.
  - rewrite lookup_insert_is_Some. destruct (decide (info_key info = b)); naive_solver.
Qed.

Lemma Upsert_inv now key info t : tbl_inv t → tbl_inv (UpsertBackendServerKey now key info t).1.
Proof.
  intros [H1 H2 H3]. destruct (Upsert_spec now key info t) as (HE & HB & HL & HS).
  destruct (UpsertBackendServerKey now key info t) as [t' b]. simpl in *. split.
  - intros k e. rewrite HE. intros [[<- <-]|[_ ?]]%lookup_insert_Some; [|eauto].
    intros E. assert (is_Some (upsert_entry now info (default ∅ (entries t !! key)) !! info_key info)) as [y Hy]
      by (apply upsert_entry_dom; by left). by rewrite E in Hy.
  - by apply HL.
  - intros [port bk]. rewrite table_listener_tell in HS by done. rewrite HS. unfold replay_tcp.
    rewrite fold_left_app. fold (replay_tcp (table_sent t)).
    destruct (decide (port = rk_Port key)) as [->|Hp].
    + assert (in_table (entries t') (rk_Port key, bk) ↔ bk = info_key info ∨ in_table (entries t) (rk_Port key, bk)) as ->.
      { unfold in_table. rewrite HE. destruct key as [port]. simpl. rewrite lookup_insert_eq. simpl.
        rewrite upsert_entry_dom. by destruct (entries t !! mkRoutingKey port). }
      rewrite <-H3. subst b. unfold BackendExists.
      destruct (entries t !! key) as [e|] eqn:Ek; [destruct (e !! info_key info) eqn:Eb|]; simpl;
        unfold apply_tcp; simpl; [|set_solver|set_solver].
      split; [by right|]. intros [->|]; [|done]. apply H3. unfold in_table. destruct key. simpl in *.
      rewrite Ek. simpl. by rewrite Eb.
    + rewrite (in_table_alter (entries t) _ key) by (done || intros; rewrite HE; by rewrite lookup_insert_ne).
      rewrite <-H3. destruct b; simpl; [|done]. unfold apply_tcp. simpl. set_solver.
Qed.

Lemma put_entry_lookup key (e : entry) m k :
  put_entry key e m !! k = if decide (k = key) then live_entry e else m !! k.
Proof.
  unfold put_entry. destruct (decide (k = key)) as [->|];
    [by rewrite lookup_partial_alter_eq|by rewrite lookup_partial_alter_ne].
Qed.

Lemma live_entry_bind (e : entry) b : live_entry e ≫= (.!! b) = e !! b.
Proof. unfold live_entry. case_decide; [subst; simpl; by rewrite lookup_empty|done]. Qed.

Lemma Delete_inv now key info t : tbl_inv t → tbl_inv (DeleteBackendServerKey now key info t).1.
Proof.
  intros [H1 H2 H3]. destruct (Delete_backend_spec now key info t) as (HB & HE & HL & HS).
  destruct (DeleteBackendServerKey now key info t) as [t' b]. simpl in *.
  rewrite table_listener_tell in HS by done. destruct b.
  2:{ rewrite app_nil_r in HS. split; rewrite ?HE, ?HS; [done|by apply HL|done]. }
  split; [|by apply HL|].
  - intros k e. rewrite HE, put_entry_lookup. unfold live_entry. repeat case_decide; [done| |eauto].
    by intros [= <-].
  - intros [port bk]. rewrite HS. unfold replay_tcp. rewrite fold_left_app. fold (replay_tcp (table_sent t)).
    simpl. unfold apply_tcp. simpl. rewrite elem_of_difference, elem_of_singleton, H3, HE. unfold in_table. simpl.
    rewrite put_entry_lookup. destruct (decide (mkRoutingKey port = key)) as [<-|Hk].
    + rewrite live_entry_bind. simpl. rewrite lookup_delete_is_Some.
      destruct (entries t !! mkRoutingKey port); simpl; [|rewrite lookup_empty]; naive_solver.
    + split; [by intros [? _]|]. intros; split; [done|]. intros [= -> _]. by destruct key.
Qed.

Lemma table_prune_inv now ttl t : tbl_inv t → tbl_inv (pruneEntries now ttl t).
Proof.
  intros [H1 H2 H3]. destruct (pruneEntries_spec now ttl t) as (HE & _ & HL & evs & HS & _ & Hev).
  rewrite table_listener_tell in HS by done. split; [|by apply HL|].
  - intros k e. rewrite HE. unfold spec_prune_table. rewrite lookup_omap. intros (e0 & _ & He)%bind_Some.
    unfold live_entry in He. case_decide; by simplify_eq.
  - intros [port bk]. rewrite HS, HE. unfold replay_tcp. rewrite fold_left_app. fold (replay_tcp (table_sent t)).
    rewrite replay_tcp_removes, H3, Hev by (by intros ev (?&?&?&?&_&_&_&->)%Hev).
    unfold in_table, spec_prune_table. simpl. rewrite lookup_omap.
    destruct (entries t !! mkRoutingKey port) as [e|] eqn:Ee; simpl.
    2:{ split; [by intros [? _]|by intros [? ?]]. }
    rewrite live_entry_bind. split.
    + intros [[d Hd] Hn]. exists d. apply map_lookup_filter_Some. split; [done|]. unfold fresh_backend. simpl.
      apply not_true_is_false. intros Hx. apply Hn. by exists (mkRoutingKey port), e, bk, d.
    + intros [d (Hd & Hf)%map_lookup_filter_Some]. split; [by eexists|].
      intros (key & e' & b & d' & Hk & Hb & Hx & [= E <-]). destruct key. simpl in E. subst.
      simplify_eq. unfold fresh_backend in Hf. simpl in Hf. congruence.
Qed.

Lemma tbl_inv_frame t t' :
  entries t' = entries t → rt_listener t' = rt_listener t → tbl_inv t → tbl_inv t'.
Proof. intros E1 E2 [H1 H2 H3]. split; unfold table_sent; rewrite ?E1, ?E2; done. Qed.

Lemma tbl_reach_inv c t : tbl_reach c t → tbl_inv t.
Proof.
  induction 1 as [|now key info t _ IH|now key info t _ IH|now t _ IH|t _ IH|t _ IH].
  - split; [done|by eexists|]. intros x. split; [set_solver|]. intros [y Hy]. done.
  - by apply Upsert_inv.
  - by apply Delete_inv.
  - unfold tick. case_match; [|done]. case_match; [by apply table_prune_inv|done].
  - unfold StartPruningCycle. case_match; [by apply (tbl_inv_frame t)|done].
  - unfold StopPruningCycle. case_match; [by apply (tbl_inv_frame t)|done].
Qed.
End prune_facts.

(** ** Properties *)

(** An upsert writes the backend when it is new or the stored tag is
    succeeded and leaves every other backend alone; it answers true and tells
    the listener exactly when the backend was not in the table. *)
Theorem table_upsert_refines now key info t :
  let '(t', b) := UpsertBackendServerKey now key info t in
  entries t' = <[key := upsert_entry now info (default ∅ (entries t !! key))]> (entries t) ∧
  b = negb (BackendExists key (info_key info) t) ∧
  table_sent t' = table_sent t ++ table_tell t (if b then [(Add, (rk_Port key, info_key info))] else []).
Proof.
  destruct (Upsert_spec now key info t) as (H1 & H2 & _ & H3).
  by destruct (UpsertBackendServerKey now key info t).
Qed.

(** A delete removes the backend exactly when it is stored with the same
    or a succeeded tag, drops the entry with its last backend, and answers
    true and tells the listener exactly then. *)
Theorem table_delete_refines now key info t :
  let '(t', b) := DeleteBackendServerKey now key info t in
  b = deletable now key info (entries t) ∧
  entries t' = (if b then put_entry key (delete (info_key info) (default ∅ (entries t !! key))) (entries t)
                else entries t) ∧
  table_sent t' = table_sent t ++
    table_tell t (if b then [(routeUpdate.Remove, (rk_Port key, info_key info))] else []).
Proof.
  destruct (Delete_backend_spec now key info t) as (H1 & H2 & _ & H3).
  by destruct (DeleteBackendServerKey now key info t).
Qed.

(** Pruning keeps exactly the backends that have not expired, drops empty
    entries and sends one removal per expired backend, in any iteration order. *)
Theorem table_prune_exact `{!MapOrder RoutingKey} `{!MapOrder BackendServerKey} now ttl t :
  entries (pruneEntries now ttl t) = spec_prune_table now ttl (entries t) ∧
  ∃ evs, table_sent (pruneEntries now ttl t) = table_sent t ++ table_tell t evs ∧ NoDup evs ∧
    ∀ ev, ev ∈ evs ↔ ∃ key e b d, entries t !! key = Some e ∧ e !! b = Some d ∧ expired now ttl d = true ∧
                     ev = (routeUpdate.Remove, (rk_Port key, b)).
Proof. by destruct (pruneEntries_spec now ttl t) as (H1 & _ & _ & H2). Qed.

(** C28. In every state the table reaches, acting on the updates sent so far
    gives exactly the backends it holds. *)
Theorem table_listener_agrees `{!MapOrder RoutingKey} `{!MapOrder BackendServerKey} c t port bk :
  tbl_reach c t →
  (port, bk) ∈ replay_tcp (table_sent t) ↔ BackendExists (mkRoutingKey port) bk t = true.
Proof.
  intros Hr. rewrite (ti_view _ (tbl_reach_inv c t Hr)). unfold in_table, BackendExists. simpl.
  destruct (entries t !! mkRoutingKey port) as [e|]; simpl; [destruct (e !! bk)|]; split; try done; by intros [? ?].
Qed.

Definition demo_info : BackendServerInfo := mkInfo "10.0.0.9" 61000 (mkTag "g" 1) 120.

Lemma table_listener_agrees_witness :
  let t := (UpsertBackendServerKey 5 (mkRoutingKey 6000) demo_info (NewRoutingTable defaultConfig true)).1 in
  (6000, mkBackendKey "10.0.0.9" 61000) ∈ replay_tcp (table_sent t).
Proof.
  intros t. apply (table_listener_agrees defaultConfig t).
  - apply tbl_upsert, tbl_new.
  - vm_compute. reflexivity.
Defined.

(** C30. A backend with a TTL of [ttl] seconds, up to the bound of 64-bit
    durations, has expired exactly when its last update is more than [ttl]
    seconds ago.  A backend without TTL under the default pruning interval of
    30 seconds has expired whenever its last update is not two centuries
    ahead: the interval is a duration already, and multiplying it by a second
    once more wraps around. *)
Theorem table_expiry_bounds now d :
  (0 < TTL d ≤ 9223372036 → ∀ dflt,
     expired now dflt d = bool_decide (UpdatedTime d + TTL d * Second < now)) ∧
  (TTL d = 0 → UpdatedTime d < now + 200 * 365 * 24 * 3600 * Second →
     expired now (30 * Second) d = true).
Proof.
  unfold expired. split.
  - intros Ht dflt. assert (TTL d =? 0 = false) as -> by lia.
    rewrite (wrap64_id (- TTL d)) by (unfold fits64; lia).
    rewrite wrap64_id by (unfold fits64, Second; lia).
    destruct (Z.ltb_spec (UpdatedTime d) (now + - TTL d * Second)); symmetry;
      [apply bool_decide_eq_true|apply bool_decide_eq_false]; lia.
  - intros -> Hu. simpl. rewrite wrap_default_interval. unfold Second in *. lia.
Qed.

Lemma table_expiry_bounds_witness :
  expired 1000 (30 * Second) (mkDetails (mkTag "g" 1) 0 1000) = true ∧
  expired (121 * Second) 0 (mkDetails (mkTag "g" 1) 120 0) = true.
Proof.
  split.
  - apply (proj2 (table_expiry_bounds 1000 (mkDetails (mkTag "g" 1) 0 1000))); [reflexivity|reflexivity].
  - rewrite (proj1 (table_expiry_bounds (121 * Second) (mkDetails (mkTag "g" 1) 120 0))); [reflexivity|].
    split; [reflexivity|discriminate].
Defined.
