(* ===== verification/Fetcher.v ===== *)
(** Reconciliation with the routing API: [src/routefetcher/http_fetcher.go],
    [tcp_fetcher.go] and the subscription cycle of [route_fetcher.go].

    Both fetchers keep the list of routes of the last synchronisation, remove
    the ones that are no longer announced and (re-)register the announced
    ones.  The registry and the TCP table promise them the same thing, stated
    by the class [RouteSink]: a store of modification tags by key, in which an
    addition writes a new or succeeded tag and a removal deletes the same or a
    succeeded one, and a listener that is told of a withdrawal of a key only by
    a removal of that key.  The fetchers' theorems are proved against the class; the
    instances discharge it with the theorems of [Registry] and
    [RoutingTable].

    The UAA and routing-API clients are third-party code: [FetchToken] and
    [Routes] are arguments, functions of the attempt and of what is passed to
    the client. *)
From Stdlib Require Import Ascii ZArith Lia.
From stdpp Require Import sorting countable base list gmap strings.
From S2P Require Import Prelude GoStrings Uri Trie Pool Config Resources Updates Registry RoutingTable.
Import routeUpdate.
Local Open Scope Z_scope.

(** ** Data of the routing API ([models.Route], [models.TcpRouteMapping]) *)
Record Route := mkRoute {
  ro_Route : string;
  ro_Port : Z;
  ro_IP : string;
  ro_TTL : option Z;
  ro_LogGuid : string;
  ro_RouteServiceUrl : string;
  ro_ModificationTag : ModificationTag
}.

Record TcpRouteMapping := mkMapping {
  tm_HostPort : Z;
  tm_HostIP : string;
  tm_ExternalPort : Z;
  tm_ModificationTag : ModificationTag;
  tm_TTL : option Z
}.

Definition GetTTL (r : Route) : Z := default 0 (ro_TTL r).

(** ** What the fetchers need of the store behind them *)

(** The tag after an addition, and after a removal. *)
Definition tag_added (old : option ModificationTag) (new : ModificationTag) : ModificationTag :=
  match old with Some t => if SucceededBy t new then new else t | None => new end.
Definition tag_removable (t new : ModificationTag) : bool := bool_decide (t = new) || SucceededBy t new.
Definition tag_removed (old : option ModificationTag) (new : ModificationTag) : option ModificationTag :=
  match old with Some t => if tag_removable t new then None else Some t | None => None end.

Class RouteSink (S I K : Type) `{EqDecision K} := {
  sink_add : Z → I → S → result S;
  sink_remove : Z → I → S → result S;
  sink_key : I → K;
  sink_item_tag : I → ModificationTag;
  sink_tag : K → S → option ModificationTag;
  sink_withdrawn : K → S → nat;
  sink_ok : S → Prop;
  sink_good : I → Prop;
  sink_add_law : ∀ now i s, sink_ok s → sink_good i →
    ∃ s', sink_add now i s = Ok s' ∧ sink_ok s' ∧
      (∀ k, sink_tag k s' = if decide (k = sink_key i) then Some (tag_added (sink_tag k s) (sink_item_tag i))
                            else sink_tag k s) ∧
      ∀ k, sink_withdrawn k s' = sink_withdrawn k s;
  sink_remove_law : ∀ now i s, sink_ok s → sink_good i →
    ∃ s', sink_remove now i s = Ok s' ∧ sink_ok s' ∧
      (∀ k, sink_tag k s' = if decide (k = sink_key i) then tag_removed (sink_tag k s) (sink_item_tag i)
                            else sink_tag k s) ∧
      ∀ k, k ≠ sink_key i → sink_withdrawn k s' = sink_withdrawn k s
}.

(** ** Reconciliation, once for both fetchers *)
Section sync.
Context {S I K : Type} `{RouteSink S I K}.
Variable routeEq : I → I → bool.

Fixpoint remove_all (now : Z) (l : list I) (s : S) : result S :=
  match l with [] => Ok s | i :: l' => rbind (sink_remove now i s) (remove_all now l') end.

Fixpoint add_all (now : Z) (l : list I) (s : S) : result S :=
  match l with [] => Ok s | i :: l' => rbind (sink_add now i s) (add_all now l') end.

(** The routes of the last synchronisation that are no longer valid. *)
Definition outdated (endpoints validRoutes : list I) : list I :=
  filter (λ cur, existsb (routeEq cur) validRoutes = false) endpoints.

Definition refresh (now : Z) (endpoints validRoutes : list I) (s : S) : result S :=
  rbind (remove_all now (outdated endpoints validRoutes) s) (add_all now validRoutes).

(** At most two attempts; the second one with a forced token refresh, after an
    answer [unauthorized]. *)
Fixpoint fetch_loop (attempts count : nat) (forceUpdate : bool)
  (FetchToken : nat → bool → result string) (Routes : nat → string → result (list I))
  (last : result (list I)) : result (list I) :=
  match attempts with
  | O => last
  | Datatypes.S attempts' =>
      rbind (FetchToken count forceUpdate) (λ token,
      match Routes count token with
      | Err e =>
          if bool_decide (e = "unauthorized")
          then fetch_loop attempts' (Datatypes.S count) true FetchToken Routes (Err e)
          else Err e
      | m => m
      end)
  end.

Definition fetchWithTokenRefresh (FetchToken : nat → bool → result string)
  (Routes : nat → string → result (list I)) : result (list I) :=
  fetch_loop 2 0 false FetchToken Routes (Ok []).

(** The fetched routes become the list of the last synchronisation. *)
Definition fetchRoutes (now : Z) (FetchToken : nat → bool → result string)
  (Routes : nat → string → result (list I)) (endpoints : list I) (s : S) : result (list I * S) :=
  rbind (fetchWithTokenRefresh FetchToken Routes) (λ validRoutes,
  rbind (refresh now endpoints validRoutes s) (λ s', Ok (validRoutes, s'))).
End sync.

(** ** HTTP: the registry as a sink *)

(** The registry together with the allocator of [route.Endpoint] objects. *)
Record HTTPStore := mkHTTPStore { hs_registry : RouteRegistry; hs_next : nat }.

Definition route_endpoint (l : nat) (r : Route) : Endpoint :=
  NewEndpoint l (ro_LogGuid r) (ro_IP r) (uint16 (ro_Port r)) (ro_LogGuid r) EmptyString ∅ (GetTTL r)
    (ro_RouteServiceUrl r) (ro_ModificationTag r).

Definition http_add (now : Z) (r : Route) (s : HTTPStore) : result HTTPStore :=
  rbind (Register now (ro_Route r) (route_endpoint (hs_next s) r) (hs_registry s))
    (λ g, Ok (mkHTTPStore g (S (hs_next s)))).

Definition http_remove (r : Route) (s : HTTPStore) : result HTTPStore :=
  rbind (Unregister (ro_Route r) (route_endpoint (hs_next s) r) (hs_registry s))
    (λ g, Ok (mkHTTPStore g (S (hs_next s)))).

Definition routeEquals (current desired : Route) : bool :=
  bool_decide (ro_Route current = ro_Route desired) && bool_decide (ro_IP current = ro_IP desired)
  && bool_decide (ro_Port current = ro_Port desired).

(** An event that is not a [routing_api.Event] leaves the zero event, whose
    action is the empty string. *)
Definition http_HandleEvent (now : Z) (e : option (Route * string)) (s : HTTPStore) : result HTTPStore :=
  match e with
  | None => Ok s
  | Some (r, action) =>
      if bool_decide (action = "Delete") then http_remove r s
      else if bool_decide (action = "Upsert") then http_add now r s
      else Ok s
  end.

Definition route_key (r : Route) : list string * string :=
  (segments (RouteKey (ro_Route r)), CanonicalAddr (route_endpoint 0 r)).

Definition tag_of (x : option (Endpoint * Z)) : option ModificationTag := (λ x, EpTag x.1) <$> x.

Definition stored_tag (k : list string * string) (g : RouteRegistry) : option ModificationTag :=
  tag_of (routes g !! k.1 ≫= (.!! k.2)).

Lemma filter_told {A} (P : A → Prop) `{!∀ x, Decision (P x)} (l l' : list A) :
  Forall (λ x, ¬ P x) l' → length (filter P (l ++ l')) = length (filter P l).
Proof.
  intros Hn. rewrite filter_app, length_app. induction Hn as [|x l' Hx _ IH]; [simpl; lia|]. by rewrite filter_cons_False.
Qed.

(** How often the listener was told that an address left a route. *)
Definition withdraws (k : list string * string) (e : event) : Prop :=
  e.1.1 = routeUpdate.Remove ∧ segments e.1.2 = k.1 ∧ CanonicalAddr <$> e.2 = Some k.2.

#[global] Instance withdraws_dec k e : Decision (withdraws k e).
Proof. apply _. Defined.

Definition withdrawn (k : list string * string) (g : RouteRegistry) : nat :=
  length (filter (withdraws k) (sent g)).

Definition http_store_ok (s : HTTPStore) : Prop :=
  reg_ok (hs_registry s) ∧
  ∀ p m a ep u, routes (hs_registry s) !! p = Some m → m !! a = Some (ep, u) → (ep_loc ep < hs_next s)%nat.

Definition http_good (r : Route) : Prop := good_uri (ro_Route r) ∧ count_char ":" (ro_LogGuid r) = 0%nat.

(** An addition through a new object never meets its own pointer. *)
Lemma put_spec_tag now m ep a :
  (∀ old u, m !! CanonicalAddr ep = Some (old, u) → ep_loc old ≠ ep_loc ep) →
  tag_of ((put_spec now m ep).1 !! a) =
    if decide (a = CanonicalAddr ep) then Some (tag_added (tag_of (m !! a)) (EpTag ep)) else tag_of (m !! a).
Proof.
  intros Hf. unfold put_spec. destruct (decide (a = CanonicalAddr ep)) as [->|Ha].
  - destruct (m !! CanonicalAddr ep) as [[old u]|] eqn:Em.
    + rewrite bool_decide_eq_false_2 by eauto. simpl. destruct (SucceededBy (EpTag old) (EpTag ep)); cbn [fst].
      * by rewrite lookup_insert_eq.
      * by rewrite Em.
    + cbn [fst]. by rewrite lookup_insert_eq.
  - repeat case_match; cbn [fst]; by rewrite ?lookup_insert_ne.
Qed.

Lemma put_spec_from now m ep a e u :
  (put_spec now m ep).1 !! a = Some (e, u) → e = ep ∨ ∃ u', m !! a = Some (e, u').
Proof.
  unfold put_spec. destruct (m !! CanonicalAddr ep) as [[old v]|] eqn:Em; repeat case_match; cbn [fst];
    [intros [[<- [= <- _]]|[_ Ha]]%lookup_insert_Some|intros [[<- [= <- _]]|[_ Ha]]%lookup_insert_Some
    |intros Ha|intros [[<- [= <- _]]|[_ Ha]]%lookup_insert_Some]; eauto.
Qed.

Lemma default_lookup (R : gmap (list string) (gmap string (Endpoint * Z))) p a :
  R !! p ≫= (.!! a) = default ∅ (R !! p) !! a.
Proof. by destruct (R !! p). Qed.

(** Updates that do not withdraw [k] leave its count. *)
Lemma withdrawn_told k g g' evs :
  sent g' = sent g ++ tell g evs → Forall (λ e, ¬ withdraws k e) evs → withdrawn k g' = withdrawn k g.
Proof.
  intros E Hn. unfold withdrawn. rewrite E. by apply filter_told; unfold tell; destruct (listener g).
Qed.

Lemma http_add_law now r s :
  http_store_ok s → http_good r →
  ∃ s', http_add now r s = Ok s' ∧ http_store_ok s' ∧
    (∀ k, stored_tag k (hs_registry s') =
      if decide (k = route_key r)
      then Some (tag_added (stored_tag k (hs_registry s)) (ro_ModificationTag r))
      else stored_tag k (hs_registry s)) ∧
    ∀ k, withdrawn k (hs_registry s') = withdrawn k (hs_registry s).
Proof.
  intros [Hok Hloc] [Hu Hg]. unfold http_add. set (ep := route_endpoint (hs_next s) r).
  destruct (Register_spec now (ro_Route r) ep (hs_registry s) Hok Hu Hg) as (g & -> & Hok' & HR & _ & _ & HS).
  set (p := segments (RouteKey (ro_Route r))) in *. simpl. eexists. split; [done|].
  unfold spec_register in HR. set (m0 := default ∅ (routes (hs_registry s) !! p)) in *.
  assert (∀ a e u, m0 !! a = Some (e, u) → (ep_loc e < hs_next s)%nat) as Hm0.
  { intros a e u. unfold m0. rewrite <-default_lookup. intros (m & Hm & Ha)%bind_Some. eauto. }
  split; [split; [done|]|split].
  - simpl. intros q m a e u. rewrite HR.
    intros [[<- <-]|[_ Hq]]%lookup_insert_Some Ha; [|pose proof (Hloc _ _ _ _ _ Hq Ha); lia].
    apply put_spec_from in Ha as [->|[u' Ha]]; [simpl; lia|]. apply Hm0 in Ha. lia.
  - intros [q a]. unfold stored_tag, route_key. simpl. rewrite HR. fold p.
    destruct (decide (q = p)) as [->|Hq].
    + rewrite lookup_insert_eq, default_lookup. fold m0. simpl.
      rewrite put_spec_tag by (intros old u Hold%Hm0; simpl; lia).
      change (CanonicalAddr ep) with (CanonicalAddr (route_endpoint 0 r)).
      destruct (decide (a = CanonicalAddr (route_endpoint 0 r))) as [->|Ha].
      * by rewrite decide_True.
      * by rewrite decide_False by congruence.
    + rewrite lookup_insert_ne by done. by rewrite decide_False by congruence.
  - intros k. apply (withdrawn_told _ _ _ _ HS). destruct (known _ _ _); [done|].
    apply Forall_singleton. by intros [? _].
Qed.

Lemma put_route_tag p m R q a :
  tag_of (put_route p m R !! q ≫= (.!! a)) = if decide (q = p) then tag_of (m !! a) else tag_of (R !! q ≫= (.!! a)).
Proof.
  rewrite put_route_lookup. case_decide; [|done]. unfold live. case_decide; [|done]. subst. done.
Qed.

Lemma http_remove_law r s :
  http_store_ok s → http_good r →
  ∃ s', http_remove r s = Ok s' ∧ http_store_ok s' ∧
    (∀ k, stored_tag k (hs_registry s') =
      if decide (k = route_key r)
      then tag_removed (stored_tag k (hs_registry s)) (ro_ModificationTag r)
      else stored_tag k (hs_registry s)) ∧
    ∀ k, k ≠ route_key r → withdrawn k (hs_registry s') = withdrawn k (hs_registry s).
Proof.
  intros [Hok Hloc] [Hu Hg]. unfold http_remove. set (ep := route_endpoint (hs_next s) r).
  destruct (Unregister_spec (ro_Route r) ep (hs_registry s) Hok Hu) as (g & -> & Hok' & HR & _ & HS).
  set (p := segments (RouteKey (ro_Route r))) in *. simpl. eexists. split; [done|].
  set (R := routes (hs_registry s)) in *. unfold spec_unregister, removable in HR.
  rewrite default_lookup in HR. set (m0 := default ∅ (R !! p)) in *.
  split; [split; [done|]|split].
  - simpl. intros q m a e u. rewrite HR.
    destruct (match m0 !! CanonicalAddr ep with Some (old, _) => _ | None => false end);
      [|intros Hq Ha; pose proof (Hloc _ _ _ _ _ Hq Ha); lia].
    rewrite put_route_lookup. case_decide as Hq; [|intros Hm Ha; pose proof (Hloc _ _ _ _ _ Hm Ha); lia].
    subst q. unfold live. case_decide; [done|]. intros [= <-] [_ Ha]%lookup_delete_Some.
    unfold m0 in Ha. rewrite <-default_lookup in Ha. apply bind_Some in Ha as (m & Hm & Ha).
    pose proof (Hloc _ _ _ _ _ Hm Ha). lia.
  - intros [q a]. unfold stored_tag, route_key. simpl. fold R p. rewrite HR.
    assert (R !! p ≫= lookup a = m0 !! a) as Hpa by (unfold m0; by rewrite <-default_lookup).
    change (CanonicalAddr ep) with (CanonicalAddr (route_endpoint 0 r)).
    destruct (decide ((q, a) = (p, CanonicalAddr (route_endpoint 0 r)))) as [[= -> ->]|Hne].
    + rewrite Hpa. unfold tag_removed, tag_removable.
      destruct (m0 !! CanonicalAddr (route_endpoint 0 r)) as [[old u]|] eqn:Em; [|by rewrite default_lookup; fold m0; rewrite Em].
      unfold modificationTagSameOrNewer. cbn [tag_of fmap option_fmap option_map fst EpTag].
      change (EpTag ep) with (ro_ModificationTag r).
      destruct (bool_decide _ || SucceededBy _ _); [|by rewrite default_lookup; fold m0; rewrite Em].
      rewrite put_route_tag, decide_True by done. by rewrite lookup_delete_eq.
    + match goal with |- context [if ?b then put_route _ _ _ else _] => destruct b; [|done] end.
      rewrite put_route_tag. case_decide as Hq; [|done]. subst q.
      rewrite lookup_delete_ne by congruence. by rewrite Hpa.
  - intros [q a] Hk. apply (withdrawn_told _ _ _ _ HS). destruct (removable _ _ _); [|done].
    apply Forall_singleton. intros (_ & Hq & [= Ha]). apply Hk. unfold route_key. cbn in Hq, Ha. by rewrite <-Hq, <-Ha.
Qed.

#[global] Instance http_sink : RouteSink HTTPStore Route (list string * string) := {
  sink_add := http_add;
  sink_remove := λ _, http_remove;
  sink_key := route_key;
  sink_item_tag := ro_ModificationTag;
  sink_tag := λ k s, stored_tag k (hs_registry s);
  sink_withdrawn := λ k s, withdrawn k (hs_registry s);
  sink_ok := http_store_ok;
  sink_good := http_good;
  sink_add_law := http_add_law;
  sink_remove_law := λ _, http_remove_law
}.

(** The HTTP fetcher's own names for the shared routines. *)
Definition deleteEndpoints (now : Z) (endpoints validRoutes : list Route) (s : HTTPStore) : result HTTPStore :=
  remove_all now (outdated routeEquals endpoints validRoutes) s.
Definition refreshEndpoints (now : Z) (endpoints validRoutes : list Route) (s : HTTPStore) : result HTTPStore :=
  rbind (deleteEndpoints now endpoints validRoutes s) (add_all now validRoutes).
Definition http_FetchRoutes := @fetchRoutes HTTPStore Route _ _ _ routeEquals.

(** ** TCP: the routing table as a sink *)
Definition toRoutingTableEntry (r : TcpRouteMapping) : RoutingKey * BackendServerInfo :=
  (mkRoutingKey (tm_ExternalPort r),
   mkInfo (tm_HostIP r) (tm_HostPort r) (tm_ModificationTag r) (default 0 (tm_TTL r))).

Definition tcp_add (now : Z) (r : TcpRouteMapping) (t : RoutingTable) : result RoutingTable :=
  let '(key, info) := toRoutingTableEntry r in Ok (UpsertBackendServerKey now key info t).1.

Definition tcp_remove (now : Z) (r : TcpRouteMapping) (t : RoutingTable) : result RoutingTable :=
  let '(key, info) := toRoutingTableEntry r in Ok (DeleteBackendServerKey now key info t).1.

Definition routeEqualsTCP (old other : TcpRouteMapping) : bool :=
  bool_decide (tm_ExternalPort old = tm_ExternalPort other) && bool_decide (tm_HostIP old = tm_HostIP other)
  && bool_decide (tm_HostPort old = tm_HostPort other).

(** An event of the wrong type leaves the zero event, whose action is the
    empty string. *)
Definition tcp_HandleEvent (now : Z) (e : option (TcpRouteMapping * string)) (t : RoutingTable)
  : result RoutingTable :=
  match e with
  | None => Ok t
  | Some (r, action) =>
      if bool_decide (action = "Upsert") then tcp_add now r t
      else if bool_decide (action = "Delete") then tcp_remove now r t
      else Ok t
  end.

Definition mapping_key (r : TcpRouteMapping) : RoutingKey * BackendServerKey :=
  (mkRoutingKey (tm_ExternalPort r), mkBackendKey (tm_HostIP r) (tm_HostPort r)).

Definition backend_tag (k : RoutingKey * BackendServerKey) (t : RoutingTable) : option ModificationTag :=
  ModificationTagOf <$> (entries t !! k.1 ≫= (.!! k.2)).

Definition table_withdrawn (k : RoutingKey * BackendServerKey) (t : RoutingTable) : nat :=
  length (filter (λ e, e = (routeUpdate.Remove, (rk_Port k.1, k.2))) (table_sent t)).

Lemma table_withdrawn_told k t t' evs :
  table_sent t' = table_sent t ++ table_tell t evs →
  Forall (λ e, e ≠ (routeUpdate.Remove, (rk_Port k.1, k.2))) evs → table_withdrawn k t' = table_withdrawn k t.
Proof.
  intros E Hn. unfold table_withdrawn. rewrite E. by apply filter_told; unfold table_tell; destruct (rt_listener t).
Qed.

Lemma tcp_add_law now r t :
  True → True →
  ∃ t', tcp_add now r t = Ok t' ∧ True ∧
    (∀ k, backend_tag k t' =
      if decide (k = mapping_key r) then Some (tag_added (backend_tag k t) (tm_ModificationTag r))
      else backend_tag k t) ∧
    ∀ k, table_withdrawn k t' = table_withdrawn k t.
Proof.
  intros _ _. eexists. split; [done|]. split; [done|].
  destruct (Upsert_spec now (toRoutingTableEntry r).1 (toRoutingTableEntry r).2 t) as (HE & _ & _ & HS).
  split; [|intros k; apply (table_withdrawn_told _ _ _ _ HS); case_match; by repeat constructor].
  intros [key b]. clear HS. simpl in HE. unfold backend_tag, mapping_key. simpl. rewrite HE.
  set (info := mkInfo _ _ _ _) in *. change (mkBackendKey (tm_HostIP r) (tm_HostPort r)) with (info_key info).
  destruct (decide (key = mkRoutingKey (tm_ExternalPort r))) as [->|Hk].
  2:{ rewrite lookup_insert_ne by done. by rewrite decide_False by congruence. }
  rewrite lookup_insert_eq. simpl. set (m := entries t !! mkRoutingKey (tm_ExternalPort r)).
  assert (m ≫= lookup b = default ∅ m !! b) as -> by (by destruct m).
  unfold upsert_entry, tag_added, updateSucceededBy.
  destruct (decide (b = info_key info)) as [->|Hb].
  - rewrite decide_True by done. destruct (default ∅ m !! info_key info) as [d|] eqn:Ed; cbn [fmap option_fmap option_map].
    + change (ModificationTagOf (info_details now info)) with (tm_ModificationTag r).
      destruct (SucceededBy (ModificationTagOf d) (tm_ModificationTag r)); [by rewrite lookup_insert_eq|by rewrite Ed].
    + by rewrite lookup_insert_eq.
  - rewrite decide_False by congruence. repeat case_match; by rewrite ?lookup_insert_ne.
Qed.

Lemma tcp_remove_law now r t :
  True → True →
  ∃ t', tcp_remove now r t = Ok t' ∧ True ∧
    (∀ k, backend_tag k t' =
      if decide (k = mapping_key r) then tag_removed (backend_tag k t) (tm_ModificationTag r)
      else backend_tag k t) ∧
    ∀ k, k ≠ mapping_key r → table_withdrawn k t' = table_withdrawn k t.
Proof.
  intros _ _. eexists. split; [done|]. split; [done|].
  destruct (Delete_backend_spec now (toRoutingTableEntry r).1 (toRoutingTableEntry r).2 t) as (HB & HE & _ & HS).
  split.
  2: { intros [[port] b] Hk. apply (table_withdrawn_told _ _ _ _ HS). case_match; constructor; [|done].
       intros [= <- <-]. by apply Hk. }
  intros [key b]. clear HS. simpl in HE, HB. unfold backend_tag, mapping_key. simpl. rewrite HE, HB. clear HE HB. unfold deletable.
  set (info := mkInfo _ _ _ _) in *. change (mkBackendKey (tm_HostIP r) (tm_HostPort r)) with (info_key info).
  set (k0 := mkRoutingKey (tm_ExternalPort r)). unfold tag_removed, tag_removable.
  assert (entries t !! k0 ≫= lookup (info_key info) = default ∅ (entries t !! k0) !! info_key info) as E0
    by (by destruct (entries t !! k0)).
  rewrite E0. destruct (decide ((key, b) = (k0, info_key info))) as [[= -> ->]|Hne].
  - rewrite E0. destruct (default ∅ (entries t !! k0) !! info_key info) as [d|] eqn:Ed; cbn [fmap option_fmap option_map];
      [|by rewrite E0].
    unfold deleteSucceededBy. simpl. destruct (_ || _); [|by rewrite E0].
    rewrite put_entry_lookup, decide_True by done. rewrite live_entry_bind. by rewrite lookup_delete_eq.
  - match goal with |- context [if ?c then put_entry _ _ _ else _] => destruct c; [|done] end.
    rewrite put_entry_lookup. case_decide as Hk; [|done]. subst key. rewrite live_entry_bind.
    rewrite lookup_delete_ne by congruence. by destruct (entries t !! k0).
Qed.

#[global] Instance tcp_sink : RouteSink RoutingTable TcpRouteMapping (RoutingKey * BackendServerKey) := {
  sink_add := tcp_add;
  sink_remove := tcp_remove;
  sink_key := mapping_key;
  sink_item_tag := tm_ModificationTag;
  sink_tag := backend_tag;
  sink_withdrawn := table_withdrawn;
  sink_ok := λ _, True;
  sink_good := λ _, True;
  sink_add_law := tcp_add_law;
  sink_remove_law := tcp_remove_law
}.

Definition deleteTCPEndpoints (now : Z) (endpoints validRoutes : list TcpRouteMapping) (t : RoutingTable)
  : result RoutingTable :=
  remove_all now (outdated routeEqualsTCP endpoints validRoutes) t.
Definition refreshTCPEndpoints (now : Z) (endpoints validRoutes : list TcpRouteMapping) (t : RoutingTable)
  : result RoutingTable :=
  rbind (deleteTCPEndpoints now endpoints validRoutes t) (add_all now validRoutes).
Definition tcp_FetchRoutes := @fetchRoutes RoutingTable TcpRouteMapping _ _ _ routeEqualsTCP.

(** ** Facts about the reconciliation *)
Section sync_facts.
Context {S I K : Type} `{RouteSink S I K}.
Variable routeEq : I → I → bool.

(** The tag of [k] is as before and [k] was not withdrawn meanwhile. *)
Definition unmoved (k : K) (s s' : S) : Prop :=
  sink_tag k s' = sink_tag k s ∧ sink_withdrawn k s' = sink_withdrawn k s.

Lemma remove_all_spec now l s :
  sink_ok s → Forall sink_good l →
  ∃ s', remove_all now l s = Ok s' ∧ sink_ok s' ∧
    (∀ k, (∀ i, i ∈ l → sink_key i ≠ k) → unmoved k s s') ∧
    ∀ k t, sink_tag k s' = Some t →
      sink_tag k s = Some t ∧ ∀ i, i ∈ l → sink_key i = k → tag_removable t (sink_item_tag i) = false.
Proof.
  revert s. induction l as [|i l IH]; intros s Hok Hg.
  { exists s. split_and!; try done. intros k t Ht. split; [done|]. by intros i ?%elem_of_nil. }
  apply Forall_cons in Hg as [Hgi Hg].
  destruct (sink_remove_law now i s Hok Hgi) as (s1 & E1 & Hok1 & Ht1 & Hw1).
  destruct (IH s1 Hok1 Hg) as (s' & E & Hok' & Ha & Hb). exists s'. simpl. rewrite E1. simpl.
  split_and!; [done|done| |].
  - intros k Hk. destruct (Ha k) as [Ea Ew]; [intros; apply Hk; by right|].
    assert (k ≠ sink_key i) as Hki by (intros ->; by apply (Hk i); [left|]).
    split; [by rewrite Ea, Ht1, decide_False|by rewrite Ew, Hw1].
  - intros k t [Ht Hr]%Hb. rewrite Ht1 in Ht. case_decide as Hd.
    + unfold tag_removed in Ht. destruct (sink_tag k s) as [t0|]; [|done].
      destruct (tag_removable t0 (sink_item_tag i)) eqn:Er; [done|]. injection Ht as ->.
      split; [done|]. intros j [->|Hj]%elem_of_cons ?; [done|eauto].
    + split; [done|]. intros j [->|Hj]%elem_of_cons ?; [congruence|eauto].
Qed.

Lemma add_all_spec now l s :
  sink_ok s → Forall sink_good l → NoDup (sink_key <$> l) →
  ∃ s', add_all now l s = Ok s' ∧ sink_ok s' ∧
    (∀ k, (∀ i, i ∈ l → sink_key i ≠ k) → sink_tag k s' = sink_tag k s) ∧
    (∀ k, sink_withdrawn k s' = sink_withdrawn k s) ∧
    ∀ i, i ∈ l → sink_tag (sink_key i) s' = Some (tag_added (sink_tag (sink_key i) s) (sink_item_tag i)).
Proof.
  revert s. induction l as [|i l IH]; intros s Hok Hg Hnd.
  { exists s. split_and!; try done. by intros i ?%elem_of_nil. }
  apply Forall_cons in Hg as [Hgi Hg]. apply NoDup_cons in Hnd as [Hni Hnd].
  destruct (sink_add_law now i s Hok Hgi) as (s1 & E1 & Hok1 & Ht1 & Hw1).
  destruct (IH s1 Hok1 Hg Hnd) as (s' & E & Hok' & Ha & Hw & Hb). exists s'. simpl. rewrite E1. simpl.
  assert (∀ j, j ∈ l → sink_key j ≠ sink_key i) as Hne.
  { intros j Hj Ek. apply Hni. rewrite <-Ek. by apply list_elem_of_fmap_2. }
  split_and!; [done|done| |intros k; by rewrite Hw, Hw1|].
  - intros k Hk. rewrite Ha by (intros; apply Hk; by right). rewrite Ht1, decide_False; [done|].
    intros ->. by apply (Hk i); [left|].
  - intros j [->|Hj]%elem_of_cons.
    + rewrite Ha by done. by rewrite Ht1, decide_True.
    + rewrite Hb by done. by rewrite Ht1, decide_False by auto.
Qed.

Lemma elem_of_outdated old new i :
  (∀ i j, routeEq i j = true → sink_key i = sink_key j) →
  i ∈ old → (∀ j, j ∈ new → sink_key j ≠ sink_key i) → i ∈ outdated routeEq old new.
Proof.
  intros Heq Hi Hn. apply list_elem_of_filter. split; [|done]. apply not_true_is_false.
  intros (j & Hj & Ej)%existsb_exists. apply list_elem_of_In in Hj. apply Heq in Ej. by apply (Hn j).
Qed.

(** Every entry of the last synchronisation for the key of [i] is still
    announced. *)
Definition still_valid (old new : list I) (i : I) : Prop :=
  ∀ j, j ∈ old → sink_key j = sink_key i → ∃ i', i' ∈ new ∧ routeEq j i' = true.

(** What a synchronisation achieves: [new] was fetched, [old] is the list of
    the last one.  An announced route has its tag, or keeps a newer one; unless
    its previous entry is outdated it is not withdrawn on the way.  A route
    that is not announced any more is gone, unless the store holds a tag that
    none of its previous entries may remove.  Nothing else moves. *)
Record synced (old new : list I) (s s' : S) : Prop := {
  sy_announced : ∀ i, i ∈ new →
    sink_tag (sink_key i) s' = Some (tag_added (sink_tag (sink_key i) s) (sink_item_tag i)) ∨
    sink_tag (sink_key i) s' = Some (sink_item_tag i);
  sy_valid : ∀ i, i ∈ new → still_valid old new i →
    sink_tag (sink_key i) s' = Some (tag_added (sink_tag (sink_key i) s) (sink_item_tag i)) ∧
    sink_withdrawn (sink_key i) s' = sink_withdrawn (sink_key i) s;
  sy_outdated : ∀ i t, i ∈ old → (∀ j, j ∈ new → sink_key j ≠ sink_key i) → sink_tag (sink_key i) s' = Some t →
    sink_tag (sink_key i) s = Some t ∧ tag_removable t (sink_item_tag i) = false;
  sy_others : ∀ k, (∀ i, i ∈ old → sink_key i ≠ k) → (∀ i, i ∈ new → sink_key i ≠ k) → unmoved k s s'
}.

Lemma valid_not_outdated old new i j :
  still_valid old new i → j ∈ outdated routeEq old new → sink_key j ≠ sink_key i.
Proof.
  intros Hv [Hf Hj]%list_elem_of_filter Hk. destruct (Hv j Hj Hk) as (i' & Hi & Heq).
  apply not_true_iff_false in Hf. apply Hf, existsb_exists. exists i'. by rewrite <-list_elem_of_In.
Qed.

Lemma refresh_spec now old new s :
  (∀ i j, routeEq i j = true → sink_key i = sink_key j) →
  sink_ok s → Forall sink_good old → Forall sink_good new → NoDup (sink_key <$> new) →
  ∃ s', refresh routeEq now old new s = Ok s' ∧ sink_ok s' ∧ synced old new s s'.
Proof.
  intros Heq Hok Hold Hnew Hnd. unfold refresh.
  assert (Forall sink_good (outdated routeEq old new)) as Hout.
  { apply Forall_forall. intros i [_ Hi]%list_elem_of_filter. rewrite Forall_forall in Hold. auto. }
  destruct (remove_all_spec now (outdated routeEq old new) s Hok Hout) as (s1 & -> & Hok1 & Ra & Rb).
  destruct (add_all_spec now new s1 Hok1 Hnew Hnd) as (s' & E & Hok' & Aa & Aw & Ab).
  exists s'. split; [exact E|]. split; [done|]. split.
  - intros i Hi. rewrite (Ab i Hi). destruct (sink_tag (sink_key i) s1) as [t|] eqn:Et; [|by right].
    apply Rb in Et as [-> _]. by left.
  - intros i Hi Hv. destruct (Ra (sink_key i)) as [Et Ew]; [intros j; by apply valid_not_outdated|].
    by rewrite (Ab i Hi), Aw, Et, Ew.
  - intros i t Hi Hn Ht. rewrite Aa in Ht by done. apply Rb in Ht as [Ht Hr]. split; [done|].
    apply Hr; [|done]. by apply elem_of_outdated.
  - intros k Hk Hk'. destruct (Ra k) as [Et Ew]; [intros i [_ Hi]%list_elem_of_filter; by apply Hk|].
    split; [by rewrite Aa, Et|by rewrite Aw, Ew].
Qed.

Lemma fetchRoutes_spec now FetchToken Routes new old s :
  fetchWithTokenRefresh FetchToken Routes = Ok new →
  (∀ i j, routeEq i j = true → sink_key i = sink_key j) →
  sink_ok s → Forall sink_good old → Forall sink_good new → NoDup (sink_key <$> new) →
  ∃ s', fetchRoutes routeEq now FetchToken Routes old s = Ok (new, s') ∧ sink_ok s' ∧ synced old new s s'.
Proof.
  intros E ? ? ? ? ?. unfold fetchRoutes. rewrite E. simpl.
  destruct (refresh_spec now old new s) as (s' & -> & ? & ?); [done..|]. by exists s'.
Qed.
End sync_facts.

Lemma routeEquals_key i j : routeEquals i j = true → route_key i = route_key j.
Proof.
  unfold routeEquals, route_key, route_endpoint, CanonicalAddr. rewrite !andb_true_iff, !bool_decide_eq_true.
  intros [[-> ->] ->]. done.
Qed.

Lemma routeEqualsTCP_key i j : routeEqualsTCP i j = true → mapping_key i = mapping_key j.
Proof.
  unfold routeEqualsTCP, mapping_key. rewrite !andb_true_iff, !bool_decide_eq_true. intros [[-> ->] ->]. done.
Qed.

(** ** The subscription cycle *)

(** One turn of [startEventCycle]: the token request, the stop flag before and
    after the subscription, and the subscription's error. *)
Record turn := mkTurn { tn_token : result string; tn_stop1 : bool; tn_sub : option string; tn_stop2 : bool }.

(** [None]: the goroutine has ended; otherwise [forceUpdate] of the next turn. *)
Definition cycle_turn (t : turn) (forceUpdate : bool) : option bool :=
  match tn_token t with
  | Ok _ =>
      if tn_stop1 t then None
      else if tn_stop2 t then None
      else Some (bool_decide (tn_sub t = Some "unauthorized"))
  | _ => Some forceUpdate
  end.

Fixpoint startEventCycle (turns : list turn) (forceUpdate : bool) : list bool * bool :=
  match turns with
  | [] => ([], true)
  | t :: turns' =>
      match cycle_turn t forceUpdate with
      | None => ([forceUpdate], false)
      | Some f => let '(used, running) := startEventCycle turns' f in (forceUpdate :: used, running)
      end
  end.

(** [subscribeToHTTP] and [subscribeToTCP]: the answer to the subscription is an
    error or a source that delivers events until an error; one bulk
    synchronisation is made first.  The result: the error, whether routes were
    fetched, and the events put on the channel. *)
Definition subscribe {E} (answer : result (list E * string)) : option string * bool * list E :=
  match answer with
  | Ok (events, err) => (Some err, true, events)
  | Err e => (Some e, false, [])
  | Panic e => (Some e, false, [])
  end.

Definition subscribeToEvents {E} (protocol : string) (http tcp : result (list E * string))
  : option string * bool * list E :=
  if bool_decide (protocol = "http") then subscribe http
  else if bool_decide (protocol = "tcp") then subscribe tcp
  else (Some "Unknown protocol", false, []).

Definition FetchRoutesInterval (c : Config) : Z := Z.quot (PruneStaleDropletsInterval c) 2.

(** While no token is granted the cycle keeps asking, also after it was told to
    stop: the flag is read only after a successful request. *)
Lemma cycle_ignores_stop n e s1 sub s2 force :
  startEventCycle (replicate n (mkTurn (Err e) s1 sub s2)) force = (replicate n force, true).
Proof. induction n as [|n IH]; [done|]. simpl. unfold cycle_turn. simpl. by rewrite IH. Qed.

(** ** Properties *)

(** C31. A successful HTTP synchronisation with the routing API terminates
    without panic when the routes it names are well formed, the announced ones
    have distinct keys and the registry satisfies its invariant.  Every
    announced route is in the registry with its tag or a newer one; unless its
    entry of the last synchronisation is outdated, its tag only moves forward
    and its withdrawal is never announced.  A route that is no longer announced
    is gone unless the registry holds a newer tag for it, and nothing else
    changes. *)
Theorem http_fetch_synced now FetchToken Routes new old s :
  fetchWithTokenRefresh FetchToken Routes = Ok new →
  http_store_ok s → Forall http_good old → Forall http_good new → NoDup (route_key <$> new) →
  ∃ s', http_FetchRoutes now FetchToken Routes old s = Ok (new, s') ∧ http_store_ok s' ∧ synced routeEquals old new s s'.
Proof.
  intros H1 H2 H3 H4 H5.
  exact (fetchRoutes_spec routeEquals now FetchToken Routes new old s H1 routeEquals_key H2 H3 H4 H5).
Qed.

Definition demo_route (tag : Z) : Route :=
  mkRoute "foo.cf.com/a" 8080 "10.0.0.1" (Some 120) "guid-1" EmptyString (mkTag "g" tag).

Lemma demo_route_good tag : http_good (demo_route tag).
Proof. split; [apply demo_uri_good|reflexivity]. Qed.

Definition demo_route2 : Route :=
  mkRoute "foo.cf.com/a" 8080 "10.0.0.2" (Some 120) "guid-2" EmptyString (mkTag "h" 1).

Lemma demo_route2_good : http_good demo_route2.
Proof. split; [apply demo_uri_good|reflexivity]. Qed.

Lemma demo_store_ok : http_store_ok (mkHTTPStore demo_registry 0).
Proof.
  split; [apply demo_registry_ok|]. intros p m a ep u Hp. unfold routes in Hp.
  rewrite routes_of_lookup in Hp. change (byURI (hs_registry _)) with (mkTrie EmptyString None ∅) in Hp.
  by rewrite pool_at_empty in Hp.
Qed.

(** Two routes are announced, then the first of them only, with a newer tag:
    it is updated without a withdrawal, the other one goes.  The first answer
    is [unauthorized], the forced token is accepted. *)
Definition demo_token (_ : nat) (force : bool) : result string := Ok (if force : bool then "new" else "old").
Definition demo_answer (l : list Route) (_ : nat) (token : string) : result (list Route) :=
  if bool_decide (token = "new") then Ok l else Err "unauthorized".

Lemma http_fetch_synced_witness :
  ∃ s1 s2,
    http_FetchRoutes 9 demo_token (demo_answer [demo_route 1; demo_route2]) [] (mkHTTPStore demo_registry 0) =
      Ok ([demo_route 1; demo_route2], s1) ∧
    http_FetchRoutes 10 demo_token (demo_answer [demo_route 2]) [demo_route 1; demo_route2] s1 = Ok ([demo_route 2], s2) ∧
    stored_tag (route_key (demo_route 1)) (hs_registry s2) = Some (mkTag "g" 2) ∧
    withdrawn (route_key (demo_route 1)) (hs_registry s2) = withdrawn (route_key (demo_route 1)) (hs_registry s1) ∧
    stored_tag (route_key demo_route2) (hs_registry s1) = Some (mkTag "h" 1) ∧
    stored_tag (route_key demo_route2) (hs_registry s2) = None.
Proof.
  destruct (http_fetch_synced 9 demo_token (demo_answer [demo_route 1; demo_route2]) [demo_route 1; demo_route2] []
    (mkHTTPStore demo_registry 0)) as (s1 & E1 & Hok1 & Hs1).
  - vm_compute. reflexivity.
  - exact demo_store_ok.
  - apply Forall_nil_2.
  - apply Forall_cons_2; [apply demo_route_good|]. apply Forall_singleton, demo_route2_good.
  - apply (bool_decide_unpack _). vm_compute. exact I.
  - destruct (http_fetch_synced 10 demo_token (demo_answer [demo_route 2]) [demo_route 2] [demo_route 1; demo_route2] s1)
      as (s2 & E2 & Hok2 & Hs2).
    + vm_compute. reflexivity.
    + exact Hok1.
    + apply Forall_cons_2; [apply demo_route_good|]. apply Forall_singleton, demo_route2_good.
    + apply Forall_singleton, demo_route_good.
    + apply NoDup_singleton.
    + assert (stored_tag (route_key (demo_route 1)) (hs_registry s1) = Some (mkTag "g" 1)) as T1.
      { destruct (sy_announced _ _ _ _ _ Hs1 (demo_route 1)) as [E|E]; [by left| |]; exact E. }
      assert (stored_tag (route_key demo_route2) (hs_registry s1) = Some (mkTag "h" 1)) as T2.
      { destruct (sy_announced _ _ _ _ _ Hs1 demo_route2) as [E|E]; [by right; left| |]; exact E. }
      destruct (sy_valid _ _ _ _ _ Hs2 (demo_route 2)) as [V1 V2]; [by left| |].
      { intros j [->|[->|[]%elem_of_nil]%elem_of_cons]%elem_of_cons Hk;
          [exists (demo_route 2); split; [left|vm_compute; reflexivity]|vm_compute in Hk; discriminate Hk]. }
      change (sink_key (demo_route 2)) with (route_key (demo_route 1)) in V1, V2. cbn in V1, V2. rewrite T1 in V1.
      exists s1, s2. split; [exact E1|]. split; [exact E2|]. split; [exact V1|]. split; [exact V2|]. split; [exact T2|].
      destruct (stored_tag (route_key demo_route2) (hs_registry s2)) as [t|] eqn:T; [|reflexivity].
      destruct (sy_outdated _ _ _ _ _ Hs2 demo_route2 t) as [O1 O2]; [by right; left| |exact T|].
      * intros j [->|[]%elem_of_nil]%elem_of_cons. vm_compute. discriminate.
      * cbn in O1. rewrite T2 in O1. injection O1 as <-. vm_compute in O2. discriminate O2.
Defined.

(** The same for the TCP routes and the routing table. *)
Theorem tcp_fetch_synced now FetchToken Routes new old t :
  fetchWithTokenRefresh FetchToken Routes = Ok new → NoDup (mapping_key <$> new) →
  ∃ t', tcp_FetchRoutes now FetchToken Routes old t = Ok (new, t') ∧ synced routeEqualsTCP old new t t'.
Proof.
  intros E Hnd. destruct (fetchRoutes_spec routeEqualsTCP now FetchToken Routes new old t) as (t' & E' & _ & Hs);
    [done|apply routeEqualsTCP_key|done|by apply Forall_true|by apply Forall_true|done|].
  by exists t'.
Qed.

Definition demo_mapping : TcpRouteMapping := mkMapping 61000 "10.0.0.9" 6000 (mkTag "g" 1) None.

Lemma tcp_fetch_synced_witness :
  ∃ t', tcp_FetchRoutes 9 (λ _ _, Ok "token") (λ _ _, Ok [demo_mapping]) []
      (NewRoutingTable defaultConfig true) = Ok ([demo_mapping], t').
Proof.
  destruct (tcp_fetch_synced 9 (λ _ _, Ok "token") (λ _ _, Ok [demo_mapping]) [demo_mapping] []
    (NewRoutingTable defaultConfig true)) as (t' & E & _); [reflexivity|apply NoDup_singleton|].
  exists t'. exact E.
Defined.
