(* ===== verification/Subscriber.v ===== *)
(** The message-bus subscriber: [src/mbus/subscriber.go].

    Messages on [router.register] and [router.unregister] carry a JSON text
    that names an endpoint and the URIs it serves; the subscriber decodes and
    validates it and calls the registry once per URI with one endpoint
    object.  [HTTPStore] is the registry with the allocator of endpoint
    objects.  The NATS client is third-party code: the model starts at the
    delivered message. *)
From Stdlib Require Import Ascii ZArith Lia.
From stdpp Require Import sorting countable base list gmap strings.
From S2P Require Import Prelude GoStrings Uri Trie Pool Config Resources Codec Updates Registry RoutingTable Fetcher.
Import routeUpdate.
Local Open Scope Z_scope.

Record RegistryMessage := mkMessage {
  Host : string;
  MsgPort : Z;
  Uris : list Uri;
  MsgTags : gmap string string;
  App : string;
  StaleThresholdInSeconds : Z;
  RouteServiceURL : string;
  PrivateInstanceID : string;
  MsgInstanceIndex : string;
  RouterGroupGuid : string
}.

Definition zeroMessage : RegistryMessage :=
  mkMessage EmptyString 0 [] ∅ EmptyString 0 EmptyString EmptyString EmptyString EmptyString.

Definition makeEndpoint (l : nat) (rm : RegistryMessage) : Endpoint :=
  NewEndpoint l (App rm) (Host rm) (MsgPort rm) (PrivateInstanceID rm) (MsgInstanceIndex rm) (MsgTags rm)
    (StaleThresholdInSeconds rm) (RouteServiceURL rm) (mkTag EmptyString 0).

Definition ValidateMessage (rm : RegistryMessage) : bool :=
  bool_decide (RouteServiceURL rm = EmptyString) || HasPrefix (RouteServiceURL rm) "https".

(** ** Decoding ([json.Unmarshal] into the struct) *)

(** Values of the field types; [old] stays for [null], [None] is a type error. *)
Definition json_text (old : string) (v : json) : option string :=
  match v with JStr s => Some s | JNull => Some old | _ => None end.

Definition json_uint16 (old : Z) (v : json) : option Z :=
  match v with
  | JNum t => n ← digits_val 0 t; if n <? 2 ^ 16 then Some n else None
  | JNull => Some old
  | _ => None
  end.

Definition json_int64 (old : Z) (v : json) : option Z :=
  match v with
  | JNum t =>
      n ← match t with
          | String "-" r => Z.opp <$> digits_val 0 r
          | _ => digits_val 0 t
          end;
      if (- 2 ^ 63 <=? n) && (n <? 2 ^ 63) then Some n else None
  | JNull => Some old
  | _ => None
  end.

Definition json_strings (v : json) : option (list string) :=
  match v with
  | JArr l => mapM (json_text EmptyString) l
  | JNull => Some []
  | _ => None
  end.

Definition json_tags (old : gmap string string) (v : json) : option (gmap string string) :=
  match v with
  | JObj l => foldl (λ acc kv, m ← acc; s ← json_text EmptyString kv.2; Some (<[kv.1 := s]> m)) (Some old) l
  | JNull => Some ∅
  | _ => None
  end.

(** One member of the object; unknown keys are ignored. *)
Definition decode_member (acc : option RegistryMessage) (kv : string * json) : option RegistryMessage :=
  rm ← acc;
  let '(mkMessage host port uris tags app stale url pid idx guid) := rm in
  let key := ToLower kv.1 in let v := kv.2 in
  if bool_decide (key = "host") then x ← json_text host v; Some (mkMessage x port uris tags app stale url pid idx guid)
  else if bool_decide (key = "port") then x ← json_uint16 port v; Some (mkMessage host x uris tags app stale url pid idx guid)
  else if bool_decide (key = "uris") then x ← json_strings v; Some (mkMessage host port x tags app stale url pid idx guid)
  else if bool_decide (key = "tags") then x ← json_tags tags v; Some (mkMessage host port uris x app stale url pid idx guid)
  else if bool_decide (key = "app") then x ← json_text app v; Some (mkMessage host port uris tags x stale url pid idx guid)
  else if bool_decide (key = "stale_threshold_in_seconds") then
    x ← json_int64 stale v; Some (mkMessage host port uris tags app x url pid idx guid)
  else if bool_decide (key = "route_service_url") then
    x ← json_text url v; Some (mkMessage host port uris tags app stale x pid idx guid)
  else if bool_decide (key = "private_instance_id") then
    x ← json_text pid v; Some (mkMessage host port uris tags app stale url x idx guid)
  else if bool_decide (key = "private_instance_index") then
    x ← json_text idx v; Some (mkMessage host port uris tags app stale url pid x guid)
  else if bool_decide (key = "router_group_guid") then
    x ← json_text guid v; Some (mkMessage host port uris tags app stale url pid idx x)
  else Some rm.

Definition createRegistryMessage (data : string) : result RegistryMessage :=
  rbind (match parse_json data with
         | None => Err "invalid character in JSON text"
         | Some JNull => Ok zeroMessage
         | Some (JObj l) =>
             match foldl decode_member (Some zeroMessage) l with
             | Some rm => Ok rm
             | None => Err "json: cannot unmarshal into Go struct field"
             end
         | Some _ => Err "json: cannot unmarshal into Go value of type mbus.RegistryMessage"
         end)
    (λ msg, if ValidateMessage msg then Ok msg
            else Err "Unable to validate message. route_service_url must be https").

(** ** Handlers; [guid] is the subscriber's router group *)
Fixpoint register_uris (now : Z) (ep : Endpoint) (uris : list Uri) (g : RouteRegistry) : result RouteRegistry :=
  match uris with [] => Ok g | uri :: rest => rbind (Register now uri ep g) (register_uris now ep rest) end.

Fixpoint unregister_uris (ep : Endpoint) (uris : list Uri) (g : RouteRegistry) : result RouteRegistry :=
  match uris with [] => Ok g | uri :: rest => rbind (Unregister uri ep g) (unregister_uris ep rest) end.

Definition registerEndpoint (now : Z) (msg : RegistryMessage) (s : HTTPStore) : result HTTPStore :=
  rbind (register_uris now (makeEndpoint (hs_next s) msg) (Uris msg) (hs_registry s))
    (λ g, Ok (mkHTTPStore g (S (hs_next s)))).

Definition unregisterEndpoint (msg : RegistryMessage) (s : HTTPStore) : result HTTPStore :=
  rbind (unregister_uris (makeEndpoint (hs_next s) msg) (Uris msg) (hs_registry s))
    (λ g, Ok (mkHTTPStore g (S (hs_next s)))).

Definition registerWithRouterGroup (guid : string) (now : Z) (msg : RegistryMessage) (s : HTTPStore) : result HTTPStore :=
  if bool_decide (guid = RouterGroupGuid msg) then registerEndpoint now msg s else Ok s.
Definition registerRoute (now : Z) (msg : RegistryMessage) (s : HTTPStore) : result HTTPStore :=
  if bool_decide (RouterGroupGuid msg = EmptyString) then registerEndpoint now msg s else Ok s.
Definition handleRouteRegister (guid : string) (now : Z) (msg : RegistryMessage) (s : HTTPStore) : result HTTPStore :=
  if negb (bool_decide (guid = EmptyString)) then registerWithRouterGroup guid now msg s else registerRoute now msg s.

Definition unregisterWithRouterGroup (guid : string) (msg : RegistryMessage) (s : HTTPStore) : result HTTPStore :=
  if bool_decide (guid = RouterGroupGuid msg) then unregisterEndpoint msg s else Ok s.
Definition unregisterRoute (msg : RegistryMessage) (s : HTTPStore) : result HTTPStore :=
  if bool_decide (RouterGroupGuid msg = EmptyString) then unregisterEndpoint msg s else Ok s.
Definition handleRouteUnregsiter (guid : string) (msg : RegistryMessage) (s : HTTPStore) : result HTTPStore :=
  if negb (bool_decide (guid = EmptyString)) then unregisterWithRouterGroup guid msg s else unregisterRoute msg s.

(** The callback of [subscribeRoutes]; a message that is not valid is logged
    and dropped. *)
Definition subscribeRoutes (guid : string) (now : Z) (subject data : string) (s : HTTPStore) : result HTTPStore :=
  match createRegistryMessage data with
  | Ok msg =>
      if bool_decide (subject = "router.register") then handleRouteRegister guid now msg s
      else if bool_decide (subject = "router.unregister") then handleRouteUnregsiter guid msg s
      else Ok s
  | Err _ => Ok s
  | Panic w => Panic w
  end.

(** ** What a message does to the registry *)
Definition entry_at (g : RouteRegistry) (p : list string) (a : string) : option (Endpoint * Z) :=
  routes g !! p ≫= (.!! a).

Definition good_message (msg : RegistryMessage) : Prop :=
  Forall good_uri (Uris msg) ∧ count_char ":" (PrivateInstanceID msg) = 0%nat.

(** The routes of a message and its address. *)
Definition serves (msg : RegistryMessage) (p : list string) (a : string) : Prop :=
  (∃ uri, uri ∈ Uris msg ∧ p = segments (RouteKey uri)) ∧ a = CanonicalAddr (makeEndpoint 0 msg).

Lemma Register_entry now uri ep g :
  reg_ok g → good_uri uri → ep_valid ep →
  ∃ g', Register now uri ep g = Ok g' ∧ reg_ok g' ∧
    is_Some (entry_at g' (segments (RouteKey uri)) (CanonicalAddr ep)) ∧
    (∀ p a, p ≠ segments (RouteKey uri) ∨ a ≠ CanonicalAddr ep → entry_at g' p a = entry_at g p a) ∧
    (∀ p a e u, entry_at g' p a = Some (e, u) → e = ep ∨ ∃ u', entry_at g p a = Some (e, u')).
Proof.
  intros Hok Hu Hv. destruct (Register_spec now uri ep g Hok Hu Hv) as (g' & E & Hok' & HR & _).
  exists g'. split; [done|]. split; [done|]. unfold entry_at. set (p0 := segments (RouteKey uri)) in *.
  unfold spec_register in HR. split_and!.
  - rewrite HR, lookup_insert_eq. simpl. apply put_spec_dom. by left.
  - intros p a Hne. rewrite HR. destruct (decide (p = p0)) as [->|Hp]; [|by rewrite lookup_insert_ne].
    destruct Hne as [|Ha]; [done|]. rewrite lookup_insert_eq, default_lookup. simpl. unfold put_spec.
    repeat case_match; cbn [fst]; by rewrite ?lookup_insert_ne.
  - intros p a e u. rewrite HR. destruct (decide (p = p0)) as [->|Hp]; [|rewrite lookup_insert_ne by done; eauto].
    rewrite lookup_insert_eq, default_lookup. simpl. apply put_spec_from.
Qed.

Lemma Unregister_entry uri ep g :
  reg_ok g → good_uri uri → Guid (EpTag ep) = EmptyString →
  ∃ g', Unregister uri ep g = Ok g' ∧ reg_ok g' ∧
    ∀ p a, entry_at g' p a =
      if decide (p = segments (RouteKey uri) ∧ a = CanonicalAddr ep) then None else entry_at g p a.
Proof.
  intros Hok Hu Ht. destruct (Unregister_spec uri ep g Hok Hu) as (g' & E & Hok' & HR & _).
  exists g'. split; [done|]. split; [done|]. intros p a. unfold entry_at. rewrite HR.
  set (p0 := segments (RouteKey uri)). unfold spec_unregister, removable.
  assert (∀ old : Endpoint, modificationTagSameOrNewer old ep = true) as Hall.
  { intros old. unfold modificationTagSameOrNewer, SucceededBy. rewrite Ht.
    rewrite (bool_decide_eq_true_2 (EmptyString = EmptyString)) by done. by rewrite !orb_true_r. }
  set (m0 := default ∅ (routes g !! p0)).
  assert ((routes g !! p0 ≫= λ m, m !! CanonicalAddr ep) = m0 !! CanonicalAddr ep) as -> by apply default_lookup.
  destruct (m0 !! CanonicalAddr ep) as [[old u]|] eqn:Em.
  - rewrite Hall. rewrite put_route_lookup. destruct (decide (p = p0)) as [->|Hp].
    2:{ rewrite decide_False; [done|]. by intros [? _]. }
    rewrite (default_lookup (routes g)). fold m0. unfold live.
    transitivity (delete (CanonicalAddr ep) m0 !! a); [case_decide as Hd; [by rewrite Hd|done]|].
    destruct (decide (a = CanonicalAddr ep)) as [->|Ha].
    + rewrite lookup_delete_eq. by rewrite decide_True.
    + rewrite lookup_delete_ne by done. rewrite decide_False; [done|]. by intros [_ ?].
  - case_decide as Hd; [|done]. destruct Hd as [-> ->]. by rewrite default_lookup.
Qed.

Lemma register_uris_spec now ep uris g :
  reg_ok g → Forall good_uri uris → ep_valid ep →
  ∃ g', register_uris now ep uris g = Ok g' ∧ reg_ok g' ∧
    (∀ uri, uri ∈ uris → is_Some (entry_at g' (segments (RouteKey uri)) (CanonicalAddr ep))) ∧
    (∀ p a, (∀ uri, uri ∈ uris → p ≠ segments (RouteKey uri)) ∨ a ≠ CanonicalAddr ep →
       entry_at g' p a = entry_at g p a) ∧
    (∀ p a e u, entry_at g' p a = Some (e, u) → e = ep ∨ ∃ u', entry_at g p a = Some (e, u')).
Proof.
  intros Hok Hg Hv. revert g Hok. induction Hg as [|uri uris Hu Hg IH]; intros g Hok.
  { exists g. split_and!; try done; [by intros ? ?%elem_of_nil|]. eauto. }
  destruct (Register_entry now uri ep g Hok Hu Hv) as (g1 & E1 & Hok1 & A1 & A2 & A3).
  destruct (IH g1 Hok1) as (g' & E & Hok' & B1 & B2 & B3).
  exists g'. simpl. rewrite E1. simpl. split_and!; [done|done| | |].
  - intros v [->|Hv']%elem_of_cons; [|by apply B1].
    destruct (decide (segments (RouteKey uri) ∈ (λ u, segments (RouteKey u)) <$> uris)) as [Hin|Hin].
    + apply list_elem_of_fmap in Hin as (w & -> & Hw). by apply B1.
    + rewrite B2; [done|]. left. intros w Hw E2. apply Hin. rewrite E2.
      apply list_elem_of_fmap. by exists w.
  - intros p a Hne. rewrite B2, A2; [done| |]; destruct Hne as [Hne|]; [|by right| |by right]; left.
    + apply Hne. by left.
    + intros w Hw. apply Hne. by right.
  - intros p a e u [->|[u' Hb]]%B3; [by left|]. by apply A3 in Hb.
Qed.

Lemma unregister_uris_spec ep uris g :
  reg_ok g → Forall good_uri uris → Guid (EpTag ep) = EmptyString →
  ∃ g', unregister_uris ep uris g = Ok g' ∧ reg_ok g' ∧
    (∀ uri, uri ∈ uris → entry_at g' (segments (RouteKey uri)) (CanonicalAddr ep) = None) ∧
    (∀ p a, (∀ uri, uri ∈ uris → p ≠ segments (RouteKey uri)) ∨ a ≠ CanonicalAddr ep →
       entry_at g' p a = entry_at g p a) ∧
    (∀ p a x, entry_at g' p a = Some x → entry_at g p a = Some x).
Proof.
  intros Hok Hg Ht. revert g Hok. induction Hg as [|uri uris Hu Hg IH]; intros g Hok.
  { exists g. split_and!; try done. by intros ? ?%elem_of_nil. }
  destruct (Unregister_entry uri ep g Hok Hu Ht) as (g1 & E1 & Hok1 & A).
  destruct (IH g1 Hok1) as (g' & E & Hok' & B1 & B2 & B3).
  exists g'. simpl. rewrite E1. simpl. split_and!; [done|done| | |].
  - intros v [->|Hv']%elem_of_cons; [|by apply B1].
    destruct (entry_at g' _ _) as [x|] eqn:Ex; [|done]. apply B3 in Ex. rewrite A, decide_True in Ex by done. done.
  - intros p a Hne. rewrite B2, A, decide_False; [done| |].
    + intros [-> ->]. destruct Hne as [Hne|]; [|done]. by apply (Hne uri); [left|].
    + destruct Hne as [Hne|]; [left|by right]. intros w Hw. apply Hne. by right.
  - intros p a x Hx%B3. rewrite A in Hx. by case_decide.
Qed.

Lemma store_ok_entry s :
  http_store_ok s ↔ reg_ok (hs_registry s) ∧
    ∀ p a e u, entry_at (hs_registry s) p a = Some (e, u) → (ep_loc e < hs_next s)%nat.
Proof.
  unfold http_store_ok, entry_at. split; intros [H1 H2]; (split; [done|]).
  - intros p a e u (m & Hm & Ha)%bind_Some. eauto.
  - intros p m a e u Hm Ha. apply (H2 p a e u). by rewrite Hm.
Qed.

Lemma serves_other msg p a :
  ¬ serves msg p a → (∀ uri, uri ∈ Uris msg → p ≠ segments (RouteKey uri)) ∨ a ≠ CanonicalAddr (makeEndpoint 0 msg).
Proof.
  intros Hs. destruct (decide (a = CanonicalAddr (makeEndpoint 0 msg))) as [->|]; [left|by right].
  intros uri Hu ->. apply Hs. split; [by exists uri|done].
Qed.

Lemma registerEndpoint_spec now msg s :
  http_store_ok s → good_message msg →
  ∃ s', registerEndpoint now msg s = Ok s' ∧ http_store_ok s' ∧
    (∀ p a, serves msg p a → is_Some (entry_at (hs_registry s') p a)) ∧
    (∀ p a, ¬ serves msg p a → entry_at (hs_registry s') p a = entry_at (hs_registry s) p a).
Proof.
  intros [Hok Hloc]%store_ok_entry [Hg Hid]. unfold registerEndpoint.
  destruct (register_uris_spec now (makeEndpoint (hs_next s) msg) (Uris msg) (hs_registry s) Hok Hg Hid)
    as (g & -> & Hok' & A & B & C).
  eexists. split; [done|]. split_and!.
  - apply store_ok_entry. split; [done|]. simpl. intros p a e u [->|[u' H]]%C; [simpl; lia|].
    apply Hloc in H. lia.
  - intros p a [(uri & Hu & ->) ->]. by apply A.
  - intros p a Hs. by apply B, serves_other.
Qed.

Lemma unregisterEndpoint_spec msg s :
  http_store_ok s → good_message msg →
  ∃ s', unregisterEndpoint msg s = Ok s' ∧ http_store_ok s' ∧
    (∀ p a, serves msg p a → entry_at (hs_registry s') p a = None) ∧
    (∀ p a, ¬ serves msg p a → entry_at (hs_registry s') p a = entry_at (hs_registry s) p a).
Proof.
  intros [Hok Hloc]%store_ok_entry [Hg Hid]. unfold unregisterEndpoint.
  destruct (unregister_uris_spec (makeEndpoint (hs_next s) msg) (Uris msg) (hs_registry s) Hok Hg eq_refl)
    as (g & -> & Hok' & A & B & C).
  eexists. split; [done|]. split_and!.
  - apply store_ok_entry. split; [done|]. simpl. intros p a e u H%C. apply Hloc in H. lia.
  - intros p a [(uri & Hu & ->) ->]. by apply A.
  - intros p a Hs. by apply B, serves_other.
Qed.

(** ** Properties *)

(** C33. A message of another router group changes nothing.  A registration
    message of the subscriber's own group puts its address under every one of
    its URIs, an unregistration message removes it from every one of them
    whatever tag is stored, and neither touches any other route or address. *)
Theorem subscriber_messages_exact guid now msg s :
  http_store_ok s → good_message msg →
  if decide (RouterGroupGuid msg = guid) then
    (∃ s', handleRouteRegister guid now msg s = Ok s' ∧ http_store_ok s' ∧
       (∀ p a, serves msg p a → is_Some (entry_at (hs_registry s') p a)) ∧
       (∀ p a, ¬ serves msg p a → entry_at (hs_registry s') p a = entry_at (hs_registry s) p a)) ∧
    (∃ s', handleRouteUnregsiter guid msg s = Ok s' ∧ http_store_ok s' ∧
       (∀ p a, serves msg p a → entry_at (hs_registry s') p a = None) ∧
       (∀ p a, ¬ serves msg p a → entry_at (hs_registry s') p a = entry_at (hs_registry s) p a))
  else handleRouteRegister guid now msg s = Ok s ∧ handleRouteUnregsiter guid msg s = Ok s.
Proof.
  intros Hok Hg. pose proof (registerEndpoint_spec now msg s Hok Hg) as HR.
  pose proof (unregisterEndpoint_spec msg s Hok Hg) as HU.
  unfold handleRouteRegister, handleRouteUnregsiter, registerWithRouterGroup, registerRoute,
    unregisterWithRouterGroup, unregisterRoute.
  case_decide as Hd; repeat case_bool_decide; simpl; try done; congruence.
Qed.

(** A message as the route emitter sends it. *)
Definition demo_text : string :=
  replace_char "~" (Ascii.ascii_of_nat 34)
    "{~host~:~10.0.0.1~,~port~:8080,~uris~:[~foo.cf.com/a~],~tags~:{~component~:~x~},~private_instance_id~:~guid-1~}".

Definition demo_message : RegistryMessage :=
  mkMessage "10.0.0.1" 8080 ["foo.cf.com/a"] {["component" := "x"]} EmptyString 0 EmptyString "guid-1"
    EmptyString EmptyString.

Example demo_decodes : createRegistryMessage demo_text = Ok demo_message.
Proof. vm_compute. reflexivity. Qed.

Lemma subscriber_messages_exact_witness :
  ∃ s', handleRouteRegister EmptyString 3 demo_message (mkHTTPStore demo_registry 0) = Ok s' ∧
    is_Some (entry_at (hs_registry s') ["foo.cf.com"; "a"] "10.0.0.1:8080").
Proof.
  assert (http_store_ok (mkHTTPStore demo_registry 0)) as Hok.
  { split; [apply demo_registry_ok|]. intros p m a ep u Hp. unfold routes in Hp.
    rewrite routes_of_lookup in Hp. change (byURI (hs_registry _)) with (mkTrie EmptyString None ∅) in Hp.
    by rewrite pool_at_empty in Hp. }
  assert (good_message demo_message) as Hg by (split; [apply Forall_singleton, demo_uri_good|reflexivity]).
  pose proof (subscriber_messages_exact EmptyString 3 demo_message (mkHTTPStore demo_registry 0) Hok Hg) as H.
  rewrite decide_True in H by reflexivity. destruct H as [(s' & E & _ & Hs & _) _].
  exists s'. split; [exact E|]. apply Hs. split; [|vm_compute; reflexivity].
  exists "foo.cf.com/a". split; [by left|vm_compute; reflexivity].
Defined.
