(* ===== verification/Tier2.v ===== *)
(** Destinations of the tier-2 virtual servers: [tier2VSInfo] and the
    functions of [src/f5router/f5router.go] that allocate, cache and reap
    its addresses, and [validateTier2Range].

    [getAvailableVirtualAddress] runs its loop on fuel
    [2 * size usedPorts + 3].  Every turn but the last either looks at
    another address in use or moves to the next IP, and no two moves are
    adjacent, so the fuel is enough ([tier2_search_terminates]); the outcome
    of an exhausted loop is a [Panic]. *)
From stdpp Require Import base list gmap strings.
From Stdlib Require Import Ascii ZArith Lia.
From S2P Require Import Prelude GoStrings GoNet Resources Codec Updates.
Import bigipResources.
Local Open Scope Z_scope.

Record tier2VSInfo := mkTier2 {
  usedPorts : gmap string VirtualAddress;
  reapedPorts : list VirtualAddress;
  holderPort : Z;
  holderIP : list Z;
  ipNet : IPNet
}.

Definition set_usedPorts (u : gmap string VirtualAddress) (t : tier2VSInfo) : tier2VSInfo :=
  mkTier2 u (reapedPorts t) (holderPort t) (holderIP t) (ipNet t).
Definition set_reapedPorts (l : list VirtualAddress) (t : tier2VSInfo) : tier2VSInfo :=
  mkTier2 (usedPorts t) l (holderPort t) (holderIP t) (ipNet t).
Definition set_holderPort (p : Z) (t : tier2VSInfo) : tier2VSInfo :=
  mkTier2 (usedPorts t) (reapedPorts t) p (holderIP t) (ipNet t).
Definition set_holderIP (ip : list Z) (t : tier2VSInfo) : tier2VSInfo :=
  mkTier2 (usedPorts t) (reapedPorts t) (holderPort t) ip (ipNet t).

(** Increment of a big-endian byte string, on its reverse. *)
Fixpoint increment_rev (l : list Z) : list Z :=
  match l with
  | [] => []
  | b :: l' =>
      let b' := uint8 (b + 1) in
      if 0 <? b' then b' :: l' else b' :: increment_rev l'
  end.

Definition nextIP (ip : list Z) : list Z := rev (increment_rev (rev ip)).

Definition incrementHolderIP (t : tier2VSInfo) : result tier2VSInfo :=
  let ipCopy := nextIP (holderIP t) in
  if IPNet_Contains (ipNet t) ipCopy then Ok (set_holderIP ipCopy t)
  else Err "Ran out of available IP addresses. Restart the controller with a larger address space".

(** The address at the holder. *)
Definition holder_va (t : tier2VSInfo) : VirtualAddress :=
  mkVA (IP_String (holderIP t)) (holderPort t).

Definition in_use (t : tier2VSInfo) (va : VirtualAddress) : bool :=
  bool_decide (is_Some (usedPorts t !! VA_String va)).

(** Register the address and return it. *)
Definition take_va (t : tier2VSInfo) (va : VirtualAddress) : tier2VSInfo * result VirtualAddress :=
  (set_usedPorts (<[VA_String va := va]> (usedPorts t)) t, Ok va).

(** The loop [for found]; it is entered with [found] true. *)
Fixpoint available_loop (fuel : nat) (t : tier2VSInfo) : tier2VSInfo * result VirtualAddress :=
  match fuel with
  | O => (t, Panic "out of fuel")
  | S fuel' =>
      if holderPort t =? 65535 then
        match incrementHolderIP t with
        | Ok t' => available_loop fuel' (set_holderPort 10000 t')
        | Err e => (t, Err e)
        | Panic w => (t, Panic w)
        end
      else
        let t' := set_holderPort (wrap32 (holderPort t + 1)) t in
        if in_use t' (holder_va t') then available_loop fuel' t'
        else take_va t' (holder_va t')
  end.

Definition available_fuel (t : tier2VSInfo) : nat := 2 * size (usedPorts t) + 3.

Definition getAvailableVirtualAddress (t : tier2VSInfo) : tier2VSInfo * result VirtualAddress :=
  match reapedPorts t with
  | va :: _ => (set_reapedPorts (swap_remove 0 (reapedPorts t)) t, Ok va)
  | [] =>
      if in_use t (holder_va t) then available_loop (available_fuel t) t
      else take_va t (holder_va t)
  end.

(** ** The data group cached on the BIG-IP *)
Abbreviation DataGroup := (gmap string InternalDataGroupRecord) (only parsing).

(** A record whose JSON text is [null] decodes to a nil pointer, which the
    callers dereference. *)
Definition nil_deref {A} : result A := Panic "invalid memory address or nil pointer dereference".

Fixpoint cached_loop (t : tier2VSInfo) (dg : DataGroup) (records : list InternalDataGroupRecord)
  : result (tier2VSInfo * DataGroup) :=
  match records with
  | [] => Ok (t, dg)
  | record :: rest =>
      match ReturnTier2VirtualAddress record with
      | Err _ => cached_loop t dg rest
      | Panic w => Panic w
      | Ok None => nil_deref
      | Ok (Some va) =>
          match ParseIP (BindAddr va) with
          | Some vaIP =>
              if IPNet_Contains (ipNet t) vaIP && (Port va <=? 65535) && negb (in_use t va) then
                cached_loop (set_usedPorts (<[VA_String va := va]> (usedPorts t)) t)
                  (<[RecName record := record]> dg) rest
              else cached_loop t dg rest
          | None => cached_loop t dg rest
          end
      end
  end.

Definition processCachedDataGroup (t : tier2VSInfo) (dg : InternalDataGroup)
  : result (tier2VSInfo * DataGroup) := cached_loop t ∅ (Records dg).

(** *** Truncation after the first drain of the queue *)
Section truncate.
Context `{!MapOrder string}.

(** The records and addresses of the virtual servers that exist. *)
Fixpoint truncate_loop (internalDataGroup : DataGroup) (names : list string)
  (acc : DataGroup * gmap string VirtualAddress) : result (DataGroup * gmap string VirtualAddress) :=
  match names with
  | [] => Ok acc
  | vsName :: rest =>
      match internalDataGroup !! vsName with
      | None => truncate_loop internalDataGroup rest acc
      | Some record =>
          match ReturnTier2VirtualAddress record with
          | Err _ => truncate_loop internalDataGroup rest acc
          | Panic w => Panic w
          | Ok None => nil_deref
          | Ok (Some va) =>
              truncate_loop internalDataGroup rest
                (<[vsName := record]> acc.1, <[VA_String va := va]> acc.2)
          end
      end
  end.

Definition truncateInternalDataGroup {V} (virtualResources : gmap string V)
  (internalDataGroup : DataGroup) (t : tier2VSInfo) : result (tier2VSInfo * DataGroup) :=
  rbind (truncate_loop internalDataGroup (go_range virtualResources).*1 (∅, ∅)) (λ '(newDataGroup, newUsedPorts),
  let reaped := omap (λ kv, if bool_decide (is_Some (newUsedPorts !! kv.1)) then None else Some kv.2)
                  (go_range (usedPorts t)) in
  Ok (set_usedPorts newUsedPorts (set_reapedPorts (reapedPorts t ++ reaped) t), newDataGroup)).
End truncate.

(** ** validateTier2Range *)

(** [strconv.Atoi]: an optional sign and decimal digits, as an [int]. *)
Definition Atoi (s : string) : result Z :=
  let digits d := match d with EmptyString => None | _ => digits_val 0 d end in
  let v := match s with
    | String a r =>
        if bool_decide (a = "-"%char) then Z.opp <$> digits r
        else if bool_decide (a = "+"%char) then digits r else digits s
    | EmptyString => None end in
  match v with
  | Some z => if (- 2 ^ 63 <=? z) && (z <? 2 ^ 63) then Ok z else Err "value out of range"
  | None => Err "invalid syntax"
  end.

Definition validateTier2Range (s : string) : result (list Z * IPNet) :=
  if negb (contains_char "/" s) then Err ("invalid CIDR address - no '/': " +:+ s)
  else
    match Split "/" s with
    | [_; bits_text] =>
        rbind (Atoi bits_text) (λ ones,
        match ParseCIDR s with
        | None => Err ("invalid CIDR address: " +:+ s)
        | Some (i, n) =>
            if IsLoopback i then Err ("loopback not allowed: " +:+ IP_String i)
            else
              let bits := match To4 i with Some _ => 32 | None => 128 end in
              let ip := match CIDRMask ones bits with
                | Some m => IP_Mask i m
                | None => None end in
              let same := match ip with Some ip => IP_Equal i ip | None => false end in
              if same then Ok (i, n)
              else Err ("invalid CIDR address - must be CIDR network: " +:+ s)
        end)
    | _ => Err ("invalid CIDR address - too many '/': " +:+ s)
    end.

Definition parsed_range (s : string) : option string :=
  match validateTier2Range s with Ok (ip, _) => Some (IP_String ip) | _ => None end.

Example validate_examples :
  parsed_range "10.1.0.0/16" = Some "10.1.0.0" ∧ parsed_range "10.1.0.1/16" = None ∧
  parsed_range "2001:db8::/64" = Some "2001:db8::" ∧ parsed_range "127.0.0.0/24" = None ∧
  parsed_range "10.0.0.0" = None ∧ parsed_range "10.0.0.0/8/8" = None.
Proof. vm_compute. done. Qed.

(** ** IPv4 holders

    [validateTier2Range] returns the address of an IPv4 range in its 16-byte
    form; the number of such an address is that of its last four bytes. *)
Definition v4_number (ip : list Z) : Z := foldl (λ acc b, acc * 256 + b) 0 (drop 12 ip).

Definition is_v4 (ip : list Z) : Prop :=
  ∃ a b c d, ip = v4InV6Prefix ++ [a; b; c; d] ∧ Forall (λ x, 0 ≤ x < 256) [a; b; c; d].

(** The range is an IPv4 network. *)
Definition net_v4 (n : IPNet) : Prop := ∃ nn m, network n = Some (nn, m) ∧ length nn = 4%nat.

Lemma Itoa_no_char c z : is_digit c = false → c ≠ "-"%char → count_char c (Itoa z) = 0%nat.
Proof.
  intros Hc Hm. destruct (Itoa_shape z) as (neg & a & t & -> & Ha & Ht & _).
  assert (∀ s, string_forallb is_digit s = true → count_char c s = 0%nat) as Hd.
  { induction s as [|x s IH]; intros Hs; [done|]. simpl in *.
    apply andb_true_iff in Hs as [Hx Hs]. rewrite bool_decide_eq_false_2 by congruence. by apply IH. }
  rewrite count_char_app, (Hd (String a t)) by (simpl; by rewrite Ha).
  destruct neg; [|done]. simpl. by rewrite bool_decide_eq_false_2 by congruence.
Qed.

Lemma IP_String_v4 a b c d :
  IP_String (v4InV6Prefix ++ [a; b; c; d]) = Join "." (Itoa <$> [a; b; c; d]).
Proof. reflexivity. Qed.

Lemma Join_no_char c sep l :
  c ≠ sep → Forall (λ s, count_char c s = 0%nat) l → count_char c (Join sep l) = 0%nat.
Proof.
  intros Hc. induction 1 as [|x l Hx Hl IH]; [done|].
  destruct l as [|y l]; [done|]. rewrite Join_cons by done.
  rewrite count_char_app, Hx. cbn [count_char]. rewrite bool_decide_eq_false_2 by congruence.
  by rewrite IH.
Qed.

(** Distinct IPv4 addresses and ports have distinct texts. *)
Lemma VA_String_v4_inj ip1 ip2 p1 p2 :
  is_v4 ip1 → is_v4 ip2 →
  VA_String (mkVA (IP_String ip1) p1) = VA_String (mkVA (IP_String ip2) p2) → ip1 = ip2 ∧ p1 = p2.
Proof.
  intros (a1 & b1 & c1 & d1 & -> & _) (a2 & b2 & c2 & d2 & -> & _).
  unfold VA_String; cbn [BindAddr Port]. rewrite !IP_String_v4.
  assert (∀ l, Forall (λ s, count_char "." s = 0%nat) (Itoa <$> l) ∧
               count_char ":" (Join "." (Itoa <$> l)) = 0%nat) as Hno.
  { intros l. split; [|apply Join_no_char; [done|]];
      apply Forall_fmap, Forall_true; intros; by apply Itoa_no_char. }
  intros Heq. apply sapp_sep_inj in Heq as [Hj Hp]; [|by apply Hno..].
  apply (inj Itoa) in Hp as ->. split; [|done].
  apply (f_equal (Split ".")) in Hj. rewrite !Split_Join in Hj by (by try apply Hno).
  apply (inj (fmap Itoa)) in Hj. by simplify_eq.
Qed.

Lemma uint8_step b : 0 ≤ b < 256 → uint8 (b + 1) = if b =? 255 then 0 else b + 1.
Proof.
  intros Hb. unfold uint8. destruct (Z.eqb_spec b 255) as [->|]; [done|].
  apply Z.mod_small. lia.
Qed.

(** The successor of an IPv4 address is the next IPv4 address, or no IPv4
    address at all after the last one. *)
Lemma nextIP_v4 ip :
  is_v4 ip →
  (is_v4 (nextIP ip) ∧ v4_number (nextIP ip) = v4_number ip + 1) ∨
  (length (nextIP ip) = 16%nat ∧ To4 (nextIP ip) = None ∧ v4_number ip = 2 ^ 32 - 1).
Proof.
  intros (a & b & c & d & -> & Hbytes).
  apply Forall_cons in Hbytes as [Ha Hbytes]. apply Forall_cons in Hbytes as [Hb Hbytes].
  apply Forall_cons in Hbytes as [Hc Hbytes]. apply Forall_cons in Hbytes as [Hd _].
  unfold nextIP. simpl rev. cbn [increment_rev].
  rewrite (uint8_step d), (uint8_step c), (uint8_step b), (uint8_step a) by done.
  destruct (Z.eqb_spec d 255) as [->|Hd']; [|left].
  2: { rewrite (proj2 (Z.ltb_lt 0 (d + 1))) by lia. simpl rev. split.
       - exists a, b, c, (d + 1). split; [done|]. repeat constructor; lia.
       - unfold v4_number. simpl. lia. }
  destruct (Z.eqb_spec c 255) as [->|Hc']; [|left].
  2: { rewrite (proj2 (Z.ltb_lt 0 (c + 1))) by lia. simpl rev. split.
       - exists a, b, (c + 1), 0. split; [done|]. repeat constructor; lia.
       - unfold v4_number. simpl. lia. }
  destruct (Z.eqb_spec b 255) as [->|Hb']; [|left].
  2: { rewrite (proj2 (Z.ltb_lt 0 (b + 1))) by lia. simpl rev. split.
       - exists a, (b + 1), 0, 0. split; [done|]. repeat constructor; lia.
       - unfold v4_number. simpl. lia. }
  destruct (Z.eqb_spec a 255) as [->|Ha']; [right; done|left].
  rewrite (proj2 (Z.ltb_lt 0 (a + 1))) by lia. simpl rev. split.
  - exists (a + 1), 0, 0, 0. split; [done|]. repeat constructor; lia.
  - unfold v4_number. simpl. lia.
Qed.

Lemma v4_number_inj ip1 ip2 : is_v4 ip1 → is_v4 ip2 → v4_number ip1 = v4_number ip2 → ip1 = ip2.
Proof.
  intros (a1 & b1 & c1 & d1 & -> & H1) (a2 & b2 & c2 & d2 & -> & H2).
  repeat match goal with H : Forall _ (_ :: _) |- _ => apply Forall_cons in H as [? ?] end.
  unfold v4_number. simpl. intros E.
  assert (d1 = d2) as -> by lia. assert (c1 = c2) as -> by lia. assert (b1 = b2) as -> by lia.
  assert (a1 = a2) as -> by lia. done.
Qed.

Lemma v4_number_bound ip : is_v4 ip → 0 ≤ v4_number ip < 2 ^ 32.
Proof.
  intros (a & b & c & d & -> & H). repeat match goal with H : Forall _ (_ :: _) |- _ => apply Forall_cons in H as [? ?] end.
  unfold v4_number. simpl. lia.
Qed.

Lemma incrementHolderIP_v4 t t' :
  is_v4 (holderIP t) → net_v4 (ipNet t) → incrementHolderIP t = Ok t' →
  t' = set_holderIP (nextIP (holderIP t)) t ∧ is_v4 (holderIP t') ∧
  v4_number (holderIP t') = v4_number (holderIP t) + 1.
Proof.
  intros Hv (nn & m & Hn & Hl). unfold incrementHolderIP.
  destruct (IPNet_Contains _ _) eqn:Hc; [|done]. intros [= <-]. simpl. split; [done|].
  destruct (nextIP_v4 _ Hv) as [?|(Hlen & H4 & _)]; [done|].
  unfold IPNet_Contains in Hc. rewrite Hn, H4 in Hc.
  apply andb_true_iff in Hc as [Hc _]. apply bool_decide_eq_true in Hc. lia.
Qed.

(** *** Reading an address back *)
Lemma digit_val_byte a : is_digit a = true → digit_val a = Some (byte_val a - 48) ∧ 48 ≤ byte_val a ≤ 57.
Proof. by destruct a as [[] [] [] [] [] [] [] []]. Qed.

Lemma digits_val_ge acc s v : 0 ≤ acc → digits_val acc s = Some v → acc ≤ v.
Proof.
  revert acc. induction s as [|a s IH]; intros acc Hacc; simpl; [intros [= ->]; lia|].
  destruct (is_digit a) eqn:Ha; [|done]. destruct (digit_val_byte a Ha) as [_ Hb].
  intros H. apply IH in H; lia.
Qed.

(** [dtoi] reads a number up to the first byte that is no digit. *)
Lemma scan_num_digits s acc seen v rest :
  string_forallb is_digit s = true → 0 ≤ acc → digits_val acc s = Some v → v < big →
  (seen = true ∨ s ≠ EmptyString) →
  match rest with String a _ => digit_val a = None | EmptyString => True end →
  scan_num digit_val 10 acc seen (s +:+ rest) = Some (v, rest).
Proof.
  revert acc seen. induction s as [|a s IH]; intros acc seen Hs Hacc Hv Hbig Hseen Hrest; simpl in *.
  - destruct Hseen as [->|]; [|done]. simplify_eq. destruct rest as [|b rest]; simpl; [done|]. by rewrite Hrest.
  - apply andb_true_iff in Hs as [Ha Hs]. rewrite Ha in Hv.
    destruct (digit_val_byte a Ha) as [-> Hb].
    pose proof (digits_val_ge (acc * 10 + (byte_val a - 48)) s v ltac:(lia) Hv) as Hge.
    destruct (Z.leb_spec big (acc * 10 + (byte_val a - 48))); [lia|].
    apply IH; try done; [lia|by left].
Qed.

Lemma dtoi_Itoa z rest :
  0 ≤ z < big → match rest with String a _ => digit_val a = None | EmptyString => True end →
  dtoi (Itoa z +:+ rest) = Some (z, rest).
Proof.
  intros Hz Hrest. destruct (Itoa_shape z) as ([] & a & t & Hi & Ha & Ht & _ & Hv).
  - pose proof (digits_val_ge 0 (String a t) _ ltac:(lia) Hv). assert (z = 0) as -> by lia. discriminate Hi.
  - rewrite Hi. apply scan_num_digits; try done; [simpl; by rewrite Ha|lia|by right].
Qed.

Lemma parseIPv4_Itoa a b c d :
  Forall (λ x, 0 ≤ x < 256) [a; b; c; d] →
  parseIPv4 (Join "." (Itoa <$> [a; b; c; d])) = Some (v4InV6Prefix ++ [a; b; c; d]).
Proof.
  intros Hf. repeat match goal with H : Forall _ (_ :: _) |- _ => apply Forall_cons in H as [? ?] end.
  cbn [fmap list_fmap Join]. rewrite <-(sapp_nil_r (Itoa d)).
  unfold parseIPv4. cbn [parseIPv4_octets].
  rewrite dtoi_Itoa by (unfold big; done || lia).
  rewrite (proj2 (Z.ltb_ge 255 a)) by lia. cbn [parseIPv4_octets]. rewrite bool_decide_refl.
  rewrite dtoi_Itoa by (unfold big; done || lia).
  rewrite (proj2 (Z.ltb_ge 255 b)) by lia. cbn [parseIPv4_octets]. rewrite bool_decide_refl.
  rewrite dtoi_Itoa by (unfold big; done || lia).
  rewrite (proj2 (Z.ltb_ge 255 c)) by lia. cbn [parseIPv4_octets]. rewrite bool_decide_refl.
  rewrite dtoi_Itoa by (unfold big; done || lia).
  by rewrite (proj2 (Z.ltb_ge 255 d)) by lia.
Qed.

Lemma ip_syntax_dot h t :
  count_char "." h = 0%nat → count_char ":" h = 0%nat → ip_syntax (h +:+ String "." t) = Some true.
Proof.
  induction h as [|a h IH]; simpl; [done|].
  case_bool_decide; [done|]. case_bool_decide; [done|]. apply IH.
Qed.

(** The text of an IPv4 address parses to that address. *)
Lemma ParseIP_String_v4 ip : is_v4 ip → ParseIP (IP_String ip) = Some ip.
Proof.
  intros (a & b & c & d & -> & Hb). unfold ParseIP. rewrite IP_String_v4.
  assert (ip_syntax (Join "." (Itoa <$> [a; b; c; d])) = Some true) as ->.
  { cbn [fmap list_fmap Join]. apply ip_syntax_dot; by apply Itoa_no_char. }
  by apply parseIPv4_Itoa.
Qed.

(** ** Allocation *)
Record holder_ok (t : tier2VSInfo) : Prop := {
  ho_v4 : is_v4 (holderIP t);
  ho_net : net_v4 (ipNet t);
  ho_port : 10000 ≤ holderPort t ≤ 65535
}.

Definition position (ip : list Z) (port : Z) : Z := v4_number ip * 65536 + port.

(** Keys of addresses at or before the holder. *)
Definition behind (t : tier2VSInfo) (k : string) : Prop :=
  ∃ ip p, is_v4 ip ∧ k = VA_String (mkVA (IP_String ip) p) ∧
    position ip p ≤ position (holderIP t) (holderPort t).

Lemma seen_size {V} (m : gmap string V) (seen : list string) :
  NoDup seen → (∀ k, k ∈ seen → is_Some (m !! k)) → (length seen ≤ size m)%nat.
Proof.
  intros Hnd Hin. rewrite <-(size_list_to_set (C := gset string) seen) by done.
  rewrite <-size_dom. apply subseteq_size. intros k. rewrite elem_of_list_to_set, elem_of_dom. apply Hin.
Qed.

(** What a search that started in [t] returns: an error that leaves the
    addresses in use as they are, or an address that was not in use, the one
    at the new holder, now registered. *)
Definition search_result (t : tier2VSInfo) (out : tier2VSInfo * result VirtualAddress) : Prop :=
  reapedPorts out.1 = reapedPorts t ∧ holder_ok out.1 ∧
  match out.2 with
  | Ok va =>
      usedPorts t !! VA_String va = None ∧ va = holder_va out.1 ∧
      usedPorts out.1 = <[VA_String va := va]> (usedPorts t)
  | Err _ => usedPorts out.1 = usedPorts t
  | Panic _ => False
  end.

Lemma wrap32_small z : - 2 ^ 31 ≤ z < 2 ^ 31 → wrap32 z = z.
Proof. intros. unfold wrap32. rewrite Z.mod_small; lia. Qed.

Lemma take_va_result t :
  holder_ok t → in_use t (holder_va t) = false → search_result t (take_va t (holder_va t)).
Proof.
  intros [] Hu. apply bool_decide_eq_false in Hu. unfold search_result, take_va; simpl.
  split_and!; [done|by constructor| |done|done]. by apply eq_None_not_Some.
Qed.

Lemma available_loop_spec fuel t seen :
  holder_ok t → NoDup seen →
  (∀ k, k ∈ seen → is_Some (usedPorts t !! k) ∧ behind t k) →
  (2 * (size (usedPorts t) - length seen) + (if (holderPort t =? 65535)%Z then 2 else 1) ≤ fuel)%nat →
  search_result t (available_loop fuel t).
Proof.
  revert t seen. induction fuel as [|fuel IH]; intros t seen Hok Hnd Hseen Hfuel.
  { destruct (holderPort t =? 65535); lia. }
  pose proof (seen_size (usedPorts t) seen Hnd (λ k Hk, proj1 (Hseen k Hk))) as Hsize.
  destruct Hok as [Hv Hn Hp]. cbn [available_loop].
  destruct (Z.eqb_spec (holderPort t) 65535) as [H65|H65].
  - destruct (incrementHolderIP t) as [t'|e|w] eqn:Hi.
    + destruct (incrementHolderIP_v4 t t' Hv Hn Hi) as (-> & Hv' & Hnum).
      apply (IH (set_holderPort 10000 (set_holderIP (nextIP (holderIP t)) t)) seen); simpl in *; [|done| |lia].
      * constructor; simpl; [done|done|lia].
      * intros k Hk. destruct (Hseen k Hk) as [Hs (ip & p & Hip & -> & Hpos)]. split; [done|].
        exists ip, p. split_and!; [done|done|]. simpl. unfold position in *. rewrite Hnum. lia.
    + unfold search_result; simpl. split_and!; [done|by constructor|done].
    + unfold incrementHolderIP in Hi. by destruct (IPNet_Contains _ _).
  - rewrite wrap32_small by lia.
    set (t' := set_holderPort (holderPort t + 1) t).
    assert (holder_ok t') as Hok' by (constructor; simpl; [done|done|lia]).
    destruct (in_use t' (holder_va t')) eqn:Hu; [|by apply (take_va_result t')].
    apply bool_decide_eq_true in Hu.
    assert (VA_String (holder_va t') ∉ seen) as Hnew.
    { intros Hk. destruct (Hseen _ Hk) as [_ (ip & p & Hip & Heq & Hpos)].
      apply VA_String_v4_inj in Heq as [<- <-]; [|done|done].
      unfold position in Hpos. simpl in Hpos. lia. }
    apply (IH t' (VA_String (holder_va t') :: seen)); [done|by constructor| |].
    + intros k [->|Hk]%elem_of_cons.
      * split; [done|]. exists (holderIP t'), (holderPort t'). done.
      * destruct (Hseen k Hk) as [Hs (ip & p & Hip & -> & Hpos)]. split; [done|].
        exists ip, p. split_and!; [done|done|]. unfold position in *. simpl. lia.
    + pose proof (seen_size (usedPorts t') (VA_String (holder_va t') :: seen)
        ltac:(by constructor) ltac:(intros k [->|Hk]%elem_of_cons; [done|by apply Hseen])) as Hsize'.
      simpl in *. destruct (holderPort t + 1 =? 65535); lia.
Qed.

(** The allocation without a reaped address. *)
Lemma getAvailable_search t :
  holder_ok t → reapedPorts t = [] → search_result t (getAvailableVirtualAddress t).
Proof.
  intros Hok Hr. unfold getAvailableVirtualAddress. rewrite Hr.
  destruct (in_use t (holder_va t)) eqn:Hu; [|by apply take_va_result].
  apply bool_decide_eq_true in Hu.
  apply (available_loop_spec _ t [VA_String (holder_va t)]); [done|apply NoDup_singleton| |].
  - intros k ->%list_elem_of_singleton. split; [done|].
    exists (holderIP t), (holderPort t). split; [by destruct Hok|done].
  - unfold available_fuel. simpl. destruct (holderPort t =? 65535); lia.
Qed.

(** *** Which address the search finds

    The addresses a search in state [t] looks at: the ports of the holder's
    address from the holder's port on, and of each later address, as long as
    all addresses up to it are in the range, the ports from 10001. *)
Definition ahead (t : tier2VSInfo) (ip : list Z) (p : Z) : Prop :=
  is_v4 ip ∧ p ≤ 65535 ∧
  ((ip = holderIP t ∧ holderPort t ≤ p) ∨
   (10001 ≤ p ∧ v4_number (holderIP t) < v4_number ip ∧
    ∀ ip', is_v4 ip' → v4_number (holderIP t) < v4_number ip' ≤ v4_number ip → IPNet_Contains (ipNet t) ip' = true)).

Definition taken (t : tier2VSInfo) (ip : list Z) (p : Z) : Prop :=
  is_Some (usedPorts t !! VA_String (mkVA (IP_String ip) p)).

(** The first of them that is not in use; an error when all are. *)
Definition search_first (t : tier2VSInfo) (out : tier2VSInfo * result VirtualAddress) : Prop :=
  match out.2 with
  | Ok va => ∃ ip p, va = mkVA (IP_String ip) p ∧ ahead t ip p ∧ ¬ taken t ip p ∧
      ∀ ip' p', ahead t ip' p' → position ip' p' < position ip p → taken t ip' p'
  | Err _ => ∀ ip p, ahead t ip p → taken t ip p
  | Panic _ => True
  end.

(** The search that began in [t0] has come to [t]. *)
Record searched (t0 t : tier2VSInfo) : Prop := {
  se_holder : holder_ok t;
  se_used : usedPorts t = usedPorts t0;
  se_net : ipNet t = ipNet t0;
  se_place : (holderIP t = holderIP t0 ∧ holderPort t0 ≤ holderPort t) ∨
    (v4_number (holderIP t0) < v4_number (holderIP t) ∧
     ∀ ip', is_v4 ip' → v4_number (holderIP t0) < v4_number ip' ≤ v4_number (holderIP t) → IPNet_Contains (ipNet t0) ip' = true);
  se_taken : ∀ ip p, ahead t0 ip p → position ip p ≤ position (holderIP t) (holderPort t) → taken t0 ip p
}.

Lemma position_inj ip1 ip2 p1 p2 :
  is_v4 ip1 → is_v4 ip2 → 0 ≤ p1 < 65536 → 0 ≤ p2 < 65536 → position ip1 p1 = position ip2 p2 → ip1 = ip2 ∧ p1 = p2.
Proof. unfold position. intros H1 H2 ?? E. split; [apply v4_number_inj; [done..|lia]|lia]. Qed.

Lemma ahead_port t ip p : holder_ok t → ahead t ip p → 0 ≤ p < 65536.
Proof. intros [_ _ ?] (_ & ? & [[_ ?]|[? _]]); lia. Qed.

(** To the next port. *)
Lemma searched_port t0 t :
  holder_ok t0 → searched t0 t → holderPort t ≠ 65535 →
  let t' := set_holderPort (holderPort t + 1) t in
  ahead t0 (holderIP t') (holderPort t') ∧ (in_use t' (holder_va t') = true → searched t0 t').
Proof.
  intros Hok0 [Hok Hu Hn Hpl Htk] Hp t'. destruct Hok as [Hv Hnet Hport]. split.
  - split; [done|]. split; [cbn; lia|]. destruct Hpl as [[Hip ?]|[Hlt Hc]]; [left; cbn; split; [done|lia]|right].
    cbn. split_and!; [lia|done|done].
  - intros Huse%bool_decide_eq_true. subst t'. split; cbn [holderIP holderPort usedPorts ipNet set_holderPort set_holderIP]; [constructor; cbn; [done|done|lia]|done|done| |].
    + destruct Hpl as [[Hip ?]|[Hlt Hc]]; [left; split; [done|lia]|by right].
    + intros ip p Ha Hpos. pose proof (ahead_port _ _ _ Hok0 Ha). pose proof Ha as [Hip _].
      destruct (decide (position ip p ≤ position (holderIP t) (holderPort t))) as [?|Hgt]; [by apply Htk|].
      assert (position ip p = position (holderIP t) (holderPort t + 1)) as E by (unfold position in *; lia).
      apply position_inj in E as [-> ->]; [|done|done|lia|lia]. unfold taken. rewrite <-Hu. exact Huse.
Qed.

(** To the next address. *)
Lemma searched_address t0 t t' :
  holder_ok t0 → searched t0 t → holderPort t = 65535 → incrementHolderIP t = Ok t' →
  searched t0 (set_holderPort 10000 t').
Proof.
  intros Hok0 [Hok Hu Hn Hpl Htk] Hp Hi. destruct Hok as [Hv Hnet Hport].
  destruct (incrementHolderIP_v4 t t' Hv Hnet Hi) as (-> & Hv' & Hnum). cbn [holderIP set_holderIP] in Hv', Hnum.
  assert (IPNet_Contains (ipNet t) (nextIP (holderIP t)) = true) as Hin.
  { unfold incrementHolderIP in Hi. by destruct (IPNet_Contains (ipNet t) (nextIP (holderIP t))). }
  split; cbn [holderIP holderPort usedPorts ipNet set_holderPort set_holderIP]; [constructor; cbn; [done|done|lia]|done|done| |].
  - right. split; [destruct Hpl as [[<- _]|[? _]]; lia|]. intros ip Hip Hlt.
    destruct (decide (v4_number ip = v4_number (nextIP (holderIP t)))) as [E|E].
    + rewrite (v4_number_inj ip _ Hip Hv' E). by rewrite <-Hn.
    + destruct Hpl as [[E0 _]|[_ Hc]]; [rewrite <-E0 in Hlt; lia|]. apply Hc; [done|lia].
  - intros ip p Ha Hpos. apply Htk; [done|]. pose proof Ha as (_ & ? & [[-> ?]|(? & ? & _)]); unfold position in *.
    + destruct Hpl as [[-> _]|[? _]]; lia.
    + lia.
Qed.

(** The end of the range. *)
Lemma searched_end t0 t e :
  holder_ok t0 → searched t0 t → holderPort t = 65535 → incrementHolderIP t = Err e →
  ∀ ip p, ahead t0 ip p → taken t0 ip p.
Proof.
  intros Hok0 [Hok Hu Hn Hpl Htk] Hp Hi ip p Ha. apply Htk; [done|]. pose proof (ahead_port _ _ _ Hok0 Ha).
  destruct (decide (v4_number ip ≤ v4_number (holderIP t))) as [?|Hgt]; [unfold position; lia|exfalso].
  destruct Ha as (Hip & _ & [[-> _]|(_ & Hlt & Hc)]); [destruct Hpl as [[E _]|[? _]]; [rewrite <-E in Hgt|]; lia|].
  pose proof (v4_number_bound ip Hip). destruct (nextIP_v4 _ (ho_v4 _ Hok)) as [[Hv' Hnum]|(_ & _ & Hnum)]; [|lia].
  unfold incrementHolderIP in Hi. rewrite Hn, Hc in Hi; [done|done|]. destruct Hpl as [[E _]|[? _]]; [rewrite <-E in *|]; lia.
Qed.

Lemma available_loop_first fuel t0 t :
  holder_ok t0 → searched t0 t → search_first t0 (available_loop fuel t).
Proof.
  intros Hok0. revert t. induction fuel as [|fuel IH]; intros t Hs; [done|]. cbn [available_loop].
  destruct (Z.eqb_spec (holderPort t) 65535) as [H65|H65].
  - destruct (incrementHolderIP t) as [t'|e|w] eqn:Hi; [apply IH; by eapply searched_address| |done].
    unfold search_first. cbn. by eapply searched_end.
  - pose proof (ho_port _ (se_holder _ _ Hs)). rewrite wrap32_small by lia.
    destruct (searched_port t0 t Hok0 Hs H65) as [Ha Hnext].
    destruct (in_use _ _) eqn:Hu; [by apply IH, Hnext|]. apply bool_decide_eq_false in Hu.
    exists (holderIP t), (holderPort t + 1). split_and!; [done|done| |].
    + unfold taken. rewrite <-(se_used _ _ Hs). exact Hu.
    + intros ip p Hip Hpos. apply (se_taken _ _ Hs); [done|]. unfold position in *. lia.
Qed.

Lemma getAvailable_first t :
  holder_ok t → reapedPorts t = [] → search_first t (getAvailableVirtualAddress t).
Proof.
  intros Hok Hr. unfold getAvailableVirtualAddress. rewrite Hr.
  assert (∀ ip p, ahead t ip p → position (holderIP t) (holderPort t) ≤ position ip p) as Hle.
  { intros ip p Ha. pose proof (ho_port _ Hok). destruct Ha as (_ & _ & [[-> ?]|(? & ? & _)]); unfold position; lia. }
  destruct (in_use t (holder_va t)) eqn:Hu.
  - apply bool_decide_eq_true in Hu. apply available_loop_first; [done|]. split; [done|done|done|by left|].
    intros ip p Ha Hpos. pose proof (Hle ip p Ha). pose proof (ahead_port _ _ _ Hok Ha). pose proof Ha as [Hip _].
    assert (position ip p = position (holderIP t) (holderPort t)) as E by lia.
    pose proof (ho_port _ Hok). apply position_inj in E as [-> ->]; [exact Hu|done|apply Hok|lia|lia].
  - apply bool_decide_eq_false in Hu. exists (holderIP t), (holderPort t). pose proof (ho_port _ Hok).
    split_and!; [done| |exact Hu|].
    + split; [apply Hok|]. split; [lia|by left].
    + intros ip p Ha Hpos. pose proof (Hle ip p Ha). lia.
Qed.

(** ** Assigning and releasing the address of a virtual server

    [assignAddress] is the part of [assignVSPort] for a virtual server that
    does not exist yet; [releaseAddress] is the end of [processRouteRemove].
    The deletion from [usedPorts] is by the name of the virtual server, as in
    the source, although the map's keys are addresses. *)
Definition assignAddress (t : tier2VSInfo) (dg : DataGroup) (key : string)
  : tier2VSInfo * DataGroup * result (option VirtualAddress) :=
  match dg !! key with
  | None =>
      match getAvailableVirtualAddress t with
      | (t', Ok va) => (t', <[key := mkRecord key (Encode va)]> dg, Ok (Some va))
      | (t', Err e) => (t', dg, Err e)
      | (t', Panic w) => (t', dg, Panic w)
      end
  | Some dgr => (t, dg, ReturnTier2VirtualAddress dgr)
  end.

(** Appending the nil pointer a [null] record decodes to is not a panic in
    itself; the list of reaped addresses cannot hold it, so it is one here. *)
Definition releaseAddress (t : tier2VSInfo) (dg : DataGroup) (vsName : string)
  : result (tier2VSInfo * DataGroup) :=
  let t1 := set_usedPorts (delete vsName (usedPorts t)) t in
  match dg !! vsName with
  | None => Ok (t1, dg)
  | Some record =>
      match ReturnTier2VirtualAddress record with
      | Ok (Some va) => Ok (set_reapedPorts (reapedPorts t1 ++ [va]) t1, delete vsName dg)
      | Ok None => nil_deref
      | Err _ => Ok (t1, delete vsName dg)
      | Panic w => Panic w
      end
  end.

(** The record stands for this address. *)
Definition dg_addr (dg : DataGroup) (name : string) (va : VirtualAddress) : Prop :=
  ∃ record, dg !! name = Some record ∧ ReturnTier2VirtualAddress record = Ok (Some va).

Definition keys (l : list VirtualAddress) : list string := VA_String <$> l.

(** Addresses of records and reaped addresses are pairwise distinct and all
    registered as in use; no name of a route object is a key of [usedPorts]. *)
Record alloc_ok (t : tier2VSInfo) (dg : DataGroup) : Prop := {
  al_holder : holder_ok t;
  al_live : ∀ n, is_Some (dg !! n) → ∃ va, dg_addr dg n va;
  al_used : ∀ n va, dg_addr dg n va → is_Some (usedPorts t !! VA_String va);
  al_fresh : ∀ n va, dg_addr dg n va → VA_String va ∉ keys (reapedPorts t);
  al_distinct : ∀ n1 n2 va1 va2, dg_addr dg n1 va1 → dg_addr dg n2 va2 →
    VA_String va1 = VA_String va2 → n1 = n2;
  al_reaped : NoDup (keys (reapedPorts t));
  al_reaped_used : ∀ va, va ∈ reapedPorts t →
    is_Some (usedPorts t !! VA_String va) ∧ - 2 ^ 31 ≤ Port va < 2 ^ 31;
  al_ports : ∀ n va, dg_addr dg n va → - 2 ^ 31 ≤ Port va < 2 ^ 31;
  al_names : ∀ k, usedPorts t !! ("cf-" +:+ k) = None;
  al_parse : ∀ n va, dg_addr dg n va → is_Some (ParseIP (BindAddr va));
  al_reaped_parse : ∀ va, va ∈ reapedPorts t → is_Some (ParseIP (BindAddr va))
}.

Lemma dg_addr_det dg n va1 va2 : dg_addr dg n va1 → dg_addr dg n va2 → va1 = va2.
Proof. intros (r1 & H1 & D1) (r2 & H2 & D2). congruence. Qed.

Lemma dg_addr_insert dg key record va n va' :
  ReturnTier2VirtualAddress record = Ok (Some va) →
  dg_addr (<[key := record]> dg) n va' ↔ (n = key ∧ va' = va) ∨ (n ≠ key ∧ dg_addr dg n va').
Proof.
  intros Hp. unfold dg_addr. destruct (decide (n = key)) as [->|Hn].
  - setoid_rewrite lookup_insert_eq. split.
    + intros (r & [= <-] & Hr). left. rewrite Hp in Hr. by simplify_eq.
    + intros [[_ ->]|[? _]]; [|done]. by eexists.
  - setoid_rewrite lookup_insert_ne; [|done..]. naive_solver.
Qed.

Lemma dg_addr_delete dg key n va : dg_addr (delete key dg) n va ↔ n ≠ key ∧ dg_addr dg n va.
Proof.
  unfold dg_addr. split.
  - intros (r & Hr & Hd). apply lookup_delete_Some in Hr as [??]. eauto.
  - intros (? & r & Hr & Hd). exists r. split; [|done]. by rewrite lookup_delete_ne.
Qed.

(** A fresh address for a new name keeps the invariant. *)
Lemma alloc_ok_insert t t' dg key record va :
  alloc_ok t dg → holder_ok t' →
  ReturnTier2VirtualAddress record = Ok (Some va) → - 2 ^ 31 ≤ Port va < 2 ^ 31 →
  is_Some (ParseIP (BindAddr va)) →
  (∀ k, is_Some (usedPorts t !! k) → is_Some (usedPorts t' !! k)) →
  is_Some (usedPorts t' !! VA_String va) →
  (∀ k, usedPorts t' !! ("cf-" +:+ k) = None) →
  NoDup (keys (reapedPorts t')) → (∀ x, x ∈ reapedPorts t' → x ∈ reapedPorts t) →
  VA_String va ∉ keys (reapedPorts t') →
  (∀ n va', dg_addr dg n va' → VA_String va' ≠ VA_String va) →
  alloc_ok t' (<[key := record]> dg).
Proof.
  intros [] Hho Hrec Hp Hpar Hsub Hva Hcf Hnd Hre Hnr Hne.
  assert (∀ k, k ∈ keys (reapedPorts t') → k ∈ keys (reapedPorts t)) as Hkeys.
  { intros k. unfold keys. rewrite !list_elem_of_fmap. naive_solver. }
  pose proof (λ n va', dg_addr_insert dg key record va n va' Hrec) as Hins.
  constructor; try done; try setoid_rewrite Hins.
  - intros n Hn. destruct (decide (n = key)) as [->|Hnk]; [naive_solver|].
    rewrite lookup_insert_ne in Hn by done. destruct (al_live0 n Hn) as [va' ?]. naive_solver.
  - intros n va' [[-> ->]|[? H]]; [done|]. by eapply Hsub, al_used0.
  - intros n va' [[-> ->]|[? H]]; [done|]. intros ?%Hkeys. by eapply al_fresh0.
  - intros n1 n2 va1 va2 [[-> ->]|[? H1]] [[-> ->]|[? H2]] Heq; try done.
    + exfalso. by eapply Hne.
    + exfalso. by eapply Hne.
    + by eapply al_distinct0.
  - intros x Hx. destruct (al_reaped_used0 x); [by apply Hre|]. split; [by apply Hsub|done].
  - intros n va' [[-> ->]|[? H]]; [done|]. by eapply al_ports0.
  - intros n va' [[-> ->]|[? H]]; [done|]. by eapply al_parse0.
  - intros x Hx. by apply al_reaped_parse0, Hre.
Qed.

Lemma holder_va_not_name t k : is_v4 (holderIP t) → VA_String (holder_va t) ≠ "cf-" +:+ k.
Proof.
  intros (a & b & c & d & Hip & _) Heq. unfold holder_va, VA_String in Heq. cbn [BindAddr Port] in Heq.
  rewrite Hip, IP_String_v4 in Heq. cbn [fmap list_fmap Join] in Heq.
  rewrite !sapp_assoc in Heq.
  destruct (Itoa_shape a) as ([] & x & s & Hi & Hx & _); rewrite Hi in Heq; simpl in Heq.
  - by simplify_eq.
  - injection Heq as -> _. done.
Qed.

Lemma assignAddress_ok t dg key :
  alloc_ok t dg → dg !! key = None →
  match assignAddress t dg key with
  | (t', dg', Ok (Some va)) =>
      alloc_ok t' dg' ∧ dg_addr dg' key va ∧ (∀ n va', dg_addr dg n va' → VA_String va' ≠ VA_String va)
  | (t', dg', Err _) => alloc_ok t' dg' ∧ dg' = dg
  | _ => False
  end.
Proof.
  intros Hok Hkey. unfold assignAddress. rewrite Hkey.
  destruct (reapedPorts t) as [|va l] eqn:Hr.
  - pose proof (getAvailable_search t (al_holder _ _ Hok) Hr) as Hs.
    destruct (getAvailableVirtualAddress t) as [t' [va|e|w]]; destruct Hs as (Hre & Hho & Hs); simpl in *;
      [| |done].
    + destruct Hs as (Hnone & -> & Hu). destruct (ho_port _ Hho) as [Hp1 Hp2].
      assert (- 2 ^ 31 ≤ Port (holder_va t') < 2 ^ 31) as Hp by (simpl; lia).
      assert (∀ n va', dg_addr dg n va' → VA_String va' ≠ VA_String (holder_va t')) as Hne.
      { intros n va' Ha Heq. apply (al_used _ _ Hok) in Ha. rewrite Heq, Hnone in Ha. by destruct Ha. }
      split_and!; [|rewrite dg_addr_insert by (by apply Return_Encode); naive_solver|done].
      apply (alloc_ok_insert t t' dg key _ (holder_va t')); try done;
        [by apply Return_Encode|cbn [holder_va BindAddr]; by rewrite ParseIP_String_v4 by (by destruct Hho)
        |rewrite ?Hu, ?Hre, ?Hr; try done..].
      * intros k Hk. destruct (decide (k = VA_String (holder_va t'))) as [->|]; simplify_map_eq; done.
      * by simplify_map_eq.
      * intros k. rewrite lookup_insert_ne by (apply holder_va_not_name; by destruct Hho). apply Hok.
      * constructor.
      * set_solver.
    + split; [|done]. destruct Hok. constructor; rewrite ?Hre, ?Hs; done.
  - unfold getAvailableVirtualAddress. rewrite Hr. cbv iota beta.
    pose proof (al_reaped_used _ _ Hok va ltac:(rewrite Hr; left)) as [Hu Hp].
    assert (∀ n va', dg_addr dg n va' → VA_String va' ≠ VA_String va) as Hne.
    { intros n va' Ha Heq. apply (al_fresh _ _ Hok) in Ha. apply Ha. rewrite Hr, Heq. left. }
    split_and!; [|rewrite dg_addr_insert by (by apply Return_Encode); naive_solver|done].
    pose proof (swap_remove_perm 0 va (va :: l) eq_refl) as Hperm.
    pose proof (al_reaped _ _ Hok) as Hnd. rewrite Hr in Hnd.
    assert (keys (va :: swap_remove 0 (va :: l)) ≡ₚ keys (va :: l)) as Hk by (by apply fmap_Permutation).
    rewrite <-Hk in Hnd. apply NoDup_cons in Hnd as [Hni Hnd].
    apply (alloc_ok_insert t _ dg key _ va); try done; simpl; try apply Hok.
    + destruct (al_holder _ _ Hok). by constructor.
    + by apply Return_Encode.
    + rewrite Hr. left.
    + intros x Hx. rewrite Hr, <-Hperm. by right.
Qed.

Lemma releaseAddress_ok t dg name t' dg' :
  alloc_ok t dg → releaseAddress t dg ("cf-" +:+ name) = Ok (t', dg') →
  alloc_ok t' dg' ∧ dg' = delete ("cf-" +:+ name) dg ∧ usedPorts t' = usedPorts t.
Proof.
  intros Hok. unfold releaseAddress. rewrite delete_id by apply Hok.
  replace (set_usedPorts (usedPorts t) t) with t by (by destruct t).
  destruct (dg !! _) as [record|] eqn:Hd.
  2: { intros [= <- <-]. by rewrite delete_id. }
  destruct (al_live _ _ Hok _ (mk_is_Some _ _ Hd)) as [va Ha].
  pose proof Ha as (r & Hr & Hdec). rewrite Hd in Hr. injection Hr as <-. rewrite Hdec.
  intros [= <- <-]. split_and!; [|done|done].
  destruct Hok. constructor; simpl; try setoid_rewrite dg_addr_delete; try done.
  - by destruct al_holder0.
  - intros n Hn. destruct Hn as [x Hx]. apply lookup_delete_Some in Hx as [Hne Hx].
    destruct (al_live0 n) as [v ?]; [by eexists|]. by exists v.
  - intros n v [_ ?]. by eapply al_used0.
  - intros n v [Hn H]. unfold keys. rewrite fmap_app, not_elem_of_app. simpl. split.
    + by eapply al_fresh0.
    + rewrite list_elem_of_singleton. intros Heq. by apply Hn, (al_distinct0 n _ v va).
  - intros n1 n2 va1 va2 [_ ?] [_ ?]. by apply al_distinct0.
  - unfold keys. rewrite fmap_app. apply NoDup_app. split; [done|]. split; [|apply NoDup_singleton].
    intros k Hk. simpl. rewrite list_elem_of_singleton. intros ->. by eapply al_fresh0.
  - intros x Hx. apply elem_of_app in Hx as [Hx|Hx]; [by apply al_reaped_used0|].
    apply list_elem_of_singleton in Hx as ->.
    split; [by eapply al_used0|by eapply al_ports0].
  - intros n v [_ ?]. by eapply al_ports0.
  - intros n v [_ ?]. by eapply al_parse0.
  - intros x Hx. apply elem_of_app in Hx as [Hx|Hx]; [by apply al_reaped_parse0|].
    apply list_elem_of_singleton in Hx as ->. by eapply al_parse0.
Qed.

(** ** The cached data group *)
Lemma decode_field_port acc kv :
  - 2 ^ 31 ≤ Port acc.1 < 2 ^ 31 → - 2 ^ 31 ≤ Port (decode_field acc kv).1 < 2 ^ 31.
Proof.
  destruct acc as [va ok]. simpl. intros Hp. unfold decode_field.
  repeat case_bool_decide; [destruct (kv.2); done| |done].
  destruct (kv.2) as [| |text| | |]; try done.
  destruct (parse_int32 text) as [z|] eqn:Hz; [|done]. simpl.
  unfold parse_int32 in Hz. destruct text as [|a r]; [done|].
  destruct (if byte_val a =? 45 then _ else _) as [w|]; [|done].
  destruct (_ && _) eqn:E; [|done]. apply andb_true_iff in E. injection Hz as ->. lia.
Qed.

(** A decoded port is an [int32]. *)
Lemma Return_port record va :
  ReturnTier2VirtualAddress record = Ok (Some va) → - 2 ^ 31 ≤ Port va < 2 ^ 31.
Proof.
  unfold ReturnTier2VirtualAddress. intros (s & _ & Hu)%rbind_Ok. unfold Unmarshal in Hu.
  destruct (parse_json s) as [[]|]; try done.
  assert (∀ kvs acc, - 2 ^ 31 ≤ Port acc.1 < 2 ^ 31 →
    - 2 ^ 31 ≤ Port (foldl decode_field acc kvs).1 < 2 ^ 31) as Hfold.
  { induction kvs as [|kv kvs IH]; intros acc Hp; [done|]. simpl. by apply IH, decode_field_port. }
  specialize (Hfold l (mkVA EmptyString 0, true) ltac:(simpl; lia)).
  destruct (foldl _ _ _) as [va' []]; [|done]. by injection Hu as ->.
Qed.

(** No address in text form starts like the name of a route object. *)
Lemma ParseIP_not_name k ip port :
  is_Some (ParseIP ip) → VA_String (mkVA ip port) ≠ "cf-" +:+ k.
Proof.
  intros [x Hp] Heq. unfold VA_String in Heq. cbn [BindAddr Port] in Heq.
  destruct ip as [|c1 [|c2 [|c3 ip]]].
  - by simplify_eq/=.
  - simpl in Heq. by simplify_eq.
  - simpl in Heq. by simplify_eq.
  - simpl in Heq. injection Heq as -> -> -> _. unfold ParseIP in Hp.
    destruct (ip_syntax _) as [[]|]; [discriminate Hp..|done].
Qed.

Lemma cached_loop_ok t dg records t' dg' :
  alloc_ok t dg → reapedPorts t = [] → cached_loop t dg records = Ok (t', dg') →
  alloc_ok t' dg' ∧ reapedPorts t' = [] ∧ holderPort t' = holderPort t ∧ holderIP t' = holderIP t ∧ ipNet t' = ipNet t.
Proof.
  revert t dg. induction records as [|r rs IH]; intros t dg Hok Hr; simpl.
  { intros [= <- <-]. done. }
  destruct (ReturnTier2VirtualAddress r) as [[va|]|e|w] eqn:Hd; try done; [|by apply IH].
  destruct (ParseIP (BindAddr va)) as [ip|] eqn:Hip; [|by apply IH].
  destruct (_ && _) eqn:Hc; [|by apply IH].
  apply andb_true_iff in Hc as [_ Hu]. apply negb_true_iff, bool_decide_eq_false, eq_None_not_Some in Hu.
  intros H. apply IH in H; [done| |done].
  apply (alloc_ok_insert t _ dg _ _ va); simpl; rewrite ?Hr; try done.
  - by destruct (al_holder _ _ Hok).
  - by eapply Return_port.
  - intros k Hk. destruct (decide (k = VA_String va)) as [->|]; simplify_map_eq; done.
  - by simplify_map_eq.
  - intros k. rewrite lookup_insert_ne; [apply Hok|].
    destruct va. apply ParseIP_not_name. simpl in Hip. by rewrite Hip.
  - constructor.
  - set_solver.
  - intros n va' Ha Heq. apply (al_used _ _ Hok) in Ha. rewrite Heq, Hu in Ha. by destruct Ha.
Qed.

(** ** Truncation *)
Section truncate_facts.
Context `{!MapOrder string}.

Lemma truncate_loop_spec dg names g u :
  (∀ n, is_Some (dg !! n) → ∃ va, dg_addr dg n va) →
  ∃ g' u', truncate_loop dg names (g, u) = Ok (g', u') ∧
    (∀ n, g' !! n = if decide (n ∈ names ∧ is_Some (dg !! n)) then dg !! n else g !! n) ∧
    (∀ k, is_Some (u' !! k) ↔
       is_Some (u !! k) ∨ ∃ n va, n ∈ names ∧ dg_addr dg n va ∧ k = VA_String va).
Proof.
  intros Hlive. revert g u. induction names as [|n0 names IH]; intros g u; cbn [truncate_loop fst snd].
  { exists g, u. split_and!; [done| |].
    - intros n. rewrite decide_False by set_solver. done.
    - intros k. split; [by left|]. intros [?|(n & va & Hn & _)]; [done|set_solver]. }
  destruct (dg !! n0) as [record|] eqn:Hd.
  - destruct (Hlive n0) as [va Ha]; [by eexists|].
    pose proof Ha as (r & Hr & Hdec). rewrite Hd in Hr. injection Hr as <-. rewrite Hdec.
    destruct (IH (<[n0:=record]> g) (<[VA_String va:=va]> u)) as (g' & u' & -> & Hg & Hu).
    exists g', u'. split_and!; [done| |].
    + intros n. rewrite Hg. destruct (decide (n = n0)) as [->|Hn].
      * rewrite (decide_True (P := n0 ∈ n0 :: names ∧ _)) by (rewrite Hd; split; [left|eauto]).
        case_decide; [done|]. by rewrite lookup_insert_eq.
      * rewrite lookup_insert_ne by done. repeat case_decide; set_solver.
    + intros k. rewrite Hu. setoid_rewrite elem_of_cons. split.
      * intros [Hk|?]; [|naive_solver].
        destruct (decide (k = VA_String va)) as [->|]; [naive_solver|]. simplify_map_eq. by left.
      * intros [Hk|(n & va' & [->|Hn] & Ha' & ->)].
        -- left. destruct (decide (k = VA_String va)) as [->|]; simplify_map_eq; eauto.
        -- left. rewrite (dg_addr_det _ _ _ _ Ha' Ha). simplify_map_eq. eauto.
        -- right. eauto.
  - destruct (IH g u) as (g' & u' & -> & Hg & Hu). exists g', u'. split_and!; [done| |].
    + intros n. rewrite Hg. destruct (decide (n = n0)) as [->|Hn].
      * rewrite Hd. repeat case_decide; try done; naive_solver.
      * repeat case_decide; set_solver.
    + intros k. rewrite Hu. setoid_rewrite elem_of_cons. split; [naive_solver|].
      intros [?|(n & va & [->|Hn] & Ha & ->)]; [by left| |naive_solver].
      destruct Ha as (r & Hr & _). congruence.
Qed.

(** What truncation does, given records that decode. *)
Lemma truncate_spec {V} (vs : gmap string V) dg t :
  (∀ n, is_Some (dg !! n) → ∃ va, dg_addr dg n va) →
  ∃ t' dg', truncateInternalDataGroup vs dg t = Ok (t', dg') ∧
    (∀ n, dg' !! n = if decide (is_Some (vs !! n)) then dg !! n else None) ∧
    (∀ k, is_Some (usedPorts t' !! k) ↔ ∃ n va, dg_addr dg' n va ∧ k = VA_String va) ∧
    (∃ l, reapedPorts t' = reapedPorts t ++ l ∧
       ∀ va, va ∈ l ↔ ∃ k, usedPorts t !! k = Some va ∧ usedPorts t' !! k = None) ∧
    holderPort t' = holderPort t ∧ holderIP t' = holderIP t ∧ ipNet t' = ipNet t.
Proof.
  intros Hlive. unfold truncateInternalDataGroup.
  assert (∀ n, n ∈ (go_range vs).*1 ↔ is_Some (vs !! n)) as Hnames.
  { intros n. rewrite list_elem_of_fmap. split.
    - intros ([n' v] & -> & Hv). apply elem_of_go_range in Hv. simpl. by rewrite Hv.
    - intros [v Hv]. exists (n, v). split; [done|]. by apply elem_of_go_range. }
  destruct (truncate_loop_spec dg (go_range vs).*1 ∅ ∅ Hlive) as (g' & u' & -> & Hg & Hu).
  cbn [rbind]. eexists _, g'. split; [done|]. cbn [usedPorts reapedPorts holderPort holderIP ipNet set_usedPorts set_reapedPorts].
  assert (∀ n, g' !! n = if decide (is_Some (vs !! n)) then dg !! n else None) as Hg'.
  { intros n. rewrite Hg, lookup_empty. specialize (Hnames n).
    case_decide; case_decide; try done; [naive_solver|].
    destruct (dg !! n); [|done]. naive_solver. }
  split_and!; [done| | |done..].
  - intros k. rewrite Hu, lookup_empty. split.
    + intros [[? [=]]|(n & va & Hn & (r & Hr & Hdec) & ->)]. exists n, va. split; [|done].
      exists r. split; [|done]. rewrite Hg', decide_True; [done|by apply Hnames].
    + intros (n & va & (r & Hr & Hdec) & ->). right. rewrite Hg' in Hr. case_decide as Hn; [|done].
      exists n, va. split_and!; [by apply Hnames| |done]. by exists r.
  - eexists. split; [done|]. intros va. rewrite list_elem_of_omap. split.
    + intros ([k v] & Hkv & Hif). apply elem_of_go_range in Hkv. simpl in Hif.
      case_bool_decide as Hs; [done|]. simplify_eq. exists k. split; [done|]. by apply eq_None_not_Some.
    + intros (k & Hk & Hn). exists (k, va). split; [by apply elem_of_go_range|]. simpl.
      rewrite bool_decide_eq_false_2; [done|]. by apply eq_None_not_Some.
Qed.

(** When every address in use belongs to an existing virtual server,
    truncation reaps nothing and the invariant is kept. *)
Lemma truncate_ok {V} (vs : gmap string V) dg t t' dg' :
  alloc_ok t dg →
  (∀ n, is_Some (dg !! n) → is_Some (vs !! n)) →
  (∀ k, is_Some (usedPorts t !! k) → ∃ n va, dg_addr dg n va ∧ k = VA_String va) →
  truncateInternalDataGroup vs dg t = Ok (t', dg') →
  alloc_ok t' dg' ∧ dg' = dg ∧ reapedPorts t' = reapedPorts t.
Proof.
  intros Hok Hvs Hused Ht.
  destruct (truncate_spec vs dg t (al_live _ _ Hok)) as (t1 & g1 & Ht1 & Hg & Hu & (l & Hl & Hlin) & Hh).
  rewrite Ht in Ht1. injection Ht1 as <- <-.
  assert (dg' = dg) as ->.
  { apply map_eq. intros n. rewrite Hg. case_decide as Hn; [done|].
    destruct (dg !! n) eqn:E; [|done]. destruct Hn. apply Hvs. by rewrite E. }
  assert (∀ k, is_Some (usedPorts t' !! k) ↔ is_Some (usedPorts t !! k)) as Huu.
  { intros k. rewrite Hu. split; [|apply Hused]. intros (n & va & Ha & ->). by apply (al_used _ _ Hok n). }
  assert (l = []) as ->.
  { destruct l as [|va l]; [done|]. destruct (proj1 (Hlin va) ltac:(left)) as (k & Hk & Hn).
    apply eq_None_not_Some in Hn. destruct Hn. apply Huu. by rewrite Hk. }
  rewrite app_nil_r in Hl. split_and!; [|done|done].
  destruct Hh as (Hp & Hi & Hn). destruct Hok. destruct al_holder0. constructor; rewrite ?Hl; try done.
  - constructor; by rewrite ?Hp, ?Hi, ?Hn.
  - intros n va ?. apply Huu. by eapply al_used0.
  - intros va ?. rewrite Huu. by apply al_reaped_used0.
  - intros k. apply eq_None_not_Some. rewrite Huu. apply eq_None_not_Some. by apply al_names0.
Qed.
End truncate_facts.

Lemma alloc_ok_empty ip net : is_v4 ip → net_v4 net → alloc_ok (mkTier2 ∅ [] 10000 ip net) ∅.
Proof.
  intros. assert (∀ n va, ¬ dg_addr ∅ n va) as Hno by (intros n va (? & ? & _); done).
  constructor; simpl.
  - constructor; simpl; [done|done|lia].
  - intros n [? Hn]. done.
  - intros n va Ha. by destruct (Hno n va).
  - intros n va Ha. by destruct (Hno n va).
  - intros n1 n2 va1 va2 Ha. by destruct (Hno n1 va1).
  - constructor.
  - intros va Hva. set_solver.
  - intros n va Ha. by destruct (Hno n va).
  - done.
  - intros n va Ha. by destruct (Hno n va).
  - intros va Hva. set_solver.
Qed.

(** ** Properties *)

(** C29. The search for an address, on an IPv4 range, terminates within its
    fuel.  A reaped address is handed out first.  Without one the search
    returns the first address that is not in use, in the order of addresses
    and ports from the holder on, and registers it; it reports exhaustion
    only when every address it looks at is in use, and then registers
    nothing.  It looks at the rest of the holder's ports and at the ports from
    10001 of each later address of the range, not at port 10000 of these, and
    not at addresses behind the holder. *)
Theorem tier2_search_terminates t :
  holder_ok t →
  match reapedPorts t with
  | va :: _ => ∃ t', getAvailableVirtualAddress t = (t', Ok va) ∧ usedPorts t' = usedPorts t ∧
      va :: reapedPorts t' ≡ₚ reapedPorts t
  | [] => search_result t (getAvailableVirtualAddress t) ∧ search_first t (getAvailableVirtualAddress t)
  end.
Proof.
  intros Hok. destruct (reapedPorts t) as [|va l] eqn:Hr.
  - split; [by apply getAvailable_search|by apply getAvailable_first].
  - unfold getAvailableVirtualAddress. rewrite Hr. eexists. split; [done|]. split; [done|]. by apply swap_remove_perm.
Qed.

(** An allocator at the start of a /30 range, for the witnesses. *)
Definition demo_net : IPNet := mkIPNet [172; 0; 0; 0] [255; 255; 255; 252].
Definition demo_tier2 : tier2VSInfo := mkTier2 ∅ [] 10000 (v4InV6Prefix ++ [172; 0; 0; 0]) demo_net.

Lemma demo_alloc_ok : alloc_ok demo_tier2 ∅.
Proof.
  apply alloc_ok_empty.
  - exists 172, 0, 0, 0. split; [reflexivity|]. repeat constructor; lia.
  - exists [172; 0; 0; 0], [255; 255; 255; 252]. split; reflexivity.
Qed.

(** With the first address in use the next port is found. *)
Lemma tier2_search_terminates_witness :
  let t := set_usedPorts {["172.0.0.0:10000" := mkVA "172.0.0.0" 10000]} demo_tier2 in
  search_first t (getAvailableVirtualAddress t) ∧ (getAvailableVirtualAddress t).2 = Ok (mkVA "172.0.0.0" 10001).
Proof.
  intros t. split; [|vm_compute; reflexivity].
  exact (proj2 (tier2_search_terminates t ltac:(destruct (al_holder _ _ demo_alloc_ok); by constructor))).
Defined.

(** A new virtual server gets an address that no recorded virtual server
    has, recorded under its name; when the range is exhausted the data group
    is unchanged.  Addresses stay pairwise distinct and registered. *)
Theorem tier2_assign_fresh t dg key :
  alloc_ok t dg → dg !! key = None →
  match assignAddress t dg key with
  | (t', dg', Ok (Some va)) =>
      alloc_ok t' dg' ∧ dg_addr dg' key va ∧ (∀ n va', dg_addr dg n va' → VA_String va' ≠ VA_String va)
  | (t', dg', Err _) => alloc_ok t' dg' ∧ dg' = dg
  | _ => False
  end.
Proof. apply assignAddress_ok. Qed.

Lemma tier2_assign_fresh_witness :
  alloc_ok (assignAddress demo_tier2 ∅ "cf-a").1.1 (assignAddress demo_tier2 ∅ "cf-a").1.2.
Proof.
  pose proof (tier2_assign_fresh demo_tier2 ∅ "cf-a" demo_alloc_ok eq_refl) as H.
  destruct (assignAddress demo_tier2 ∅ "cf-a") as [[t dg] [[va|]|e|w]] eqn:E;
    [exact (proj1 H)|destruct H|exact (proj1 H)|destruct H].
Defined.

(** Releasing the address of a removed route keeps the addresses of the
    others, makes the address available for reuse and keeps the allocator
    consistent. *)
Theorem tier2_release t dg name va :
  alloc_ok t dg → dg_addr dg ("cf-" +:+ name) va →
  ∃ t', releaseAddress t dg ("cf-" +:+ name) = Ok (t', delete ("cf-" +:+ name) dg) ∧
    alloc_ok t' (delete ("cf-" +:+ name) dg) ∧ reapedPorts t' = reapedPorts t ++ [va].
Proof.
  intros Hok (record & Hr & Hd).
  assert (releaseAddress t dg ("cf-" +:+ name) =
    Ok (set_reapedPorts (reapedPorts t ++ [va]) (set_usedPorts (delete ("cf-" +:+ name) (usedPorts t)) t),
        delete ("cf-" +:+ name) dg)) as Hx by (unfold releaseAddress; rewrite Hr, Hd; reflexivity).
  eexists. split; [exact Hx|]. split; [|done]. by destruct (releaseAddress_ok _ _ _ _ _ Hok Hx).
Qed.

Lemma tier2_release_witness :
  ∃ t' dg', releaseAddress (assignAddress demo_tier2 ∅ "cf-a").1.1 (assignAddress demo_tier2 ∅ "cf-a").1.2
              ("cf-" +:+ "a") = Ok (t', dg') ∧ reapedPorts t' = [mkVA "172.0.0.0" 10000].
Proof.
  destruct (tier2_release (assignAddress demo_tier2 ∅ "cf-a").1.1 (assignAddress demo_tier2 ∅ "cf-a").1.2
              "a" (mkVA "172.0.0.0" 10000)) as (t' & H1 & _ & H2).
  - pose proof (assignAddress_ok demo_tier2 ∅ "cf-a" demo_alloc_ok eq_refl) as H.
    destruct (assignAddress demo_tier2 ∅ "cf-a") as [[t dg] [[va|]|e|w]] eqn:E;
      [exact (proj1 H)|destruct H|exact (proj1 H)|destruct H].
  - exists (mkRecord "cf-a" (Encode (mkVA "172.0.0.0" 10000))). split; vm_compute; reflexivity.
  - eexists t', _. split; [exact H1|]. rewrite H2. vm_compute. reflexivity.
Defined.

(** Restoring the cached data group at start-up yields a consistent
    allocator: the kept records have pairwise distinct addresses in the
    range, all registered as in use. *)
Theorem tier2_cached_consistent t records t' dg' :
  alloc_ok t ∅ → reapedPorts t = [] → processCachedDataGroup t records = Ok (t', dg') →
  alloc_ok t' dg' ∧ reapedPorts t' = [] ∧ holderPort t' = holderPort t ∧ holderIP t' = holderIP t.
Proof.
  intros Hok Hr H. destruct (cached_loop_ok t ∅ _ t' dg' Hok Hr H) as (? & ? & ? & ? & _). done.
Qed.

Definition demo_records : InternalDataGroup :=
  mkDataGroup "cf-ctlr-data-group"
    [mkRecord "cf-a" (Encode (mkVA "172.0.0.1" 10000)); mkRecord "cf-b" (Encode (mkVA "10.9.9.9" 1))].

Lemma tier2_cached_consistent_witness :
  ∃ t' dg', processCachedDataGroup demo_tier2 demo_records = Ok (t', dg') ∧ alloc_ok t' dg' ∧ dg' !! "cf-b" = None.
Proof.
  assert (match processCachedDataGroup demo_tier2 demo_records with
          | Ok (_, dg') => dg' !! "cf-b" = None | _ => False end) as Hb by (vm_compute; reflexivity).
  destruct (processCachedDataGroup demo_tier2 demo_records) as [[t' dg']|e|w] eqn:E; [|destruct Hb..].
  exists t', dg'. split; [reflexivity|]. split; [|exact Hb].
  exact (proj1 (tier2_cached_consistent demo_tier2 demo_records t' dg' demo_alloc_ok eq_refl E)).
Defined.

(** Truncation after the first drain keeps exactly the records of
    existing virtual servers, registers exactly their addresses, and appends
    to the reaped addresses exactly those that lost their registration. *)
Theorem tier2_truncate_exact `{!MapOrder string} (vs : gmap string Virtual) dg t :
  (∀ n, is_Some (dg !! n) → ∃ va, dg_addr dg n va) →
  ∃ t' dg', truncateInternalDataGroup vs dg t = Ok (t', dg') ∧
    (∀ n, dg' !! n = if decide (is_Some (vs !! n)) then dg !! n else None) ∧
    (∀ k, is_Some (usedPorts t' !! k) ↔ ∃ n va, dg_addr dg' n va ∧ k = VA_String va) ∧
    (∃ l, reapedPorts t' = reapedPorts t ++ l ∧
       ∀ va, va ∈ l ↔ ∃ k, usedPorts t !! k = Some va ∧ usedPorts t' !! k = None).
Proof.
  intros Hl. destruct (truncate_spec vs dg t Hl) as (t' & dg' & H1 & H2 & H3 & H4 & _).
  exists t', dg'. done.
Qed.

Lemma tier2_truncate_exact_witness :
  ∃ t' dg', truncateInternalDataGroup (∅ : gmap string Virtual) ∅ demo_tier2 = Ok (t', dg') ∧
            reapedPorts t' = [].
Proof.
  destruct (tier2_truncate_exact (∅ : gmap string Virtual) ∅ demo_tier2) as (t' & dg' & H & _).
  - intros n [x Hx]. discriminate Hx.
  - exists t', dg'. split; [exact H|].
    assert (match truncateInternalDataGroup (∅ : gmap string Virtual) ∅ demo_tier2 with
            | Ok (t1, _) => reapedPorts t1 = [] | _ => False end) as Hr by reflexivity.
    rewrite H in Hr. exact Hr.
Defined.

(** ** What the allocator loses

    The first port of every address after the first is skipped: the loop
    does not look the address up again after moving to the next IP. *)
Definition full_ip : tier2VSInfo :=
  mkTier2 {["172.0.0.0:65535" := mkVA "172.0.0.0" 65535]} [] 65535 (v4InV6Prefix ++ [172; 0; 0; 0]) demo_net.

Example next_ip_skips_first_port :
  (getAvailableVirtualAddress full_ip).2 = Ok (mkVA "172.0.0.1" 10001).
Proof. vm_compute. reflexivity. Qed.
