(* ===== verification/Alloc.v ===== *)
(** What the router relies on in the allocator of tier-2 addresses
    (f5router/f5router.go), as an interface, and the two invariants that
    satisfy it.

    [alloc_ok] of Tier2.v says that addresses are never shared.  It needs a
    start without stale records and no removal before the first drain (see
    RouterLimits.v).  [alloc_live] is weaker and holds in every run: every
    record can be decoded, and every address at hand can be written into a
    destination, so that no handler fails because of the allocator. *)
From stdpp Require Import base list gmap strings.
From Stdlib Require Import Ascii ZArith Lia.
From S2P Require Import Prelude GoStrings GoNet Resources Codec Updates Tier2.
Import bigipResources.
Local Open Scope Z_scope.

Class AllocInv (I : tier2VSInfo → DataGroup → Prop) := {
  ai_live t dg n : I t dg → is_Some (dg !! n) → ∃ va, dg_addr dg n va;
  ai_parse t dg n va : I t dg → dg_addr dg n va → is_Some (ParseIP (BindAddr va));
  ai_assign t dg key : I t dg → dg !! key = None →
    match assignAddress t dg key with
    | (t', dg', Ok (Some va)) => I t' dg' ∧ dg_addr dg' key va
    | (t', dg', Err _) => I t' dg' ∧ dg' = dg
    | _ => False
    end;
  ai_release t dg name t' dg' :
    I t dg → releaseAddress t dg ("cf-" +:+ name) = Ok (t', dg') → I t' dg' ∧ dg' = delete ("cf-" +:+ name) dg
}.

#[global] Instance alloc_ok_inv : AllocInv alloc_ok.
Proof.
  split.
  - intros t dg n Hok. by apply al_live with (t := t).
  - intros t dg n va Hok. by eapply al_parse.
  - intros t dg key Hok Hk. pose proof (assignAddress_ok t dg key Hok Hk) as H. repeat case_match; naive_solver.
  - intros t dg name t' dg' Hok H. by destruct (releaseAddress_ok _ _ _ _ _ Hok H) as (? & ? & _).
Qed.

(** An address that survives its encoding and makes a destination. *)
Definition usable (va : VirtualAddress) : Prop := - 2 ^ 31 ≤ Port va < 2 ^ 31 ∧ is_Some (ParseIP (BindAddr va)).

Record alloc_live (t : tier2VSInfo) (dg : DataGroup) : Prop := {
  lv_holder : holder_ok t;
  lv_records : ∀ n, is_Some (dg !! n) → ∃ va, dg_addr dg n va;
  lv_parse : ∀ n va, dg_addr dg n va → is_Some (ParseIP (BindAddr va));
  lv_reaped : Forall usable (reapedPorts t);
  lv_used : map_Forall (λ _, usable) (usedPorts t)
}.

Lemma dg_addr_usable t dg n va : alloc_live t dg → dg_addr dg n va → usable va.
Proof.
  intros Hl Ha. split; [|by eapply lv_parse]. destruct Ha as (r & _ & Hr). by eapply Return_port.
Qed.

Lemma holder_usable t : holder_ok t → usable (holder_va t).
Proof.
  intros [Hv _ Hp]. split; cbn; [lia|]. by rewrite ParseIP_String_v4.
Qed.

(** A new record. *)
Lemma live_insert t t' dg key va :
  alloc_live t dg → usable va → holder_ok t' → Forall usable (reapedPorts t') → map_Forall (λ _, usable) (usedPorts t') →
  alloc_live t' (<[key := mkRecord key (Encode va)]> dg) ∧ dg_addr (<[key := mkRecord key (Encode va)]> dg) key va.
Proof.
  intros Hl [Hp Hva] Hh Hr Hu. pose proof (Return_Encode key va Hp) as Hdec.
  split; [|rewrite dg_addr_insert by done; by left]. constructor; try done.
  - intros n Hn. destruct (decide (n = key)) as [->|Hne]; [exists va; rewrite dg_addr_insert by done; by left|].
    rewrite lookup_insert_ne in Hn by done. destruct (lv_records _ _ Hl n Hn) as [va' Ha].
    exists va'. rewrite dg_addr_insert by done. by right.
  - intros n va'. rewrite dg_addr_insert by done. intros [[-> ->]|[_ ?]]; [done|by eapply lv_parse].
Qed.

Lemma live_assign t dg key :
  alloc_live t dg → dg !! key = None →
  match assignAddress t dg key with
  | (t', dg', Ok (Some va)) => alloc_live t' dg' ∧ dg_addr dg' key va
  | (t', dg', Err _) => alloc_live t' dg' ∧ dg' = dg
  | _ => False
  end.
Proof.
  intros Hl Hk. pose proof Hl as [Hh Hrec Hpa Hre Hus]. unfold assignAddress. rewrite Hk.
  destruct (reapedPorts t) as [|va l] eqn:Er.
  - pose proof (getAvailable_search t Hh Er) as Hs.
    destruct (getAvailableVirtualAddress t) as [t' [va|e|w]]; destruct Hs as (Hre' & Hho & Hs); cbn in *; [| |done].
    + destruct Hs as (_ & -> & Hu). pose proof (holder_usable t' Hho) as Huse.
      apply (live_insert t t'); try done; [by rewrite Hre', Er|].
      rewrite Hu. by apply map_Forall_insert_2.
    + split; [|done]. constructor; try done; [by rewrite Hre', Er|by rewrite Hs].
  - unfold getAvailableVirtualAddress. rewrite Er. cbv iota beta.
    pose proof (swap_remove_perm 0 va (va :: l) eq_refl) as Hperm. rewrite <-Hperm in Hre.
    apply Forall_cons in Hre as [Hva Hre]. apply (live_insert t); try done. by destruct Hh.
Qed.

Lemma live_release t dg name t' dg' :
  alloc_live t dg → releaseAddress t dg ("cf-" +:+ name) = Ok (t', dg') →
  alloc_live t' dg' ∧ dg' = delete ("cf-" +:+ name) dg.
Proof.
  intros Hl. pose proof Hl as [[] Hrec Hpa Hre Hus]. unfold releaseAddress. set (key := "cf-" +:+ name).
  assert (∀ l, Forall usable l →
    alloc_live (set_reapedPorts l (set_usedPorts (delete key (usedPorts t)) t)) (delete key dg)) as Hlive.
  { intros l Hf. constructor; cbn; [done| | |done|by apply map_Forall_delete].
    - intros n [x [Hne Hx]%lookup_delete_Some]. destruct (Hrec n) as [va Ha]; [by eexists|].
      exists va. by rewrite dg_addr_delete.
    - intros n va [_ Ha]%dg_addr_delete. by eapply Hpa. }
  destruct (dg !! key) as [record|] eqn:Hd.
  - destruct (Hrec key) as [va Ha]; [by eexists|]. pose proof Ha as (r & Hr & Hdec).
    rewrite Hd in Hr. injection Hr as <-. rewrite Hdec. intros [= <- <-]. split; [|done]. apply Hlive.
    apply Forall_app. split; [done|]. constructor; [|constructor]. by eapply dg_addr_usable.
  - intros [= <- <-]. split; [|by rewrite delete_id]. rewrite <-(delete_id dg key) by done. by apply (Hlive (reapedPorts t)).
Qed.

#[global] Instance alloc_live_inv : AllocInv alloc_live.
Proof.
  split.
  - intros t dg n Hl. by apply (lv_records t).
  - intros t dg n va Hl. by eapply lv_parse.
  - apply live_assign.
  - apply live_release.
Qed.

(** The addresses kept by the truncation are those of records. *)
Lemma truncate_loop_values dg names : ∀ acc g' u',
  truncate_loop dg names acc = Ok (g', u') →
  ∀ k va, u' !! k = Some va → acc.2 !! k = Some va ∨ ∃ n, dg_addr dg n va.
Proof.
  induction names as [|n names IH]; intros [g u] g' u'; cbn [truncate_loop fst snd].
  { intros [= <- <-] k va ?. by left. }
  destruct (dg !! n) as [record|] eqn:Hd; [|by apply IH].
  destruct (ReturnTier2VirtualAddress record) as [[va0|]|e|w] eqn:Hr; try done; [|by apply IH].
  intros H k va Hk. destruct (IH _ _ _ H k va Hk) as [Hi|?]; [|by right]. cbn in Hi.
  apply lookup_insert_Some in Hi as [[_ <-]|[_ ?]]; [right; exists n; by exists record|by left].
Qed.

Lemma live_truncate `{!MapOrder string} {V} (vs : gmap string V) dg t :
  alloc_live t dg → ∃ t' dg', truncateInternalDataGroup vs dg t = Ok (t', dg') ∧ alloc_live t' dg' ∧
    ∀ n, dg' !! n = if decide (is_Some (vs !! n)) then dg !! n else None.
Proof.
  intros Hl. destruct (truncate_spec vs dg t (lv_records _ _ Hl)) as (t' & dg' & Ht & Hg & _ & (l & Hre & Hin) & Hp & Hi & Hn).
  exists t', dg'. split; [done|]. split; [|done].
  assert (∀ n va, dg_addr dg' n va → dg_addr dg n va) as Hsub.
  { intros n va (r & Hr & Hdec). exists r. split; [|done]. rewrite Hg in Hr. by case_decide. }
  pose proof (lv_holder _ _ Hl) as [Hv4 Hnet Hport]. constructor.
  - constructor; by rewrite ?Hp, ?Hi, ?Hn.
  - intros n Hs. rewrite Hg in Hs. case_decide as Hd; [|by destruct Hs]. destruct (lv_records _ _ Hl n Hs) as [va (r & Hr & Hdec)].
    exists va, r. by rewrite Hg, decide_True.
  - intros n va Ha. by eapply (lv_parse _ _ Hl), Hsub.
  - rewrite Hre. apply Forall_app. split; [apply Hl|]. apply Forall_forall. intros va (k & Hk & _)%Hin.
    by apply (lv_used _ _ Hl k).
  - unfold truncateInternalDataGroup in Ht. apply rbind_Ok in Ht as ([g u] & Hloop & [= <- <-]). cbn.
    intros k va Hk. destruct (truncate_loop_values _ _ _ _ _ Hloop k va Hk) as [H|[n Ha]]; [done|].
    by eapply dg_addr_usable.
Qed.

(** The records found at the start. *)
Lemma live_cached t dg records t' dg' :
  alloc_live t dg → cached_loop t dg records = Ok (t', dg') → alloc_live t' dg'.
Proof.
  revert t dg. induction records as [|r rs IH]; intros t dg Hl; cbn [cached_loop]; [by intros [= <- <-]|].
  destruct (ReturnTier2VirtualAddress r) as [[va|]|e|w] eqn:Hd; try done; [|by apply IH].
  destruct (ParseIP (BindAddr va)) as [ip|] eqn:Hip; [|by apply IH].
  destruct (_ && _) eqn:Hc; [|by apply IH]. apply IH.
  assert (usable va) as Hva by (split; [by eapply Return_port|by rewrite Hip]).
  destruct Hl as [[] Hrec Hpa Hre Hus]. constructor; cbn; [done| | |done|by apply map_Forall_insert_2].
  - intros n Hn. destruct (decide (n = RecName r)) as [->|Hne]; [exists va; rewrite dg_addr_insert by done; by left|].
    rewrite lookup_insert_ne in Hn by done. destruct (Hrec n Hn) as [va' Ha].
    exists va'. rewrite dg_addr_insert by done. by right.
  - intros n va'. rewrite dg_addr_insert by done. intros [[-> ->]|[_ ?]]; [by rewrite Hip|by eapply Hpa].
Qed.

Lemma live_empty ip net : is_v4 ip → net_v4 net → alloc_live (mkTier2 ∅ [] 10000 ip net) ∅.
Proof.
  intros. constructor; cbn; [constructor; cbn; [done|done|lia]| | |constructor|apply map_Forall_empty].
  - intros n [? Hn]. done.
  - intros n va (? & ? & _). done.
Qed.
