(* ===== verification/Policy.v ===== *)
(** The routing policy: [makeRouteRule] and [makeRoutePolicy] of
    [src/f5router/f5router.go].

    A rule map may hold a nil rule: [addRule] stores the result of
    [makeRouteRule] even when it failed.  The two goroutines of
    [makeRoutePolicy] work on different maps and slices and are joined before
    the results are used, so they are run one after the other here.
    [sort.Sort] is any sort; the order it gives is determined because the
    URIs of the rules differ ([sortRules_unique]). *)
From stdpp Require Import base list gmap strings sorting.
From Stdlib Require Import Ascii ZArith Lia.
From S2P Require Import Prelude GoStrings Uri Pool Config Resources Codec GoUrl Updates.
Import bigipResources.
Local Open Scope Z_scope.

Abbreviation RuleMap := (gmap string (option Rule)) (only parsing).

(** ** makeRouteRule *)
Definition hostCondition (equals startsWith endsWith : bool) (i : Z) (v : string) : Condition :=
  mkCondition equals startsWith endsWith true true false false (Itoa i) i true [v].

Definition segmentCondition (i : Z) (v : string) : Condition :=
  mkCondition true false false false false true true (Itoa i) i true [v].

(** Conditions of a wildcard route.  [splits[numSplits-1]] is out of range
    when the host has no wildcard. *)
Definition wildcardConditions (host : string) : result (list Condition) :=
  let splits := Split "*" host in
  match splits with
  | [] => Panic "index out of range"
  | s0 :: rest =>
      let '(c1, ruleIndex, splits') :=
        if HasPrefix host s0 then
          if bool_decide (s0 = EmptyString) then ([], 0, rest)
          else ([hostCondition false true false 0 s0], 1, rest)
        else ([], 0, splits) in
      match last splits' with
      | None => Panic "index out of range"
      | Some e =>
          if HasSuffix host e && negb (bool_decide (e = EmptyString))
          then Ok (c1 ++ [hostCondition false false true ruleIndex e])
          else Ok c1
      end
  end.

Definition exactConditions (u : Url) : list Condition :=
  hostCondition true false false 0 (u_host u) ::
  (if bool_decide (EscapedPath u = EmptyString) then []
   else imap (λ i v, segmentCondition (Z.of_nat i + 1) v) (Split "/" (TrimPrefix (EscapedPath u) "/"))).

Definition makeRouteRule (ru : updateHTTP) : result Rule :=
  let uriString := Uri_String (hu_uri ru) in
  let _u := trim_suffix "/" ("scheme://" +:+ uriString) in
  rbind (Parse_rest (TrimPrefix _u "scheme:")) (λ u,
  rbind (if contains_char "*" uriString then wildcardConditions (u_host u)
         else Ok (exactConditions u)) (λ c,
  rbind (AppID ru) (λ appID,
  let a := mkAction false "0" EmptyString true (hu_name ru) "target_vip" true true in
  Ok (mkRule uriString [a] c (hu_name ru) 0 (makeDescription uriString appID))))).

(** ** makeRoutePolicy *)
Section policy.
Context `{!MapOrder string}.

(** Rules with the key they are stored under, in descending order of URI. *)
Definition rule_ge : relation (string * Rule) := λ x y, String.le (FullURI y.2) (FullURI x.2).

#[global] Instance rule_ge_dec : RelDecision rule_ge.
Proof. intros x y. unfold rule_ge. apply _. Defined.

(** The non-nil rules of a map; [None] when there is a nil rule, which the
    sorting or the numbering dereferences. *)
Definition live_rules (m : RuleMap) : option (list (string * Rule)) :=
  mapM (λ kv, pair kv.1 <$> kv.2) (go_range m).

(** [sortRules]: sort and number from [ordinal] on. *)
Definition sortRules (m : RuleMap) (ordinal : Z) : result (list (string * Rule)) :=
  match live_rules m with
  | None => Panic "invalid memory address or nil pointer dereference"
  | Some rls =>
      Ok (imap (λ i kr, (kr.1, set_Ordinal (ordinal + Z.of_nat i) kr.2)) (merge_sort rule_ge rls))
  end.

(** The numbers are written through the pointers the map holds. *)
Definition write_back (m : RuleMap) (rls : list (string * Rule)) : RuleMap :=
  foldr (λ kr m, <[kr.1 := Some kr.2]> m) m rls.

(** The policy and the two maps afterwards. *)
Definition makeRoutePolicy (r wildcards : RuleMap) (policyName : string)
  : result (Policy * RuleMap * RuleMap) :=
  rbind (sortRules r 0) (λ rls,
  rbind (sortRules wildcards (Z.of_nat (size r))) (λ w,
  Ok (mkPolicy ["forwarding"] EmptyString true policyName ["http"] (rls.*2 ++ w.*2) "/Common/first-match",
      write_back r rls, write_back wildcards w))).
End policy.

(** ** Order and numbering of the rules *)
Lemma string_leb_app s t : String.le s (s +:+ t).
Proof.
  induction s as [|a s IH]; [by destruct t|].
  unfold String.le, String.leb in *. rewrite sapp_cons. cbn [String.compare].
  unfold Ascii.compare. rewrite N.compare_refl. done.
Qed.

#[global] Instance rule_ge_trans : Transitive rule_ge.
Proof. intros x y z Hxy Hyz. unfold rule_ge in *. by etrans. Qed.

#[global] Instance rule_ge_total : Total rule_ge.
Proof. intros x y. unfold rule_ge. apply (total String.le). Qed.

(** A rule up to its number. *)
Definition unnumbered (rl : Rule) : Rule := set_Ordinal 0 rl.

Section policy_facts.
Context `{!MapOrder string}.

Lemma live_rules_Some (m : RuleMap) rls :
  live_rules m = Some rls →
  ∀ k rl, (k, rl) ∈ rls ↔ m !! k = Some (Some rl).
Proof.
  unfold live_rules. intros H k rl. rewrite <-elem_of_go_range.
  apply mapM_Some in H. induction H as [|[k0 o] [k1 rl1] l l' H HF IH]; [set_solver|].
  simpl in H. destruct o as [rl0|]; simplify_eq/=. rewrite !elem_of_cons, IH. naive_solver.
Qed.

(** Sorting succeeds exactly when no rule is nil. *)
Lemma sortRules_Ok (m : RuleMap) o :
  (∃ l, sortRules m o = Ok l) ↔ ∀ k x, m !! k = Some x → is_Some x.
Proof.
  unfold sortRules. split.
  - intros [l H] k x Hx. destruct (live_rules m) as [rls|] eqn:E; [|done]. clear H.
    unfold live_rules in E. apply mapM_Some in E. apply elem_of_go_range in Hx.
    apply list_elem_of_lookup in Hx as [i Hi].
    eapply Forall2_lookup_l in E as (y & _ & Hy); [|done]. simpl in Hy. destruct x; [done|done].
  - intros H. destruct (live_rules m) as [rls|] eqn:E; [by eexists|]. exfalso.
    assert (is_Some (live_rules m)) as [? ?]; [|congruence].
    apply mapM_is_Some_2, Forall_forall. intros [k x] Hk. apply elem_of_go_range in Hk.
    destruct (H k x Hk) as [y ->]. simpl. eauto.
Qed.

Lemma sortRules_spec (m : RuleMap) o l :
  sortRules m o = Ok l →
  StronglySorted rule_ge l ∧
  length l = size m ∧
  (∀ i k rl, l !! i = Some (k, rl) → Ordinal rl = o + Z.of_nat i) ∧
  (∀ k rl, m !! k = Some (Some rl) → ∃ i, l !! i = Some (k, set_Ordinal (o + Z.of_nat i) rl)) ∧
  (∀ i k rl, l !! i = Some (k, rl) → ∃ rl0, m !! k = Some (Some rl0) ∧ rl = set_Ordinal (Ordinal rl) rl0).
Proof.
  unfold sortRules. destruct (live_rules m) as [rls|] eqn:E; [|done]. intros [= <-].
  pose proof (StronglySorted_merge_sort rule_ge rls) as Hs.
  pose proof (merge_sort_Permutation rule_ge rls) as Hperm.
  pose proof (live_rules_Some m rls E) as Hin.
  set (srt := merge_sort rule_ge rls) in *. split_and!.
  - clear -Hs. generalize o. induction Hs as [|x l Hl IH Hx]; intros o'; [constructor|].
    rewrite imap_cons. constructor.
    + specialize (IH (o' + 1)).
      erewrite imap_ext; [apply IH|]. intros j kr _. simpl. do 2 f_equal. lia.
    + apply Forall_forall. intros y Hy. apply list_elem_of_lookup in Hy as [j Hj].
      rewrite list_lookup_imap in Hj. destruct (l !! j) as [z|] eqn:Hz; [|done]. simpl in Hj. simplify_eq.
      rewrite Forall_forall in Hx. specialize (Hx z ltac:(by eapply list_elem_of_lookup_2)).
      unfold rule_ge in *. by destruct x as [? []], z as [? []].
  - rewrite length_imap, Hperm. unfold live_rules in E. apply length_mapM in E. by rewrite <-E, go_range_length.
  - intros i k rl Hi. rewrite list_lookup_imap in Hi. destruct (srt !! i); [|done]. simpl in Hi. by simplify_eq.
  - intros k rl Hk. apply Hin in Hk. rewrite <-Hperm in Hk.
    apply list_elem_of_lookup in Hk as [i Hi]. exists i. by rewrite list_lookup_imap, Hi.
  - intros i k rl Hi. rewrite list_lookup_imap in Hi. destruct (srt !! i) as [[k0 rl0]|] eqn:Hz; [|done].
    simpl in Hi. simplify_eq. exists rl0. split; [|done].
    apply Hin. rewrite <-Hperm. by eapply list_elem_of_lookup_2.
Qed.
End policy_facts.

Section policy_theorems.
Context `{!MapOrder string}.

Lemma makeRoutePolicy_inv r w name p r' w' :
  makeRoutePolicy r w name = Ok (p, r', w') →
  ∃ l1 l2, sortRules r 0 = Ok l1 ∧ sortRules w (Z.of_nat (size r)) = Ok l2 ∧
    PolRules p = l1.*2 ++ l2.*2 ∧ r' = write_back r l1 ∧ w' = write_back w l2.
Proof.
  unfold makeRoutePolicy. intros (l1 & H1 & H)%rbind_Ok. apply rbind_Ok in H as (l2 & H2 & H).
  simplify_eq/=. eauto 10.
Qed.

(** Rules are numbered by their place in the policy. *)
Lemma policy_numbering r w name p r' w' :
  makeRoutePolicy r w name = Ok (p, r', w') →
  length (PolRules p) = (size r + size w)%nat ∧
  ∀ i rl, PolRules p !! i = Some rl → Ordinal rl = Z.of_nat i.
Proof.
  intros (l1 & l2 & H1 & H2 & -> & _)%makeRoutePolicy_inv.
  apply sortRules_spec in H1 as (_ & Hl1 & Ho1 & _), H2 as (_ & Hl2 & Ho2 & _).
  split; [by rewrite length_app, !length_fmap, Hl1, Hl2|].
  intros i rl Hi. apply lookup_app_Some in Hi as [Hi|[Hge Hi]].
  - apply list_lookup_fmap_Some in Hi as ([k x] & -> & Hi). simpl. by rewrite (Ho1 _ _ _ Hi).
  - rewrite length_fmap in *. apply list_lookup_fmap_Some in Hi as ([k x] & -> & Hi).
    simpl. rewrite (Ho2 _ _ _ Hi). lia.
Qed.

(** The place of a rule of the maps in the policy. *)
Definition at_place (p : Policy) (rl : Rule) (i : nat) : Prop :=
  PolRules p !! i = Some (set_Ordinal (Z.of_nat i) rl).

Lemma policy_places r w name p r' w' :
  makeRoutePolicy r w name = Ok (p, r', w') →
  (∀ k rl, r !! k = Some (Some rl) → ∃ i, (i < size r)%nat ∧ at_place p rl i) ∧
  (∀ k rl, w !! k = Some (Some rl) → ∃ i, (size r ≤ i)%nat ∧ at_place p rl i).
Proof.
  intros (l1 & l2 & H1 & H2 & HP & _)%makeRoutePolicy_inv. unfold at_place. rewrite HP.
  apply sortRules_spec in H1 as (_ & Hl1 & _ & Hin1 & _), H2 as (_ & Hl2 & _ & Hin2 & _).
  split; intros k rl Hk.
  - destruct (Hin1 k rl Hk) as [i Hi]. exists i. pose proof (lookup_lt_Some _ _ _ Hi).
    split; [lia|]. rewrite lookup_app_l by (rewrite length_fmap; lia). by rewrite list_lookup_fmap, Hi.
  - destruct (Hin2 k rl Hk) as [i Hi]. exists (size r + i)%nat. split; [lia|].
    rewrite lookup_app_r by (rewrite length_fmap; lia). rewrite length_fmap, Hl1.
    replace (size r + i - size r)%nat with i by lia. rewrite list_lookup_fmap, Hi. simpl. do 2 f_equal. lia.
Qed.

Lemma StronglySorted_lookup {A} (R : relation A) l i j x y :
  StronglySorted R l → l !! i = Some x → l !! j = Some y → (i < j)%nat → R x y.
Proof.
  intros Hs. revert i j. induction Hs as [|z l Hl IH Hz]; intros i j Hi Hj Hij; [done|].
  destruct j as [|j]; [lia|]. simpl in Hj. destruct i as [|i]; simpl in Hi.
  - simplify_eq. rewrite Forall_forall in Hz. apply Hz. by eapply list_elem_of_lookup_2.
  - eapply IH; [done|done|lia].
Qed.

(** In a sorted list of rules the one whose URI extends another's is first. *)
Lemma sorted_specific m o l k1 k2 x y s :
  sortRules m o = Ok l → m !! k1 = Some (Some x) → m !! k2 = Some (Some y) →
  FullURI x = FullURI y +:+ s → s ≠ EmptyString →
  ∃ i j, (i < j)%nat ∧ l !! i = Some (k1, set_Ordinal (o + Z.of_nat i) x) ∧
    l !! j = Some (k2, set_Ordinal (o + Z.of_nat j) y).
Proof.
  intros Hl Hx Hy Hs Hne. apply sortRules_spec in Hl as (Hsort & _ & _ & Hin & _).
  destruct (Hin k1 x Hx) as [i Hi], (Hin k2 y Hy) as [j Hj]. exists i, j. split; [|done].
  assert (String.le (FullURI y) (FullURI x)) as Hle by (rewrite Hs; apply string_leb_app).
  assert (FullURI x ≠ FullURI y) as Hd.
  { intros He. rewrite He in Hs. apply (f_equal String.length) in Hs. rewrite slength_app in Hs.
    destruct s; simpl in Hs; [done|lia]. }
  destruct (lt_eq_lt_dec i j) as [[Hlt|Heq]|Hgt]; [done| |]; exfalso; apply Hd.
  - subst j. rewrite Hi in Hj. injection Hj as _ Hj. by destruct x, y; simplify_eq/=.
  - pose proof (StronglySorted_lookup _ _ _ _ _ _ Hsort Hj Hi Hgt) as Hge. unfold rule_ge in Hge.
    simpl in Hge. by apply (anti_symm String.le).
Qed.

(** A route whose URI extends that of another of its kind comes before it. *)
Lemma policy_specific_order r w name p r' w' k1 k2 x y s m :
  makeRoutePolicy r w name = Ok (p, r', w') → m = r ∨ m = w →
  m !! k1 = Some (Some x) → m !! k2 = Some (Some y) →
  FullURI x = FullURI y +:+ s → s ≠ EmptyString →
  ∃ i j, (i < j)%nat ∧ at_place p x i ∧ at_place p y j.
Proof.
  intros HP Hm Hx Hy Hs Hne. pose proof HP as (l1 & l2 & H1 & H2 & HPR & _)%makeRoutePolicy_inv.
  pose proof H1 as (_ & Hl1 & _)%sortRules_spec. unfold at_place. rewrite HPR.
  destruct Hm as [-> | ->].
  - destruct (sorted_specific r 0 l1 k1 k2 x y s H1 Hx Hy Hs Hne) as (i & j & Hij & Hi & Hj).
    exists i, j. split; [done|]. pose proof (lookup_lt_Some _ _ _ Hi). pose proof (lookup_lt_Some _ _ _ Hj).
    rewrite !lookup_app_l by (rewrite length_fmap; lia). by rewrite !list_lookup_fmap, Hi, Hj.
  - destruct (sorted_specific w _ l2 k1 k2 x y s H2 Hx Hy Hs Hne) as (i & j & Hij & Hi & Hj).
    exists (size r + i)%nat, (size r + j)%nat. split; [lia|].
    assert (∀ n k rl, l2 !! n = Some (k, set_Ordinal (Z.of_nat (size r) + Z.of_nat n) rl) →
      ((l1.*2 ++ l2.*2) !! (size r + n)%nat) = Some (set_Ordinal (Z.of_nat (size r + n)) rl)) as Hat.
    { intros n k rl Hn. rewrite lookup_app_r by (rewrite length_fmap; lia). rewrite length_fmap, Hl1.
      replace (size r + n - size r)%nat with n by lia. rewrite list_lookup_fmap, Hn. simpl. do 2 f_equal. lia. }
    split; by eapply Hat.
Qed.
End policy_theorems.

Lemma live_rules_NoDup `{!MapOrder string} (m : RuleMap) rls : live_rules m = Some rls → NoDup rls.
Proof.
  intros H. apply (NoDup_fmap_1 fst). replace (rls.*1) with ((go_range m).*1); [apply go_range_NoDup_fst|].
  unfold live_rules in H. apply mapM_Some in H.
  induction H as [|[k o] [k' rl] l l' Hx _ IH]; [done|]. destruct o; simplify_eq/=. by f_equal.
Qed.

(** The order in which Go visits the map does not matter when URIs differ. *)
Lemma sortRules_unique (o1 o2 : MapOrder string) (m : RuleMap) o :
  (∀ k1 k2 x y, m !! k1 = Some (Some x) → m !! k2 = Some (Some y) → FullURI x = FullURI y → k1 = k2) →
  @sortRules o1 m o = @sortRules o2 m o.
Proof.
  intros Hd. pose proof (@sortRules_Ok o1 m o) as S1. rewrite <-(@sortRules_Ok o2 m o) in S1.
  unfold sortRules in *.
  destruct (@live_rules o1 m) as [l1|] eqn:E1, (@live_rules o2 m) as [l2|] eqn:E2; try done.
  - do 2 f_equal. apply (StronglySorted_unique_strong rule_ge).
    + intros [k1 x] [k2 y] Hx Hy Hxy Hyx. unfold rule_ge in *; simpl in *.
      rewrite merge_sort_Permutation in Hx, Hy.
      apply (@live_rules_Some o1 m l1 E1) in Hx. apply (@live_rules_Some o2 m l2 E2) in Hy.
      assert (FullURI x = FullURI y) as Hu by (by apply (anti_symm String.le)).
      assert (k1 = k2) as -> by (by eapply Hd). congruence.
    + apply StronglySorted_merge_sort; apply _.
    + apply StronglySorted_merge_sort; apply _.
    + rewrite !merge_sort_Permutation. apply NoDup_Permutation.
      * by eapply (@live_rules_NoDup o1).
      * by eapply (@live_rules_NoDup o2).
      * intros [k x]. by rewrite (@live_rules_Some o1 m l1 E1), (@live_rules_Some o2 m l2 E2).
  - exfalso. destruct (proj1 S1); [by eexists|done].
  - exfalso. destruct (proj2 S1); [by eexists|done].
Qed.

(** ** What the rule of a route without wildcard tests *)
Definition plain_char (a : ascii) : bool := is_alnum (byte_val a) || byte_in "-_.~" a.
Definition plain (s : string) : Prop := string_forallb plain_char s = true.
Definition path_char (a : ascii) : bool := plain_char a || bool_decide (a = "/"%char).

Lemma plain_char_facts a :
  path_char a = true →
  (byte_val a =? 37) = false ∧ shouldEscape a encodePath = false ∧
  a ≠ "#"%char ∧ a ≠ "?"%char ∧ a ≠ "@"%char ∧ a ≠ "*"%char ∧ a ≠ "["%char ∧
  (a ≠ "/"%char → shouldEscape a encodeHost = false).
Proof. destruct a as [[] [] [] [] [] [] [] []]; try discriminate; intros _; vm_compute; naive_solver. Qed.

Lemma plain_path s : plain s → string_forallb path_char s = true.
Proof.
  unfold plain. induction s as [|a s IH]; [done|]. simpl. rewrite !andb_true_iff. unfold path_char at 1.
  intros [-> ?]. naive_solver.
Qed.

Lemma plain_no_slash s : plain s → count_char "/" s = 0%nat.
Proof.
  unfold plain. induction s as [|a s IH]; [done|]. simpl. rewrite andb_true_iff. intros [Ha Hs].
  rewrite bool_decide_eq_false_2; [by apply IH|]. by intros ->.
Qed.

Lemma path_no_char s c :
  string_forallb path_char s = true → path_char c = false → count_char c s = 0%nat.
Proof.
  intros Hs Hc. induction s as [|a s IH]; [done|]. simpl in *. apply andb_true_iff in Hs as [Ha Hs].
  rewrite bool_decide_eq_false_2 by congruence. by apply IH.
Qed.

Lemma unescape_path s : string_forallb path_char s = true → unescape s encodePath = Some s.
Proof.
  induction s as [|a s IH]; [done|]. simpl. rewrite andb_true_iff. intros [Ha Hs].
  destruct (plain_char_facts a Ha) as (-> & _). by rewrite IH.
Qed.

Lemma escape_path s : string_forallb path_char s = true → GoUrl.escape s encodePath = s.
Proof.
  induction s as [|a s IH]; [done|]. simpl. rewrite andb_true_iff. intros [Ha Hs].
  destruct (plain_char_facts a Ha) as (_ & -> & _). by rewrite IH.
Qed.

Lemma unescape_host s : plain s → unescape s encodeHost = Some s.
Proof.
  unfold plain. induction s as [|a s IH]; [done|]. simpl. rewrite andb_true_iff. intros [Ha Hs].
  destruct (plain_char_facts a) as (H37 & _ & _ & _ & _ & _ & _ & Hh); [unfold path_char; by rewrite Ha|].
  rewrite H37, Hh, andb_false_r, IH; [done|done|]. by intros ->.
Qed.

Lemma cut_last_None c s : count_char c s = 0%nat → cut_last c s = None.
Proof.
  induction s as [|a s IH]; [done|]. simpl. case_bool_decide; [done|]. intros Hc. by rewrite IH.
Qed.

Lemma parseAuthority_plain host : plain host → parseAuthority host = Some host.
Proof.
  intros Hp. unfold parseAuthority. rewrite cut_last_None.
  - unfold parseHost. destruct host as [|a host]; [done|].
    replace (HasPrefix (String a host) "[") with false; [by apply unescape_host|].
    unfold plain in Hp. simpl in Hp. apply andb_true_iff in Hp as [Ha _].
    destruct (plain_char_facts a) as (_ & _ & _ & _ & _ & _ & Hbr & _); [unfold path_char; by rewrite Ha|].
    destruct (HasPrefix (String a host) "[") eqn:E; [|done].
    apply HasPrefix_spec in E as [t Ht]. rewrite sapp_cons in Ht. congruence.
  - apply path_no_char; [by apply plain_path|done].
Qed.

(** The path of a plain URL. *)
Definition url_path (segs : list string) : string :=
  match segs with [] => EmptyString | _ => "/" +:+ Join "/" segs end.

Lemma Join_path segs : Forall plain segs → string_forallb path_char (Join "/" segs) = true.
Proof.
  induction 1 as [|s segs Hs Hsegs IH]; [done|]. destruct segs as [|s' segs]; [by apply plain_path|].
  rewrite Join_cons by done. apply plain_path in Hs.
  assert (∀ x y, string_forallb path_char (x +:+ y) = string_forallb path_char x && string_forallb path_char y) as Happ.
  { clear. induction x as [|a x IH]; intros y; [done|]. simpl. by rewrite IH, andb_assoc. }
  rewrite Happ, Hs. simpl. apply IH.
Qed.

Lemma Parse_plain host segs :
  plain host → Forall plain segs →
  Parse_rest ("//" +:+ Join "/" (host :: segs)) = Ok (mkUrl host (url_path segs) EmptyString).
Proof.
  intros Hh Hs. assert (string_forallb path_char ("//" +:+ Join "/" (host :: segs)) = true) as Hp.
  { apply (Join_path (host :: segs)). by constructor. }
  unfold Parse_rest. rewrite (proj2 (cut_None "#" _)) by (by apply path_no_char).
  unfold before. rewrite (proj2 (cut_None "?" _)) by (by apply path_no_char).
  change (HasPrefix ("//" +:+ _) "//") with (HasPrefix ("//" +:+ Join "/" (host :: segs)) "//").
  rewrite HasPrefix_app. change (sdrop 2 ("//" +:+ ?x)) with x.
  assert (string_forallb path_char (url_path segs) = true) as Hup.
  { destruct segs; [done|]. by apply (Join_path (s :: segs)). }
  assert (cut "/" (Join "/" (host :: segs)) =
    match segs with [] => None | _ => Some (host, Join "/" segs) end) as ->.
  { destruct segs as [|s segs].
    - apply cut_None. by apply plain_no_slash.
    - rewrite Join_cons by done. apply cut_Some. split; [done|]. by apply plain_no_slash. }
  destruct segs as [|s segs]; cbn [url_path].
  - simpl Join. rewrite parseAuthority_plain by done. reflexivity.
  - rewrite parseAuthority_plain by done.
    change (String "/" (Join "/" (s :: segs))) with (url_path (s :: segs)).
    rewrite unescape_path by done. rewrite escape_path, bool_decide_refl by done. reflexivity.
Qed.

(** A text whose last piece is not empty does not end in the separator. *)
Lemma trim_suffix_Join c l x :
  Forall (λ s, count_char c s = 0%nat) (l ++ [x]) → x ≠ EmptyString →
  trim_suffix c (Join c (l ++ [x])) = Join c (l ++ [x]).
Proof.
  intros Hf Hx. destruct (trim_suffix_spec c (Join c (l ++ [x]))) as [H|H]; [|done]. exfalso.
  apply (f_equal (Split c)) in H. rewrite Split_snoc, Split_Join in H by (done || by destruct l).
  apply app_inj_tail in H as [_ ?]. done.
Qed.

Lemma makeRouteRule_plain ru ep host segs :
  hu_endpoint ru = Some ep → Uri_String (hu_uri ru) = Join "/" (host :: segs) →
  Forall (λ s, plain s ∧ s ≠ EmptyString) (host :: segs) →
  ∃ rule, makeRouteRule ru = Ok rule ∧
    FullURI rule = Uri_String (hu_uri ru) ∧ RuleName rule = hu_name ru ∧
    Conditions rule = hostCondition true false false 0 host ::
      imap (λ i v, segmentCondition (Z.of_nat i + 1) v) segs.
Proof.
  intros Hep Hu Hpl. unfold makeRouteRule. rewrite Hu.
  assert (Forall plain (host :: segs)) as Hp by (eapply Forall_impl; [done|naive_solver]).
  assert (Forall (λ s, count_char "/" s = 0%nat) (host :: segs)) as Hns.
  { eapply Forall_impl; [done|]. apply plain_no_slash. }
  assert (trim_suffix "/" ("scheme://" +:+ Join "/" (host :: segs)) = "scheme://" +:+ Join "/" (host :: segs)) as ->.
  { change ("scheme://" +:+ Join "/" (host :: segs)) with (Join "/" ("scheme:" :: EmptyString :: host :: segs)).
    destruct (exists_last (l := host :: segs)) as (l & x & Hl); [done|]. rewrite Hl.
    apply (trim_suffix_Join "/" ("scheme:" :: EmptyString :: l) x).
    - simpl. repeat (constructor; [done|]). by rewrite <-Hl.
    - rewrite Hl in Hpl. apply Forall_app in Hpl as [_ Hpl]. apply Forall_cons in Hpl as [[_ ?] _]. done. }
  change ("scheme://" +:+ Join "/" (host :: segs)) with ("scheme:" +:+ ("//" +:+ Join "/" (host :: segs))).
  rewrite TrimPrefix_app. apply Forall_cons in Hp as [Hh Hs].
  rewrite Parse_plain by done. cbn [rbind].
  assert (contains_char "*" (Join "/" (host :: segs)) = false) as ->.
  { apply contains_char_false, path_no_char; [|done]. apply Join_path. by constructor. }
  cbn [rbind]. unfold AppID. rewrite Hep. cbn [rbind]. eexists. split; [done|].
  cbn [FullURI RuleName Conditions]. split_and!; [done|done|].
  unfold exactConditions, EscapedPath. cbn [u_host u_path u_rawpath].
  rewrite bool_decide_refl. cbn [negb andb].
  assert (string_forallb path_char (url_path segs) = true) as Hup.
  { destruct segs; [done|]. by apply (Join_path (s :: segs)). }
  rewrite (bool_decide_eq_false_2 (url_path segs = "*")) by (by intros Heq; rewrite Heq in Hup).
  rewrite escape_path by done. f_equal.
  destruct segs as [|s segs]; [done|]. cbn [url_path].
  rewrite bool_decide_eq_false_2 by done. rewrite TrimPrefix_app.
  apply Forall_cons in Hns as [_ ?]. by rewrite Split_Join by done.
Qed.

(** ** Properties *)
Section policy_properties.
Context `{!MapOrder string}.

(** C16. The policy lists every rule once, numbered by its place, the rules of
    exact routes before those of wildcard routes; under first-match
    evaluation a route whose URI extends that of another route of its kind -
    both exact, or both with a wildcard - is tried first. *)
Theorem policy_first_match r w name p r' w' :
  makeRoutePolicy r w name = Ok (p, r', w') →
  length (PolRules p) = (size r + size w)%nat ∧
  (∀ i rl, PolRules p !! i = Some rl → Ordinal rl = Z.of_nat i) ∧
  (∀ k rl, r !! k = Some (Some rl) → ∃ i, (i < size r)%nat ∧ at_place p rl i) ∧
  (∀ k rl, w !! k = Some (Some rl) → ∃ i, (size r ≤ i)%nat ∧ at_place p rl i) ∧
  (∀ m k1 k2 x y s, m = r ∨ m = w → m !! k1 = Some (Some x) → m !! k2 = Some (Some y) →
     FullURI x = FullURI y +:+ s → s ≠ EmptyString →
     ∃ i j, (i < j)%nat ∧ at_place p x i ∧ at_place p y j).
Proof.
  intros HP. destruct (policy_numbering r w name p r' w' HP) as [H1 H2].
  destruct (policy_places r w name p r' w' HP) as [H3 H4]. split_and!; try done.
  intros m k1 k2 x y s. by apply (policy_specific_order r w name p r' w').
Qed.
End policy_properties.

Definition demo_rule (uri : string) : Rule := mkRule uri [] [] "n" 0 EmptyString.

Definition demo_rules : RuleMap :=
  {["a.com" := Some (demo_rule "a.com"); "a.com/x" := Some (demo_rule "a.com/x")]}.

Definition demo_wildcards : RuleMap :=
  {["*.a.com" := Some (demo_rule "*.a.com"); "*.a.com/x" := Some (demo_rule "*.a.com/x")]}.

Definition demo_policy : Policy :=
  mkPolicy ["forwarding"] EmptyString true "p" ["http"]
    [set_Ordinal 0 (demo_rule "a.com/x"); set_Ordinal 1 (demo_rule "a.com");
     set_Ordinal 2 (demo_rule "*.a.com/x"); set_Ordinal 3 (demo_rule "*.a.com")] "/Common/first-match".

Lemma policy_first_match_witness :
  ∃ i j, (i < j)%nat ∧ at_place demo_policy (demo_rule "*.a.com/x") i ∧ at_place demo_policy (demo_rule "*.a.com") j.
Proof.
  destruct (makeRoutePolicy demo_rules demo_wildcards "p") as [[[p r'] w']|e|s] eqn:E;
    [|vm_compute in E; discriminate E..].
  destruct (policy_first_match demo_rules demo_wildcards "p" p r' w' E) as (_ & _ & _ & _ & H).
  assert (p = demo_policy) as -> by (vm_compute in E; injection E as <- _ _; reflexivity).
  apply (H demo_wildcards "*.a.com/x" "*.a.com" _ _ "/x"); [by right|vm_compute; reflexivity..|discriminate].
Defined.

(** C17. The written policy does not depend on the order in which Go iterates
    over the rule maps, as long as the URIs of the rules differ. *)
Theorem policy_order_independent (o1 o2 : MapOrder string) r w name :
  (∀ k1 k2 x y, r !! k1 = Some (Some x) → r !! k2 = Some (Some y) → FullURI x = FullURI y → k1 = k2) →
  (∀ k1 k2 x y, w !! k1 = Some (Some x) → w !! k2 = Some (Some y) → FullURI x = FullURI y → k1 = k2) →
  @makeRoutePolicy o1 r w name = @makeRoutePolicy o2 r w name.
Proof.
  intros Hr Hw. unfold makeRoutePolicy.
  by rewrite (sortRules_unique o1 o2 r 0 Hr), (sortRules_unique o1 o2 w _ Hw).
Qed.

#[local] Program Instance reverse_order : MapOrder string :=
  { go_range := fun V m => rev (map_to_list m) }.
Next Obligation. intros V m. symmetry. apply Permutation_rev. Qed.

Lemma policy_order_independent_witness :
  @makeRoutePolicy (default_order string) demo_rules ∅ "p" = @makeRoutePolicy reverse_order demo_rules ∅ "p".
Proof.
  apply (policy_order_independent (default_order string) reverse_order demo_rules ∅ "p"); [|done].
  intros k1 k2 x y Hx Hy Heq. unfold demo_rules in *.
  apply lookup_insert_Some in Hx as [[<- Hx]|[_ [<- Hx]%lookup_singleton_Some]];
    apply lookup_insert_Some in Hy as [[<- Hy]|[_ [<- Hy]%lookup_singleton_Some]];
    injection Hx as <-; injection Hy as <-; done.
Defined.

(** The rule of a route without wildcard tests the host and then each
    path segment at its position, so that the tested values spell the URI. *)
Theorem rule_spells_uri ru ep host segs :
  hu_endpoint ru = Some ep → Uri_String (hu_uri ru) = Join "/" (host :: segs) →
  Forall (λ s, plain s ∧ s ≠ EmptyString) (host :: segs) →
  ∃ rule, makeRouteRule ru = Ok rule ∧ RuleName rule = hu_name ru ∧
    Conditions rule = hostCondition true false false 0 host ::
      imap (λ i v, segmentCondition (Z.of_nat i + 1) v) segs ∧
    Join "/" (Conditions rule ≫= Values) = FullURI rule ∧ FullURI rule = Uri_String (hu_uri ru).
Proof.
  intros He Hu Hp. destruct (makeRouteRule_plain ru ep host segs He Hu Hp) as (rl & Hr & Hf & Hn & Hc).
  exists rl. split_and!; try done. rewrite Hf, Hu, Hc. f_equal. rewrite bind_cons. simpl. f_equal.
  clear. generalize 0%nat as k. intros k.
  assert (∀ f : nat → nat, imap (λ i v, segmentCondition (Z.of_nat (f i) + 1) v) segs ≫= Values = segs) as H.
  { induction segs as [|s l IH]; intros f; [done|]. rewrite imap_cons, bind_cons. simpl. f_equal.
    exact (IH (λ i, f (S i))). }
  exact (H (λ i, i)).
Qed.

Definition demo_endpoint : Endpoint :=
  mkEndpoint 1 "app" "10.0.0.1" 8080 ∅ "guid" 0 EmptyString "0" (mkTag EmptyString 0).

Definition demo_update : updateHTTP :=
  mkHTTP 0 routeUpdate.Add "foo.cf.com/a/b" (Some demo_endpoint) "cf-foo" "http" EmptyString.

Lemma rule_spells_uri_witness :
  ∃ rule, makeRouteRule demo_update = Ok rule ∧ Join "/" (Conditions rule ≫= Values) = FullURI rule.
Proof.
  destruct (rule_spells_uri demo_update demo_endpoint "foo.cf.com" ["a"; "b"]) as (rl & H1 & _ & _ & H2 & _).
  - reflexivity.
  - reflexivity.
  - repeat constructor; try reflexivity; discriminate.
  - exists rl. split; [exact H1|exact H2].
Defined.
