(* ===== verification/F5Router.v ===== *)
(** The router: [src/f5router/f5router.go], from the construction to the
    handlers of the work items and the configuration that is written.

    Pools are mutable objects that handlers reach through the map
    [poolResources] and through local pointers at once, so they live in a
    store [pools].  Virtual servers, monitors and iRules are reached through
    one pointer at a time and are kept by value.  A handler logs its errors
    and returns, so it maps a router to a router; [Panic] is a run-time panic
    of the worker goroutine, which stops the controller. *)
From stdpp Require Import base list gmap strings sorting.
From Stdlib Require Import Ascii ZArith Lia.
From S2P Require Import Prelude GoStrings GoNet Uri Pool Config Resources Codec GoUrl Updates Tier2 Policy.
Import bigipResources planResources routeUpdate.
Local Open Scope Z_scope.

Definition HTTPRouterName : string := "routing-vip-http".
Definition HTTPSRouterName : string := "routing-vip-https".
Definition CFRoutingPolicyName : string := "cf-routing-policy".
Definition InternalDataGroupName : string := "cf-ctlr-data-group".
Definition BrokerDataGroupName : string := "cf-broker-data-group".

Record F5Router := mkRouter {
  rc : Config;
  r_rules : RuleMap;
  r_wildcards : RuleMap;
  pools : gmap loc bigipResources.Pool;
  next_pool : loc;
  poolResources : gmap string loc;
  virtualResources : gmap string Virtual;
  ruleResources : gmap string IRule;
  monitorResources : gmap string (list Monitor);
  internalDataGroup : DataGroup;
  tier2 : tier2VSInfo;
  firstSyncDone : bool;
  unmappedResourcesMap : gmap string Resources;
  plansMap : gmap string Plan;
  bindIDRouteURIPlanNameMap : gmap string string
}.

Definition upd_rules (f : RuleMap → RuleMap) (r : F5Router) : F5Router :=
  mkRouter (rc r) (f (r_rules r)) (r_wildcards r) (pools r) (next_pool r) (poolResources r)
    (virtualResources r) (ruleResources r) (monitorResources r) (internalDataGroup r) (tier2 r)
    (firstSyncDone r) (unmappedResourcesMap r) (plansMap r) (bindIDRouteURIPlanNameMap r).
Definition upd_wildcards (f : RuleMap → RuleMap) (r : F5Router) : F5Router :=
  mkRouter (rc r) (r_rules r) (f (r_wildcards r)) (pools r) (next_pool r) (poolResources r)
    (virtualResources r) (ruleResources r) (monitorResources r) (internalDataGroup r) (tier2 r)
    (firstSyncDone r) (unmappedResourcesMap r) (plansMap r) (bindIDRouteURIPlanNameMap r).
Definition upd_pools (f : gmap loc bigipResources.Pool → gmap loc bigipResources.Pool) (r : F5Router) : F5Router :=
  mkRouter (rc r) (r_rules r) (r_wildcards r) (f (pools r)) (next_pool r) (poolResources r)
    (virtualResources r) (ruleResources r) (monitorResources r) (internalDataGroup r) (tier2 r)
    (firstSyncDone r) (unmappedResourcesMap r) (plansMap r) (bindIDRouteURIPlanNameMap r).
Definition upd_poolResources (f : gmap string loc → gmap string loc) (r : F5Router) : F5Router :=
  mkRouter (rc r) (r_rules r) (r_wildcards r) (pools r) (next_pool r) (f (poolResources r))
    (virtualResources r) (ruleResources r) (monitorResources r) (internalDataGroup r) (tier2 r)
    (firstSyncDone r) (unmappedResourcesMap r) (plansMap r) (bindIDRouteURIPlanNameMap r).
Definition upd_virtuals (f : gmap string Virtual → gmap string Virtual) (r : F5Router) : F5Router :=
  mkRouter (rc r) (r_rules r) (r_wildcards r) (pools r) (next_pool r) (poolResources r)
    (f (virtualResources r)) (ruleResources r) (monitorResources r) (internalDataGroup r) (tier2 r)
    (firstSyncDone r) (unmappedResourcesMap r) (plansMap r) (bindIDRouteURIPlanNameMap r).
Definition upd_iRules (f : gmap string IRule → gmap string IRule) (r : F5Router) : F5Router :=
  mkRouter (rc r) (r_rules r) (r_wildcards r) (pools r) (next_pool r) (poolResources r)
    (virtualResources r) (f (ruleResources r)) (monitorResources r) (internalDataGroup r) (tier2 r)
    (firstSyncDone r) (unmappedResourcesMap r) (plansMap r) (bindIDRouteURIPlanNameMap r).
Definition upd_monitors (f : gmap string (list Monitor) → gmap string (list Monitor)) (r : F5Router) : F5Router :=
  mkRouter (rc r) (r_rules r) (r_wildcards r) (pools r) (next_pool r) (poolResources r)
    (virtualResources r) (ruleResources r) (f (monitorResources r)) (internalDataGroup r) (tier2 r)
    (firstSyncDone r) (unmappedResourcesMap r) (plansMap r) (bindIDRouteURIPlanNameMap r).
Definition set_tier2 (t : tier2VSInfo) (dg : DataGroup) (r : F5Router) : F5Router :=
  mkRouter (rc r) (r_rules r) (r_wildcards r) (pools r) (next_pool r) (poolResources r)
    (virtualResources r) (ruleResources r) (monitorResources r) dg t
    (firstSyncDone r) (unmappedResourcesMap r) (plansMap r) (bindIDRouteURIPlanNameMap r).
Definition set_firstSyncDone (b : bool) (r : F5Router) : F5Router :=
  mkRouter (rc r) (r_rules r) (r_wildcards r) (pools r) (next_pool r) (poolResources r)
    (virtualResources r) (ruleResources r) (monitorResources r) (internalDataGroup r) (tier2 r)
    b (unmappedResourcesMap r) (plansMap r) (bindIDRouteURIPlanNameMap r).
Definition upd_unmapped (f : gmap string Resources → gmap string Resources) (r : F5Router) : F5Router :=
  mkRouter (rc r) (r_rules r) (r_wildcards r) (pools r) (next_pool r) (poolResources r)
    (virtualResources r) (ruleResources r) (monitorResources r) (internalDataGroup r) (tier2 r)
    (firstSyncDone r) (f (unmappedResourcesMap r)) (plansMap r) (bindIDRouteURIPlanNameMap r).
Definition set_plansMap (p : gmap string Plan) (r : F5Router) : F5Router :=
  mkRouter (rc r) (r_rules r) (r_wildcards r) (pools r) (next_pool r) (poolResources r)
    (virtualResources r) (ruleResources r) (monitorResources r) (internalDataGroup r) (tier2 r)
    (firstSyncDone r) (unmappedResourcesMap r) p (bindIDRouteURIPlanNameMap r).
Definition upd_bindID (f : gmap string string → gmap string string) (r : F5Router) : F5Router :=
  mkRouter (rc r) (r_rules r) (r_wildcards r) (pools r) (next_pool r) (poolResources r)
    (virtualResources r) (ruleResources r) (monitorResources r) (internalDataGroup r) (tier2 r)
    (firstSyncDone r) (unmappedResourcesMap r) (plansMap r) (f (bindIDRouteURIPlanNameMap r)).

(** A new pool object. *)
Definition alloc_pool (p : bigipResources.Pool) (r : F5Router) : F5Router * loc :=
  (mkRouter (rc r) (r_rules r) (r_wildcards r) (<[next_pool r := p]> (pools r)) (S (next_pool r))
     (poolResources r) (virtualResources r) (ruleResources r) (monitorResources r)
     (internalDataGroup r) (tier2 r) (firstSyncDone r) (unmappedResourcesMap r) (plansMap r)
     (bindIDRouteURIPlanNameMap r), next_pool r).

Definition index_panic {A} : result A := Panic "index out of range".

(** ** The maps of resources *)
Definition addMonitors (poolName : string) (ms : list Monitor) : F5Router → F5Router :=
  upd_monitors (insert poolName ms).
Definition removeMonitors (poolName : string) : F5Router → F5Router :=
  upd_monitors (delete poolName).

Definition get_pool (r : F5Router) (l : loc) : result bigipResources.Pool :=
  match pools r !! l with Some p => Ok p | None => nil_deref end.

(** [addPool(pool)], the argument by its address. *)
Definition addPool (l : loc) (r : F5Router) : result F5Router :=
  rbind (get_pool r l) (λ pool,
  match poolResources r !! Name pool with
  | Some lp =>
      rbind (get_pool r lp) (λ p,
      match Members p, Members pool with
      | [], _ => Ok (upd_pools (insert lp (set_Members (Members p ++ Members pool) p)) r)
      | _ :: _, [] => index_panic
      | _ :: _, m0 :: _ =>
          if bool_decide (m0 ∈ Members p) then Ok r
          else Ok (upd_pools (insert lp (set_Members (Members p ++ Members pool) p)) r)
      end)
  | None => Ok (upd_poolResources (insert (Name pool) l) r)
  end).

Definition zeroMember : Member := mkMember EmptyString 0 EmptyString.

(** The loop of [removePool]: [arr] is the array behind [p.Members], [n] the
    length of the slice, [i] the loop variable and [k] the turns left.
    [first] is [pool.Members[0]], which is [p.Members[0]] itself, as it is at
    that moment, when [pool] and [p] are the same object ([first = None]). *)
Fixpoint remove_loop (first : option (option Member)) (k i : nat) (arr : list Member) (n : nat)
  : result (list Member) :=
  match k with
  | O => Ok (take n arr)
  | S k' =>
      match arr !! i, (match first with Some m => m | None => take n arr !! 0%nat end) with
      | Some addr, Some m0 =>
          if bool_decide (addr = m0) then
            if (i <? n)%nat then
              let lastm := default zeroMember (arr !! (n - 1)%nat) in
              remove_loop first k' (S i) (<[(n - 1)%nat := zeroMember]> (<[i := lastm]> arr)) (n - 1)
            else index_panic
          else remove_loop first k' (S i) arr n
      | _, _ => index_panic
      end
  end.

(** [removePool(pool)] returns true when the pool is deleted. *)
Definition removePool (l : loc) (r : F5Router) : result (F5Router * bool) :=
  rbind (get_pool r l) (λ pool,
  match poolResources r !! Name pool with
  | Some lp =>
      rbind (get_pool r lp) (λ p,
      let first := if bool_decide (lp = l) then None else Some (Members pool !! 0%nat) in
      rbind (remove_loop first (length (Members p)) 0 (Members p) (length (Members p))) (λ ms,
      let r1 := upd_pools (insert lp (set_Members ms p)) r in
      match ms with
      | [] => Ok (upd_poolResources (delete (Name pool)) r1, true)
      | _ => Ok (r1, false)
      end))
  | None => Ok (r, false)
  end).

Definition addVirtual (vs : Virtual) (r : F5Router) : F5Router :=
  match virtualResources r !! VirtualServerName vs with
  | Some _ => r
  | None => upd_virtuals (insert (VirtualServerName vs) vs) r
  end.

Definition removeVirtual (key : string) : F5Router → F5Router := upd_virtuals (delete key).

(** A failed [makeRouteRule] leaves a nil rule in the map. *)
Definition addRule (ru : updateHTTP) (r : F5Router) : result F5Router :=
  match makeRouteRule ru with
  | Panic w => Panic w
  | Ok rule =>
      Ok (if contains_char "*" (Uri_String (hu_uri ru))
          then upd_wildcards (insert (hu_uri ru) (Some rule)) r
          else upd_rules (insert (hu_uri ru) (Some rule)) r)
  | Err _ =>
      Ok (if contains_char "*" (Uri_String (hu_uri ru))
          then upd_wildcards (insert (hu_uri ru) None) r
          else upd_rules (insert (hu_uri ru) None) r)
  end.

Definition removeRule (ru : updateHTTP) : F5Router → F5Router :=
  if contains_char "*" (Uri_String (hu_uri ru))
  then upd_wildcards (delete (hu_uri ru)) else upd_rules (delete (hu_uri ru)).

(** ** Handlers of the work items *)

(** The virtual server with its destination, or the error. *)
Definition assignVSPort (vs : Virtual) (r : F5Router) : F5Router * result Virtual :=
  let key := VirtualServerName vs in
  match virtualResources r !! key with
  | Some existingVS => (r, Ok (set_Destination (Destination existingVS) vs))
  | None =>
      let '(t, dg, res) := assignAddress (tier2 r) (internalDataGroup r) key in
      let r' := set_tier2 t dg r in
      match res with
      | Ok (Some va) =>
          (r', rbind (partition0 (rc r)) (λ partition,
               rbind (verifyDestAddress va partition) (λ dest, Ok (set_Destination dest vs))))
      | Ok None => (r', nil_deref)
      | Err e => (r', Err e)
      | Panic w => (r', Panic w)
      end
  end.

(** Run [k] on a value; an error is logged and ends the handler in state [r]. *)
Definition or_log {A} (m : result A) (r : F5Router) (k : A → result F5Router) : result F5Router :=
  match m with
  | Ok a => k a
  | Err _ => Ok r
  | Panic w => Panic w
  end.

Definition head_or_panic {A} (l : list A) : result A :=
  match l with x :: _ => Ok x | [] => index_panic end.

Definition processRouteAdd (ru : updateHTTP) (r : F5Router) : result F5Router :=
  or_log (verifyRouteURI ru) r (λ _,
  or_log (CreateResources ru (rc r)) r (λ rs0,
  rbind (match unmappedResourcesMap r !! hu_name ru with
         | Some resources => UpdateResources rs0 resources
         | None => Ok rs0
         end) (λ rs,
  rbind (head_or_panic (Virtuals rs)) (λ vs0,
  let '(r1, assigned) := assignVSPort vs0 r in
  or_log assigned r1 (λ vs,
  rbind (head_or_panic (Pools rs)) (λ pool,
  let r2 := when (nonempty (Monitors rs)) (addMonitors (Name pool) (Monitors rs)) r1 in
  let '(r3, l) := alloc_pool pool r2 in
  rbind (addPool l r3) (λ r4,
  addRule ru (addVirtual vs r4)))))))).

(** A mapped route is one with a pool and a virtual server. *)
Definition processRouteBind (ru : updateHTTP) (r : F5Router) : result F5Router :=
  let name := hu_name ru in
  match poolResources r !! name, virtualResources r !! name with
  | Some l, Some existingVirtual =>
      rbind (get_pool r l) (λ existingPool,
      let members := Members existingPool in
      rbind (removePool l r) (λ '(r1, _),
      let r2 := removeVirtual name r1 in
      rbind (get_pool r2 l) (λ pool2,
      rbind (match plansMap r !! hu_planID ru with
             | Some plan =>
                 let r3 := when (nonempty (PlanHealthMonitors (PlanPool plan)))
                             (removeMonitors (Name existingPool)) r2 in
                 rbind (CreatePlanResources (rc r) plan) (λ planRes,
                 rbind (UpdateResources (mkResources [existingVirtual] [pool2] [] [] [] []) planRes) (λ rs,
                 Ok (r3, rs)))
             | None => Ok (r2, mkResources [existingVirtual] [pool2] [] [] [] [])
             end) (λ '(r4, rs),
      rbind (head_or_panic (Pools rs)) (λ pool3,
      rbind (head_or_panic (Virtuals rs)) (λ vs,
      let pool4 := set_Members members pool3 in
      let r5 := upd_pools (insert l pool4) r4 in
      let r6 := when (nonempty (Monitors rs)) (addMonitors (Name pool4) (Monitors rs)) r5 in
      rbind (addPool l r6) (λ r7, Ok (addVirtual vs r7))))))))
  | _, _ =>
      match plansMap r !! hu_planID ru with
      | Some plan =>
          rbind (CreatePlanResources (rc r) plan) (λ planRes,
          Ok (upd_unmapped (insert name planRes) r))
      | None => Ok r
      end
  end.

Definition processRouteUnbind (ru : updateHTTP) (r : F5Router) : result F5Router :=
  let name := hu_name ru in
  match poolResources r !! name, virtualResources r !! name with
  | Some l, Some existingVirtual =>
      rbind (get_pool r l) (λ existingPool,
      let members := Members existingPool in
      rbind (removePool l r) (λ '(r1, _),
      let r2 := removeMonitors (Name existingPool) (removeVirtual name r1) in
      rbind (head_or_panic members) (λ m0,
      or_log (CreateBrokerDefaultResources ru (rc r) (Description existingPool)
                (Destination existingVirtual) (MAddress m0) (MPort m0)) r2 (λ rs,
      rbind (head_or_panic (Pools rs)) (λ pool,
      rbind (head_or_panic (Virtuals rs)) (λ vs,
      let '(r3, l') := alloc_pool (set_Members members pool) r2 in
      rbind (addPool l' r3) (λ r4, Ok (addVirtual vs r4))))))))
  | _, _ => Ok (upd_unmapped (delete name) r)
  end.

Definition processRouteRemove (ru : updateHTTP) (r : F5Router) : result F5Router :=
  or_log (verifyRouteURI ru) r (λ _,
  or_log (CreateResources ru (rc r)) r (λ rs,
  rbind (head_or_panic (Pools rs)) (λ pool,
  let '(r1, l) := alloc_pool pool r in
  rbind (removePool l r1) (λ '(r2, poolRemoved),
  if poolRemoved : bool then
    rbind (head_or_panic (Virtuals rs)) (λ vs,
    let vsName := VirtualServerName vs in
    let r3 := removeVirtual vsName (removeRule ru (removeMonitors (Name pool) r2)) in
    rbind (releaseAddress (tier2 r3) (internalDataGroup r3) vsName) (λ '(t, dg),
    Ok (set_tier2 t dg r3)))
  else Ok r2)))).

Definition processTCPRouteAdd (ru : updateTCP) (r : F5Router) : result F5Router :=
  or_log (CreateResources ru (rc r)) r (λ rs,
  rbind (head_or_panic (Pools rs)) (λ pool,
  rbind (head_or_panic (Virtuals rs)) (λ vs,
  let '(r1, l) := alloc_pool pool r in
  rbind (addPool l r1) (λ r2, Ok (addVirtual vs r2))))).

Definition processTCPRouteRemove (ru : updateTCP) (r : F5Router) : result F5Router :=
  or_log (CreateResources ru (rc r)) r (λ rs,
  rbind (head_or_panic (Pools rs)) (λ pool,
  let '(r1, l) := alloc_pool pool r in
  rbind (removePool l r1) (λ '(r2, poolRemoved),
  if poolRemoved : bool then
    rbind (head_or_panic (Virtuals rs)) (λ vs, Ok (removeVirtual (VirtualServerName vs) r2))
  else Ok r2))).

(** ** Plans and bindings of the service broker *)
Definition AddPlans (plans : gmap string Plan) : F5Router → F5Router := set_plansMap plans.

Definition VerifyPlanExists (planID : string) (r : F5Router) : result unit :=
  if bool_decide (planID = EmptyString) then Err "planID not included"
  else match plansMap r !! planID with
       | Some _ => Ok tt
       | None => Err ("plan for planID: " +:+ planID +:+ " not found")
       end.

(** The name of a missing plan is the empty string of the zero [Plan]. *)
Definition AddBindIDRouteURIPlanNameMapping (bindID routeURI planID : string) (r : F5Router) : F5Router :=
  let planName := match plansMap r !! planID with Some p => PlanName p | None => EmptyString end in
  upd_bindID (insert bindID (routeURI +:+ "|" +:+ planName)) r.

Definition RemoveBindIDRouteURIPlanNameMapping (bindID : string) : F5Router → F5Router :=
  upd_bindID (delete bindID).

Definition GetRouteURIFromBindID (bindID : string) (r : F5Router) : string :=
  hd EmptyString (Split "|" (default EmptyString (bindIDRouteURIPlanNameMap r !! bindID))).

(** ** Construction *)
Definition checkForString (l : list string) (text : string) : bool := bool_decide (text ∈ l).

Definition initiRule (name code : string) : F5Router → F5Router :=
  upd_iRules (insert name (mkIRule name code)).

Definition set_BigIP (b : BigIPConfig) (c : Config) : Config :=
  mkConfig b (Status c) (LogLevel c) (JobName c) (GoMaxProcs c) (EnableSSL c) (SSLCertPath c)
    (SSLKeyPath c) (SSLCertificate c) (CipherString c) (CipherSuites c)
    (PruneStaleDropletsInterval c) (DropletStaleThreshold c) (StartResponseDelayInterval c)
    (EndpointTimeout c) (DrainTimeout c) (SuspendPruningIfNatsUnavailable c) (RouteMode c)
    (BrokerMode c) (RoutingModeOf c) (RouterGroupName c) (TCPRouterGroupName c)
    (RoutingApiUri c) (RoutingApiPort c) (RouteServiceSecret c) (RouteServiceEnabled c) (Ip c)
    (NatsClientPingInterval c) (LoadBalance c) (SessionPersistence c).

(** The checked configuration with its defaults and the tier-2 range. *)
Definition validateConfig (c : Config) : result (Config * list Z * IPNet) :=
  let b := BigIP c in
  if bool_decide (URL b = EmptyString) || bool_decide (User b = EmptyString)
     || bool_decide (Pass b = EmptyString) || negb (nonempty (Partitions b))
     || bool_decide (ExternalAddr b = EmptyString)
  then Err "required parameter missing; URL, User, Pass, Partitions, ExternalAddr, must have value"
  else
    rbind (partition0 c) (λ partition,
    rbind (verifyDestAddress (mkVA (ExternalAddr b) 80) partition) (λ _,
    let range := if bool_decide (Tier2IPRange b = EmptyString) then DefaultTier2IPRange else Tier2IPRange b in
    rbind (validateTier2Range range) (λ '(ipAddr, net),
    let hm := if nonempty (HealthMonitors b) then HealthMonitors b else ["/Common/tcp_half_open"] in
    let prf := if nonempty (Config.Profiles b)
               then if checkForString (Config.Profiles b) "/Common/tcp" then Config.Profiles b
                    else Config.Profiles b ++ ["/Common/tcp"]
               else ["/Common/http"; "/Common/tcp"] in
    let b' := mkBigIP (URL b) (User b) (Pass b) (Partitions b) (LoadBalancingMode b) (VerifyInterval b)
                (ExternalAddr b) (SSLProfiles b) (Config.Policies b) prf hm (DriverCmd b) range in
    Ok (set_BigIP b' c, ipAddr, net)))).

Definition createHTTPVirtuals (r : F5Router) : result F5Router :=
  let b := BigIP (rc r) in
  rbind (partition0 (rc r)) (λ partition,
  let plcs := (generateNameList (Config.Policies b)).1 ++ [mkNameRef CFRoutingPolicyName partition] in
  let prfls := (generateProfileList (Config.Profiles b) "all").1 in
  rbind (joinBigipPath partition HTTPForwardingiRuleName) (λ iRulePath,
  let iRule := [iRulePath] in
  let r1 := when (SessionPersistence (rc r)) (initiRule JsessionidIRuleName JsessionidIRule) r in
  rbind (verifyDestAddress (mkVA (ExternalAddr b) 80) partition) (λ dest,
  let r2 := upd_virtuals (insert HTTPRouterName
              (mkVirtual HTTPRouterName EmptyString "tcp" true dest EmptyString plcs prfls iRule "automap")) r1 in
  if nonempty (SSLProfiles b) then
    let prfls' := prfls ++ (generateProfileList (SSLProfiles b) "clientside").1 in
    rbind (verifyDestAddress (mkVA (ExternalAddr b) 443) partition) (λ dest',
    Ok (upd_virtuals (insert HTTPSRouterName
          (mkVirtual HTTPSRouterName EmptyString "tcp" true dest' EmptyString plcs prfls' iRule "automap")) r2))
  else Ok r2))).

(** What is written for the driver: the global section, the BIG-IP section
    and, once the router runs, the resources of the partition. *)
Record Sections := mkSections {
  s_global : GlobalConfig;
  s_bigip : BigIPConfig;
  s_resources : option (string * Resources)
}.

Definition sections_of (c : Config) (res : option (string * Resources)) : Sections :=
  mkSections (mkGlobal (LogLevel c) (VerifyInterval (BigIP c))) (BigIP c) res.

(** [write] is the [Writer]: marshalling and writing the sections. *)
Definition writeInitialConfig (write : Sections → result unit) (c : Config) : result unit :=
  match write (sections_of c None) with
  | Err e => Err ("failed writing initial config: " +:+ e)
  | m => m
  end.

Definition emptyRouter (c : Config) (ip : list Z) (net : IPNet) : F5Router :=
  mkRouter c ∅ ∅ ∅ 0 ∅ ∅ ∅ ∅ ∅ (mkTier2 ∅ [] 10000 ip net) false ∅ ∅ ∅.

Definition NewF5Router (c : option Config) (writer : option (Sections → result unit)) : result F5Router :=
  match c, writer with
  | None, _ => Err "no configuration provided"
  | Some _, None => Err "no functional writer provided"
  | Some c, Some write =>
      rbind (validateConfig c) (λ '(c', ip, net),
      let r := emptyRouter c' ip net in
      rbind (writeInitialConfig write c') (λ _,
      if bool_decide (RoutingModeOf c' = TCP) then Ok r
      else rbind (createHTTPVirtuals r) (λ r1,
           Ok (initiRule HTTPForwardingiRuleName ForwardToVIPiRule r1))))
  end.

(** ** The configuration that is written *)
Section write.
Context `{!MapOrder string}.

(** Monitors of the pools; of several with one name the first is kept. *)
Fixpoint dedup_monitors (acc ms : list Monitor) : list Monitor :=
  match ms with
  | [] => acc
  | m :: rest =>
      if existsb (λ x, bool_decide (MonName x = MonName m)) acc then dedup_monitors acc rest
      else dedup_monitors (acc ++ [m]) rest
  end.

Definition createMonitors (r : F5Router) : list Monitor :=
  dedup_monitors [] (go_range (monitorResources r) ≫= snd).

Definition createVirtuals (r : F5Router) : list Virtual := (go_range (virtualResources r)).*2.

Definition createPools (r : F5Router) : list bigipResources.Pool :=
  omap (λ kl, pools r !! kl.2) (go_range (poolResources r)).

Definition createiRules (r : F5Router) : list IRule := (go_range (ruleResources r)).*2.

Definition populateBrokerDataGroup (data : gmap string string) : DataGroup :=
  map_imap (λ k v, Some (mkRecord k v)) data.

Definition createInternalDataGroups (dataGroups : gmap string DataGroup) : list InternalDataGroup :=
  (λ '(name, dg), mkDataGroup name (go_range (V := InternalDataGroupRecord) dg).*2) <$> go_range dataGroups.

(** The policies and the router with the renumbered rules. *)
Definition createPolicies (r : F5Router) : result (list Policy * F5Router) :=
  if bool_decide (r_wildcards r = ∅) && bool_decide (r_rules r = ∅) then Ok ([], r)
  else rbind (makeRoutePolicy (r_rules r) (r_wildcards r) CFRoutingPolicyName) (λ '(p, rs, ws),
       Ok ([p], upd_wildcards (λ _, ws) (upd_rules (λ _, rs) r))).

Definition router_createResources (r : F5Router) : result (string * Resources * F5Router) :=
  rbind (partition0 (rc r)) (λ partition,
  rbind (createPolicies r) (λ '(policies, r'),
  let dataGroups : gmap string DataGroup :=
    <[InternalDataGroupName := internalDataGroup r]>
      (if BrokerMode (rc r)
       then {[BrokerDataGroupName := populateBrokerDataGroup (bindIDRouteURIPlanNameMap r)]} else ∅) in
  Ok (partition,
      mkResources (createVirtuals r) (createPools r) (createMonitors r) policies (createiRules r)
        (createInternalDataGroups dataGroups), r'))).

(** ** The worker *)
Inductive workItem := ItemHTTP (ru : updateHTTP) | ItemTCP (ru : updateTCP).

Definition handle (item : workItem) (r : F5Router) : result F5Router :=
  match item with
  | ItemHTTP ru =>
      match Op ru with
      | Add => processRouteAdd ru r
      | Remove => processRouteRemove ru r
      | Bind => processRouteBind ru r
      | Unbind => processRouteUnbind ru r
      | Other _ => Ok r
      end
  | ItemTCP ru =>
      match Op ru with
      | Add => processTCPRouteAdd ru r
      | Remove => processTCPRouteRemove ru r
      | _ => Ok r
      end
  end.

(** After an item, when the queue is empty: the sections to write. *)
Definition drain (r : F5Router) : result (F5Router * Sections) :=
  rbind (if firstSyncDone r then Ok r
         else rbind (truncateInternalDataGroup (virtualResources r) (internalDataGroup r) (tier2 r)) (λ '(t, dg),
              Ok (set_firstSyncDone true (set_tier2 t dg r)))) (λ r1,
  rbind (router_createResources r1) (λ '(partition, res, r2),
  Ok (r2, sections_of (rc r2) (Some (partition, res))))).

(** [process] on one item; [qlen] is the length of the queue afterwards. *)
Definition process (item : workItem) (qlen : nat) (r : F5Router) : result (F5Router * option Sections) :=
  rbind (handle item r) (λ r1,
  if (qlen =? 0)%nat then rbind (drain r1) (λ '(r2, s), Ok (r2, Some s)) else Ok (r1, None)).

(** ** Start-up: the broker's cached data group *)

(** [planNamePlanIDMap]: a later plan overwrites an earlier one of its name. *)
Definition planIDs (plans : gmap string Plan) : gmap string string :=
  foldl (λ m kp, <[PlanName kp.2 := ID kp.2]> m) ∅ (go_range plans).

(** The bind updates the records of the data group give; [l] numbers the
    logger sessions. *)
Fixpoint brokerUpdates (ids : gmap string string) (l : nat) (records : list InternalDataGroupRecord)
  : result (list updateHTTP) :=
  match records with
  | [] => Ok []
  | record :: rest =>
      match ReturnRouteURIAndPlanName record with
      | Ok (routeURI, planName) =>
          let foundPlanID := default EmptyString (ids !! planName) in
          if bool_decide (foundPlanID = EmptyString) then brokerUpdates ids l rest
          else match NewUpdate l Bind routeURI None foundPlanID with
               | Ok ru => rbind (brokerUpdates ids (S l) rest) (λ us, Ok (ru :: us))
               | Err _ => brokerUpdates ids (S l) rest
               | Panic w => Panic w
               end
      | Err _ => brokerUpdates ids l rest
      | Panic w => Panic w
      end
  end.

Definition processBrokerDataGroup (l : nat) (dg : InternalDataGroup) (r : F5Router)
  : result (F5Router * list updateHTTP) :=
  rbind (brokerUpdates (planIDs (plansMap r)) l (Records dg)) (λ us,
  Ok (upd_bindID (λ _, foldl (λ m rec, <[RecName rec := Data rec]> m) ∅ (Records dg)) r, us)).
End write.

(** ** Fetching the data groups at start-up

    The BIG-IP client is not part of the model: a run of
    [fetchExistingDataGroup] is given by the answers it gets, in order. *)
Inductive getError := NetError (timeout temporary : bool) | OtherError.

Definition answer : Type := (string + getError)%type.

(** The retry loop; [None] when it is still waiting after these answers.
    An error that is not a network error is retried too. *)
Fixpoint retry (answers : list answer) : option (result string) :=
  match answers with
  | [] => None
  | inl data :: _ => Some (Ok data)
  | inr (NetError timeout temporary) :: rest =>
      if timeout || temporary then retry rest else Some (Err "bigip client error")
  | inr OtherError :: rest => retry rest
  end.

(** A member of a JSON object decoded into a string field. *)
Definition string_field (name : string) (old : string) (kv : string * json) : option string :=
  if bool_decide (ToLower kv.1 = name) then
    match kv.2 with JStr s => Some s | JNull => Some old | _ => None end
  else Some old.

Definition decode_record (v : json) : result InternalDataGroupRecord :=
  match v with
  | JNull => nil_deref
  | JObj l =>
      match foldl (λ acc kv, acc ≫= λ r, n ← string_field "name" (RecName r) kv;
                     d ← string_field "data" (Data r) kv; Some (mkRecord n d))
              (Some (mkRecord EmptyString EmptyString)) l with
      | Some r => Ok r
      | None => Err "json: cannot unmarshal into Go struct field"
      end
  | _ => Err "json: cannot unmarshal into Go value"
  end.

Fixpoint decode_records (l : list json) : result (list InternalDataGroupRecord) :=
  match l with
  | [] => Ok []
  | v :: l' => rbind (decode_record v) (λ r, rbind (decode_records l') (λ rs, Ok (r :: rs)))
  end.

(** [json.Unmarshal] into a [*InternalDataGroup].  A null record is a nil
    pointer, which every use of the records dereferences; it panics here. *)
Definition Unmarshal_dg (s : string) : result (option InternalDataGroup) :=
  match parse_json s with
  | None => Err "invalid character in JSON text"
  | Some JNull => Ok None
  | Some (JObj l) =>
      rbind (foldl (λ acc kv, rbind acc (λ dg,
               if bool_decide (ToLower kv.1 = "records") then
                 match kv.2 with
                 | JArr vs => rbind (decode_records vs) (λ rs, Ok (mkDataGroup (DgName dg) rs))
                 | JNull => Ok (mkDataGroup (DgName dg) [])
                 | _ => Err "json: cannot unmarshal into Go struct field"
                 end
               else match string_field "name" (DgName dg) kv with
                    | Some n => Ok (mkDataGroup n (Records dg))
                    | None => Err "json: cannot unmarshal into Go struct field"
                    end)) (Ok (mkDataGroup EmptyString [])) l) (λ dg, Ok (Some dg))
  | Some _ => Err "json: cannot unmarshal into Go value"
  end.

Definition fetchExistingDataGroup (answers : list answer) : option (result (option InternalDataGroup)) :=
  let data := match answers with
    | [] => None
    | inl d :: _ => Some (Ok d)
    | inr (NetError timeout temporary) :: rest =>
        if timeout || temporary then retry rest else Some (Err "bigip client error")
    | inr OtherError :: _ => Some (Err "bigip client error")
    end in
  (λ m, rbind m (λ d,
     if Contains d "was not found"
     then Err ("data group " +:+ InternalDataGroupName +:+ " not found on the BIG-IP")
     else Unmarshal_dg d)) <$> data.

(** The part of [Run] before the worker starts: the caches are read and the
    bind updates of the broker are put in the queue. *)
Definition startup `{!MapOrder string} (l : nat) (dg broker : result (option InternalDataGroup))
  (r : F5Router) : result (F5Router * list updateHTTP) :=
  rbind (match dg with
         | Err _ => Ok (set_tier2 (tier2 r) ∅ r)
         | Panic w => Panic w
         | Ok None => nil_deref
         | Ok (Some dg) => rbind (processCachedDataGroup (tier2 r) dg) (λ '(t, g), Ok (set_tier2 t g r))
         end) (λ r1,
  if BrokerMode (rc r1) then
    match broker with
    | Err _ => Ok (r1, [])
    | Panic w => Panic w
    | Ok None => nil_deref
    | Ok (Some dg) => processBrokerDataGroup l dg r1
    end
  else Ok (r1, [])).
