(* ===== verification/Broker.v ===== *)
(** The service broker: [src/servicebroker/servicebroker.go].

    The broker offers the configured plans, and turns bindings of routes to
    plans into updates for the router.  Its state includes the router it
    holds a reference to and the router's queue.  [uuids] are the answers of
    the UUID generator ([None] for an error), [unmarshal] and [verifySchema]
    those of the JSON and schema libraries for the text of the environment. *)
From Stdlib Require Import Ascii ZArith Lia.
From stdpp Require Import sorting countable base list gmap strings.
From S2P Require Import Prelude GoStrings GoNet Uri Pool Config Resources Codec GoUrl Updates Tier2 Policy F5Router.
Import bigipResources planResources routeUpdate.
Local Open Scope Z_scope.

Record ServiceBroker := mkBroker {
  br_ID : string;
  br_Name : string;
  br_Description : string;
  br_plans : gmap string Plan;
  br_router : F5Router;
  br_queue : list updateHTTP
}.

Definition set_br_plans (m : gmap string Plan) (b : ServiceBroker) : ServiceBroker :=
  mkBroker (br_ID b) (br_Name b) (br_Description b) m (br_router b) (br_queue b).
Definition upd_router (f : F5Router → F5Router) (b : ServiceBroker) : ServiceBroker :=
  mkBroker (br_ID b) (br_Name b) (br_Description b) (br_plans b) (f (br_router b)) (br_queue b).

(** [F5Router.UpdateRoute] puts the update in the work queue. *)
Definition UpdateRoute (ru : updateHTTP) (b : ServiceBroker) : ServiceBroker :=
  mkBroker (br_ID b) (br_Name b) (br_Description b) (br_plans b) (br_router b) (br_queue b ++ [ru]).

Definition set_ID (id : string) (p : Plan) : Plan :=
  mkPlan (PlanName p) (PlanDescription p) (PlanPool p) (VirtualServer p) id.

(** ** Operations *)
Definition GenerateUUID (answer : option string) : string * option string :=
  match answer with Some guid => (guid, None) | None => (EmptyString, Some "uuid error") end.

Definition NewServiceBroker (name description : string) (uuid : option string) (r : F5Router)
  : result ServiceBroker :=
  match GenerateUUID uuid with
  | (guid, None) => Ok (mkBroker guid name description ∅ r [])
  | (_, Some e) => Err e
  end.

(** A plan without UUID is logged as skipped and stored all the same, under
    the empty string. *)
Fixpoint store_plans (plans : Plans) (uuids : list (option string)) (planMap : gmap string Plan)
  : gmap string Plan :=
  match plans with
  | [] => planMap
  | plan :: rest =>
      let guid := (GenerateUUID (hd None uuids)).1 in
      store_plans rest (tl uuids) (<[guid := set_ID guid plan]> planMap)
  end.

Definition processPlans (unmarshal : result Plans) (uuids : list (option string)) : result (gmap string Plan) :=
  rbind unmarshal (λ plans, Ok (store_plans plans uuids ∅)).

(** [val] is the value of SERVICE_BROKER_CONFIG. *)
Definition ProcessPlans (val : option string) (verifySchema : string → result bool)
  (unmarshal : string → result Plans) (uuids : list (option string)) (b : ServiceBroker) : result ServiceBroker :=
  match val with
  | None | Some EmptyString => Err "SERVICE_BROKER_CONFIG not found in environment"
  | Some text =>
      rbind (verifySchema text) (λ valid,
      if valid : bool then
        rbind (processPlans (unmarshal text) uuids) (λ planMap,
        Ok (upd_router (AddPlans planMap) (set_br_plans planMap b)))
      else Err "Plans failed schema validation")
  end.

(** Identifier, name and description of the plans in the catalog; all bindable. *)
Definition prepPlansforAPIResponse `{!MapOrder string} (b : ServiceBroker) : list (string * string * string) :=
  (λ '(id, plan), (id, PlanName plan, PlanDescription plan)) <$> go_range (br_plans b).

Definition Provision (planID : string) (b : ServiceBroker) : result unit := VerifyPlanExists planID (br_router b).

(** The broker section of the configuration. *)
Record ServiceBrokerConfig := mkBrokerConfig {
  bc_ID : string; bc_Name : string; bc_Description : string; DisplayName : string; LongDescription : string;
  DocumentationURL : string; SupportURL : string; ImageURL : string; ProviderName : string
}.

Definition defaultServiceBrokerConfig : ServiceBrokerConfig :=
  mkBrokerConfig EmptyString "f5servicebroker" "Bind F5 services to your routes" "F5 Service Broker"
    "Bind F5 services to your routes" "http://clouddocs.f5.com/containers/v2/cloudfoundry/"
    "http://clouddocs.f5.com/containers/v2/cloudfoundry/" "https://cdn.f5.com/websites/support/assets/images/logo.svg"
    "F5 Networks".

(** The catalog: one service, itself not bindable, with the plans. *)
Record Service := mkService {
  svc_ID : string; svc_Name : string; svc_Description : string; Bindable : bool; svc_Requires : list string;
  svc_Plans : list (string * string * string); svc_Tags : list string
}.

Definition Services `{!MapOrder string} (b : ServiceBroker) : list Service :=
  [mkService (br_ID b) (br_Name b) (br_Description b) false ["route_forwarding"] (prepPlansforAPIResponse b) ["f5"]].

(** Calls that are accepted and do nothing. *)
Definition Deprovision (instanceID : string) (b : ServiceBroker) : result ServiceBroker := Ok b.
Definition LastOperation (instanceID operationData : string) (b : ServiceBroker) : result ServiceBroker := Ok b.
Definition Update (instanceID planID : string) (b : ServiceBroker) : result ServiceBroker := Ok b.

(** [bindResource] is the route of the bind resource, if there is one.  The
    error for a missing bind id is overwritten by the next call. *)
Definition Bind (bindID : string) (bindResource : option string) (planID : string) (b : ServiceBroker)
  : result ServiceBroker :=
  match bindResource with
  | None | Some EmptyString => Err "only route services bindings are supported"
  | Some routeURI =>
      rbind (VerifyPlanExists planID (br_router b)) (λ _,
      rbind (NewUpdate (length (br_queue b)) routeUpdate.Bind routeURI None planID) (λ ru,
      Ok (UpdateRoute ru (upd_router (AddBindIDRouteURIPlanNameMapping bindID routeURI planID) b))))
  end.

Definition Unbind (bindID : string) (b : ServiceBroker) : result ServiceBroker :=
  let routeURI := GetRouteURIFromBindID bindID (br_router b) in
  if bool_decide (routeURI = EmptyString) then Err ("unbind route not found for bindID: " +:+ bindID)
  else
    rbind (NewUpdate (length (br_queue b)) routeUpdate.Unbind routeURI None EmptyString) (λ ru,
    Ok (UpdateRoute ru (upd_router (RemoveBindIDRouteURIPlanNameMapping bindID) b))).

(** ** Bindings *)
Lemma GetRouteURI_added bindID routeURI planID r :
  count_char "|" routeURI = 0%nat →
  GetRouteURIFromBindID bindID (AddBindIDRouteURIPlanNameMapping bindID routeURI planID r) = routeURI.
Proof.
  intros H. unfold GetRouteURIFromBindID, AddBindIDRouteURIPlanNameMapping. simpl. rewrite lookup_insert_eq.
  change (default EmptyString (Some ?x)) with x.
  change (routeURI +:+ "|" +:+ ?p) with (routeURI +:+ String "|" p). by rewrite Split_app.
Qed.

(** A stored binding: route and plan name, separated by a bar. *)
Definition binding (uri plan : string) : string := uri +:+ "|" +:+ plan.

Definition good_binding (uri plan : string) : Prop :=
  uri ≠ EmptyString ∧ plan ≠ EmptyString ∧ count_char "|" uri = 0%nat ∧ count_char "|" plan = 0%nat ∧
  no_panic (makeObjectName (Uri_String uri)).

Lemma ReturnRouteURI_binding name uri plan :
  good_binding uri plan → ReturnRouteURIAndPlanName (mkRecord name (binding uri plan)) = Ok (uri, plan).
Proof.
  intros (H1 & H2 & H3 & H4 & _). unfold ReturnRouteURIAndPlanName, binding. simpl.
  change (uri +:+ "|" +:+ plan) with (uri +:+ String "|" plan). rewrite Split_app, Split_no_sep by done.
  by rewrite !bool_decide_eq_false_2.
Qed.

Section restart.
Context `{!MapOrder string}.

(** The update a stored binding gives at start-up. *)
Definition restores (ids : gmap string string) (rec : InternalDataGroupRecord) (u : updateHTTP) : Prop :=
  ∃ uri plan pid, Data rec = binding uri plan ∧ ids !! plan = Some pid ∧ pid ≠ EmptyString ∧
    hu_op u = routeUpdate.Bind ∧ hu_uri u = uri ∧ hu_planID u = pid ∧ hu_endpoint u = None.

Definition known_binding (ids : gmap string string) (rec : InternalDataGroupRecord) : Prop :=
  ∃ uri plan pid, Data rec = binding uri plan ∧ good_binding uri plan ∧ ids !! plan = Some pid ∧ pid ≠ EmptyString.

Lemma brokerUpdates_spec ids l records :
  Forall (known_binding ids) records →
  ∃ us, brokerUpdates ids l records = Ok us ∧ Forall2 (restores ids) records us.
Proof.
  revert l. induction records as [|rec records IH]; intros l Hg.
  { exists []. split; [done|constructor]. }
  apply Forall_cons in Hg as [(uri & plan & pid & HD & Hg & Hid & Hpid) Hrest].
  destruct (IH (S l) Hrest) as (us & E & Hus).
  pose proof Hg as (Hu & _ & _ & _ & [name Hn]%makeObjectName_total).
  destruct rec as [nm d]. simpl in HD. subst d. simpl. rewrite ReturnRouteURI_binding by done.
  rewrite Hid. simpl. rewrite bool_decide_eq_false_2 by done. unfold NewUpdate.
  rewrite bool_decide_eq_false_2 by done. rewrite Hn. simpl. rewrite E. simpl.
  eexists. split; [done|]. constructor; [|done]. exists uri, plan, pid. done.
Qed.

Lemma fold_records (l : list InternalDataGroupRecord) (m : gmap string string) k :
  NoDup (RecName <$> l) →
  foldl (λ m rec, <[RecName rec := Data rec]> m) m l !! k =
    match list_find (λ rec, RecName rec = k) l with Some (_, rec) => Some (Data rec) | None => m !! k end.
Proof.
  revert m. induction l as [|rec l IH]; intros m Hnd; [done|].
  apply NoDup_cons in Hnd as [Hn Hnd]. simpl. rewrite IH by done. case_decide as Hk.
  - assert (list_find (λ rec0, RecName rec0 = k) l = None) as ->.
    { apply list_find_None, Forall_forall. intros rec' Hin E. apply Hn. rewrite Hk, <-E. by apply list_elem_of_fmap_2. }
    rewrite <-Hk. by rewrite lookup_insert_eq.
  - destruct (list_find _ l) as [[? ?]|]; simpl; [done|]. by rewrite lookup_insert_ne.
Qed.

(** The records written for the bindings. *)
Definition broker_records (m : gmap string string) : list InternalDataGroupRecord :=
  (go_range (V := InternalDataGroupRecord) (populateBrokerDataGroup m)).*2.

Lemma elem_of_broker_records m rec : rec ∈ broker_records m ↔ m !! RecName rec = Some (Data rec).
Proof.
  unfold broker_records, populateBrokerDataGroup. rewrite list_elem_of_fmap. split.
  - intros ([k rec'] & -> & Hk%elem_of_go_range). rewrite map_lookup_imap in Hk. simpl.
    destruct (m !! k) as [v|] eqn:Hm; [|done]. simpl in Hk. injection Hk as <-. done.
  - intros Hm. exists (RecName rec, rec). split; [done|]. apply elem_of_go_range.
    rewrite map_lookup_imap, Hm. simpl. by destruct rec.
Qed.

Lemma NoDup_broker_records m : NoDup (RecName <$> broker_records m).
Proof.
  unfold broker_records. pose proof (go_range_NoDup_fst (V := InternalDataGroupRecord) (populateBrokerDataGroup m)) as Hnd.
  erewrite <-list_fmap_compose, list_fmap_ext; [exact Hnd|].
  intros i [k rec] Hi. simpl. apply list_elem_of_lookup_2, elem_of_go_range in Hi.
  unfold populateBrokerDataGroup in Hi. rewrite map_lookup_imap in Hi. destruct (m !! k); [|done].
  simpl in Hi. by injection Hi as <-.
Qed.

Lemma records_restore m : foldl (λ m rec, <[RecName rec := Data rec]> m) ∅ (broker_records m) = m.
Proof.
  apply map_eq. intros k. rewrite fold_records by apply NoDup_broker_records.
  destruct (list_find _ _) as [[i rec]|] eqn:E.
  - apply list_find_Some in E as (Hi & <- & _). apply list_elem_of_lookup_2, elem_of_broker_records in Hi. by rewrite Hi.
  - destruct (m !! k) as [v|] eqn:Hm; [|done]. apply list_find_None in E. rewrite Forall_forall in E.
    exfalso. apply (E (mkRecord k v)); [by apply elem_of_broker_records|done].
Qed.
End restart.

(** ** Properties *)

(** C34. Binding a route to an existing plan queues a bind update for it, and
    unbinding with the same id queues the unbind update of the same object and
    leaves the bindings of all other ids as they were. *)
Theorem broker_bind_unbind bindID routeURI planID b :
  routeURI ≠ EmptyString → count_char "|" routeURI = 0%nat →
  VerifyPlanExists planID (br_router b) = Ok tt → no_panic (makeObjectName (Uri_String routeURI)) →
  ∃ b1 b2 u1 u2, Bind bindID (Some routeURI) planID b = Ok b1 ∧ Unbind bindID b1 = Ok b2 ∧
    br_queue b2 = br_queue b ++ [u1; u2] ∧
    hu_op u1 = routeUpdate.Bind ∧ hu_planID u1 = planID ∧ hu_op u2 = routeUpdate.Unbind ∧
    hu_uri u1 = routeURI ∧ hu_uri u2 = routeURI ∧ hu_name u1 = hu_name u2 ∧
    bindIDRouteURIPlanNameMap (br_router b2) = delete bindID (bindIDRouteURIPlanNameMap (br_router b)).
Proof.
  intros Hne Hbar Hplan [name Hn]%makeObjectName_total. unfold Bind.
  destruct routeURI as [|c s]; [done|]. set (routeURI := String c s) in *.
  rewrite Hplan. simpl. unfold NewUpdate at 1. rewrite bool_decide_eq_false_2 by done. rewrite Hn. simpl.
  eexists _, _, _, _. split; [done|]. unfold Unbind. cbn [br_router UpdateRoute upd_router br_queue].
  rewrite GetRouteURI_added by done. rewrite bool_decide_eq_false_2 by done. unfold NewUpdate.
  rewrite bool_decide_eq_false_2 by done. rewrite Hn. simpl. split; [done|]. simpl. rewrite <-app_assoc.
  split_and!; try done. simpl. by rewrite delete_insert_eq.
Qed.

(** C35. The bindings whose plans are still configured survive a restart through
    the broker's data group: the
    records written for them restore the same map, in any iteration order, and
    queue one bind update per binding, with the current id of its plan. *)
Theorem broker_restart_roundtrip `{!MapOrder string} l name m r :
  (∀ id v, m !! id = Some v → ∃ uri plan pid, v = binding uri plan ∧ good_binding uri plan ∧
     planIDs (plansMap r) !! plan = Some pid ∧ pid ≠ EmptyString) →
  ∃ r' us, processBrokerDataGroup l (mkDataGroup name (broker_records m)) r = Ok (r', us) ∧
    bindIDRouteURIPlanNameMap r' = m ∧
    Forall2 (restores (planIDs (plansMap r))) (broker_records m) us.
Proof.
  intros Hm. unfold processBrokerDataGroup. simpl.
  destruct (brokerUpdates_spec (planIDs (plansMap r)) l (broker_records m)) as (us & -> & Hus).
  { apply Forall_forall. intros rec Hrec%elem_of_broker_records. exact (Hm _ _ Hrec). }
  simpl. eexists _, us. split; [done|]. split; [|done]. simpl. apply records_restore.
Qed.

(** The catalog after the plans are read: every plan of the text is offered
    once when the generator answers with different identifiers, and exactly
    the offered identifiers can be provisioned. *)
Lemma store_plans_lookup plans uuids m id :
  is_Some (store_plans plans uuids m !! id) ↔ is_Some (m !! id) ∨ id ∈ imap (λ i _, default EmptyString (uuids !! i ≫= λ u, u)) plans.
Proof.
  revert uuids m. induction plans as [|p plans IH]; intros uuids m; cbn [store_plans imap].
  { rewrite elem_of_nil. naive_solver. }
  rewrite IH, elem_of_cons, lookup_insert_is_Some'.
  assert (imap ((λ i _, default EmptyString (uuids !! i ≫= λ u, u)) ∘ S) plans =
    imap (λ i (_ : Plan), default EmptyString (tl uuids !! i ≫= λ u, u)) plans) as ->.
  { apply imap_ext. intros i x _. by destruct uuids. }
  assert ((GenerateUUID (hd None uuids)).1 = default EmptyString (uuids !! 0%nat ≫= λ u, u)) as -> by by destruct uuids as [|[] ?].
  naive_solver.
Qed.

Lemma catalog_provisions `{!MapOrder string} val verifySchema unmarshal uuids b b' id :
  ProcessPlans val verifySchema unmarshal uuids b = Ok b' → id ≠ EmptyString →
  (∃ sv name descr, sv ∈ Services b' ∧ (id, name, descr) ∈ svc_Plans sv) ↔ Provision id b' = Ok tt.
Proof.
  intros HP Hid. assert (plansMap (br_router b') = br_plans b') as Heq.
  { unfold ProcessPlans in HP. destruct val as [[|c s]|]; [done| |done].
    apply rbind_Ok in HP as ([] & _ & HP); [|done]. by apply rbind_Ok in HP as (m & _ & [= <-]). }
  unfold Provision, VerifyPlanExists. rewrite bool_decide_eq_false_2, Heq by done. split.
  - intros (sv & name & descr & ->%list_elem_of_singleton & Hin). cbn in Hin. unfold prepPlansforAPIResponse in Hin.
    apply list_elem_of_fmap in Hin as ([i p] & [= -> -> ->] & Hp%elem_of_go_range). by rewrite Hp.
  - destruct (br_plans b' !! id) as [p|] eqn:E; [|done]. intros _. eexists _, (PlanName p), (PlanDescription p).
    split; [left|]. cbn. apply list_elem_of_fmap. exists (id, p). split; [done|]. by apply elem_of_go_range.
Qed.

Definition demo_plan : Plan := mkPlan "gold" "fast" (mkPoolType "round-robin" []) (mkVirtualType [] [] []) "guid-gold".
Definition demo_broker_router : F5Router := AddPlans {["guid-gold" := demo_plan]} (emptyRouter defaultConfig [172; 0; 0; 0] demo_net).

Lemma broker_bind_unbind_witness :
  ∃ b1 b2, Bind "bind-1" (Some "foo.cf.com") "guid-gold"
      (mkBroker "id" "f5" "d" ∅ demo_broker_router []) = Ok b1 ∧ Unbind "bind-1" b1 = Ok b2.
Proof.
  destruct (broker_bind_unbind "bind-1" "foo.cf.com" "guid-gold" (mkBroker "id" "f5" "d" ∅ demo_broker_router []))
    as (b1 & b2 & u1 & u2 & H1 & H2 & _); [discriminate|reflexivity|vm_compute; reflexivity| |].
  - intros w. vm_compute. discriminate.
  - exists b1, b2. split; [exact H1|exact H2].
Defined.

Lemma broker_restart_roundtrip_witness :
  ∃ r' us, processBrokerDataGroup 0
      (mkDataGroup "cf-broker-data-group" (broker_records {["bind-1" := binding "foo.cf.com" "gold"]}))
      demo_broker_router = Ok (r', us) ∧
    bindIDRouteURIPlanNameMap r' = {["bind-1" := binding "foo.cf.com" "gold"]}.
Proof.
  destruct (broker_restart_roundtrip 0 "cf-broker-data-group" {["bind-1" := binding "foo.cf.com" "gold"]}
    demo_broker_router) as (r' & us & E & Hm & _).
  - intros id v [<- <-]%lookup_singleton_Some. exists "foo.cf.com", "gold", "guid-gold".
    split; [reflexivity|]. split; [|split; [vm_compute; reflexivity|discriminate]].
    split_and!; [discriminate|discriminate|reflexivity|reflexivity|]. intros w. vm_compute. discriminate.
  - exists r', us. split; [exact E|exact Hm].
Defined.
