(* ===== verification/RouterFacts.v ===== *)
(** What the handlers of the router do to pools and tier-2 addresses.

    The abstract state of the router's pools is a map from object names to
    sets of members; [spec_add] and [spec_remove] say what a route
    registration and its removal mean.  The handlers refine it. *)
From Stdlib Require Import Ascii ZArith Lia.
From stdpp Require Import sorting countable base list gmap strings.
From S2P Require Import Prelude GoStrings GoNet Uri Pool Config Resources Codec GoUrl Updates Tier2 Alloc Policy F5Router.
Import bigipResources planResources routeUpdate.
Local Open Scope Z_scope.

#[global] Instance Member_countable : Countable Member.
Proof.
  refine (inj_countable' (λ m, (MAddress m, MPort m, Session m)) (λ x, mkMember x.1.1 x.1.2 x.2) _).
  by intros [].
Defined.

(** ** The loops over members *)

(** A stretch without the searched member is passed over. *)
Lemma remove_loop_skip first m k i arr n :
  (match first with Some x => x | None => take n arr !! 0%nat end) = Some m →
  (i + k ≤ length arr)%nat → (∀ j x, (i ≤ j)%nat → arr !! j = Some x → x ≠ m) →
  remove_loop first k i arr n = Ok (take n arr).
Proof.
  intros Hf. revert i. induction k as [|k IH]; intros i Hlen Hne; [done|]. cbn [remove_loop].
  destruct (lookup_lt_is_Some_2 arr i) as [x Hx]; [lia|]. rewrite Hx, Hf.
  rewrite bool_decide_eq_false_2 by (by eapply Hne). apply IH; [lia|]. intros j y Hj. apply Hne. lia.
Qed.

(** One turn that removes the member at [i]. *)
Lemma remove_loop_hit first m k i ms :
  (match first with Some x => x | None => ms !! 0%nat end) = Some m →
  ms !! i = Some m →
  remove_loop first (S k) i ms (length ms) =
    remove_loop first k (S i)
      (<[(length ms - 1)%nat := zeroMember]> (<[i := default zeroMember (ms !! (length ms - 1)%nat)]> ms))
      (length ms - 1).
Proof.
  intros Hf Hi. cbn [remove_loop]. rewrite Hi, firstn_all.
  destruct first as [x|]; rewrite Hf, bool_decide_refl;
    by rewrite (proj2 (Nat.ltb_lt i (length ms))) by (by eapply lookup_lt_Some).
Qed.

Lemma swap_remove_arr i (ms : list Member) :
  (i < length ms)%nat →
  take (length ms - 1) (<[(length ms - 1)%nat := zeroMember]>
    (<[i := default zeroMember (ms !! (length ms - 1)%nat)]> ms)) = swap_remove i ms.
Proof.
  intros Hi. unfold swap_remove. destruct (lookup_lt_is_Some_2 ms (length ms - 1)) as [y Hy]; [lia|].
  rewrite Hy. simpl. by rewrite take_insert_ge by lia.
Qed.

(** After the removal nothing else matches. *)
Lemma removed_rest i m (ms : list Member) j x :
  NoDup ms → zeroMember ∉ ms → ms !! i = Some m → (i < j)%nat →
  <[(length ms - 1)%nat := zeroMember]>
    (<[i := default zeroMember (ms !! (length ms - 1)%nat)]> ms) !! j = Some x →
  x = zeroMember ∨ (ms !! j = Some x ∧ (j < length ms - 1)%nat).
Proof.
  intros Hnd Hz Hi Hij Hx. destruct (decide (j = length ms - 1)%nat) as [->|Hj].
  - rewrite list_lookup_insert_eq in Hx by (rewrite length_insert; apply lookup_lt_Some in Hi; lia).
    left. by simplify_eq.
  - rewrite !list_lookup_insert_ne in Hx by lia. right. split; [done|].
    apply lookup_lt_Some in Hx. lia.
Qed.

Lemma remove_loop_found m i ms :
  NoDup ms → zeroMember ∉ ms → ms !! i = Some m →
  remove_loop (Some (Some m)) (length ms) 0 ms (length ms) = Ok (swap_remove i ms).
Proof.
  intros Hnd Hz Hi.
  assert (∀ k j, (j ≤ i)%nat → (j + k = length ms)%nat →
    remove_loop (Some (Some m)) k j ms (length ms) = Ok (swap_remove i ms)) as Hgen; [|by apply Hgen; lia].
  pose proof (lookup_lt_Some _ _ _ Hi) as Hlt.
  induction k as [|k IH]; intros j Hj Hk; [lia|].
  destruct (decide (j = i)) as [->|Hne].
  - rewrite (remove_loop_hit (Some (Some m)) m) by done. rewrite <-swap_remove_arr by done.
    apply (remove_loop_skip (Some (Some m)) m); [done|rewrite !length_insert; lia|].
    intros j' x Hj' Hx. apply removed_rest with (m := m) in Hx as [->|[Hx _]]; try done; try lia.
    + intros <-. apply Hz. by eapply list_elem_of_lookup_2.
    + intros ->. pose proof (NoDup_lookup ms i j' m Hnd Hi Hx). lia.
  - cbn [remove_loop]. destruct (lookup_lt_is_Some_2 ms j) as [x Hx]; [lia|]. rewrite Hx.
    rewrite bool_decide_eq_false_2; [apply IH; lia|].
    intros ->. by pose proof (NoDup_lookup ms i j m Hnd Hi Hx).
Qed.

Lemma remove_loop_absent m ms :
  m ∉ ms → remove_loop (Some (Some m)) (length ms) 0 ms (length ms) = Ok ms.
Proof.
  intros Hm. rewrite (remove_loop_skip (Some (Some m)) m) by
    (try done; intros j x _ Hx ->; apply Hm; by eapply list_elem_of_lookup_2).
  by rewrite firstn_all.
Qed.

(** The pool is removed from itself: its first member goes. *)
Lemma remove_loop_self m ms :
  NoDup (m :: ms) → zeroMember ∉ m :: ms →
  remove_loop None (length (m :: ms)) 0 (m :: ms) (length (m :: ms)) = Ok (swap_remove 0 (m :: ms)).
Proof.
  intros Hnd Hz. set (l := m :: ms) in *.
  change (length l) with (S (length ms)) at 1. rewrite (remove_loop_hit None m) by done.
  rewrite <-swap_remove_arr by (simpl; lia).
  destruct ms as [|m1 ms']; [done|].
  destruct (lookup_lt_is_Some_2 l (length l - 1)) as [y Hy]; [simpl; lia|].
  assert (y ∈ l) as Hyl by (by eapply list_elem_of_lookup_2).
  apply (remove_loop_skip None y).
  - rewrite lookup_take_lt by (simpl; lia). rewrite list_lookup_insert_ne by (simpl; lia).
    rewrite list_lookup_insert_eq by (simpl; lia). by rewrite Hy.
  - rewrite !length_insert. simpl. lia.
  - intros j x Hj Hx. apply removed_rest with (m := m) in Hx as [->|[Hx Hjl]]; try done; [by intros <-|].
    intros ->. pose proof (NoDup_lookup l j _ y Hnd Hx Hy). lia.
Qed.

(** ** Pools *)
Definition set_pool_state (ps : gmap loc bigipResources.Pool) (np : loc) (pr : gmap string loc)
  (r : F5Router) : F5Router :=
  mkRouter (rc r) (r_rules r) (r_wildcards r) ps np pr (virtualResources r) (ruleResources r)
    (monitorResources r) (internalDataGroup r) (tier2 r) (firstSyncDone r) (unmappedResourcesMap r)
    (plansMap r) (bindIDRouteURIPlanNameMap r).

Definition pool_view (r : F5Router) : gmap string bigipResources.Pool :=
  omap (λ l, pools r !! l) (poolResources r).

(** The members of each pool, as a set. *)
Definition abs (r : F5Router) : gmap string (gset Member) :=
  (λ p, list_to_set (Members p)) <$> pool_view r.

Definition pool_ok (n : string) (p : bigipResources.Pool) : Prop :=
  Name p = n ∧ Members p ≠ [] ∧ NoDup (Members p) ∧ zeroMember ∉ Members p.

Record pools_ok (r : F5Router) : Prop := {
  po_valid : ∀ n l, poolResources r !! n = Some l → ∃ p, pools r !! l = Some p ∧ pool_ok n p;
  po_next : ∀ l, is_Some (pools r !! l) → (l < next_pool r)%nat
}.

Definition spec_add (n : string) (m : Member) (a : gmap string (gset Member)) : gmap string (gset Member) :=
  <[n := {[m]} ∪ default ∅ (a !! n)]> a.

Definition spec_remove (n : string) (m : Member) (a : gmap string (gset Member)) : gmap string (gset Member) :=
  match a !! n with
  | None => a
  | Some s => if decide (s ∖ {[m]} = ∅) then delete n a else <[n := s ∖ {[m]}]> a
  end.

Lemma view_lookup r n : pool_view r !! n = poolResources r !! n ≫= λ l, pools r !! l.
Proof. unfold pool_view. by rewrite lookup_omap. Qed.

Lemma router_abs_lookup r n : abs r !! n = (λ p, list_to_set (Members p)) <$> pool_view r !! n.
Proof. unfold abs. by rewrite lookup_fmap. Qed.

Lemma view_ok r n p : pools_ok r → pool_view r !! n = Some p → pool_ok n p.
Proof.
  intros [Hv _]. rewrite view_lookup. destruct (poolResources r !! n) as [l|] eqn:E; [|done].
  destruct (Hv n l E) as (p' & Hp & ?). simpl. rewrite Hp. by intros [= ->].
Qed.

(** Two names never share a pool object. *)
Lemma pool_loc_inj r n1 n2 l :
  pools_ok r → poolResources r !! n1 = Some l → poolResources r !! n2 = Some l → n1 = n2.
Proof.
  intros [Hv _] H1 H2. destruct (Hv _ _ H1) as (p & Hp & [<- _]), (Hv _ _ H2) as (p' & Hp' & [<- _]).
  congruence.
Qed.

(** The result of a pool operation: a router that differs in its pools only. *)
Definition pools_step (r r' : F5Router) : Prop :=
  pools_ok r' ∧ ∃ ps np pr, r' = set_pool_state ps np pr r.

Lemma pool_loc_lt r n l : pools_ok r → poolResources r !! n = Some l → (l < next_pool r)%nat.
Proof. intros [Hv Hn] H. destruct (Hv _ _ H) as (q & Hq & _). apply Hn. by rewrite Hq. Qed.

(** An argument [p] is allocated and the pool [n] becomes [q]. *)
Lemma write_step r p n l q :
  pools_ok r → poolResources r !! n = Some l → pool_ok n q →
  let r' := set_pool_state (<[l := q]> (<[next_pool r := p]> (pools r))) (S (next_pool r)) (poolResources r) r in
  pools_step r r' ∧ pool_view r' = <[n := q]> (pool_view r).
Proof.
  intros Hok Hn Hq r'.
  assert (∀ n' l', poolResources r !! n' = Some l' →
    pools r' !! l' = if decide (n' = n) then Some q else pools r !! l') as Hlook.
  { intros n' l' Hl'. simpl. pose proof (pool_loc_lt r n' l' Hok Hl'). case_decide as Hnn.
    - subst n'. rewrite Hn in Hl'. injection Hl' as ->. by rewrite lookup_insert_eq.
    - rewrite !lookup_insert_ne; [done|lia|]. intros ->. by apply Hnn, (pool_loc_inj r n' n l'). }
  split; [split; [|by eexists _, _, _]; constructor|].
  - intros n' l' Hl'. rewrite (Hlook n' l' Hl'). case_decide as Hnn; [subst; eauto|]. by apply (po_valid r).
  - intros k. simpl. pose proof (pool_loc_lt r n l Hok Hn).
    destruct (decide (k = l)) as [->|]; [lia|]. rewrite lookup_insert_ne by done.
    destruct (decide (k = next_pool r)) as [->|]; [lia|]. rewrite lookup_insert_ne by done.
    intros Hk%(po_next _ Hok). lia.
  - apply map_eq. intros n'. rewrite view_lookup. simpl poolResources.
    destruct (poolResources r !! n') as [l'|] eqn:Hl'; cbn [mbind option_bind].
    + rewrite (Hlook n' l' Hl'). case_decide as Hnn; [subst; by rewrite lookup_insert_eq|].
      by rewrite lookup_insert_ne, view_lookup, Hl' by done.
    + rewrite lookup_insert_ne by congruence. by rewrite view_lookup, Hl'.
Qed.

Lemma fresh_loc r l n : pools_ok r → poolResources r !! n = Some l → l ≠ next_pool r.
Proof. intros Hok H. pose proof (pool_loc_lt r n l Hok H). lia. Qed.

(** The argument becomes the pool of its name. *)
Lemma new_step r p :
  pools_ok r → pool_ok (Name p) p →
  let r' := set_pool_state (<[next_pool r := p]> (pools r)) (S (next_pool r))
              (<[Name p := next_pool r]> (poolResources r)) r in
  pools_step r r' ∧ pool_view r' = <[Name p := p]> (pool_view r).
Proof.
  intros Hok Hp r'. split; [split; [|by eexists _, _, _]; constructor|]; simpl.
  - intros n l. destruct (decide (n = Name p)) as [->|Hne].
    + rewrite lookup_insert_eq. intros [= <-]. exists p. by rewrite lookup_insert_eq.
    + rewrite lookup_insert_ne by done. intros Hl.
      rewrite lookup_insert_ne by (symmetry; by eapply fresh_loc). by apply (po_valid r).
  - intros k. destruct (decide (k = next_pool r)) as [->|]; [lia|]. rewrite lookup_insert_ne by done.
    intros Hk%(po_next _ Hok). lia.
  - apply map_eq. intros n. rewrite view_lookup. simpl. destruct (decide (n = Name p)) as [->|Hne].
    + rewrite !lookup_insert_eq. simpl. by rewrite lookup_insert_eq.
    + rewrite !lookup_insert_ne, view_lookup by done.
      destruct (poolResources r !! n) as [l|] eqn:Hl; [|done]. simpl.
      by rewrite lookup_insert_ne by (symmetry; by eapply fresh_loc).
Qed.

(** The pool [n] is dropped from the map. *)
Lemma delete_step r p n l q :
  pools_ok r → poolResources r !! n = Some l →
  let r' := set_pool_state (<[l := q]> (<[next_pool r := p]> (pools r))) (S (next_pool r))
              (delete n (poolResources r)) r in
  pools_step r r' ∧ pool_view r' = delete n (pool_view r).
Proof.
  intros Hok Hn r'.
  assert (∀ n' l', n' ≠ n → poolResources r !! n' = Some l' → pools r' !! l' = pools r !! l') as Hlook.
  { intros n' l' Hne Hl'. simpl. rewrite !lookup_insert_ne; [done|symmetry; by eapply fresh_loc|].
    intros ->. by apply Hne, (pool_loc_inj r n' n l'). }
  split; [split; [|by eexists _, _, _]; constructor|].
  - intros n' l'. simpl poolResources. intros [Hne Hl']%lookup_delete_Some.
    rewrite (Hlook n' l') by done. by apply (po_valid r).
  - intros k. simpl. pose proof (pool_loc_lt r n l Hok Hn).
    destruct (decide (k = l)) as [->|]; [lia|]. rewrite lookup_insert_ne by done.
    destruct (decide (k = next_pool r)) as [->|]; [lia|]. rewrite lookup_insert_ne by done.
    intros Hk%(po_next _ Hok). lia.
  - apply map_eq. intros n'. rewrite view_lookup. simpl poolResources.
    destruct (decide (n' = n)) as [->|Hne]; [by rewrite !lookup_delete_eq|].
    rewrite !lookup_delete_ne, view_lookup by done.
    destruct (poolResources r !! n') as [l'|] eqn:Hl'; [|done]. by apply (Hlook n').
Qed.

Lemma pool_ok_add n q m :
  pool_ok n q → m ∉ Members q → m ≠ zeroMember → pool_ok n (set_Members (Members q ++ [m]) q).
Proof.
  intros (? & ? & ? & ?) Hm Hz. split_and!; simpl; [done|by destruct (Members q)| |set_solver].
  apply list.NoDup_app. split_and!; [done|set_solver|apply NoDup_singleton].
Qed.

(** What [addPool] leaves at the name of its argument. *)
Definition added (m : Member) (p : bigipResources.Pool) (old : option bigipResources.Pool) : bigipResources.Pool :=
  match old with
  | Some q => if decide (m ∈ Members q) then q else set_Members (Members q ++ [m]) q
  | None => p
  end.

Lemma addPool_spec r p m :
  pools_ok r → Members p = [m] → m ≠ zeroMember →
  ∃ r', addPool (next_pool r) (alloc_pool p r).1 = Ok r' ∧ pools_step r r' ∧
    pool_view r' = <[Name p := added m p (pool_view r !! Name p)]> (pool_view r).
Proof.
  intros Hok Hm Hz. unfold addPool, get_pool. simpl. rewrite lookup_insert_eq. simpl.
  rewrite view_lookup. destruct (poolResources r !! Name p) as [lp|] eqn:Hn; simpl.
  - destruct (po_valid _ Hok _ _ Hn) as (q & Hq & Hqok).
    rewrite lookup_insert_ne by (symmetry; by eapply fresh_loc). rewrite Hq. simpl. rewrite Hm.
    pose proof Hqok as (_ & Hne & _). destruct (Members q) as [|q0 qs] eqn:Hqm; [done|]. rewrite <-Hqm in *.
    case_bool_decide as Hin; eexists; (split; [done|]).
    + rewrite decide_True by done. destruct (write_step r p (Name p) lp q Hok Hn Hqok) as [Hs Hv].
      rewrite (insert_id _ lp q) in Hs, Hv
        by (by rewrite lookup_insert_ne by (symmetry; by eapply fresh_loc)). done.
    + rewrite decide_False by done. apply (write_step r p (Name p) lp); [done|done|by apply pool_ok_add].
  - eexists. split; [done|]. apply (new_step r p); [done|].
    split_and!; rewrite ?Hm; [done|done|apply NoDup_singleton|set_solver].
Qed.

Lemma added_members m p old :
  Members p = [m] →
  (list_to_set (Members (added m p old)) : gset Member) =
    {[m]} ∪ default ∅ ((λ q, list_to_set (Members q)) <$> old).
Proof.
  intros Hm. destruct old as [q|]; simpl; [case_decide|rewrite Hm]; simpl.
  - set_solver.
  - rewrite list_to_set_app_L. set_solver.
  - set_solver.
Qed.

Lemma addPool_abs r r' p m :
  Members p = [m] →
  pool_view r' = <[Name p := added m p (pool_view r !! Name p)]> (pool_view r) →
  abs r' = spec_add (Name p) m (abs r).
Proof.
  intros Hm Hv. unfold abs, spec_add. rewrite Hv, fmap_insert, lookup_fmap. f_equal.
  by apply added_members.
Qed.

Lemma alloc_step r p :
  pools_ok r → pools_step r (alloc_pool p r).1 ∧ pool_view (alloc_pool p r).1 = pool_view r.
Proof.
  intros Hok. split; [split; [|by eexists _, _, _]; constructor|]; simpl.
  - intros n l Hl. rewrite lookup_insert_ne by (symmetry; by eapply fresh_loc). by apply (po_valid r).
  - intros k. destruct (decide (k = next_pool r)) as [->|]; [lia|]. rewrite lookup_insert_ne by done.
    intros Hk%(po_next _ Hok). lia.
  - apply map_eq. intros n. rewrite !view_lookup. simpl.
    destruct (poolResources r !! n) as [l|] eqn:Hl; [|done]. simpl.
    by rewrite lookup_insert_ne by (symmetry; by eapply fresh_loc).
Qed.

(** The members left: the last one takes the place of the removed one. *)
Definition remove_member (m : Member) (ms : list Member) : list Member :=
  match list_find (λ x, x = m) ms with
  | Some (i, _) => swap_remove i ms
  | None => ms
  end.

Lemma remove_member_spec m ms :
  NoDup ms → NoDup (remove_member m ms) ∧ (∀ x, x ∈ remove_member m ms ↔ x ∈ ms ∧ x ≠ m).
Proof.
  intros Hnd. unfold remove_member. destruct (list_find _ ms) as [[i x]|] eqn:E.
  - apply list_find_Some in E as (Hi & -> & _). by apply swap_remove_NoDup.
  - apply list_find_None in E. rewrite Forall_forall in E. split; [done|].
    intros x. split; [|by intros [? _]]. intros Hx. split; [done|]. intros ->. exact (E m Hx eq_refl).
Qed.

Lemma remove_loop_member m ms :
  NoDup ms → zeroMember ∉ ms →
  remove_loop (Some (Some m)) (length ms) 0 ms (length ms) = Ok (remove_member m ms).
Proof.
  intros Hnd Hz. unfold remove_member. destruct (list_find _ ms) as [[i x]|] eqn:E.
  - apply list_find_Some in E as (Hi & -> & _). by apply remove_loop_found.
  - apply list_find_None in E. apply remove_loop_absent. rewrite Forall_forall in E.
    intros Hm. exact (E m Hm eq_refl).
Qed.

Definition removed (m : Member) (old : option bigipResources.Pool) : option bigipResources.Pool :=
  q ← old; match remove_member m (Members q) with [] => None | ms => Some (set_Members ms q) end.

Lemma removePool_spec r p m :
  pools_ok r → Members p = [m] →
  ∃ r' b, removePool (next_pool r) (alloc_pool p r).1 = Ok (r', b) ∧ pools_step r r' ∧
    pool_view r' = partial_alter (removed m) (Name p) (pool_view r) ∧
    (b = true ↔ is_Some (pool_view r !! Name p) ∧ pool_view r' !! Name p = None).
Proof.
  intros Hok Hm. unfold removePool, get_pool. simpl. rewrite lookup_insert_eq. simpl.
  destruct (poolResources r !! Name p) as [lp|] eqn:Hn; simpl.
  - destruct (po_valid _ Hok _ _ Hn) as (q & Hq & Hqok).
    assert (pool_view r !! Name p = Some q) as Hvq by (by rewrite view_lookup, Hn).
    rewrite lookup_insert_ne by (symmetry; by eapply fresh_loc). rewrite Hq. simpl.
    rewrite bool_decide_eq_false_2 by (by eapply fresh_loc). rewrite Hm. simpl.
    pose proof Hqok as (Hqn & _ & Hnd & Hz). rewrite remove_loop_member by done. simpl.
    destruct (remove_member_spec m (Members q) Hnd) as [Hnd' Hin].
    assert (removed m (Some q) = match remove_member m (Members q) with
      [] => None | ms => Some (set_Members ms q) end) as Hrem by done.
    destruct (remove_member m (Members q)) as [|m0 ms] eqn:Hms.
    + destruct (delete_step r p (Name p) lp (set_Members [] q) Hok Hn) as [Hs Hv].
      
      match type of Hs with pools_step _ ?r' => exists r', true end. split; [done|]. split; [exact Hs|]. rewrite Hv, lookup_delete_eq, Hvq. split; [|naive_solver].
      apply map_eq. intros n. destruct (decide (n = Name p)) as [->|].
      * by rewrite lookup_delete_eq, lookup_partial_alter_eq, Hvq, Hrem.
      * by rewrite lookup_delete_ne, lookup_partial_alter_ne by done.
    + destruct (write_step r p (Name p) lp (set_Members (m0 :: ms) q) Hok Hn) as [Hs Hv].
      { split_and!; simpl; [done|done|done|]. intros H. apply Hz. by apply Hin in H as [? _]. }
      match type of Hs with pools_step _ ?r' => exists r', false end. split; [done|]. split; [exact Hs|]. rewrite Hv, lookup_insert_eq. split; [|naive_solver].
      apply map_eq. intros n. destruct (decide (n = Name p)) as [->|].
      * by rewrite lookup_insert_eq, lookup_partial_alter_eq, Hvq, Hrem.
      * by rewrite lookup_insert_ne, lookup_partial_alter_ne by done.
  - destruct (alloc_step r p Hok) as [Hs Hv]. exists (alloc_pool p r).1, false. split; [done|]. split; [done|].
    assert (pool_view r !! Name p = None) as Hvn by (by rewrite view_lookup, Hn).
    rewrite Hv, Hvn. split; [|split; [done|by intros [[? [=]] _]]].
    symmetry. by apply partial_alter_id; rewrite Hvn.
Qed.

Lemma removePool_abs r r' p m :
  pools_ok r → pool_view r' = partial_alter (removed m) (Name p) (pool_view r) →
  abs r' = spec_remove (Name p) m (abs r).
Proof.
  intros Hok Hv. unfold abs. rewrite Hv. unfold spec_remove. rewrite lookup_fmap.
  destruct (pool_view r !! Name p) as [q|] eqn:Hq; simpl.
  - pose proof (view_ok r _ _ Hok Hq) as (_ & _ & Hnd & _).
    destruct (remove_member_spec m (Members q) Hnd) as [_ Hin].
    assert ((list_to_set (remove_member m (Members q)) : gset Member) = list_to_set (Members q) ∖ {[m]}) as Hset.
    { apply set_eq. intros x. rewrite elem_of_difference, !elem_of_list_to_set, elem_of_singleton. apply Hin. }
    rewrite <-Hset. apply map_eq. intros n. rewrite lookup_fmap.
    destruct (decide (n = Name p)) as [->|Hne].
    + rewrite lookup_partial_alter_eq, Hq. simpl.
      destruct (remove_member m (Members q)) as [|m0 ms] eqn:Hms.
      * rewrite decide_True by done. by rewrite lookup_delete_eq.
      * rewrite decide_False by (simpl; set_solver). by rewrite lookup_insert_eq.
    + rewrite lookup_partial_alter_ne by done. case_decide.
      * by rewrite lookup_delete_ne, lookup_fmap by done.
      * by rewrite lookup_insert_ne, lookup_fmap by done.
  - by rewrite partial_alter_id by (by rewrite Hq).
Qed.

(** ** The invariant of the router *)
Record router_inv (I : tier2VSInfo → DataGroup → Prop) (r : F5Router) : Prop := {
  ro_pools : pools_ok r;
  ro_alloc : I (tier2 r) (internalDataGroup r);
  ro_part : ∃ p, partition0 (rc r) = Ok p;
  ro_virt : ∀ n v, virtualResources r !! n = Some v → VirtualServerName v = n;
  ro_dest : ∀ n v va p, virtualResources r !! n = Some v → dg_addr (internalDataGroup r) n va →
    partition0 (rc r) = Ok p → verifyDestAddress va p = Ok (Destination v)
}.
Arguments ro_pools {I} r _. Arguments ro_alloc {I} r _. Arguments ro_part {I} r _.
Arguments ro_virt {I} r _. Arguments ro_dest {I} r _.

(** The invariant in which no two routes share an address. *)
Abbreviation router_ok := (router_inv alloc_ok).

Definition member_of (ep : Endpoint) : Member := mkMember (Pool.Address ep) (Pool.Port ep) "user-enabled".

Lemma joinBigipPath_Ok p n : n ≠ EmptyString → ∃ s, joinBigipPath p n = Ok s.
Proof. intros Hn. unfold joinBigipPath. rewrite bool_decide_eq_false_2 by done. case_bool_decide; eauto. Qed.

(** The resources of an update with an endpoint. *)
Lemma HTTP_resources ru c ep p :
  partition0 c = Ok p → hu_endpoint ru = Some ep → Pool.Address ep ≠ EmptyString → hu_name ru ≠ EmptyString →
  ∃ vs pool, CreateResources ru c = Ok (mkResources [vs] [pool] [] [] [] []) ∧
    VirtualServerName vs = hu_name ru ∧ Name pool = hu_name ru ∧ Members pool = [member_of ep].
Proof.
  intros Hp Hep Ha Hn. simpl. unfold HTTP_CreateResources, createResources. rewrite Hp. cbn [rbind].
  destruct (joinBigipPath_Ok p JsessionidIRuleName) as [j Hj]; [done|].
  destruct (joinBigipPath_Ok p (hu_name ru)) as [q Hq]; [done|]. rewrite Hj, Hq, Hep. cbn [rbind].
  assert (∀ {A B} (b : bool) (x y : A) (k : A → result B),
    rbind (if b then Ok x else Ok y) k = k (if b then x else y)) as Hif by (by intros ?? []).
  rewrite Hif. rewrite bool_decide_eq_false_2 by done. cbn [orb].
  rewrite bool_decide_eq_false_2 by (unfold makeDescription; by case_bool_decide).
  eexists _, _. split; [done|]. done.
Qed.

(** Updating with a plan keeps names and members. *)
Lemma UpdateResources_keeps vs pool new :
  ∃ vs' pool' ms, UpdateResources (mkResources [vs] [pool] [] [] [] []) new = Ok (mkResources [vs'] [pool'] ms [] [] []) ∧
    VirtualServerName vs' = VirtualServerName vs ∧ Name pool' = Name pool ∧ Members pool' = Members pool.
Proof.
  unfold UpdateResources. cbn [Virtuals Pools Monitors RPolicies RIRules InternalDataGroups].
  assert (∀ new, VirtualServerName (updateVirtual new vs) = VirtualServerName vs) as Hv
    by (intros n; unfold updateVirtual, when; by destruct (nonempty _), (nonempty _)).
  assert (∀ new, Name (updatePool new pool) = Name pool ∧ Members (updatePool new pool) = Members pool) as Hp
    by (intros n; unfold updatePool, when; by destruct (nonempty _), (negb _)).
  destruct (Virtuals new) as [|v ?]; [|destruct (nonempty _ || nonempty _)];
    (destruct (Pools new) as [|q ?]; [|destruct (negb _ || nonempty _)]); cbn [update_head rbind];
    eexists _, _, _; (split; [done|]); split_and!; try done; apply Hp.
Qed.

Lemma verifyDestAddress_Ok va p : is_Some (ParseIP (BindAddr va)) → ∃ d, verifyDestAddress va p = Ok d.
Proof. intros [x Hx]. unfold verifyDestAddress. destruct (splitIPWithRouteDomain _). rewrite Hx. eauto. Qed.

(** The allocator and the data group after [assignVSPort]. *)
Definition assigned_state (r : F5Router) (key : string) : tier2VSInfo * DataGroup :=
  match virtualResources r !! key with
  | Some _ => (tier2 r, internalDataGroup r)
  | None => (assignAddress (tier2 r) (internalDataGroup r) key).1
  end.

(** The handlers, over any invariant of the allocator. *)
Section handlers.
Context (I : tier2VSInfo → DataGroup → Prop) `{!AllocInv I}.

(** No address is left for a virtual server that is new. *)
Definition no_address (r : F5Router) (key : string) : Prop :=
  ∃ e, (assignAddress (tier2 r) (internalDataGroup r) key).2 = Err e.

Definition exhausted (r : F5Router) (key : string) : Prop :=
  virtualResources r !! key = None ∧ no_address r key.

#[global] Instance no_address_dec r key : Decision (no_address r key).
Proof.
  unfold no_address. destruct (assignAddress _ _ _).2 as [a|e|w]; [right; by intros [? ?]|by left; exists e|right; by intros [? ?]].
Defined.

#[global] Instance exhausted_dec r key : Decision (exhausted r key).
Proof. apply _. Defined.

Lemma exhausted_assign vs r :
  exhausted r (VirtualServerName vs) → ∃ r' e, assignVSPort vs r = (r', Err e).
Proof.
  intros [Hv [e He]]. unfold assignVSPort. rewrite Hv.
  destruct (assignAddress _ _ _) as [[t dg] res]. cbn in He. subst res. eauto.
Qed.

(** The outcome of [assignVSPort] for a virtual server of name [key]. *)
Definition assigned (r : F5Router) (key : string) (vs : Virtual) (out : F5Router * result Virtual) : Prop :=
  ∃ t dg, out.1 = set_tier2 t dg r ∧ (t, dg) = assigned_state r key ∧ I t dg ∧
  (∀ n, n ≠ key → dg !! n = internalDataGroup r !! n) ∧
  match out.2 with
  | Ok vs' => ∃ d, vs' = set_Destination d vs ∧
      match virtualResources r !! key with
      | Some v => d = Destination v ∧ dg = internalDataGroup r ∧ t = tier2 r
      | None => ∃ va p, dg_addr dg key va ∧ partition0 (rc r) = Ok p ∧ verifyDestAddress va p = Ok d
      end
  | Err _ => virtualResources r !! key = None ∧ dg = internalDataGroup r ∧ no_address r key
  | Panic _ => False
  end.

Lemma set_tier2_id r : set_tier2 (tier2 r) (internalDataGroup r) r = r.
Proof. by destruct r. Qed.

Lemma assignVSPort_ok vs r :
  router_inv I r → assigned r (VirtualServerName vs) vs (assignVSPort vs r).
Proof.
  intros Hok. unfold assigned, assigned_state, assignVSPort. set (key := VirtualServerName vs).
  destruct (virtualResources r !! key) as [v|] eqn:Hv.
  { exists (tier2 r), (internalDataGroup r). rewrite set_tier2_id. split_and!; [done|done|apply Hok|done|]. by exists (Destination v). }
  destruct (ro_part _ Hok) as [p Hp].
  assert (∀ t dg va, I t dg → dg_addr dg key va → ∃ d,
    rbind (partition0 (rc r)) (λ partition, rbind (verifyDestAddress va partition)
      (λ dest, Ok (set_Destination dest vs))) = Ok (set_Destination d vs) ∧ verifyDestAddress va p = Ok d) as Hdest.
  { intros t dg va Hal Ha. rewrite Hp. cbn [rbind].
    destruct (verifyDestAddress_Ok va p) as [d Hd]; [by eapply ai_parse|]. rewrite Hd. cbn [rbind]. eauto. }
  destruct (internalDataGroup r !! key) as [record|] eqn:Hrec.
  - unfold assignAddress. rewrite Hrec.
    destruct (ai_live _ _ key (ro_alloc _ Hok)) as [va Ha]; [by rewrite Hrec|].
    pose proof Ha as (rec' & Hrec' & Hdec). rewrite Hrec in Hrec'. injection Hrec' as <-. rewrite Hdec.
    exists (tier2 r), (internalDataGroup r). split_and!; [done|done|apply Hok|done|].
    destruct (Hdest _ _ va (ro_alloc _ Hok) Ha) as (d & -> & Hd). simpl. exists d. split; [done|]. eauto.
  - pose proof (ai_assign _ _ key (ro_alloc _ Hok) Hrec) as Has.
    assert (∀ n, n ≠ key → (assignAddress (tier2 r) (internalDataGroup r) key).1.2 !! n = internalDataGroup r !! n) as Hother.
    { intros n Hn. unfold assignAddress. rewrite Hrec.
      destruct (getAvailableVirtualAddress (tier2 r)) as [t' [va|e|w]]; [|done|done]. simpl.
      by rewrite lookup_insert_ne. }
    unfold no_address. destruct (assignAddress (tier2 r) (internalDataGroup r) key) as [[t dg] [[va|]|e|w]]; try done.
    + destruct Has as [Hal Ha]. exists t, dg. split_and!; [done|done|done|by apply Hother|].
      destruct (Hdest t dg va Hal Ha) as (d & -> & Hd). simpl. exists d. split; [done|]. eauto.
    + destruct Has as [Hal ->]. exists t, (internalDataGroup r). simpl. split_and!; try done. by exists e.
Qed.

(** The rule stored for a route; the inner [None] is a nil rule. *)
Definition stored_rule (r : F5Router) (ru : updateHTTP) : option (option Rule) :=
  (if contains_char "*" (Uri_String (hu_uri ru)) then r_wildcards r else r_rules r) !! hu_uri ru.

Definition made_rule (ru : updateHTTP) : option Rule :=
  match makeRouteRule ru with Ok rl => Some rl | _ => None end.

Definition set_rules (rs ws : RuleMap) (r : F5Router) : F5Router :=
  upd_wildcards (λ _, ws) (upd_rules (λ _, rs) r).

(** The two maps of rules after the route of [ru] was given rule [f]. *)
Definition alter_rules (f : option (option Rule)) (ru : updateHTTP) (r : F5Router) : RuleMap * RuleMap :=
  let alter m := partial_alter (λ _, f) (hu_uri ru) m in
  if contains_char "*" (Uri_String (hu_uri ru)) then (r_rules r, alter (r_wildcards r))
  else (alter (r_rules r), r_wildcards r).

Lemma addRule_spec ru r :
  no_panic (makeRouteRule ru) →
  ∃ rs ws, addRule ru r = Ok (set_rules rs ws r) ∧ (rs, ws) = alter_rules (Some (made_rule ru)) ru r ∧
    stored_rule (set_rules rs ws r) ru = Some (made_rule ru).
Proof.
  intros Hnp. unfold addRule, made_rule, stored_rule, alter_rules.
  destruct (makeRouteRule ru) as [rl|e|w] eqn:E; [| |by destruct (Hnp w)];
    destruct (contains_char _ _);
    [exists (r_rules r), (<[hu_uri ru := Some rl]> (r_wildcards r))
    |exists (<[hu_uri ru := Some rl]> (r_rules r)), (r_wildcards r)
    |exists (r_rules r), (<[hu_uri ru := None]> (r_wildcards r))
    |exists (<[hu_uri ru := None]> (r_rules r)), (r_wildcards r)];
    (split; [by destruct r|]); (split; [done|]); simpl; by rewrite lookup_insert_eq.
Qed.

Lemma pools_ok_ext r r' :
  pools r' = pools r → next_pool r' = next_pool r → poolResources r' = poolResources r →
  pools_ok r → pools_ok r'.
Proof. intros Hp Hn Hr [H1 H2]. constructor; rewrite ?Hp, ?Hn, ?Hr; done. Qed.

(** Adding a virtual server that was assigned its destination. *)
Lemma addVirtual_ok r key vs vs' r1 r2 :
  router_inv I r → VirtualServerName vs = key → assigned r key vs (r1, Ok vs') →
  pools_ok r2 → rc r2 = rc r1 → virtualResources r2 = virtualResources r1 →
  tier2 r2 = tier2 r1 → internalDataGroup r2 = internalDataGroup r1 →
  router_inv I (addVirtual vs' r2) ∧ is_Some (virtualResources (addVirtual vs' r2) !! key) ∧
  abs (addVirtual vs' r2) = abs r2.
Proof.
  intros Hok Hn (t & dg & Hr1 & _ & Hal & Hoth & d & -> & Hd) Hpo Hrc Hvi Ht Hdg.
  simpl in Hr1. subst r1. simpl in *. unfold addVirtual. simpl. rewrite Hn, Hvi.
  destruct (virtualResources r !! key) as [v|] eqn:Hv.
  - destruct Hd as (-> & -> & ->). rewrite Hvi, Hv. split_and!; [|by eexists|done].
    constructor; [done|by rewrite Ht, Hdg|rewrite Hrc; apply Hok|rewrite Hvi; apply Hok|].
    rewrite Hvi, Hdg, Hrc. apply Hok.
  - destruct Hd as (va & p & Ha & Hp & Hd). split_and!; [|simpl; by rewrite lookup_insert_eq|done].
    constructor; simpl; [by eapply pools_ok_ext; [..|exact Hpo]|by rewrite Ht, Hdg|rewrite Hrc; apply Hok| |];
      rewrite Hvi.
    + intros n v'. destruct (decide (n = key)) as [->|Hne].
      * rewrite lookup_insert_eq. by intros [= <-].
      * rewrite lookup_insert_ne by done. apply Hok.
    + intros n v' va' p'. rewrite Hrc, Hdg. destruct (decide (n = key)) as [->|Hne].
      * rewrite lookup_insert_eq. intros [= <-] Ha' Hp'. simpl.
        rewrite (dg_addr_det _ _ _ _ Ha' Ha). congruence.
      * rewrite lookup_insert_ne by done. intros Hv' (rec & Hrec & Hdec) Hp'.
        rewrite Hoth in Hrec by done. eapply (ro_dest _ Hok); [done| |done]. by exists rec.
Qed.

Lemma router_ok_rules rs ws r : router_inv I r → router_inv I (set_rules rs ws r).
Proof. intros []. constructor; simpl; try done. by eapply pools_ok_ext; [..|exact ro_pools0]. Qed.

(** An update that registers an endpoint, as [NewUpdate] makes it. *)
Record good_update (ru : updateHTTP) (ep : Endpoint) : Prop := {
  gu_endpoint : hu_endpoint ru = Some ep;
  gu_address : Pool.Address ep ≠ EmptyString;
  gu_name : ∃ k, hu_name ru = "cf-" +:+ k;
  gu_uri : verifyRouteURI ru = Ok tt
}.

Lemma gu_nonempty ru ep : good_update ru ep → hu_name ru ≠ EmptyString.
Proof. intros [_ _ [k ->] _]. done. Qed.

(** Registering an endpoint: the member is in the pool, the virtual server
    and the rule exist; or no address was left and nothing changed but the
    allocator. *)
(** The resources of an update, with those kept for an unmapped route. *)
Lemma update_resources ru ep r vs0 pool0 :
  VirtualServerName vs0 = hu_name ru → Name pool0 = hu_name ru → Members pool0 = [member_of ep] →
  ∃ vs pool ms, (match unmappedResourcesMap r !! hu_name ru with
      | Some resources => UpdateResources (mkResources [vs0] [pool0] [] [] [] []) resources
      | None => Ok (mkResources [vs0] [pool0] [] [] [] []) end) = Ok (mkResources [vs] [pool] ms [] [] []) ∧
    VirtualServerName vs = hu_name ru ∧ Name pool = hu_name ru ∧ Members pool = [member_of ep].
Proof.
  intros Hvn Hpn Hmem. destruct (unmappedResourcesMap r !! hu_name ru) as [new|]; [|by eexists _, _, _].
  destruct (UpdateResources_keeps vs0 pool0 new) as (v & q & m & -> & H1 & H2 & H3).
  exists v, q, m. by rewrite H1, H2, H3.
Qed.

(** Adding a virtual server touches its name only. *)
Lemma addVirtual_frame vs r :
  (∀ n, n ≠ VirtualServerName vs → virtualResources (addVirtual vs r) !! n = virtualResources r !! n) ∧
  firstSyncDone (addVirtual vs r) = firstSyncDone r ∧ tier2 (addVirtual vs r) = tier2 r ∧
  internalDataGroup (addVirtual vs r) = internalDataGroup r ∧
  r_rules (addVirtual vs r) = r_rules r ∧ r_wildcards (addVirtual vs r) = r_wildcards r.
Proof.
  unfold addVirtual. case_match; simpl; split_and!; try done. intros n Hn. by rewrite lookup_insert_ne.
Qed.

(** The configuration stays, and no record appears but that of [n]. *)
Definition keeps (n : string) (r r' : F5Router) : Prop :=
  rc r' = rc r ∧ ∀ k, k ≠ n → internalDataGroup r !! k = None → internalDataGroup r' !! k = None.

Lemma assigned_other r n k : k ≠ n → (assigned_state r n).2 !! k = internalDataGroup r !! k.
Proof.
  intros Hk. unfold assigned_state, assignAddress. repeat case_match; try done; cbn; by rewrite ?lookup_insert_ne.
Qed.

(** What a registration makes before it writes the rule: the member, the
    virtual server and its address are there, the rules still as before. *)
Record registered (ru : updateHTTP) (ep : Endpoint) (r r' : F5Router) : Prop := {
  rd_inv : router_inv I r';
  rd_keeps : keeps (hu_name ru) r r';
  rd_first : firstSyncDone r' = firstSyncDone r;
  rd_alloc : (tier2 r', internalDataGroup r') = assigned_state r (hu_name ru);
  rd_others : ∀ n, n ≠ hu_name ru → virtualResources r' !! n = virtualResources r !! n;
  rd_abs : abs r' = spec_add (hu_name ru) (member_of ep) (abs r);
  rd_virtual : is_Some (virtualResources r' !! hu_name ru);
  rd_rules : r_rules r' = r_rules r ∧ r_wildcards r' = r_wildcards r;
  rd_room : ¬ exhausted r (hu_name ru)
}.

(** A registration ends in [addRule], or it finds no address. *)
Lemma processRouteAdd_prefix ru ep r :
  router_inv I r → good_update ru ep →
  (∃ r5, processRouteAdd ru r = addRule ru r5 ∧ registered ru ep r r5) ∨
  (exhausted r (hu_name ru) ∧
   ∃ t, processRouteAdd ru r = Ok (set_tier2 t (internalDataGroup r) r) ∧
     router_inv I (set_tier2 t (internalDataGroup r) r) ∧
     (t, internalDataGroup r) = assigned_state r (hu_name ru)).
Proof.
  intros Hok Hgu. destruct (ro_part _ Hok) as [p Hp].
  destruct (HTTP_resources ru (rc r) ep p Hp) as (vs0 & pool0 & Hcr & Hvn & Hpn & Hmem);
    [apply Hgu..|by eapply gu_nonempty|].
  unfold processRouteAdd. rewrite (gu_uri _ _ Hgu). cbn [or_log]. rewrite Hcr. cbn [or_log].
  destruct (update_resources ru ep r vs0 pool0 Hvn Hpn Hmem) as (vs & pool & ms & -> & Hvs & Hpool & Hms).
  cbn [rbind head_or_panic Virtuals Pools Monitors].
  pose proof (assignVSPort_ok vs r Hok) as Has. pose proof (exhausted_assign vs r) as Hex. rewrite Hvs in Has, Hex.
  destruct (assignVSPort vs r) as [r1 [vs'|e|w]]; cbn [or_log].
  3: { by destruct Has as (? & ? & _ & _ & _ & _ & []). }
  2: { destruct Has as (t & dg & Hr1 & Hst & Hal & _ & Hv & Hdg & Hna). simpl in Hr1, Hdg. subst r1 dg.
       right. split; [by split|]. exists t. split_and!; [done| |done].
       destruct Hok. constructor; simpl; try done. by eapply pools_ok_ext; [..|exact ro_pools0]. }
  left. set (r2 := when _ _ r1).
  assert (pools_ok r2) as Hpo2.
  { destruct Has as (t & dg & Hr1 & _). simpl in Hr1. subst r1.
    apply (pools_ok_ext r); [..|apply Hok]; unfold r2, when; by destruct (nonempty ms). }
  destruct (addPool_spec r2 pool (member_of ep) Hpo2 Hms) as (r4 & Hadd & [Hpo4 (ps & np & pr & Hr4)] & Hview);
    [done|]. cbn [alloc_pool fst] in Hadd. cbn [alloc_pool]. rewrite Hadd. cbn [rbind].
  destruct (addVirtual_ok r (hu_name ru) vs vs' r1 r4 Hok Hvs Has Hpo4) as (Hok5 & Hvs5 & Habs);
    [subst r4; unfold r2, when; by destruct (nonempty ms)..|].
  eexists. split; [done|].
  assert (∃ t dg, (t, dg) = assigned_state r (hu_name ru) ∧ r1 = set_tier2 t dg r ∧
    ∃ ms', r2 = upd_monitors (λ _, ms') r1) as (t & dg & Hst & Hr1 & ms' & Hr2).
  { destruct Has as (t & dg & Hr1 & Hst & _). exists t, dg. split_and!; [done|done|].
    unfold r2, when. destruct (nonempty ms); [by eexists|exists (monitorResources r1); by destruct r1]. }
  assert (VirtualServerName vs' = hu_name ru) as Hn' by by destruct Has as (? & ? & _ & _ & _ & _ & d & -> & _).
  destruct (addVirtual_frame vs' r4) as (Hvoth & Hf & Ht & Hd & Hrr & Hww).
  assert (rc (addVirtual vs' r4) = rc r) as Hrc by (unfold addVirtual; case_match; by rewrite Hr4, Hr2, Hr1).
  rewrite Hr4, Hr2, Hr1 in Hf, Ht, Hd, Hrr, Hww. cbn in Hf, Ht, Hd, Hrr, Hww.
  constructor; [done| |by rewrite Hr4, Hr2, Hr1|by rewrite <-Hst, Hr4, Hr2, Hr1, Ht, Hd| | |done|by rewrite Hr4, Hr2, Hr1|by intros (? & ? & ?)%Hex].
  - split; [done|]. intros k Hk Hnone. rewrite Hr4, Hr2, Hr1, Hd.
    change dg with ((t, dg).2). by rewrite Hst, assigned_other.
  - intros n Hne. rewrite Hvoth by congruence. by rewrite Hr4, Hr2, Hr1.
  - rewrite Habs, (addPool_abs r2 r4 pool (member_of ep) Hms Hview), Hpool. f_equal. by rewrite Hr2, Hr1.
Qed.

Lemma processRouteAdd_spec ru ep r :
  router_inv I r → good_update ru ep → no_panic (makeRouteRule ru) →
  ∃ r', processRouteAdd ru r = Ok r' ∧ router_inv I r' ∧ keeps (hu_name ru) r r' ∧
    firstSyncDone r' = firstSyncDone r ∧
    (tier2 r', internalDataGroup r') = assigned_state r (hu_name ru) ∧
    (∀ n, n ≠ hu_name ru → virtualResources r' !! n = virtualResources r !! n) ∧
    ((abs r' = spec_add (hu_name ru) (member_of ep) (abs r) ∧ is_Some (virtualResources r' !! hu_name ru) ∧
      stored_rule r' ru = Some (made_rule ru) ∧
      (r_rules r', r_wildcards r') = alter_rules (Some (made_rule ru)) ru r) ∨
     (virtualResources r !! hu_name ru = None ∧ no_address r (hu_name ru) ∧
      ∃ t, r' = set_tier2 t (internalDataGroup r) r)).
Proof.
  intros Hok Hgu Hnp. destruct (processRouteAdd_prefix ru ep r Hok Hgu) as [(r5 & -> & H5)|([Hv Hna] & t & -> & Hinv & Hst)].
  - destruct (addRule_spec ru r5 Hnp) as (rs & ws & -> & Hrw & Hrule). destruct H5 as [H1 H2 H3 H4 H6 H7 H8 [H9 H10] _].
    eexists. split; [done|]. split; [by apply router_ok_rules|]. split_and!; [done..|]. left. split_and!; [done..|].
    cbn. rewrite Hrw. unfold alter_rules. by rewrite H9, H10.
  - eexists. split; [done|]. split_and!; [done|by split|done|done|done|]. right. eauto.
Qed.

(** An update the handlers only log: its URI has several wildcards, or it
    brings no endpoint with an address. *)
Definition rejected (ru : updateHTTP) : Prop :=
  (1 < count_char "*" (Uri_String (hu_uri ru)))%nat ∨
  match hu_endpoint ru with Some ep => Pool.Address ep = EmptyString | None => True end.

Lemma accepted ru k : hu_name ru = "cf-" +:+ k → rejected ru ∨ ∃ ep, hu_endpoint ru = Some ep ∧ good_update ru ep.
Proof.
  intros Hn. unfold rejected. destruct (hu_endpoint ru) as [ep|] eqn:Hep; [|by left; right].
  destruct (decide (1 < count_char "*" (Uri_String (hu_uri ru)))%nat) as [Hc|Hc]; [by left; left|].
  destruct (decide (Pool.Address ep = EmptyString)); [by left; right|]. right. exists ep. split; [done|].
  constructor; [done|done|by exists k|]. unfold verifyRouteURI. by apply Nat.ltb_nlt in Hc as ->.
Qed.

(** The handlers return at their first or second guard. *)
Lemma rejected_guards ru r k (f : Resources → result F5Router) :
  router_inv I r → hu_name ru = "cf-" +:+ k → rejected ru →
  or_log (verifyRouteURI ru) r (λ _, or_log (CreateResources ru (rc r)) r f) = Ok r.
Proof.
  intros Hok Hn Hrej. destruct (ro_part _ Hok) as [p Hp].
  unfold verifyRouteURI. destruct (1 <? _)%nat eqn:Hc; [done|]. apply Nat.ltb_nlt in Hc.
  destruct Hrej as [?|Hep]; [done|]. cbn. unfold HTTP_CreateResources, createResources. rewrite Hp. cbn [rbind].
  destruct (joinBigipPath_Ok p JsessionidIRuleName) as [j Hj]; [done|].
  destruct (joinBigipPath_Ok p (hu_name ru)) as [q Hq]; [by rewrite Hn|]. rewrite Hj, Hq. cbn [rbind].
  destruct (SessionPersistence (rc r)); cbn [rbind]; (destruct (hu_endpoint ru); [by rewrite Hep|done]).
Qed.

(** The state after the last endpoint of a route is gone. *)
Definition route_gone (r : F5Router) (ru : updateHTTP) : Prop :=
  virtualResources r !! hu_name ru = None ∧ stored_rule r ru = None ∧
  internalDataGroup r !! hu_name ru = None ∧ monitorResources r !! hu_name ru = None.

(** ... and of nothing else: the objects of every other route stay. *)
Definition only_route_gone (r r' : F5Router) (ru : updateHTTP) : Prop :=
  (r_rules r', r_wildcards r') = alter_rules None ru r ∧
  virtualResources r' = delete (hu_name ru) (virtualResources r) ∧
  internalDataGroup r' = delete (hu_name ru) (internalDataGroup r) ∧
  monitorResources r' = delete (hu_name ru) (monitorResources r).

Lemma releaseAddress_total t dg n :
  I t dg → ∃ t', releaseAddress t dg ("cf-" +:+ n) = Ok (t', delete ("cf-" +:+ n) dg).
Proof.
  intros Hok. assert (∃ x, releaseAddress t dg ("cf-" +:+ n) = Ok x) as [[t' dg'] Hx].
  { unfold releaseAddress. destruct (dg !! _) as [record|] eqn:Hd; [|eauto].
    destruct (ai_live _ _ _ Hok (mk_is_Some _ _ Hd)) as [va (rec & Hr & Hdec)].
    rewrite Hd in Hr. injection Hr as <-. rewrite Hdec. eauto. }
  exists t'. rewrite Hx. by destruct (ai_release _ _ _ _ _ Hok Hx) as (_ & ->).
Qed.

Lemma removeRule_spec ru r :
  ∃ rs ws, removeRule ru r = set_rules rs ws r ∧ (rs, ws) = alter_rules None ru r ∧
    stored_rule (set_rules rs ws r) ru = None.
Proof.
  unfold removeRule, stored_rule, alter_rules. destruct (contains_char _ _);
    [exists (r_rules r), (delete (hu_uri ru) (r_wildcards r))
    |exists (delete (hu_uri ru) (r_rules r)), (r_wildcards r)];
    (split; [by destruct r|]); (split; [done|]); simpl; by rewrite lookup_delete_eq.
Qed.

(** Dropping the route's objects after its pool is gone. *)
Lemma drop_route_ok ru n r r2 :
  hu_name ru = "cf-" +:+ n → router_inv I r → pools_step r r2 →
  let r3 := removeVirtual (hu_name ru) (removeRule ru (removeMonitors (hu_name ru) r2)) in
  ∃ t' dg', releaseAddress (tier2 r3) (internalDataGroup r3) (hu_name ru) = Ok (t', dg') ∧
    let r4 := set_tier2 t' dg' r3 in
    router_inv I r4 ∧ keeps (hu_name ru) r r4 ∧ route_gone r4 ru ∧ abs r4 = abs r2 ∧ firstSyncDone r4 = firstSyncDone r ∧
    only_route_gone r r4 ru.
Proof.
  intros Hn Hok [Hpo (ps & np & pr & ->)]. cbn zeta.
  destruct (removeRule_spec ru (removeMonitors (hu_name ru) (set_pool_state ps np pr r))) as (rs & ws & -> & Hrw & Hrule).
  simpl. destruct (releaseAddress_total (tier2 r) (internalDataGroup r) n (ro_alloc _ Hok)) as [t' Ht].
  rewrite Hn, Ht. eexists t', _. split; [done|].
  destruct (ai_release _ _ _ _ _ (ro_alloc _ Hok) Ht) as [Hal _].
  split_and!; [|split; [done|]; intros k Hk Hnone; cbn; by rewrite lookup_delete_ne by congruence|unfold route_gone; rewrite Hn; split_and!; simpl; try by rewrite lookup_delete_eq|done|done|by unfold only_route_gone; rewrite Hn].
  - destruct Hok. constructor; simpl; [by eapply pools_ok_ext; [..|exact Hpo]|done|done| |].
    + intros n' v [_ Hv]%lookup_delete_Some. by apply ro_virt0.
    + intros n' v va p [Hne Hv]%lookup_delete_Some. intros [_ Ha]%dg_addr_delete. by apply (ro_dest0 n').
  - exact Hrule.
Qed.

(** Removing an endpoint. *)
Lemma processRouteRemove_spec ru ep r :
  router_inv I r → good_update ru ep →
  ∃ r', processRouteRemove ru r = Ok r' ∧ router_inv I r' ∧ keeps (hu_name ru) r r' ∧ firstSyncDone r' = firstSyncDone r ∧
    abs r' = spec_remove (hu_name ru) (member_of ep) (abs r) ∧
    if decide (is_Some (abs r !! hu_name ru) ∧ abs r' !! hu_name ru = None)
    then route_gone r' ru ∧ only_route_gone r r' ru
    else ∃ ps np pr, r' = set_pool_state ps np pr r.
Proof.
  intros Hok Hgu. destruct (ro_part _ Hok) as [p Hp].
  destruct (HTTP_resources ru (rc r) ep p Hp) as (vs & pool & Hcr & Hvn & Hpn & Hmem);
    [apply Hgu..|by eapply gu_nonempty|].
  unfold processRouteRemove. rewrite (gu_uri _ _ Hgu). cbn [or_log]. rewrite Hcr.
  cbn [or_log rbind head_or_panic Virtuals Pools].
  destruct (removePool_spec r pool (member_of ep) (ro_pools _ Hok) Hmem) as (r2 & b & Hrem & Hstep & Hview & Hb).
  pose proof (removePool_abs r r2 pool (member_of ep) (ro_pools _ Hok) Hview) as Habs.
  rewrite Hpn in Habs, Hb. cbn [alloc_pool fst] in Hrem. cbn [alloc_pool]. rewrite Hrem. cbn [rbind].
  assert (b = true ↔ is_Some (abs r !! hu_name ru) ∧ abs r2 !! hu_name ru = None) as Hbb.
  { rewrite Hb, !router_abs_lookup. destruct (pool_view r !! hu_name ru), (pool_view r2 !! hu_name ru); cbn;
      split; intros [[? ?] ?]; try done; by split; [eexists|]. }
  destruct (gu_name _ _ Hgu) as [n Hn]. destruct b.
  - rewrite Hvn, Hpn.
    destruct (drop_route_ok ru n r r2 Hn Hok Hstep) as (t' & dg' & -> & Hok4 & Hk & Hgone & Hab & Hf & Hoth). cbn [rbind].
    eexists. split; [done|]. split_and!; [done|done|done|by rewrite Hab|].
    rewrite decide_True; [done|]. rewrite Hab. by apply Hbb.
  - eexists. split; [done|]. pose proof Hstep as [Hpo (ps & np & pr & ->)].
    split_and!; [|by split|done|done|].
    + destruct Hok. by constructor.
    + rewrite decide_False; [eauto|]. intros ?%Hbb. done.
Qed.
End handlers.
