(* ===== verification/RouterRun.v ===== *)
(** Runs of the router: construction, registrations and removals of HTTP
    routes and the drains of the work queue, and what holds in every state a
    run can reach. *)
From Stdlib Require Import Ascii ZArith Lia.
From stdpp Require Import sorting countable base list gmap strings.
From S2P Require Import Prelude GoStrings GoNet Uri Pool Config Resources Codec GoUrl Updates Tier2 Alloc Policy F5Router RouterFacts.
Import bigipResources planResources routeUpdate.
Local Open Scope Z_scope.

(** ** IPv4 ranges *)
Lemma scan_num_nonneg val base acc seen s n rest :
  (∀ a d, val a = Some d → 0 ≤ d) → 0 ≤ base → 0 ≤ acc →
  scan_num val base acc seen s = Some (n, rest) → 0 ≤ n.
Proof.
  intros Hv Hb. revert acc seen. induction s as [|a s IH]; intros acc seen Hacc; simpl.
  - destruct seen; [|done]. intros [= <- <-]. done.
  - destruct (val a) as [d|] eqn:Ha.
    + destruct (big <=? _); [done|]. apply IH. pose proof (Hv _ _ Ha). nia.
    + destruct seen; [|done]. intros [= <- <-]. done.
Qed.

Lemma dtoi_nonneg s n rest : dtoi s = Some (n, rest) → 0 ≤ n.
Proof.
  apply scan_num_nonneg; [|lia|lia]. intros a d. destruct (is_digit a) eqn:Ha.
  - destruct (digit_val_byte a Ha) as [-> Hb]. intros [= <-]. lia.
  - unfold digit_val. by rewrite Ha.
Qed.

Lemma octets_bytes k first s l :
  parseIPv4_octets k first s = Some l → length l = k ∧ Forall (λ x, 0 ≤ x < 256) l.
Proof.
  revert first s l. induction k as [|k IH]; intros first s l; cbn [parseIPv4_octets].
  { destruct s; [|done]. by intros [= <-]. }
  destruct (if first then _ else _) as [s1|]; [|done].
  destruct (dtoi s1) as [[n rest]|] eqn:Hd; [|done].
  destruct (Z.ltb_spec 255 n) as [|Hn]; [done|].
  destruct (parseIPv4_octets k false rest) as [l'|] eqn:Hl; [|done]. intros [= <-].
  apply IH in Hl as [<- Hb]. split; [done|]. constructor; [|done]. apply dtoi_nonneg in Hd. lia.
Qed.

Lemma parseIPv4_is_v4 s ip : parseIPv4 s = Some ip → is_v4 ip.
Proof.
  unfold parseIPv4. destruct (parseIPv4_octets 4 true s) as [l|] eqn:Hl; [|done]. intros [= <-].
  apply octets_bytes in Hl as [Hlen Hb].
  destruct l as [|a [|b [|c [|d [|? ?]]]]]; try done. by exists a, b, c, d.
Qed.

(** The range is written with an IPv4 address. *)
Definition v4_range (s : string) : Prop :=
  ∃ addr mask ip, cut "/" s = Some (addr, mask) ∧ parseIPv4 addr = Some ip.

Lemma mask_bytes_length k ones : length (mask_bytes k ones) = k.
Proof. revert ones. induction k as [|k IH]; intros ones; [done|]. cbn [mask_bytes]. simpl. by rewrite IH. Qed.

Lemma ParseCIDR_v4 s i n : v4_range s → ParseCIDR s = Some (i, n) → is_v4 i ∧ net_v4 n.
Proof.
  intros (addr & mask & ip & Hc & Hp). unfold ParseCIDR. rewrite Hc, Hp.
  destruct (dtoi mask) as [[b [|]]|]; [|done|done]. destruct (32 <? b); [done|].
  unfold CIDRMask. destruct (negb _) eqn:E1; [discriminate|]. destruct (_ || (32 <? b)); [done|].
  change (Z.to_nat (32 / 8)) with 4%nat.
  apply parseIPv4_is_v4 in Hp as (a0 & a1 & a2 & a3 & -> & Hb).
  set (m := mask_bytes 4 b). assert (length m = 4%nat) as Hm by apply mask_bytes_length.
  destruct m as [|m0 [|m1 [|m2 [|m3 [|]]]]]; try done. cbn. intros [= <- <-]. split.
  - by exists a0, a1, a2, a3.
  - eexists _, _. split; [done|]. done.
Qed.

Lemma validateTier2Range_v4 s ip net :
  v4_range s → validateTier2Range s = Ok (ip, net) → is_v4 ip ∧ net_v4 net.
Proof.
  intros Hv. unfold validateTier2Range. destruct (negb _); [done|].
  destruct (Split "/" s) as [|? [|bits [|? ?]]]; try done. intros (ones & _ & H)%rbind_Ok.
  destruct (ParseCIDR s) as [[i n]|] eqn:Hc; [|done]. destruct (IsLoopback i); [done|].
  destruct (match _ with Some _ => _ | None => false end); [|done]. injection H as <- <-.
  by apply (ParseCIDR_v4 s).
Qed.

(** ** A new router *)
Definition named_virtuals (r : F5Router) : Prop :=
  ∀ n v, virtualResources r !! n = Some v → VirtualServerName v = n.

Lemma insert_named r v : named_virtuals r → named_virtuals (upd_virtuals (insert (VirtualServerName v) v) r).
Proof.
  intros H n w. simpl. destruct (decide (n = VirtualServerName v)) as [->|Hn].
  - rewrite lookup_insert_eq. by intros [= <-].
  - rewrite lookup_insert_ne by done. apply H.
Qed.

(** Construction touches virtual servers and iRules only. *)
Lemma createHTTPVirtuals_frame r r' :
  createHTTPVirtuals r = Ok r' → named_virtuals r →
  named_virtuals r' ∧ ∃ vs irs, r' = upd_iRules (λ _, irs) (upd_virtuals (λ _, vs) r).
Proof.
  unfold createHTTPVirtuals. intros (p & Hp & H)%rbind_Ok Hn.
  apply rbind_Ok in H as (path & _ & H). apply rbind_Ok in H as (dest & _ & H).
  set (v1 := mkVirtual HTTPRouterName _ _ _ _ _ _ _ _ _) in H.
  set (r1 := when _ _ r) in H.
  assert (named_virtuals r1 ∧ ∃ irs, r1 = upd_iRules (λ _, irs) r) as [Hn1 (irs & Hr1)].
  { unfold r1, when. destruct (SessionPersistence (rc r)); [split; [done|by eexists]|].
    split; [done|]. exists (ruleResources r). by destruct r. }
  pose proof (insert_named r1 v1 Hn1) as Hn2.
  destruct (nonempty (SSLProfiles (BigIP (rc r)))).
  - apply rbind_Ok in H as (dest' & _ & H). set (v2 := mkVirtual HTTPSRouterName _ _ _ _ _ _ _ _ _) in H.
    injection H as <-. split; [exact (insert_named _ v2 Hn2)|]. rewrite Hr1. by eexists _, _.
  - injection H as <-. split; [done|]. rewrite Hr1. by eexists _, _.
Qed.

Lemma validateConfig_Ok c c' ip net :
  validateConfig c = Ok (c', ip, net) →
  (∃ p, partition0 c' = Ok p) ∧ validateTier2Range (Tier2IPRange (BigIP c')) = Ok (ip, net).
Proof.
  unfold validateConfig. destruct (_ || _) eqn:E; [done|]. intros (p & Hp & H)%rbind_Ok.
  apply rbind_Ok in H as (d & _ & H). apply rbind_Ok in H as ([ip' net'] & Hr & [= <- <- <-]).
  split; [by exists p|done].
Qed.

(** A router whose allocator is [t] and data group [dg] at start-up. *)
Lemma NewF5Router_fields c w r :
  NewF5Router (Some c) (Some w) = Ok r →
  named_virtuals r ∧ (∃ p, partition0 (rc r) = Ok p) ∧ pools_ok r ∧ firstSyncDone r = false ∧
  internalDataGroup r = ∅ ∧ abs r = ∅ ∧
  ∃ ip net, tier2 r = mkTier2 ∅ [] 10000 ip net ∧ validateTier2Range (Tier2IPRange (BigIP (rc r))) = Ok (ip, net).
Proof.
  unfold NewF5Router. intros ([[c' ip] net] & Hc & H)%rbind_Ok. apply rbind_Ok in H as (_ & _ & H).
  apply validateConfig_Ok in Hc as [Hp Hr].
  assert (named_virtuals (emptyRouter c' ip net)) as Hn by (intros ? ? ?; done).
  assert (∀ r, pools r = ∅ → poolResources r = ∅ → pools_ok r ∧ abs r = ∅) as Hpo.
  { intros r0 H1 H2. split.
    - constructor; rewrite ?H1, ?H2; [done|]. intros l [? ?]. done.
    - unfold abs, pool_view. rewrite H2. by rewrite omap_empty, fmap_empty. }
  case_bool_decide.
  - injection H as <-. destruct (Hpo (emptyRouter c' ip net)) as [? ?]; [done|done|].
    split_and!; [done|done|done|done|done|done|]. by exists ip, net.
  - apply rbind_Ok in H as (r1 & Hr1 & [= <-]).
    apply createHTTPVirtuals_frame in Hr1 as [Hn1 (vs & irs & ->)]; [|done].
    destruct (Hpo (initiRule HTTPForwardingiRuleName ForwardToVIPiRule
      (upd_iRules (λ _, irs) (upd_virtuals (λ _, vs) (emptyRouter c' ip net))))) as [? ?]; [done|done|].
    split_and!; [done|done|done|done|done|done|]. by exists ip, net.
Qed.

Lemma NewF5Router_ok c w r :
  NewF5Router (Some c) (Some w) = Ok r → v4_range (Tier2IPRange (BigIP (rc r))) → router_ok r.
Proof.
  intros (Hn & Hp & Hpo & _ & Hdg & _ & ip & net & Ht & Hr)%NewF5Router_fields Hv.
  apply validateTier2Range_v4 in Hr as [??]; [|done].
  constructor; [done|rewrite Ht, Hdg; by apply alloc_ok_empty|done|done|].
  intros n v va p _. rewrite Hdg. by intros (? & ? & _).
Qed.

(** ** Runs *)
Section run.
Context `{!MapOrder string}.

(** A run on a BIG-IP without cached data group, with an IPv4 range.  Routes
    are registered at any time, removed once the first drain is done, and
    neither bound nor unbound. *)
Inductive reach : F5Router → Prop :=
| reach_new c w r :
    NewF5Router (Some c) (Some w) = Ok r → v4_range (Tier2IPRange (BigIP (rc r))) → reach r
| reach_add r ru ep r' :
    reach r → good_update ru ep → no_panic (makeRouteRule ru) →
    processRouteAdd ru r = Ok r' → reach r'
| reach_remove r ru ep r' :
    reach r → firstSyncDone r = true → good_update ru ep →
    processRouteRemove ru r = Ok r' → reach r'
| reach_drain r r' s :
    reach r → drain r = Ok (r', s) → reach r'.

(** Before the first drain: nothing is reaped, every address in use belongs
    to a record and every record to a virtual server. *)
Definition unsynced_ok (r : F5Router) : Prop :=
  reapedPorts (tier2 r) = [] ∧
  (∀ k, is_Some (usedPorts (tier2 r) !! k) →
     ∃ n va, dg_addr (internalDataGroup r) n va ∧ k = VA_String va) ∧
  (∀ n, is_Some (internalDataGroup r !! n) → is_Some (virtualResources r !! n)).

Definition run_ok (r : F5Router) : Prop := router_ok r ∧ (firstSyncDone r = false → unsynced_ok r).

(** The allocator before and after a new address without reaped ones. *)
Lemma assignAddress_unsynced t dg key :
  alloc_ok t dg → reapedPorts t = [] →
  (∀ k, is_Some (usedPorts t !! k) → ∃ n va, dg_addr dg n va ∧ k = VA_String va) →
  let '(t', dg', _) := assignAddress t dg key in
  reapedPorts t' = [] ∧
  (∀ k, is_Some (usedPorts t' !! k) → ∃ n va, dg_addr dg' n va ∧ k = VA_String va) ∧
  (dg' = dg ∨ dg' = <[key := mkRecord key (Encode (holder_va t'))]> dg).
Proof.
  intros Hok Hr Hu. unfold assignAddress. destruct (dg !! key) as [record|] eqn:Hkey; [by split_and!; [| |left]|].
  pose proof (getAvailable_search t (al_holder _ _ Hok) Hr) as Hs.
  destruct (getAvailableVirtualAddress t) as [t' [va|e|w]]; destruct Hs as (Hre & Hho & Hs); simpl in *; [| |done].
  - destruct Hs as (Hnone & -> & Husd). split_and!; [congruence| |by right].
    assert (- 2 ^ 31 ≤ Port (holder_va t') < 2 ^ 31) as Hp by (simpl; destruct (ho_port _ Hho); lia).
    intros k. rewrite Husd. destruct (decide (k = VA_String (holder_va t'))) as [->|Hne].
    + intros _. exists key, (holder_va t'). split; [|done]. rewrite dg_addr_insert by (by apply Return_Encode). by left.
    + rewrite lookup_insert_ne by done. intros (n & va & Ha & ->)%Hu. exists n, va. split; [|done].
      rewrite dg_addr_insert by (by apply Return_Encode). right. split; [|done].
      intros ->. destruct Ha as (? & ? & _). congruence.
  - split_and!; [congruence|by rewrite Hs|by left].
Qed.

Lemma run_add r ru ep r' :
  run_ok r → good_update ru ep → no_panic (makeRouteRule ru) → processRouteAdd ru r = Ok r' → run_ok r'.
Proof.
  intros [Hok Hun] Hgu Hnp Hr.
  destruct (processRouteAdd_spec alloc_ok ru ep r Hok Hgu Hnp) as (r1 & Hr1 & Hok1 & _ & Hf & Hst & Hoth & Hcase).
  rewrite Hr in Hr1. injection Hr1 as <-. split; [done|]. rewrite Hf. intros Hns.
  destruct (Hun Hns) as (Hre & Hus & Hvi). unfold assigned_state in Hst.
  destruct (virtualResources r !! hu_name ru) as [v|] eqn:Hv.
  - injection Hst as Ht Hd. unfold unsynced_ok. rewrite Ht, Hd. split_and!; [done|done|].
    intros n Hn. destruct (decide (n = hu_name ru)) as [->|Hne]; [|rewrite Hoth by done; by apply Hvi].
    destruct Hcase as [(_ & ? & _)|[? _]]; [done|done].
  - pose proof (assignAddress_unsynced _ _ (hu_name ru) (ro_alloc _ Hok) Hre Hus) as Has.
    destruct (assignAddress (tier2 r) (internalDataGroup r) (hu_name ru)) as [[t dg] res]; simpl in Hst.
    injection Hst as Ht Hd. destruct Has as (Hre' & Hus' & Hdg). unfold unsynced_ok. rewrite Ht, Hd.
    split_and!; [done|done|]. intros n Hn. destruct (decide (n = hu_name ru)) as [->|Hne].
    + destruct Hcase as [(_ & ? & _)|(_ & _ & t'' & Hr'')]; [done|]. subst r'. simpl in *. subst dg. by apply Hvi.
    + rewrite Hoth by done. apply Hvi. destruct Hdg as [-> | ->]; [done|]. by rewrite lookup_insert_ne in Hn.
Qed.

(** Writing the configuration changes the numbers of the rules only. *)
Lemma createResources_frame r p res r' :
  router_createResources r = Ok (p, res, r') → ∃ rs ws, r' = set_rules rs ws r.
Proof.
  unfold router_createResources. intros (p' & _ & H)%rbind_Ok.
  apply rbind_Ok in H as ([pols r1] & Hp & [= <- <- <-]). unfold createPolicies in Hp.
  destruct (_ && _).
  - injection Hp as <- <-. exists (r_rules r), (r_wildcards r). by destruct r.
  - apply rbind_Ok in Hp as ([[pol rs] ws] & _ & [= <- <-]). by exists rs, ws.
Qed.

Lemma run_drain r r' s : run_ok r → drain r = Ok (r', s) → run_ok r' ∧ abs r' = abs r ∧
  virtualResources r' = virtualResources r ∧ internalDataGroup r' = internalDataGroup r ∧ firstSyncDone r' = true.
Proof.
  intros [Hok Hun] H. unfold drain in H. apply rbind_Ok in H as (r1 & Hr1 & H).
  apply rbind_Ok in H as ([[p res] r2] & Hc & [= <- <-]).
  apply createResources_frame in Hc as (rs & ws & ->).
  destruct (firstSyncDone r) eqn:Hf.
  - injection Hr1 as <-. split; [|done]. split; [by apply router_ok_rules|]. simpl. by rewrite Hf.
  - apply rbind_Ok in Hr1 as ([t dg] & Ht & [= <-]). destruct (Hun eq_refl) as (Hre & Hus & Hvi).
    destruct (truncate_ok _ _ _ _ _ (ro_alloc _ Hok) Hvi Hus Ht) as (Hal & -> & _).
    split; [|done]. split; [|done]. apply router_ok_rules.
    constructor; simpl; [by eapply pools_ok_ext; [..|exact (ro_pools _ Hok)]|done|apply Hok..].
Qed.

Lemma reach_ok r : reach r → run_ok r.
Proof.
  induction 1 as [c w r Hn Hv|r ru ep r' _ IH Hg Hnp Hp|r ru ep r' _ IH Hf Hg Hp|r r' s _ IH Hd].
  - split; [by eapply NewF5Router_ok|]. intros _.
    apply NewF5Router_fields in Hn as (_ & _ & _ & _ & Hdg & _ & ip & net & Ht & _).
    unfold unsynced_ok. rewrite Ht, Hdg. split_and!; [done| |]; intros k [? ?]; done.
  - by eapply run_add.
  - destruct IH as [Hok _]. destruct (processRouteRemove_spec alloc_ok ru ep r Hok Hg) as (r1 & Hr1 & Hok1 & _ & Hf1 & _).
    rewrite Hp in Hr1. injection Hr1 as <-. split; [done|]. by rewrite Hf1, Hf.
  - by eapply run_drain.
Qed.

(** Splitting at the last separator is unambiguous. *)
Lemma sapp_last_sep_inj c1 c2 h1 h2 t1 t2 :
  count_char c1 t2 = 0%nat → count_char c2 t1 = 0%nat →
  h1 +:+ String c1 t1 = h2 +:+ String c2 t2 → h1 = h2 ∧ c1 = c2 ∧ t1 = t2.
Proof.
  intros H1 H2. revert h2. induction h1 as [|a h1 IH]; intros [|b h2]; rewrite ?sapp_cons; simpl.
  - intros [= -> ->]. done.
  - intros [= _ ->]. rewrite count_char_app in H2. cbn [count_char] in H2. rewrite bool_decide_refl in H2. lia.
  - intros [= _ <-]. rewrite count_char_app in H1. cbn [count_char] in H1. rewrite bool_decide_refl in H1. lia.
  - intros [= -> Heq]. apply IH in Heq as (-> & -> & ->). done.
Qed.

(** A destination determines the address it was made from. *)
Lemma verifyDestAddress_inj va1 va2 p d :
  verifyDestAddress va1 p = Ok d → verifyDestAddress va2 p = Ok d → va1 = va2.
Proof.
  assert (∀ va, verifyDestAddress va p = Ok d →
    ∃ c, (c = "."%char ∨ c = ":"%char) ∧ d = "/" +:+ p +:+ "/" +:+ BindAddr va +:+ String c (Itoa (Port va))) as Hshape.
  { intros va. unfold verifyDestAddress. destruct (splitIPWithRouteDomain (BindAddr va)) as [ip rd] eqn:Hs.
    destruct (ParseIP (BindAddr va)) as [x|] eqn:Hp; [|done]. intros [= <-].
    assert (count_char "%" (BindAddr va) = 0%nat) as Hc.
    { destruct (decide (count_char "%" (BindAddr va) = 0%nat)) as [|Hn]; [done|].
      by rewrite ParseIP_percent in Hp. }
    unfold splitIPWithRouteDomain in Hs. rewrite (proj2 (cut_None _ _) Hc) in Hs. injection Hs as <- <-.
    rewrite bool_decide_refl. destruct (To4 x); [exists ":"%char|exists "."%char]; (split; [by auto|done]). }
  intros (c1 & Hc1 & Hd1)%Hshape (c2 & Hc2 & Hd2)%Hshape. rewrite Hd1 in Hd2.
  apply sapp_inj_l, sapp_inj_l, sapp_inj_l in Hd2.
  apply sapp_last_sep_inj in Hd2 as (Hb & _ & Hi).
  - apply (inj Itoa) in Hi. by destruct va1, va2; simplify_eq/=.
  - apply Itoa_no_char; by destruct Hc1 as [-> | ->].
  - apply Itoa_no_char; by destruct Hc2 as [-> | ->].
Qed.

Lemma router_ok_distinct r n1 n2 v1 v2 :
  router_ok r →
  virtualResources r !! n1 = Some v1 → virtualResources r !! n2 = Some v2 →
  is_Some (internalDataGroup r !! n1) → is_Some (internalDataGroup r !! n2) →
  Destination v1 = Destination v2 → n1 = n2.
Proof.
  intros Hok Hv1 Hv2 H1 H2 Hd. destruct (ro_part _ Hok) as [p Hp].
  destruct (al_live _ _ (ro_alloc _ Hok) n1 H1) as [va1 Ha1].
  destruct (al_live _ _ (ro_alloc _ Hok) n2 H2) as [va2 Ha2].
  pose proof (ro_dest _ Hok _ _ _ _ Hv1 Ha1 Hp) as D1. pose proof (ro_dest _ Hok _ _ _ _ Hv2 Ha2 Hp) as D2.
  rewrite <-Hd in D2. rewrite (verifyDestAddress_inj _ _ _ _ D1 D2) in *.
  by apply (al_distinct _ _ (ro_alloc _ Hok) n1 n2 va2 va2).
Qed.
End run.

(** ** Properties *)

(** C2. Processing a route registration, for every update with an object name
    of [NewUpdate], in a router that satisfies the invariant.  An update whose
    URI has several wildcards, or without an endpoint that has an address, is
    logged and changes nothing.  Otherwise, when the route is new and no
    address is left for it, only the allocator moves.  Otherwise the handler
    panics exactly when making its rule panics, as a wildcard in the path
    makes it do, and
    else it refines the abstract addition of a member: the pool of the route
    then holds the endpoint, its virtual server and its rule exist, those of
    the other routes are as before, and the invariant is kept. *)
Theorem route_add_refines ru k r :
  router_ok r → hu_name ru = "cf-" +:+ k →
  (rejected ru ∧ processRouteAdd ru r = Ok r) ∨
  (∃ ep, good_update ru ep ∧
    if decide (exhausted r (hu_name ru))
    then ∃ t, processRouteAdd ru r = Ok (set_tier2 t (internalDataGroup r) r) ∧
           router_ok (set_tier2 t (internalDataGroup r) r)
    else match makeRouteRule ru with
         | Panic w => processRouteAdd ru r = Panic w
         | _ =>
             ∃ r', processRouteAdd ru r = Ok r' ∧ router_ok r' ∧
               abs r' = spec_add (hu_name ru) (member_of ep) (abs r) ∧
               is_Some (virtualResources r' !! hu_name ru) ∧ stored_rule r' ru = Some (made_rule ru) ∧
               (∀ n, n ≠ hu_name ru → virtualResources r' !! n = virtualResources r !! n) ∧
               (r_rules r', r_wildcards r') = alter_rules (Some (made_rule ru)) ru r
         end).
Proof.
  intros Hok Hn. destruct (accepted ru k Hn) as [Hrej|(ep & _ & Hgu)].
  { left. split; [done|]. by eapply (rejected_guards alloc_ok). }
  right. exists ep. split; [done|].
  destruct (processRouteAdd_prefix alloc_ok ru ep r Hok Hgu) as [(r5 & E & H5)|(Hex & t & E & Hinv & _)].
  2: { rewrite decide_True by done. by exists t. }
  rewrite decide_False by apply H5. destruct (makeRouteRule ru) as [rl|e|w] eqn:Em.
  3: { rewrite E. unfold addRule. by rewrite Em. }
  all: destruct (processRouteAdd_spec alloc_ok ru ep r Hok Hgu) as (r' & E' & Hok' & _ & _ & _ & Hoth & Hcase);
    [intros w; by rewrite Em|]; exists r'; split; [done|]; split; [done|];
    destruct Hcase as [(? & ? & ? & ?)|(? & ? & _)]; [done|by destruct (rd_room _ _ _ _ _ H5)].
Qed.

(** A small configuration and a new router. *)
Definition demo_bigip : BigIPConfig :=
  mkBigIP "https://bigip" "admin" "secret" ["cf"] "round-robin" 30 "10.1.1.1" [] [] [] [] EmptyString "172.0.0.0/30".

Definition demo_config : Config :=
  mkConfig demo_bigip defaultStatusConfig "info" EmptyString (-1) false EmptyString EmptyString None
    EmptyString [] 0 0 0 0 0 false "http" false HTTP EmptyString "default-tcp" EmptyString 0 EmptyString
    false EmptyString 0 "round-robin" true.

Definition from_Ok {A} (d : A) (m : result A) : A := match m with Ok a => a | _ => d end.

Definition demo_router : F5Router :=
  from_Ok (emptyRouter demo_config [] demo_net) (NewF5Router (Some demo_config) (Some (λ _, Ok tt))).

Lemma demo_router_new : NewF5Router (Some demo_config) (Some (λ _, Ok tt)) = Ok demo_router.
Proof. vm_compute. reflexivity. Qed.

Lemma demo_v4 : v4_range (Tier2IPRange (BigIP (rc demo_router))).
Proof. exists "172.0.0.0", "30", (v4InV6Prefix ++ [172; 0; 0; 0]). split; vm_compute; reflexivity. Qed.

Lemma demo_router_ok : router_ok demo_router.
Proof. exact (NewF5Router_ok _ _ _ demo_router_new demo_v4). Qed.

Lemma demo_good : good_update demo_update demo_endpoint.
Proof.
  constructor; [reflexivity|discriminate|by exists "foo"|vm_compute; reflexivity].
Qed.

Lemma demo_no_panic : no_panic (makeRouteRule demo_update).
Proof. intros w. vm_compute. discriminate. Qed.

Lemma demo_room : ¬ exhausted demo_router (hu_name demo_update).
Proof. intros [_ [e He]]. vm_compute in He. discriminate He. Qed.

Lemma demo_accepted : ¬ rejected demo_update.
Proof.
  intros [H|H].
  - vm_compute in H. lia.
  - discriminate H.
Qed.

Lemma route_add_refines_witness :
  ∃ r', processRouteAdd demo_update demo_router = Ok r' ∧ router_ok r' ∧
    abs r' = {["cf-foo" := {[member_of demo_endpoint]}]}.
Proof.
  destruct (route_add_refines demo_update "foo" demo_router demo_router_ok eq_refl) as [[H _]|(ep & Hgu & H)].
  { destruct (demo_accepted H). }
  rewrite decide_False in H by exact demo_room.
  assert (ep = demo_endpoint) as -> by (destruct Hgu as [[= <-] _ _ _]; reflexivity).
  pose proof demo_no_panic as Hnp. destruct (makeRouteRule demo_update) as [rl|e|w]; [| |destruct (Hnp w eq_refl)];
    destruct H as (r' & H1 & H2 & H3 & _); exists r'; (split; [exact H1|]); (split; [exact H2|]); rewrite H3; reflexivity.
Defined.

(** C3. Processing a route removal, for every update with an object name of
    [NewUpdate], in a router that satisfies the invariant.  An update whose
    URI has several wildcards, or without an endpoint that has an address,
    changes nothing; any other succeeds and refines the abstract removal of a
    member.  When this was the last member of the pool, the virtual server,
    the rule, the monitors and the data-group record of the route disappear
    with the pool, and those of no other route; in every other case nothing
    of the router changes but its pools. *)
Theorem route_remove_refines ru k r :
  router_ok r → hu_name ru = "cf-" +:+ k →
  (rejected ru ∧ processRouteRemove ru r = Ok r) ∨
  (∃ ep r', good_update ru ep ∧ processRouteRemove ru r = Ok r' ∧ router_ok r' ∧
    abs r' = spec_remove (hu_name ru) (member_of ep) (abs r) ∧
    if decide (is_Some (abs r !! hu_name ru) ∧ abs r' !! hu_name ru = None)
    then route_gone r' ru ∧ only_route_gone r r' ru
    else ∃ ps np pr, r' = set_pool_state ps np pr r).
Proof.
  intros Hok Hn. destruct (accepted ru k Hn) as [Hrej|(ep & _ & Hgu)].
  { left. split; [done|]. by eapply (rejected_guards alloc_ok). }
  right. exists ep. destruct (processRouteRemove_spec alloc_ok ru ep r Hok Hgu) as (r' & H3 & H4 & _ & _ & H5 & H6).
  by exists r'.
Qed.

(** A route with two endpoints. *)
Definition demo_endpoint2 : Endpoint :=
  mkEndpoint 2 "app" "10.0.0.2" 8081 ∅ "guid2" 0 EmptyString "1" (mkTag EmptyString 0).

Definition demo_update2 : updateHTTP :=
  mkHTTP 0 routeUpdate.Add "foo.cf.com/a/b" (Some demo_endpoint2) "cf-foo" "http" EmptyString.

Lemma demo_good2 : good_update demo_update2 demo_endpoint2.
Proof.
  constructor; [reflexivity|discriminate|by exists "foo"|vm_compute; reflexivity].
Qed.

Definition demo_two : F5Router :=
  from_Ok demo_router (rbind (processRouteAdd demo_update demo_router) (processRouteAdd demo_update2)).

Lemma demo_two_ok : router_ok demo_two.
Proof.
  unfold demo_two.
  destruct (processRouteAdd_spec alloc_ok demo_update demo_endpoint demo_router demo_router_ok demo_good demo_no_panic)
    as (r1 & -> & H1 & _). cbn [rbind].
  destruct (processRouteAdd_spec alloc_ok demo_update2 demo_endpoint2 r1 H1 demo_good2 demo_no_panic)
    as (r2 & -> & H2 & _). exact H2.
Qed.

Lemma route_remove_refines_witness :
  ∃ r' v, processRouteRemove demo_update demo_two = Ok r' ∧ router_ok r' ∧
    abs r' = {["cf-foo" := {[member_of demo_endpoint2]}]} ∧ virtualResources r' !! "cf-foo" = Some v.
Proof.
  assert (abs demo_two = {["cf-foo" := {[member_of demo_endpoint; member_of demo_endpoint2]}]}) as Habs
    by (vm_compute; reflexivity).
  destruct (route_remove_refines demo_update "foo" demo_two demo_two_ok eq_refl) as [[H _]|(ep & r' & Hgu & H1 & H2 & H3 & H4)].
  { destruct (demo_accepted H). }
  assert (ep = demo_endpoint) as -> by (destruct Hgu as [[= <-] _ _ _]; reflexivity).
  rewrite Habs in H3. assert (abs r' = {["cf-foo" := {[member_of demo_endpoint2]}]}) as H5
    by (rewrite H3; vm_compute; reflexivity).
  rewrite decide_False in H4 by (rewrite H5; intros [_ H]; discriminate H).
  destruct H4 as (ps & np & pr & ->).
  destruct (virtualResources demo_two !! "cf-foo") as [v|] eqn:Hv; [|vm_compute in Hv; discriminate Hv].
  eexists _, v. split; [exact H1|]. split; [exact H2|]. split; [exact H5|exact Hv].
Defined.

(** Registering the first endpoint of a route and removing it again
    restores the pools and leaves nothing of the route. *)
Theorem route_add_remove_roundtrip ru ep r r1 :
  router_ok r → good_update ru ep → no_panic (makeRouteRule ru) →
  abs r !! hu_name ru = None → processRouteAdd ru r = Ok r1 → is_Some (virtualResources r1 !! hu_name ru) →
  virtualResources r !! hu_name ru = None →
  ∃ r2, processRouteRemove ru r1 = Ok r2 ∧ abs r2 = abs r ∧ route_gone r2 ru.
Proof.
  intros Hok Hgu Hnp Hnew Hadd Hv1 Hv.
  destruct (processRouteAdd_spec alloc_ok ru ep r Hok Hgu Hnp) as (r1' & Hr1 & Hok1 & _ & _ & _ & _ & Hcase).
  rewrite Hadd in Hr1. injection Hr1 as <-.
  destruct Hcase as [(Habs & _ & _)|(_ & _ & t & ->)]; [|simpl in Hv1; rewrite Hv in Hv1; by destruct Hv1].
  destruct (processRouteRemove_spec alloc_ok ru ep r1 Hok1 Hgu) as (r2 & Hr2 & _ & _ & _ & Habs2 & Hgone).
  assert (spec_remove (hu_name ru) (member_of ep) (abs r1) = abs r) as Heq.
  { rewrite Habs. unfold spec_remove, spec_add. rewrite lookup_insert_eq, Hnew. simpl.
    rewrite decide_True by set_solver. by rewrite delete_insert_id. }
  exists r2. rewrite Habs2. split_and!; [done|done|]. rewrite decide_True in Hgone; [apply Hgone|]. split.
  - rewrite Habs. unfold spec_add. by rewrite lookup_insert_eq.
  - by rewrite Habs2, Heq.
Qed.

Lemma route_add_remove_roundtrip_witness :
  ∃ r1 r2, processRouteAdd demo_update demo_router = Ok r1 ∧ processRouteRemove demo_update r1 = Ok r2 ∧
           abs r2 = abs demo_router.
Proof.
  assert (match processRouteAdd demo_update demo_router with
          | Ok r1 => bool_decide (is_Some (virtualResources r1 !! hu_name demo_update)) | _ => false end = true)
    as Hv by (vm_compute; reflexivity).
  destruct (processRouteAdd demo_update demo_router) as [r1|e|w] eqn:E; [|discriminate Hv..].
  apply bool_decide_eq_true in Hv. exists r1.
  destruct (route_add_remove_roundtrip demo_update demo_endpoint demo_router r1 demo_router_ok demo_good
              demo_no_panic) as (r2 & H1 & H2 & _).
  - vm_compute. reflexivity.
  - exact E.
  - exact Hv.
  - vm_compute. reflexivity.
  - exists r2. split; [reflexivity|]. split; [exact H1|exact H2].
Defined.

(** C10. In every state reached from a router that starts without cached
    records on an IPv4 range, by registrations, by drains, and by removals
    after the first drain, two different tier-2 virtual servers have different
    destinations.  Bind and unbind updates are not among the steps; an earlier
    removal and a cached record of a route that is gone do break the property
    ([early_removal_shares_destination], [stale_record_shares_destination]). *)
Theorem tier2_destinations_distinct `{!MapOrder string} r n1 n2 v1 v2 :
  reach r →
  virtualResources r !! n1 = Some v1 → virtualResources r !! n2 = Some v2 →
  is_Some (internalDataGroup r !! n1) → is_Some (internalDataGroup r !! n2) →
  Destination v1 = Destination v2 → n1 = n2.
Proof. intros [Hok _]%reach_ok. by apply router_ok_distinct. Qed.

Lemma tier2_destinations_distinct_witness :
  ∃ r v, processRouteAdd demo_update demo_router = Ok r ∧ virtualResources r !! "cf-foo" = Some v ∧
    ∀ n2 v2, virtualResources r !! n2 = Some v2 → is_Some (internalDataGroup r !! n2) →
             Destination v = Destination v2 → "cf-foo" = n2.
Proof.
  assert (match processRouteAdd demo_update demo_router with
          | Ok r1 => bool_decide (is_Some (virtualResources r1 !! "cf-foo")) &&
                     bool_decide (is_Some (internalDataGroup r1 !! "cf-foo")) | _ => false end = true)
    as Hv by (vm_compute; reflexivity).
  destruct (processRouteAdd demo_update demo_router) as [r1|e|w] eqn:E; [|discriminate Hv..].
  apply andb_true_iff in Hv as [Hv Hd]. apply bool_decide_eq_true in Hv, Hd. destruct Hv as [v Hv].
  exists r1, v. split; [reflexivity|]. split; [exact Hv|]. intros n2 v2 Hv2 Hd2 Heq.
  apply (tier2_destinations_distinct r1 "cf-foo" n2 v v2); [|exact Hv|exact Hv2|exact Hd|exact Hd2|exact Heq].
  eapply reach_add; [eapply reach_new; [exact demo_router_new|exact demo_v4]|exact demo_good|exact demo_no_panic|exact E].
Defined.
