(* ===== verification/RouterLimits.v ===== *)
(** Where the router departs from what its comments and its callers expect:
    what unbinding a route with several endpoints leaves, for any state, and
    concrete runs that the theorems on runs exclude by their hypotheses,
    evaluated. *)
From Stdlib Require Import Ascii ZArith Lia.
From stdpp Require Import sorting countable base list gmap strings.
From S2P Require Import Prelude GoStrings GoNet Uri Pool Config Resources Codec GoUrl Updates Tier2 Policy F5Router RouterFacts RouterRun.
Import bigipResources planResources routeUpdate.
Local Open Scope Z_scope.

(** An update for a URI and an address, handled by the router. *)
Definition run_item (op : Operation) (uri addr : string) (m : result F5Router) : result F5Router :=
  rbind m (λ r,
  rbind (NewUpdate 0 op uri (Some (mkEndpoint 1 "app" addr 8080 ∅ "guid" 0 EmptyString "0" (mkTag EmptyString 0)))
           "plan") (λ u, handle (ItemHTTP u) r)).

Definition run_drained (m : result F5Router) : result F5Router := rbind m (λ r, rbind (drain r) (λ '(r', _), Ok r')).

Definition destination (name : string) (m : result F5Router) : option string :=
  match m with Ok r => Destination <$> virtualResources r !! name | _ => None end.

Definition bar : string := "cf-bar-d21aa8a505891ac9".
Definition baz : string := "cf-baz-9a96ddcfe07bb46e".

(** *** Unbinding a mapped route *)

(** The pool the default configuration gives a route. *)
Definition default_pool (c : Config) (p : bigipResources.Pool) (ms : list Member) : bigipResources.Pool :=
  makePool (Name p) (Description p) ms (LoadBalancingMode (BigIP c)) (fixupNames (HealthMonitors (BigIP c))).

Lemma broker_default_resources u c p0 d dest a port :
  partition0 c = Ok p0 → hu_name u ≠ EmptyString → hu_endpoint u = None → a ≠ EmptyString → d ≠ EmptyString →
  ∃ vs pool, CreateBrokerDefaultResources u c d dest a port = Ok (mkResources [vs] [pool] [] [] [] []) ∧
    VirtualServerName vs = hu_name u ∧ Destination vs = dest ∧
    ∀ ms, set_Members ms pool = makePool (hu_name u) d ms (LoadBalancingMode (BigIP c)) (fixupNames (HealthMonitors (BigIP c))).
Proof.
  intros Hp Hn Hep Ha Hd. unfold CreateBrokerDefaultResources, createResources. rewrite Hp. cbn [rbind].
  destruct (joinBigipPath_Ok p0 JsessionidIRuleName) as [j Hj]; [done|].
  destruct (joinBigipPath_Ok p0 (hu_name u)) as [q Hq]; [done|]. rewrite Hj, Hq, Hep.
  rewrite !bool_decide_eq_false_2 by done.
  destruct (SessionPersistence c); cbn; eexists _, _; (split; [done|done]).
Qed.

(** Removing the pool object from itself drops its first member. *)
Lemma removePool_self r l n p m ms :
  poolResources r !! n = Some l → pools r !! l = Some p → pool_ok n p → Members p = m :: ms →
  removePool l r =
    Ok (match ms with
        | [] => (upd_poolResources (delete n) (upd_pools (insert l (set_Members [] p)) r), true)
        | _ => (upd_pools (insert l (set_Members (swap_remove 0 (m :: ms)) p)) r, false)
        end).
Proof.
  intros Hl Hp (Hn & _ & Hnd & Hz) Hm. unfold removePool, get_pool. rewrite Hp. cbn [rbind]. rewrite Hn, Hl, Hp. cbn [rbind].
  rewrite bool_decide_eq_true_2 by done. rewrite Hm in Hnd, Hz |- *. rewrite remove_loop_self by done. cbn [rbind].
  destruct ms as [|m' ms]; [done|].
  pose proof (swap_remove_length 0 (m :: m' :: ms)) as Hlen.
  destruct (swap_remove 0 (m :: m' :: ms)); [cbn in Hlen; lia|done].
Qed.

(** C39. Unbinding a mapped route, in any router that satisfies the
    invariant, whose pool has a description and whose first member an address,
    as registrations make them.  With a single endpoint the route gets the pool of the default
    configuration back, with its endpoint.  With more than one it does not:
    [removePool] drops the first member only, the pool stays in the map with
    its bound configuration, and all members are appended to it, so that every
    member but the first is listed twice.  Either way the virtual server keeps
    its destination. *)
Theorem unbind_duplicates_member u k r p v m ms :
  router_ok r → hu_name u = "cf-" +:+ k → hu_endpoint u = None →
  pool_view r !! hu_name u = Some p → virtualResources r !! hu_name u = Some v →
  Members p = m :: ms → MAddress m ≠ EmptyString → Description p ≠ EmptyString →
  ∃ r' p' v', processRouteUnbind u r = Ok r' ∧ pool_view r' !! hu_name u = Some p' ∧
    virtualResources r' !! hu_name u = Some v' ∧ Destination v' = Destination v ∧
    (ms = [] → p' = default_pool (rc r) p [m]) ∧
    (ms ≠ [] → p' = set_Members (swap_remove 0 (m :: ms) ++ m :: ms) p ∧ Members p' ≡ₚ m :: ms ++ ms).
Proof.
  intros Hok Hn Hep Hpv Hv Hm Ha Hd. destruct (ro_part _ Hok) as [p0 Hp0].
  pose proof (view_ok r _ p (ro_pools _ Hok) Hpv) as Hpo. rewrite view_lookup in Hpv.
  destruct (poolResources r !! hu_name u) as [l|] eqn:Hl; [|done]. cbn in Hpv.
  pose proof (fresh_loc r l _ (ro_pools _ Hok) Hl) as Hfr.
  destruct (broker_default_resources u (rc r) p0 (Description p) (Destination v) (MAddress m) (MPort m))
    as (vs & pool & Hcr & Hvn & Hvd & Hset); [done|by rewrite Hn|done..|].
  unfold processRouteUnbind. rewrite Hl, Hv. unfold get_pool at 1. rewrite Hpv. cbn [rbind].
  rewrite (removePool_self r l (hu_name u) p m ms Hl Hpv Hpo Hm), Hm. pose proof Hpo as [HN _].
  destruct ms as [|m' ms]; cbn [rbind head_or_panic]; rewrite Hcr; cbn [or_log rbind head_or_panic Pools Virtuals];
    rewrite Hset; unfold alloc_pool, addPool, get_pool; simpl; rewrite lookup_insert_eq; simpl.
  - rewrite lookup_delete_eq. cbn [rbind]. unfold addVirtual. simpl. rewrite Hvn, lookup_delete_eq.
    eexists _, _, vs. split; [done|]. rewrite view_lookup. simpl. rewrite !lookup_insert_eq. simpl. rewrite lookup_insert_eq.
    split_and!; [done|done|done| |done]. intros _. unfold default_pool. by rewrite HN.
  - rewrite Hl, lookup_insert_ne, lookup_insert_eq by done. simpl.
    set (s := swap_remove 0 (m :: m' :: ms)).
    destruct (swap_remove_NoDup 0 m (m :: m' :: ms)) as [_ Hsr]; [done|rewrite <-Hm; apply Hpo|].
    assert (m ∉ s) as Hms by (intros [_ []]%Hsr; done).
    assert (s ≡ₚ m' :: ms) as Hp by (eapply (Permutation_cons_inv (a := m)); by apply swap_remove_perm).
    clearbody s. rewrite bool_decide_eq_false_2 by done.
    destruct s as [|s0 t]; [by apply Permutation_nil_l in Hp|]. cbn [rbind].
    unfold addVirtual. simpl. rewrite Hvn, lookup_delete_eq.
    eexists _, _, vs. split; [done|]. rewrite view_lookup. simpl. rewrite Hl, lookup_insert_eq. simpl. rewrite lookup_insert_eq.
    split_and!; [done|done|done|done|]. intros _. split; [done|].
    change (((s0 :: t) ++ m :: m' :: ms) ≡ₚ m :: (m' :: ms) ++ m' :: ms). by rewrite Hp, Permutation_middle.
Qed.

(** The route of [demo_two] has two endpoints. *)
Lemma unbind_duplicates_member_witness :
  ∃ r' p', processRouteUnbind (mkHTTP 0 Unbind "foo.cf.com/a/b" None "cf-foo" "http" "plan") demo_two = Ok r' ∧
    pool_view r' !! "cf-foo" = Some p' ∧
    Members p' ≡ₚ [member_of demo_endpoint; member_of demo_endpoint2; member_of demo_endpoint2].
Proof.
  destruct (pool_view demo_two !! "cf-foo") as [p|] eqn:Hp; [|vm_compute in Hp; discriminate Hp].
  destruct (virtualResources demo_two !! "cf-foo") as [v|] eqn:Hv; [|vm_compute in Hv; discriminate Hv].
  destruct (unbind_duplicates_member (mkHTTP 0 Unbind "foo.cf.com/a/b" None "cf-foo" "http" "plan") "foo" demo_two p v
              (member_of demo_endpoint) [member_of demo_endpoint2] demo_two_ok eq_refl eq_refl Hp Hv)
    as (r' & p' & v' & H1 & H2 & _ & _ & _ & H3).
  - vm_compute in Hp. injection Hp as <-. reflexivity.
  - discriminate.
  - vm_compute in Hp. injection Hp as <-. discriminate.
  - exists r', p'. split; [exact H1|]. split; [exact H2|]. apply H3. discriminate.
Defined.

(** A route removed before the first drain makes two later routes share
    one destination: its address is reaped by the removal and, because it is
    still registered, once more by the truncation. *)
Theorem early_removal_shares_destination :
  let r := run_item Add "baz.cf.com" "10.0.0.3" (run_item Add "bar.cf.com" "10.0.0.2"
             (run_drained (run_item Remove "foo.cf.com" "10.0.0.1"
               (run_item Add "foo.cf.com" "10.0.0.1" (Ok demo_router))))) in
  destination bar r = Some "/cf/172.0.0.0:10000" ∧ destination baz r = Some "/cf/172.0.0.0:10000".
Proof. vm_compute. split; reflexivity. Qed.

(** A router that found a record of a route that is gone. *)
Definition restarted : result F5Router :=
  rbind (startup 0 (Ok (Some (mkDataGroup InternalDataGroupName
           [mkRecord "cf-gone" (Encode (mkVA "172.0.0.0" 10000))]))) (Err "none") demo_router) (λ '(r, _), Ok r).

(** After a restart with the record of a route that no longer exists, two
    new routes share one destination: the address is reaped and reused
    without being registered, and the holder hands it out again. *)
Theorem stale_record_shares_destination :
  let r := run_item Add "baz.cf.com" "10.0.0.3" (run_item Add "bar.cf.com" "10.0.0.2"
             (run_drained (run_item Remove "foo.cf.com" "10.0.0.1" restarted))) in
  destination bar r = Some "/cf/172.0.0.0:10000" ∧ destination baz r = Some "/cf/172.0.0.0:10000".
Proof. vm_compute. split; reflexivity. Qed.

(** A wildcard in the path and none in the host stops the controller:
    the rule's last host piece is looked up at index -1. *)
Theorem path_wildcard_panics :
  run_item Add "foo.cf.com/*" "10.0.0.1" (Ok demo_router) = Panic "index out of range".
Proof. vm_compute. reflexivity. Qed.

(** A route whose URL does not parse is stored with a nil rule, and the
    next drain dereferences it. *)
Theorem bad_url_panics_on_drain :
  is_ok (run_item Add "foo.cf.com/%zz" "10.0.0.1" (Ok demo_router)) ∧
  run_drained (run_item Add "foo.cf.com/%zz" "10.0.0.1" (Ok demo_router)) =
    Panic "invalid memory address or nil pointer dereference".
Proof.
  split; [|vm_compute; reflexivity].
  assert (match run_item Add "foo.cf.com/%zz" "10.0.0.1" (Ok demo_router) with Ok _ => true | _ => false end = true)
    as H by (vm_compute; reflexivity).
  destruct (run_item _ _ _ _) as [r|e|w]; [by exists r|discriminate H..].
Qed.
