(* ===== verification/Heap.v ===== *)
(** The binary heap of stats/container/heap.go, driven by the algorithms of
    Go's container/heap (the release the build uses, 1.7.5).

    A Go [Heap] is a slice of pointers to entries; [Swap], [Push] and [Pop]
    write each entry's position back into it through [HeapType.SetIndex], so
    that the statistics can later ask for "the heap without this entry".  The
    entries live in a store that several heaps share.  The class [HeapType]
    is the Go interface (order and index field), [HeapOrder] and [HeapIndex]
    are the laws its users promise: the order compares an integer key the
    index does not influence, and the index field reads back.  The theorems
    of the section hold for every such type: no operation panics, the slice
    stays a heap of the same entries, the removed entry is the right one, and
    every index field is the entry's position. *)

From Stdlib Require Import ZArith Lia.
From stdpp Require Import base list gmap strings.
From S2P Require Import Prelude.

Open Scope go_scope.

(** [heap.Interface]'s [Less] on two entries, and [HeapType.SetIndex] on the
    entry it reaches. *)
Class HeapType (E : Type) := {
  less : E → E → result bool;
  setIndex : Z → E → E
}.

Definition out_of_range : string := "index out of range".

(** The slice [h] of pointers to entries. *)
Notation Heap := (list nat).

Section heap.
Context {E : Type} {HT : HeapType E}.

(** The entries by pointer. *)
Abbreviation store := (gmap nat E).
Implicit Types (m : store) (h : Heap).

Definition Len (h : Heap) : nat := length h.

Definition Get (h : Heap) (indx : nat) : result nat :=
  match h !! indx with Some l => Ok l | None => Panic out_of_range end.

Definition deref (m : store) (l : nat) : result E :=
  match m !! l with Some e => Ok e | None => Panic "invalid memory address" end.

Definition Less (m : store) (h : Heap) (i j : nat) : result bool :=
  let* li := Get h i in let* yi := deref m li in
  let* lj := Get h j in let* yj := deref m lj in
  less yi yj.

(** [y := x.Heap.Get(i); y.index = j] *)
Definition SetIndex (m : store) (h : Heap) (i : nat) (j : Z) : result store :=
  let* l := Get h i in
  let* y := deref m l in
  Ok (<[l := setIndex j y]> m).

Definition Swap (s : store * Heap) (i j : nat) : result (store * Heap) :=
  let '(m, h) := s in
  let* hj := Get h j in let* hi := Get h i in
  let h' := <[j := hi]> (<[i := hj]> h) in
  let* m1 := SetIndex m h' i (Z.of_nat i) in
  let* m2 := SetIndex m1 h' j (Z.of_nat j) in
  Ok (m2, h').

(** [Heap.Push] and [Heap.Pop]: at the end of the slice. *)
Definition push_back (s : store * Heap) (l : nat) : result (store * Heap) :=
  let '(m, h) := s in
  let h' := h ++ [l] in
  let* m' := SetIndex m h' (length h' - 1) (Z.of_nat (length h' - 1)) in
  Ok (m', h').

Definition pop_back (s : store * Heap) : result (store * Heap * nat) :=
  let '(m, h) := s in
  match h with
  | [] => Panic out_of_range
  | _ =>
      let n := length h in
      let* m' := SetIndex m h (n - 1) (-1) in
      let* y := Get h (n - 1) in
      Ok (m', take (n - 1) h, y)
  end.

(** [x.h] is replaced by a copy; the pointers in it stay shared. *)
Definition Copy (h : Heap) : Heap := h.

(** container/heap: [up] and [down] loop until the order holds again.  Each
    turn of [up] goes to a smaller index and each turn of [down] to a larger
    one below [n], so the fuel given by [up] and [down] is never used up. *)
Fixpoint up_loop (fuel : nat) (s : store * Heap) (j : nat) : result (store * Heap) :=
  match fuel with
  | 0 => Panic "out of fuel"
  | S fuel =>
      let i := (j - 1) / 2 in
      if i =? j then Ok s
      else
        let* b := Less s.1 s.2 j i in
        if negb b then Ok s
        else let* s' := Swap s i j in up_loop fuel s' i
  end.

Definition up (s : store * Heap) (j : nat) : result (store * Heap) := up_loop (S j) s j.

Fixpoint down_loop (fuel : nat) (s : store * Heap) (i n : nat) : result (store * Heap) :=
  match fuel with
  | 0 => Panic "out of fuel"
  | S fuel =>
      let j1 := 2 * i + 1 in
      if n <=? j1 then Ok s
      else
        let j2 := j1 + 1 in
        let* j := (if j2 <? n
                   then let* b := Less s.1 s.2 j1 j2 in Ok (if negb b then j2 else j1)
                   else Ok j1) in
        let* b := Less s.1 s.2 j i in
        if negb b then Ok s
        else let* s' := Swap s i j in down_loop fuel s' j n
  end.

Definition down (s : store * Heap) (i n : nat) : result (store * Heap) := down_loop (S n) s i n.

Definition heap_Push (s : store * Heap) (l : nat) : result (store * Heap) :=
  let* s' := push_back s l in
  up s' (Len s'.2 - 1).

Definition heap_Pop (s : store * Heap) : result (store * Heap * nat) :=
  match s.2 with
  | [] => Panic out_of_range
  | _ =>
      let n := Len s.2 - 1 in
      let* s1 := Swap s 0 n in
      let* s2 := down s1 0 n in
      pop_back s2
  end.

(** The index comes from an entry's field: it may be [-1]. *)
Definition heap_Remove (s : store * Heap) (i : Z) : result (store * Heap * nat) :=
  let n := (Z.of_nat (Len s.2) - 1)%Z in
  if (n =? i)%Z then pop_back s
  else if (i <? 0)%Z || (n <? 0)%Z then Panic out_of_range
  else
    let* s1 := Swap s (Z.to_nat i) (Z.to_nat n) in
    let* s2 := down s1 (Z.to_nat i) (Z.to_nat n) in
    let* s3 := up s2 (Z.to_nat i) in
    pop_back s3.

End heap.

#[global] Arguments Swap : simpl never.
#[global] Arguments up : simpl never.
#[global] Arguments down : simpl never.
#[global] Arguments push_back : simpl never.
#[global] Arguments pop_back : simpl never.
#[global] Arguments heap_Push : simpl never.
#[global] Arguments heap_Pop : simpl never.
#[global] Arguments heap_Remove : simpl never.

(** ** The order, on positions

    [k] gives the key at each position.  The lemmas of this section are the
    arithmetic of [up] and [down]; the lists come later. *)
Definition child (p c : nat) : Prop := c = 2 * p + 1 ∨ c = 2 * p + 2.

Definition ordered (k : nat → Z) (n : nat) : Prop :=
  ∀ p c, child p c → c < n → (k p ≤ k c)%Z.

(** The order may fail around [i], whose parent is still below its children. *)
Definition hole (k : nat → Z) (n i : nat) : Prop :=
  (∀ p c, child p c → c < n → p ≠ i → c ≠ i → (k p ≤ k c)%Z) ∧
  (∀ p c, child p i → child i c → c < n → (k p ≤ k c)%Z).

(** The order may fail only between [i] and its parent. *)
Definition low (k : nat → Z) (n i : nat) : Prop :=
  hole k n i ∧ ∀ c, child i c → c < n → (k i ≤ k c)%Z.

(** The order may fail only between [i] and its children. *)
Definition high (k : nat → Z) (n i : nat) : Prop :=
  hole k n i ∧ ∀ p, child p i → (k p ≤ k i)%Z.

(** [k'] is [k] with two positions exchanged. *)
Definition exchanged (k k' : nat → Z) (i j : nat) : Prop :=
  k' i = k j ∧ k' j = k i ∧ ∀ x, x ≠ i → x ≠ j → k' x = k x.

Lemma child_parent j : j ≠ 0 → child ((j - 1) / 2) j.
Proof.
  intros. unfold child. pose proof (Nat.div_mod_eq (j - 1) 2).
  pose proof (Nat.mod_upper_bound (j - 1) 2). lia.
Qed.

Lemma child_inj p q c : child p c → child q c → p = q.
Proof. unfold child. lia. Qed.

Lemma child_lt p c : child p c → p < c.
Proof. unfold child. lia. Qed.

Lemma hole_low_high k n i :
  hole k n i → (∀ c, child i c → c < n → (k i ≤ k c)%Z) → (∀ p, child p i → (k p ≤ k i)%Z) →
  ordered k n.
Proof.
  intros [H _] Hc Hp p c Hpc Hn.
  destruct (decide (p = i)) as [->|]; [by apply Hc|].
  destruct (decide (c = i)) as [->|]; [by apply Hp|]. by apply H.
Qed.

Lemma ordered_hole k n i : ordered k n → hole k n i.
Proof.
  intros H. split; [by intros; apply H|]. intros p c Hp Hc Hn.
  pose proof (child_lt _ _ Hc). trans (k i); apply H; auto. lia.
Qed.

Lemma ordered_low k n i : ordered k n → low k n i.
Proof. intros H. split; [by apply ordered_hole|]. intros; by apply H. Qed.

(** A turn of [up]. *)
Lemma low_exchange k k' n p j :
  low k n j → j < n → child p j → (k j < k p)%Z → exchanged k k' p j → low k' n p.
Proof.
  intros [[H Hg] Hc] Hj Hp Hlt (Ep & Ej & Eo). pose proof (child_lt _ _ Hp) as Hpj.
  assert (∀ q, child q p → (k q ≤ k p)%Z) as Hq.
  { intros q Hq. pose proof (child_lt _ _ Hq). apply H; auto; lia. }
  assert (∀ c, child p c → c < n → c ≠ j → (k p ≤ k c)%Z) as Hs.
  { intros c Hpc ??. apply H; auto. lia. }
  assert (∀ c, child p c → c < n → (k p ≤ k' c)%Z) as Hs'.
  { intros c Hpc Hn. destruct (decide (c = j)) as [->|]; [lia|].
    pose proof (child_lt _ _ Hpc). rewrite Eo by lia. by apply Hs. }
  split; [split|].
  - intros q c Hqc Hn Hqp Hcp. destruct (decide (c = j)) as [->|Hcj].
    { by destruct (Hqp (child_inj _ _ _ Hqc Hp)). }
    rewrite (Eo c) by done. destruct (decide (q = j)) as [->|Hqj].
    + rewrite Ej. by apply (Hg p c).
    + rewrite Eo by done. by apply H.
  - intros q c Hqp Hpc Hn. pose proof (child_lt _ _ Hqp). rewrite (Eo q) by lia.
    trans (k p); [by apply Hq|by apply Hs'].
  - intros c Hpc Hn. rewrite Ep. pose proof (Hs' c Hpc Hn). lia.
Qed.

(** A turn of [down]: [j] is the smaller child. *)
Lemma hole_exchange k k' n i j :
  hole k n i → child i j → j < n → (k j < k i)%Z → (∀ c, child i c → c < n → (k j ≤ k c)%Z) →
  exchanged k k' i j → high k' n j.
Proof.
  intros [H Hg] Hij Hj Hlt Hmin (Ei & Ej & Eo). pose proof (child_lt _ _ Hij) as Hlt'.
  split; [split|].
  - intros p c Hpc Hn Hpj Hcj. destruct (decide (p = i)) as [->|Hpi].
    { pose proof (child_lt _ _ Hpc). rewrite Ei, Eo by lia. by apply Hmin. }
    rewrite (Eo p) by done. destruct (decide (c = i)) as [->|Hci].
    + rewrite Ei. by apply Hg.
    + rewrite Eo by done. by apply H.
  - intros p c Hpj Hjc Hn. pose proof (child_lt _ _ Hjc) as Hjc'.
    pose proof (child_inj _ _ _ Hpj Hij) as ->. rewrite Ei, Eo by lia. apply H; auto; lia.
  - intros p Hpj. pose proof (child_inj _ _ _ Hpj Hij) as ->. lia.
Qed.

(** The root of a heap is minimal. *)
Lemma ordered_root k n i : ordered k n → i < n → (k 0%nat ≤ k i)%Z.
Proof.
  intros H. induction i as [i IH] using lt_wf_ind. intros Hi.
  destruct (decide (i = 0)) as [->|Hi0]; [done|].
  pose proof (child_parent i Hi0) as Hc. pose proof (child_lt _ _ Hc).
  trans (k ((i - 1) / 2)); [apply IH; lia|by apply H].
Qed.

(** ** What the users of a heap promise *)
Class HeapOrder (E : Type) {HT : HeapType E} := {
  key : E → option Z;
  less_key : ∀ a b x y, key a = Some x → key b = Some y → less a b = Ok (bool_decide (x < y)%Z);
  key_setIndex : ∀ z e, key (setIndex z e) = key e;
  setIndex_twice : ∀ z z' e, setIndex z (setIndex z' e) = setIndex z e
}.

Class HeapIndex (E : Type) {HT : HeapType E} := {
  getIndex : E → Z;
  getIndex_setIndex : ∀ z e, getIndex (setIndex z e) = z
}.

(** Comparing keys by [<] or, with the sign turned, by [>]. *)
Lemma ltb_key (x y : Z) : (x <? y)%Z = bool_decide (x < y)%Z.
Proof. case_bool_decide; [by apply Z.ltb_lt|by apply Z.ltb_ge, Z.nlt_ge]. Qed.

Lemma gtb_key (x y : Z) : (y <? x)%Z = bool_decide (- x < - y)%Z.
Proof. rewrite ltb_key. apply bool_decide_ext. lia. Qed.

Section order.
Context {E : Type} {HT : HeapType E} {HO : HeapOrder E}.
Abbreviation store := (gmap nat E).
Implicit Types (m : store) (h : Heap) (f : nat → Z) (l : nat).

(** Every pointer of the slice leads to an entry, whose key is [f]. *)
Definition keyed m f h : Prop := ∀ l, l ∈ h → ∃ e, m !! l = Some e ∧ key e = Some (f l).

(** Only index fields of entries in [h] differ. *)
Definition reindexed h m m' : Prop :=
  ∀ l, m' !! l = m !! l ∨ ∃ e z, l ∈ h ∧ m !! l = Some e ∧ m' !! l = Some (setIndex z e).

#[global] Instance reindexed_preorder h : PreOrder (reindexed h).
Proof.
  split; [by left|]. intros m1 m2 m3 H12 H23 l.
  destruct (H23 l) as [E3|(e & z & Hl & E2 & E3)]; destruct (H12 l) as [E2'|(e' & z' & Hl' & E1 & E2')].
  - left. congruence.
  - right. exists e', z'. by rewrite E3.
  - right. exists e, z. by rewrite <-E2'.
  - right. exists e', z. rewrite E2' in E2. simplify_eq. by rewrite setIndex_twice in E3.
Qed.

Lemma reindexed_mono h h' m m' : h ⊆ h' → reindexed h m m' → reindexed h' m m'.
Proof. intros Hs H l. destruct (H l) as [|(e & z & Hl & ?)]; [by left|]. right. exists e, z. set_solver. Qed.

Lemma keyed_reindexed m m' f h h' : reindexed h m m' → keyed m f h' → keyed m' f h'.
Proof.
  intros Hr Hk l Hl. destruct (Hk l Hl) as (e & He & Hf).
  destruct (Hr l) as [->|(e' & z & _ & He' & ->)]; [by exists e|].
  simplify_eq. exists (setIndex z e). by rewrite key_setIndex.
Qed.

Lemma keyed_subset m f h h' : h' ⊆ h → keyed m f h → keyed m f h'.
Proof. intros Hs Hk l Hl. apply Hk. by apply Hs. Qed.

Lemma Get_lt h i : i < length h → Get h i = Ok (h !!! i).
Proof. intros Hi. unfold Get. by rewrite (list_lookup_lookup_total_lt h i Hi). Qed.

Lemma Less_ok m f h i j :
  keyed m f h → i < length h → j < length h →
  Less m h i j = Ok (bool_decide (f (h !!! i) < f (h !!! j))%Z).
Proof.
  intros Hk Hi Hj. unfold Less, deref. rewrite !Get_lt by done. simpl.
  destruct (Hk (h !!! i)) as (a & -> & Ha); [by apply list_elem_of_lookup_total_2|].
  destruct (Hk (h !!! j)) as (b & -> & Hb); [by apply list_elem_of_lookup_total_2|].
  simpl. by apply less_key.
Qed.

Lemma SetIndex_ok m f h i z :
  keyed m f h → i < length h →
  ∃ m', SetIndex m h i z = Ok m' ∧ reindexed h m m'.
Proof.
  intros Hk Hi. unfold SetIndex, deref. rewrite Get_lt by done. simpl.
  assert (h !!! i ∈ h) as Hin by by apply list_elem_of_lookup_total_2.
  destruct (Hk _ Hin) as (e & He & _). rewrite He. simpl. eexists. split; [done|].
  intros l. destruct (decide (l = h !!! i)) as [->|Hne].
  - right. exists e, z. by rewrite lookup_insert_eq.
  - left. by rewrite lookup_insert_ne.
Qed.

Definition swap_at h (i j : nat) : Heap := <[j := h !!! i]> (<[i := h !!! j]> h).

Lemma swap_at_length h i j : length (swap_at h i j) = length h.
Proof. unfold swap_at. by rewrite !length_insert. Qed.

Lemma swap_at_lookup h i j x :
  i < length h → j < length h →
  swap_at h i j !!! x = if decide (x = j) then h !!! i else if decide (x = i) then h !!! j else h !!! x.
Proof.
  intros Hi Hj. unfold swap_at. repeat case_decide; subst.
  - by rewrite list_lookup_total_insert_eq by (by rewrite length_insert).
  - rewrite list_lookup_total_insert_ne by done. by rewrite list_lookup_total_insert_eq.
  - by rewrite !list_lookup_total_insert_ne by done.
Qed.

Lemma swap_at_perm h i j : i < length h → j < length h → swap_at h i j ≡ₚ h.
Proof. intros. apply Permutation_insert_swap; by apply list_lookup_lookup_total_lt. Qed.

Lemma Swap_ok m f h i j :
  keyed m f h → i < length h → j < length h →
  ∃ m', Swap (m, h) i j = Ok (m', swap_at h i j) ∧ reindexed h m m'.
Proof.
  intros Hk Hi Hj. unfold Swap. rewrite !Get_lt by done. simpl. fold (swap_at h i j).
  pose proof (swap_at_perm h i j Hi Hj) as Hp. pose proof (swap_at_length h i j) as Hlen.
  assert (keyed m f (swap_at h i j)) as Hk' by (eapply keyed_subset, Hk; intros ?; by rewrite Hp).
  destruct (SetIndex_ok m f (swap_at h i j) i (Z.of_nat i)) as (m1 & -> & H1); [done|lia|]. simpl.
  destruct (SetIndex_ok m1 f (swap_at h i j) j (Z.of_nat j)) as (m2 & -> & H2);
    [by eapply keyed_reindexed|lia|]. simpl.
  exists m2. split; [done|]. eapply reindexed_mono; [|by etrans]. intros ?. by rewrite Hp.
Qed.

(** The heap operations are built from [Swap]s of positions below [n]. *)
Inductive swapped (n : nat) : store * Heap → store * Heap → Prop :=
| swapped_refl s : swapped n s s
| swapped_step s1 s2 s3 i j :
    i < n → j < n → Swap s1 i j = Ok s2 → swapped n s2 s3 → swapped n s1 s3.

Lemma swapped_one n s s' i j : i < n → j < n → Swap s i j = Ok s' → swapped n s s'.
Proof. intros ?? HS. by eapply (swapped_step n _ s'); [| |exact HS|apply swapped_refl]. Qed.

Lemma swapped_trans n n' s1 s2 s3 : n ≤ n' → swapped n s1 s2 → swapped n' s2 s3 → swapped n' s1 s3.
Proof. intros Hn H. induction H; [done|]. intros. eapply (swapped_step n'); [..|eassumption|eauto]; lia. Qed.

Lemma swapped_weaken n n' s s' : n ≤ n' → swapped n s s' → swapped n' s s'.
Proof. intros. eapply (swapped_trans n); [done..|apply swapped_refl]. Qed.

(** What survives any sequence of swaps. *)
Lemma swapped_facts n f s s' :
  swapped n s s' → n ≤ length s.2 → keyed s.1 f s.2 →
  s'.2 ≡ₚ s.2 ∧ keyed s'.1 f s'.2 ∧ reindexed s.2 s.1 s'.1 ∧
  (∀ x, n ≤ x → s'.2 !!! x = s.2 !!! x).
Proof.
  intros H. induction H as [s|[m h] s2 s3 i j Hi Hj HS _ IH]; intros Hn Hk; [done|]. simpl in *.
  destruct (Swap_ok m f h i j Hk) as (m' & HS' & Hr); [lia..|].
  rewrite HS in HS'. injection HS' as ->. simpl in *.
  pose proof (swap_at_perm h i j ltac:(lia) ltac:(lia)) as Hp.
  assert (keyed m' f (swap_at h i j)) as Hk'.
  { eapply keyed_reindexed; [done|]. eapply keyed_subset, Hk. intros ?. by rewrite Hp. }
  destruct IH as (Hp3 & Hk3 & Hr3 & Hx3); [by rewrite swap_at_length|done|].
  split_and!; [by rewrite Hp3|done| |].
  - etrans; [done|]. eapply reindexed_mono, Hr3. intros ?. by rewrite Hp.
  - intros x Hx. rewrite Hx3 by done. rewrite swap_at_lookup by lia. by rewrite !decide_False by lia.
Qed.

(** The key at each position. *)
Definition at_pos f h : nat → Z := λ x, f (h !!! x).

Lemma exchanged_swap f h i j :
  i < length h → j < length h → exchanged (at_pos f h) (at_pos f (swap_at h i j)) i j.
Proof.
  intros Hi Hj. unfold exchanged, at_pos. rewrite !swap_at_lookup by done.
  split_and!; [repeat case_decide; congruence|by rewrite decide_True|].
  intros x ??. rewrite swap_at_lookup by done. by rewrite !decide_False.
Qed.

Lemma up_ok f m h n j fuel :
  keyed m f h → n ≤ length h → j < n → j < fuel → low (at_pos f h) n j →
  ∃ m' h', up_loop fuel (m, h) j = Ok (m', h') ∧ swapped n (m, h) (m', h') ∧ ordered (at_pos f h') n.
Proof.
  revert m h j. induction fuel as [|fuel IH]; intros m h j Hk Hn Hj Hf Hl; [lia|]. cbn [up_loop].
  destruct (Nat.eqb_spec ((j - 1) / 2) j) as [Hi|Hi].
  { assert (j = 0) as -> by (destruct (decide (j = 0)) as [|Hj0]; [done|];
      pose proof (child_lt _ _ (child_parent j Hj0)); lia).
    exists m, h. split_and!; [done|constructor|]. apply (hole_low_high _ _ 0); [apply Hl..|].
    intros p Hp%child_lt. lia. }
  assert (j ≠ 0) as Hj0 by (intros ->; by vm_compute in Hi).
  pose proof (child_parent j Hj0) as Hp. pose proof (child_lt _ _ Hp). set (i := (j - 1) / 2) in *.
  cbn [fst snd]. rewrite (Less_ok m f) by (done || lia). cbn [rbind].
  case_bool_decide as Hlt; cbn [negb].
  2: { exists m, h. split_and!; [done|constructor|]. apply (hole_low_high _ _ j); [apply Hl..|].
       intros p Hp'. rewrite (child_inj _ _ _ Hp' Hp). unfold at_pos. lia. }
  destruct (Swap_ok m f h i j) as (m1 & HS & Hr); [done|lia..|]. rewrite HS. cbn [rbind].
  destruct (swapped_facts n f (m, h) (m1, swap_at h i j)) as (_ & Hk1 & _);
    [eapply swapped_one; [..|exact HS]; lia|done..|].
  destruct (IH m1 (swap_at h i j) i) as (m' & h' & -> & Hs & Ho);
    [done|by rewrite swap_at_length|lia..| |].
  { eapply (low_exchange (at_pos f h)); eauto using exchanged_swap with lia. }
  exists m', h'. split_and!; [done| |done]. eapply swapped_step; [..|exact HS|done]; lia.
Qed.

(** The smaller child of [i]: the choice made by [down]. *)
Lemma down_pick m f h i n :
  keyed m f h → n ≤ length h → 2 * i + 1 < n →
  ∃ j, (if 2 * i + 1 + 1 <? n
        then let* b := Less m h (2 * i + 1) (2 * i + 1 + 1) in
             Ok (if negb b then 2 * i + 1 + 1 else 2 * i + 1)
        else Ok (2 * i + 1)) = Ok j ∧
    child i j ∧ j < n ∧ ∀ c, child i c → c < n → (at_pos f h j ≤ at_pos f h c)%Z.
Proof.
  intros Hk Hn Hi. destruct (Nat.ltb_spec (2 * i + 1 + 1) n) as [Hlt|Hge].
  - rewrite (Less_ok m f) by (done || lia). cbn [rbind]. unfold at_pos.
    case_bool_decide as Hl; cbn [negb]; eexists; split_and!; try done; try (unfold child; lia);
      intros c [->| ->] Hc; try lia; replace (2 * i + 2) with (2 * i + 1 + 1) by lia; lia.
  - exists (2 * i + 1). split_and!; [done|by left|done|]. intros c [->| ->] Hc; lia.
Qed.

Lemma down_ok f m h n i fuel :
  keyed m f h → n ≤ length h → n - i < fuel → hole (at_pos f h) n i →
  ∃ m' h', down_loop fuel (m, h) i n = Ok (m', h') ∧ swapped n (m, h) (m', h') ∧
    low (at_pos f h') n i ∧ (high (at_pos f h) n i → ordered (at_pos f h') n).
Proof.
  revert m h i. induction fuel as [|fuel IH]; intros m h i Hk Hn Hf Hh; [lia|]. cbn [down_loop].
  assert ((∀ c, child i c → c < n → (at_pos f h i ≤ at_pos f h c)%Z) →
    low (at_pos f h) n i ∧ (high (at_pos f h) n i → ordered (at_pos f h) n)) as Hstop.
  { intros Hc. split; [done|]. intros [_ Hp]. by apply (hole_low_high _ _ i). }
  destruct (Nat.leb_spec n (2 * i + 1)) as [Hle|Hlt].
  { exists m, h. split_and!; [done|constructor|apply Hstop..]; intros c [->| ->] Hc; lia. }
  cbn [fst snd]. destruct (down_pick m f h i n) as (j & -> & Hij & Hj & Hmin); [done..|].
  pose proof (child_lt _ _ Hij). cbn [rbind]. rewrite (Less_ok m f) by (done || lia). cbn [rbind].
  case_bool_decide as Hl; cbn [negb].
  2: { exists m, h. split_and!; [done|constructor|apply Hstop..]; intros c Hc Hcn;
       specialize (Hmin c Hc Hcn); unfold at_pos in *; lia. }
  destruct (Swap_ok m f h i j) as (m1 & HS & Hr); [done|lia..|]. rewrite HS. cbn [rbind].
  destruct (swapped_facts n f (m, h) (m1, swap_at h i j)) as (_ & Hk1 & _);
    [eapply swapped_one; [..|exact HS]; lia|done..|].
  assert (high (at_pos f (swap_at h i j)) n j) as Hhigh.
  { eapply (hole_exchange (at_pos f h)); eauto using exchanged_swap with lia. }
  destruct (IH m1 (swap_at h i j) j) as (m' & h' & -> & Hs & _ & Ho);
    [done|by rewrite swap_at_length|lia|apply Hhigh|].
  exists m', h'. split_and!; [done| |by apply ordered_low, Ho|by intros; apply Ho].
  eapply swapped_step; [..|exact HS|done]; lia.
Qed.

(** ** The invariant of a heap and its operations *)
Definition heap_ok m f h : Prop := keyed m f h ∧ ordered (at_pos f h) (length h).

Lemma heap_ok_nil m f : heap_ok m f [].
Proof. split; [intros l Hl; set_solver|]. intros p c _ Hc. simpl in Hc. lia. Qed.

(** A heap does not care about entries it does not hold. *)
Lemma heap_ok_keyed m m' f h : heap_ok m f h → keyed m' f h → heap_ok m' f h.
Proof. by intros [_ ?]. Qed.

Lemma heap_ok_ext m f g h : (∀ l, l ∈ h → f l = g l) → heap_ok m f h → heap_ok m g h.
Proof.
  intros Hfg [Hk Ho]. split.
  - intros l Hl. rewrite <-Hfg by done. by apply Hk.
  - intros p c Hpc Hc. unfold at_pos. pose proof (child_lt _ _ Hpc).
    rewrite <-!Hfg by (apply list_elem_of_lookup_total_2; lia). by apply Ho.
Qed.

Lemma push_back_ok m f h l e :
  keyed m f h → m !! l = Some e → key e = Some (f l) →
  ∃ m', push_back (m, h) l = Ok (m', h ++ [l]) ∧ keyed m' f (h ++ [l]) ∧ reindexed (l :: h) m m'.
Proof.
  intros Hk Hl He. unfold push_back. rewrite length_app. cbn [length]. rewrite Nat.add_sub.
  assert (keyed m f (h ++ [l])) as Hk'.
  { intros x [Hx| ->%list_elem_of_singleton]%elem_of_app; [by apply Hk|by exists e]. }
  destruct (SetIndex_ok m f (h ++ [l]) (length h) (Z.of_nat (length h))) as (m' & -> & Hr);
    [done|rewrite length_app; simpl; lia|].
  cbn [rbind]. exists m'. split_and!; [done|by eapply keyed_reindexed|].
  eapply reindexed_mono, Hr. intros x. set_solver.
Qed.

Lemma pop_back_ok m f h l :
  keyed m f (h ++ [l]) →
  ∃ m', pop_back (m, h ++ [l]) = Ok (m', h, l) ∧ reindexed (h ++ [l]) m m'.
Proof.
  intros Hk. unfold pop_back. rewrite length_app. cbn [length]. rewrite Nat.add_sub.
  destruct (SetIndex_ok m f (h ++ [l]) (length h) (-1)) as (m' & -> & Hr);
    [done|rewrite length_app; simpl; lia|].
  cbn [rbind]. unfold Get. rewrite list_lookup_middle by done. cbn [rbind].
  rewrite take_app_length. exists m'. by destruct h.
Qed.

Lemma heap_push_ok m f h l e :
  heap_ok m f h → m !! l = Some e → key e = Some (f l) →
  ∃ m' h', heap_Push (m, h) l = Ok (m', h') ∧ heap_ok m' f h' ∧ h' ≡ₚ l :: h ∧ reindexed (l :: h) m m'.
Proof.
  intros [Hk Ho] Hl He. unfold heap_Push, Len, up.
  destruct (push_back_ok m f h l e) as (m1 & -> & Hk1 & Hr1); [done..|]. cbn [rbind fst snd].
  rewrite length_app. cbn [length]. rewrite Nat.add_sub.
  destruct (up_ok f m1 (h ++ [l]) (S (length h)) (length h) (S (length h))) as (m' & h' & -> & Hs & Ho');
    [done|rewrite length_app; simpl; lia|lia..| |].
  { split; [split|].
    - intros p c Hpc Hc Hp Hc'. pose proof (child_lt _ _ Hpc). unfold at_pos.
      rewrite !lookup_total_app_l by lia. apply Ho; [done|lia].
    - intros p c _ Hc%child_lt Hn. lia.
    - intros c Hc%child_lt Hn. lia. }
  destruct (swapped_facts _ f _ _ Hs) as (Hp & Hk' & Hr & _);
    [cbn; rewrite length_app; simpl; lia|done|]. cbn in *.
  assert (h ++ [l] ≡ₚ l :: h) as Hperm by (by rewrite Permutation_app_comm).
  exists m', h'. split_and!; [done| |by rewrite Hp|].
  - split; [done|]. by rewrite (Permutation_length Hp), length_app, Nat.add_1_r.
  - etrans; [done|]. eapply reindexed_mono, Hr. intros x. by rewrite Hperm.
Qed.

(** The tail of [Pop] and [Remove]: the last position is cut off. *)
Lemma pop_swapped m f h m1 h1 n l :
  swapped (S n) (m, h) (m1, h1) → keyed m f h → length h = S n → h1 !!! n = l →
  ordered (at_pos f h1) n →
  ∃ m' h', pop_back (m1, h1) = Ok (m', h', l) ∧ heap_ok m' f h' ∧ h ≡ₚ l :: h' ∧ reindexed h m m'.
Proof.
  intros Hs Hk Hlen Hl Ho. destruct (swapped_facts _ f _ _ Hs) as (Hp & Hk1 & Hr1 & _); [simpl; lia|done|].
  cbn in *. assert (length h1 = S n) as Hlen1 by (by rewrite Hp).
  destruct h1 as [|y h' _] using rev_ind; [done|]. rewrite length_app in Hlen1. cbn in Hlen1.
  assert (n = length h') as -> by lia.
  rewrite lookup_total_app_r, Nat.sub_diag in Hl by lia. cbn in Hl. subst y.
  destruct (pop_back_ok m1 f h' l Hk1) as (m' & -> & Hr). exists m', h'. split_and!; [done| | |].
  - split.
    + eapply keyed_reindexed; [done|]. eapply keyed_subset, Hk1. set_solver.
    + intros p c Hpc Hc. pose proof (child_lt _ _ Hpc). specialize (Ho p c Hpc Hc). unfold at_pos in *.
      by rewrite !lookup_total_app_l in Ho by lia.
  - rewrite <-Hp. by rewrite Permutation_app_comm.
  - etrans; [done|]. eapply reindexed_mono, Hr. intros x. by rewrite Hp.
Qed.

Lemma heap_pop_ok m f h :
  heap_ok m f h → h ≠ [] →
  ∃ m' h' l, heap_Pop (m, h) = Ok (m', h', l) ∧ heap_ok m' f h' ∧ h ≡ₚ l :: h' ∧ reindexed h m m' ∧
    ∀ x, x ∈ h → (f l ≤ f x)%Z.
Proof.
  intros [Hk Ho] Hne. destruct h as [|l0 h0]; [done|]. set (h := l0 :: h0) in *.
  assert (length h = S (length h0)) as Hlen by done. clearbody h.
  unfold heap_Pop, Len, down. cbn [fst snd]. destruct h as [|l0' h1] eqn:Eh; [done|]. rewrite <-Eh in *.
  rewrite Hlen. cbn [Nat.sub]. rewrite Nat.sub_0_r. set (n := length h0) in *.
  destruct (Swap_ok m f h 0 n) as (m1 & HS & Hr1); [done|lia..|]. rewrite HS. cbn [rbind].
  assert (swapped (S n) (m, h) (m1, swap_at h 0 n)) as Hs1 by (eapply swapped_one; [..|exact HS]; lia).
  destruct (swapped_facts _ f _ _ Hs1) as (_ & Hk1 & _); [cbn; lia|done|].
  assert (high (at_pos f (swap_at h 0 n)) n 0) as Hh.
  { split; [split|].
    - intros p c Hpc Hc Hp0 Hc0. pose proof (child_lt _ _ Hpc). unfold at_pos.
      rewrite !swap_at_lookup, !decide_False by lia. apply Ho; [done|lia].
    - intros p c Hp%child_lt. lia.
    - intros p Hp%child_lt. lia. }
  destruct (down_ok f m1 (swap_at h 0 n) n 0 (S n)) as (m2 & h2 & -> & Hs2 & _ & Ho2);
    [done|rewrite swap_at_length; lia|lia|apply Hh|]. cbn [rbind].
  destruct (swapped_facts _ f _ _ Hs2) as (_ & _ & _ & Hx); [cbn; rewrite swap_at_length; lia|done|].
  destruct (pop_swapped m f h m2 h2 n (h !!! 0)) as (m' & h' & E' & Hok & Hp & Hr);
    [by eapply (swapped_trans (S n)), swapped_weaken; [..|exact Hs2]; auto with lia|done|lia| |by apply Ho2|].
  { cbn in Hx. rewrite Hx by lia. rewrite swap_at_lookup by lia. by rewrite decide_True. }
  exists m', h', (h !!! 0). split_and!; [done..|]. intros x Hx'.
  apply list_elem_of_lookup_total_1 in Hx' as (i & Hi & <-). by apply (ordered_root (at_pos f h) (length h)).
Qed.

(** A snapshot's [SetIndex] does nothing: popping leaves the entries alone. *)
Lemma snapshot_pop_ok m f h :
  (∀ z e, setIndex z e = e) → heap_ok m f h → h ≠ [] →
  ∃ h' l e, heap_Pop (m, h) = Ok (m, h', l) ∧ heap_ok m f h' ∧ h ≡ₚ l :: h' ∧ m !! l = Some e ∧
    key e = Some (f l) ∧ ∀ x, x ∈ h → (f l ≤ f x)%Z.
Proof.
  intros Hid Hok Hne. destruct (heap_pop_ok _ _ _ Hok Hne) as (m' & h' & l & HP & Hok' & Hp & Hr & Hmin).
  assert (m' = m) as ->.
  { apply map_eq. intros k. destruct (Hr k) as [->|(e & z & _ & -> & ->)]; [done|]. by rewrite Hid. }
  destruct (proj1 Hok l) as (e & He & Hk); [rewrite Hp; by left|]. exists h', l, e. done.
Qed.

Lemma heap_remove_ok m f h (i : nat) l :
  heap_ok m f h → h !! i = Some l →
  ∃ m' h', heap_Remove (m, h) (Z.of_nat i) = Ok (m', h', l) ∧ heap_ok m' f h' ∧ h ≡ₚ l :: h' ∧
    reindexed h m m'.
Proof.
  intros [Hk Ho] Hl. pose proof (lookup_lt_Some _ _ _ Hl) as Hi.
  apply list_lookup_total_correct in Hl. unfold heap_Remove, Len, down, up. cbn [fst snd].
  destruct (Z.eqb_spec (Z.of_nat (length h) - 1) (Z.of_nat i)) as [Hn|Hn].
  { apply (pop_swapped m f h m h i); [apply swapped_refl|done|lia|done|].
    intros p c Hpc Hc. apply Ho; [done|lia]. }
  destruct (Z.ltb_spec (Z.of_nat i) 0); [lia|].
  destruct (Z.ltb_spec (Z.of_nat (length h) - 1) 0); [lia|]. cbn [orb].
  set (n := length h - 1). replace (Z.to_nat (Z.of_nat (length h) - 1)) with n by lia.
  rewrite Nat2Z.id. destruct (Swap_ok m f h i n) as (m1 & HS & Hr1); [done|lia..|]. rewrite HS. cbn [rbind].
  assert (swapped (S n) (m, h) (m1, swap_at h i n)) as Hs1 by (eapply swapped_one; [..|exact HS]; lia).
  destruct (swapped_facts _ f _ _ Hs1) as (_ & Hk1 & _); [cbn; lia|done|].
  assert (hole (at_pos f (swap_at h i n)) n i) as Hh.
  { split.
    - intros p c Hpc Hc Hp0 Hc0. pose proof (child_lt _ _ Hpc). unfold at_pos.
      rewrite !swap_at_lookup, !decide_False by lia. apply Ho; [done|lia].
    - intros p c Hp Hc Hcn. pose proof (child_lt _ _ Hp). pose proof (child_lt _ _ Hc). unfold at_pos.
      rewrite !swap_at_lookup, !decide_False by lia.
      trans (f (h !!! i)); apply Ho; auto; lia. }
  destruct (down_ok f m1 (swap_at h i n) n i (S n)) as (m2 & h2 & -> & Hs2 & Hl2 & _);
    [done|rewrite swap_at_length; lia|lia|apply Hh|]. cbn [rbind].
  destruct (swapped_facts _ f _ _ Hs2) as (Hp2 & Hk2 & _ & Hx2); [cbn; rewrite swap_at_length; lia|done|].
  cbn [fst snd] in *. apply Permutation_length in Hp2. rewrite swap_at_length in Hp2.
  destruct (up_ok f m2 h2 n i (S i)) as (m3 & h3 & -> & Hs3 & Ho3); [done|lia..|done|]. cbn [rbind].
  destruct (swapped_facts _ f _ _ Hs3) as (_ & _ & _ & Hx3); [cbn; lia|done|]. cbn in *.
  apply (pop_swapped m f h m3 h3 n); [|done|lia| |done].
  - eapply swapped_trans; [|exact Hs1|]; [done|]. eapply (swapped_weaken n); [lia|].
    by eapply swapped_trans.
  - rewrite Hx3, Hx2 by lia. rewrite swap_at_lookup by lia. by rewrite decide_True.
Qed.
End order.

(** ** Index fields *)
Section index.
Context {E : Type} {HT : HeapType E} {HO : HeapOrder E} {HI : HeapIndex E}.
Abbreviation store := (gmap nat E).
Implicit Types (m : store) (h : Heap) (f : nat → Z) (l : nat).

(** Each entry's index field is its position in the slice. *)
Definition indexed m h : Prop :=
  ∀ i l e, h !! i = Some l → m !! l = Some e → getIndex e = Z.of_nat i.

Lemma indexed_nil m : indexed m [].
Proof. intros i l e Hi. by rewrite lookup_nil in Hi. Qed.

Lemma SetIndex_inv m h i z m' :
  SetIndex m h i z = Ok m' →
  ∃ l e, h !! i = Some l ∧ m !! l = Some e ∧ m' = <[l := setIndex z e]> m.
Proof.
  unfold SetIndex, Get, deref. destruct (h !! i) as [l|] eqn:Hi; [|done]. cbn.
  destruct (m !! l) as [e|] eqn:He; [|done]. cbn. intros [= <-]. eauto.
Qed.

(** Writing position [i] back keeps the fields of all other entries. *)
Lemma SetIndex_lookup m h i z m' k l e :
  SetIndex m h i z = Ok m' → NoDup h → h !! k = Some l → m' !! l = Some e →
  getIndex e = z ∧ k = i ∨ m !! l = Some e ∧ k ≠ i.
Proof.
  intros (l' & e' & Hi & He' & ->)%SetIndex_inv Hnd Hk He.
  destruct (decide (k = i)) as [->|Hne].
  - simplify_eq. rewrite lookup_insert_eq in He. simplify_eq. left. by rewrite getIndex_setIndex.
  - right. split; [|done]. rewrite lookup_insert_ne in He; [done|]. intros ->.
    by eapply Hne, NoDup_lookup.
Qed.

Lemma Swap_inv m h i j m' h' :
  Swap (m, h) i j = Ok (m', h') →
  i < length h ∧ j < length h ∧ h' = swap_at h i j ∧
  ∃ m1, SetIndex m h' i (Z.of_nat i) = Ok m1 ∧ SetIndex m1 h' j (Z.of_nat j) = Ok m'.
Proof.
  unfold Swap, Get. destruct (h !! j) as [b|] eqn:Hb; [|done]. cbn.
  destruct (h !! i) as [a|] eqn:Ha; [|done]. cbn.
  intros (m1 & H1 & (m2 & H2 & [= <- <-])%rbind_Ok)%rbind_Ok.
  split_and!; [by eapply lookup_lt_Some..| |by eauto].
  unfold swap_at. apply list_lookup_total_correct in Ha, Hb. by rewrite Ha, Hb.
Qed.

Lemma swapped_indexed n s s' :
  swapped n s s' → NoDup s.2 → indexed s.1 s.2 → NoDup s'.2 ∧ indexed s'.1 s'.2.
Proof.
  intros H. induction H as [s|[m h] [m2 h2] s3 i j Hi Hj HS _ IH]; intros Hnd Hix; [done|]. cbn in *.
  apply Swap_inv in HS as (Hli & Hlj & -> & m1 & H1 & H2).
  assert (NoDup (swap_at h i j)) as Hnd' by (by rewrite swap_at_perm).
  apply IH; [done|]. intros k l e Hk He.
  destruct (SetIndex_lookup _ _ _ _ _ _ _ _ H2 Hnd' Hk He) as [[-> ->]|[He1 Hkj]]; [done|].
  destruct (SetIndex_lookup _ _ _ _ _ _ _ _ H1 Hnd' Hk He1) as [[-> ->]|[He2 Hki]]; [done|].
  apply (Hix k l e); [|done]. unfold swap_at in Hk. by rewrite !list_lookup_insert_ne in Hk.
Qed.

Lemma up_loop_swapped fuel (s s' : store * Heap) j n : up_loop fuel s j = Ok s' → j < n → swapped n s s'.
Proof.
  revert s j. induction fuel as [|fuel IH]; intros s j; [done|]. cbn [up_loop].
  destruct (Nat.eqb_spec ((j - 1) / 2) j) as [Hi|Hi]; [intros [= ->] _; apply swapped_refl|].
  intros (b & _ & H)%rbind_Ok Hj. destruct b; cbn [negb] in H; [|injection H as ->; apply swapped_refl].
  apply rbind_Ok in H as (s1 & HS & H).
  assert (j ≠ 0) as Hj0 by (intros ->; by vm_compute in Hi).
  pose proof (child_lt _ _ (child_parent j Hj0)).
  eapply (swapped_step n); [..|exact HS|eapply IH; [exact H|]]; lia.
Qed.

Lemma down_loop_swapped fuel (s s' : store * Heap) i n : down_loop fuel s i n = Ok s' → swapped n s s'.
Proof.
  revert s i. induction fuel as [|fuel IH]; intros s i; [done|]. cbn [down_loop].
  destruct (Nat.leb_spec n (2 * i + 1)) as [Hi|Hi]; [intros [= ->]; apply swapped_refl|].
  intros (j & Hj & (b & _ & H)%rbind_Ok)%rbind_Ok.
  destruct b; cbn [negb] in H; [|injection H as ->; apply swapped_refl].
  apply rbind_Ok in H as (s1 & HS & H).
  assert (j < n) as Hjn.
  { destruct (Nat.ltb_spec (2 * i + 1 + 1) n) as [Hlt|]; [|injection Hj as <-; lia].
    apply rbind_Ok in Hj as (b & _ & [= <-]). destruct b; cbn; lia. }
  eapply (swapped_step n); [..|exact HS|eapply IH, H]; lia.
Qed.

Lemma push_back_indexed m h l m' h' :
  push_back (m, h) l = Ok (m', h') → l ∉ h → NoDup h → indexed m h →
  NoDup h' ∧ indexed m' h' ∧ length h' = S (length h).
Proof.
  unfold push_back. intros (m1 & H & [= <- <-])%rbind_Ok Hl Hnd Hix.
  assert (NoDup (h ++ [l])) as Hnd'.
  { apply NoDup_app. split_and!; [done| |apply NoDup_singleton]. set_solver. }
  rewrite length_app in *. cbn in *. rewrite Nat.add_sub in H. split_and!; [done| |lia].
  intros k x e Hk He. destruct (SetIndex_lookup _ _ _ _ _ _ _ _ H Hnd' Hk He) as [[-> ->]|[He1 Hkj]]; [done|].
  apply (Hix k x e); [|done]. pose proof (lookup_lt_Some _ _ _ Hk) as Hlt.
  rewrite length_app in Hlt. cbn in Hlt. by rewrite lookup_app_l in Hk by lia.
Qed.

Lemma pop_back_indexed m h m' h' l :
  pop_back (m, h) = Ok (m', h', l) → NoDup h → indexed m h → NoDup h' ∧ indexed m' h'.
Proof.
  unfold pop_back. destruct h as [|x h0] eqn:Eh; [done|]. rewrite <-Eh.
  intros (m1 & H & (y & _ & [= <- <- <-])%rbind_Ok)%rbind_Ok Hnd Hix.
  split; [by eapply sublist_NoDup; [|apply sublist_take]|].
  intros k z e Hk He. apply lookup_take_Some in Hk as [Hk Hlt].
  destruct (SetIndex_lookup _ _ _ _ _ _ _ _ H Hnd Hk He) as [[-> ->]|[He1 _]]; [lia|]. by apply (Hix k z e).
Qed.

(** ** A heap with its index fields

    The three facts its users rely on, for each operation at once. *)
Definition heap_inv m f h : Prop := heap_ok m f h ∧ NoDup h ∧ indexed m h.

Lemma heap_inv_nil m f : heap_inv m f [].
Proof. split_and!; [apply heap_ok_nil|constructor|apply indexed_nil]. Qed.

Lemma heap_push_inv m f h l e :
  heap_inv m f h → l ∉ h → m !! l = Some e → key e = Some (f l) →
  ∃ m' h', heap_Push (m, h) l = Ok (m', h') ∧ heap_inv m' f h' ∧ h' ≡ₚ l :: h ∧ reindexed (l :: h) m m'.
Proof.
  intros (Hok & Hnd & Hix) Hl He Hf.
  destruct (heap_push_ok m f h l e) as (m' & h' & HP & Hok' & Hp & Hr); [done..|].
  exists m', h'. split_and!; [done| |done..]. split; [done|].
  unfold heap_Push, up, Len in HP. apply rbind_Ok in HP as ([m1 h1] & H1 & H2).
  destruct (push_back_indexed _ _ _ _ _ H1) as (Hnd1 & Hix1 & Hlen); [done..|]. cbn [fst snd] in H2.
  apply (up_loop_swapped _ _ _ _ (length h1)) in H2; [|lia].
  by destruct (swapped_indexed _ _ _ H2).
Qed.

Lemma heap_pop_inv m f h :
  heap_inv m f h → h ≠ [] →
  ∃ m' h' l, heap_Pop (m, h) = Ok (m', h', l) ∧ heap_inv m' f h' ∧ h ≡ₚ l :: h' ∧ reindexed h m m' ∧
    ∀ x, x ∈ h → (f l ≤ f x)%Z.
Proof.
  intros (Hok & Hnd & Hix) Hne.
  destruct (heap_pop_ok m f h) as (m' & h' & l & HP & Hok' & Hp & Hr & Hmin); [done..|].
  exists m', h', l. split_and!; [done| |done..]. split; [done|].
  unfold heap_Pop, down, Len in HP. cbn [fst snd] in HP. destruct h as [|x h0] eqn:Eh; [done|].
  rewrite <-Eh in *. apply rbind_Ok in HP as ([m1 h1] & H1 & ([m2 h2] & H2 & H3)%rbind_Ok).
  destruct (swapped_indexed (length h) (m, h) (m1, h1)) as [Hnd1 Hix1];
    [eapply swapped_one; [..|exact H1]; rewrite Eh; cbn; lia|done..|].
  destruct (swapped_indexed _ _ _ (down_loop_swapped _ _ _ _ _ H2)) as [Hnd2 Hix2]; [done..|].
  by eapply pop_back_indexed.
Qed.

Lemma heap_remove_inv m f h l e :
  heap_inv m f h → l ∈ h → m !! l = Some e →
  ∃ m' h', heap_Remove (m, h) (getIndex e) = Ok (m', h', l) ∧ heap_inv m' f h' ∧ h ≡ₚ l :: h' ∧
    reindexed h m m'.
Proof.
  intros (Hok & Hnd & Hix) Hl He. apply list_elem_of_lookup in Hl as [i Hi]. rewrite (Hix i l e) by done.
  destruct (heap_remove_ok m f h i l) as (m' & h' & HP & Hok' & Hp & Hr); [done..|].
  exists m', h'. split_and!; [done| |done..]. split; [done|].
  pose proof (lookup_lt_Some _ _ _ Hi) as Hlt. unfold heap_Remove, down, up, Len in HP. cbn [fst snd] in HP.
  destruct (Z.eqb_spec (Z.of_nat (length h) - 1) (Z.of_nat i)) as [Hn|Hn]; [by eapply pop_back_indexed|].
  destruct (Z.ltb_spec (Z.of_nat i) 0); [lia|].
  destruct (Z.ltb_spec (Z.of_nat (length h) - 1) 0); [lia|]. cbn [orb] in HP. rewrite Nat2Z.id in HP.
  apply rbind_Ok in HP as ([m1 h1] & H1 & ([m2 h2] & H2 & ([m3 h3] & H3 & H4)%rbind_Ok)%rbind_Ok).
  destruct (swapped_indexed (length h) (m, h) (m1, h1)) as [Hnd1 Hix1];
    [eapply swapped_one; [..|exact H1]; lia|done..|].
  destruct (swapped_indexed _ _ _ (down_loop_swapped _ _ _ _ _ H2)) as [Hnd2 Hix2]; [done..|].
  apply (up_loop_swapped _ _ _ _ (S i)) in H3; [|lia].
  destruct (swapped_indexed _ _ _ H3) as [Hnd3 Hix3]; [done..|]. by eapply pop_back_indexed.
Qed.
End index.
