(* ===== verification/HeapPair.v ===== *)
(** Two heaps over the same entries.

    Both statistics of stats/ keep every entry in two heaps at once, each with
    its own order and its own index field, and move an entry by taking it out
    of both, changing it, and pushing it back into both.  The section proves
    these moves once, for any two heap types whose index fields do not
    disturb each other; [view] is the part of an entry that is not an index. *)

From Stdlib Require Import ZArith Lia.
From stdpp Require Import base list gmap strings.
From S2P Require Import Prelude Heap.

(** What the two heap types of one kind of entry promise. *)
Class HeapPair (E D : Type) {HT1 HT2 : HeapType E} (HO1 : HeapOrder (HT := HT1) E)
    (HO2 : HeapOrder (HT := HT2) E) (HI1 : HeapIndex (HT := HT1) E) (HI2 : HeapIndex (HT := HT2) E) := {
  view : E → D;
  view_set1 : ∀ z e, view (setIndex (HeapType := HT1) z e) = view e;
  view_set2 : ∀ z e, view (setIndex (HeapType := HT2) z e) = view e;
  key1_set2 : ∀ z e, key (HT := HT1) (setIndex (HeapType := HT2) z e) = key (HT := HT1) e;
  key2_set1 : ∀ z e, key (HT := HT2) (setIndex (HeapType := HT1) z e) = key (HT := HT2) e;
  index1_set2 : ∀ z e, getIndex (HT := HT1) (setIndex (HeapType := HT2) z e) = getIndex (HT := HT1) e;
  index2_set1 : ∀ z e, getIndex (HT := HT2) (setIndex (HeapType := HT1) z e) = getIndex (HT := HT2) e
}.

Section one.
Context {E : Type} {HT : HeapType E} {HO : HeapOrder E} {HI : HeapIndex E}.
Implicit Types (m : gmap nat E) (h : Heap).

(** The key of the entry behind a pointer. *)
Definition key_of m (l : nat) : Z := default 0%Z (m !! l ≫= key).

Definition heap_at m h : Prop := heap_inv m (key_of m) h.

Lemma heap_inv_key_of m f h : heap_inv m f h → heap_at m h.
Proof.
  intros (Hok & Hnd & Hix). split_and!; [|done..]. eapply heap_ok_ext, Hok. intros l Hl.
  destruct (proj1 Hok l Hl) as (e & He & Hk). unfold key_of. rewrite He. cbn. by rewrite Hk.
Qed.

Lemma heap_at_keyed m h l : heap_at m h → l ∈ h → ∃ e k, m !! l = Some e ∧ key e = Some k ∧ key_of m l = k.
Proof. intros [[Hk _] _] Hl. destruct (Hk l Hl) as (e & He & Hke). eauto. Qed.

(** A heap does not notice a change that keeps keys and indices of its own
    entries. *)
Lemma heap_at_change m m' h :
  (∀ l e, l ∈ h → m !! l = Some e → ∃ e', m' !! l = Some e' ∧ key e' = key e ∧ getIndex e' = getIndex e) →
  heap_at m h → heap_at m' h.
Proof.
  intros Hc ((Hk & Ho) & Hnd & Hix). apply (heap_inv_key_of _ (key_of m)). split_and!; [split|done|].
  - intros l Hl. destruct (Hk l Hl) as (e & He & Hke).
    destruct (Hc l e Hl He) as (e' & He' & Hk' & _). exists e'. by rewrite Hk'.
  - done.
  - intros i l e' Hi He'. assert (l ∈ h) as Hl by (by eapply list_elem_of_lookup_2).
    destruct (Hk l Hl) as (e & He & _). destruct (Hc l e Hl He) as (e2 & He2 & _ & Hi2).
    simplify_eq. rewrite Hi2. by eapply Hix.
Qed.

Lemma heap_at_insert m h l e : l ∉ h → heap_at m h → heap_at (<[l := e]> m) h.
Proof.
  intros Hl. apply heap_at_change. intros k e' Hk He'. exists e'. rewrite lookup_insert_ne; [done|].
  by intros ->.
Qed.

Lemma heap_at_nil m : heap_at m [].
Proof. apply heap_inv_nil. Qed.
End one.

Section pair.
Context {E D : Type} {HT1 HT2 : HeapType E}.
Context {HO1 : HeapOrder (HT := HT1) E} {HO2 : HeapOrder (HT := HT2) E}.
Context {HI1 : HeapIndex (HT := HT1) E} {HI2 : HeapIndex (HT := HT2) E}.
Context {HP : HeapPair E D HO1 HO2 HI1 HI2}.
Abbreviation store := (gmap nat E).
Implicit Types (m : store) (a b : Heap).
Abbreviation at1 := (heap_at (HT := HT1)).
Abbreviation at2 := (heap_at (HT := HT2)).

(** The two stores differ in index fields only. *)
Definition same_view m m' : Prop := ∀ l, view <$> m' !! l = view <$> m !! l.

#[global] Instance same_view_preorder : PreOrder same_view.
Proof. split; [by intros m l|]. intros m1 m2 m3 H1 H2 l. by rewrite H2, H1. Qed.

Lemma same_view_lookup m m' l e :
  same_view m m' → m !! l = Some e → ∃ e', m' !! l = Some e' ∧ view e' = view e.
Proof.
  intros Hs He. specialize (Hs l). rewrite He in Hs. cbn in Hs.
  by apply fmap_Some in Hs as (e' & He' & ->); eauto.
Qed.

Lemma reindexed1_view h m m' : reindexed (HT := HT1) h m m' → same_view m m'.
Proof.
  intros Hr l. destruct (Hr l) as [->|(e & z & _ & -> & ->)]; [done|]. cbn. by rewrite view_set1.
Qed.

Lemma reindexed2_view h m m' : reindexed (HT := HT2) h m m' → same_view m m'.
Proof.
  intros Hr l. destruct (Hr l) as [->|(e & z & _ & -> & ->)]; [done|]. cbn. by rewrite view_set2.
Qed.

Lemma frame1 h m m' b : reindexed (HT := HT1) h m m' → at2 m b → at2 m' b.
Proof.
  intros Hr. apply heap_at_change. intros l e _ He.
  destruct (Hr l) as [->|(e' & z & _ & He' & ->)]; [by exists e|]. simplify_eq.
  eexists. split; [done|]. by rewrite key2_set1, index2_set1.
Qed.

Lemma frame2 h m m' a : reindexed (HT := HT2) h m m' → at1 m a → at1 m' a.
Proof.
  intros Hr. apply heap_at_change. intros l e _ He.
  destruct (Hr l) as [->|(e' & z & _ & He' & ->)]; [by exists e|]. simplify_eq.
  eexists. split; [done|]. by rewrite key1_set2, index1_set2.
Qed.

(** Both slices are heaps of the same entries. *)
Definition both m a b : Prop := at1 m a ∧ at2 m b ∧ a ≡ₚ b.

Lemma both_nil m : both m [] [].
Proof. split_and!; [apply heap_at_nil..|done]. Qed.

Lemma both_insert m a b l e : l ∉ a → both m a b → both (<[l := e]> m) a b.
Proof. intros Hl (Ha & Hb & Hab). split_and!; [by apply heap_at_insert|apply heap_at_insert; [by rewrite <-Hab|done]|done]. Qed.

Lemma both_push m a b l e :
  both m a b → l ∉ a → m !! l = Some e →
  is_Some (key (HT := HT1) e) → is_Some (key (HT := HT2) e) →
  ∃ m1 a' m2 b', heap_Push (HT := HT1) (m, a) l = Ok (m1, a') ∧
    heap_Push (HT := HT2) (m1, b) l = Ok (m2, b') ∧
    both m2 a' b' ∧ a' ≡ₚ l :: a ∧ same_view m m2.
Proof.
  intros (Ha & Hb & Hab) Hl He [k1 Hk1] [k2 Hk2].
  destruct (heap_push_inv (HT := HT1) m (key_of (HT := HT1) m) a l e) as (m1 & a' & H1 & Ha' & Hp1 & Hr1);
    [exact Ha|done..|unfold key_of; rewrite He; cbn; by rewrite Hk1|].
  apply heap_inv_key_of in Ha'. pose proof (frame1 _ _ _ _ Hr1 Hb) as Hb1.
  assert (∃ e1, m1 !! l = Some e1 ∧ key (HT := HT2) e1 = Some k2) as (e1 & He1 & Hk2').
  { destruct (Hr1 l) as [->|(e' & z & _ & He' & ->)]; [by exists e|]. simplify_eq.
    eexists. split; [done|]. by rewrite key2_set1. }
  destruct (heap_push_inv (HT := HT2) m1 (key_of (HT := HT2) m1) b l e1) as (m2 & b' & H2 & Hb' & Hp2 & Hr2);
    [exact Hb1|by rewrite <-Hab|done|unfold key_of; rewrite He1; cbn; by rewrite Hk2'|].
  exists m1, a', m2, b'. split_and!; [done..| |done|].
  - split_and!; [by eapply frame2|by eapply heap_inv_key_of|by rewrite Hp1, Hp2, Hab].
  - etrans; [by eapply reindexed1_view|by eapply reindexed2_view].
Qed.

(** Taking an entry that has already left the first heap out of the second. *)
Lemma second_remove m a b l e :
  at1 m a → at2 m b → b ≡ₚ l :: a → m !! l = Some e →
  ∃ m' b', heap_Remove (HT := HT2) (m, b) (getIndex (HT := HT2) e) = Ok (m', b', l) ∧
    both m' a b' ∧ same_view m m'.
Proof.
  intros Ha Hb Hp He.
  destruct (heap_remove_inv (HT := HT2) m (key_of (HT := HT2) m) b l e) as (m' & b' & H & Hb' & Hp' & Hr);
    [exact Hb|rewrite Hp; by left|done|].
  exists m', b'. split_and!; [done| |by eapply reindexed2_view].
  split_and!; [by eapply frame2|by eapply heap_inv_key_of|].
  apply (Permutation_cons_inv (a := l)). by rewrite <-Hp, Hp'.
Qed.

Lemma both_remove m a b l e :
  both m a b → l ∈ a → m !! l = Some e →
  ∃ m1 a' e1 m2 b', heap_Remove (HT := HT1) (m, a) (getIndex (HT := HT1) e) = Ok (m1, a', l) ∧
    m1 !! l = Some e1 ∧ heap_Remove (HT := HT2) (m1, b) (getIndex (HT := HT2) e1) = Ok (m2, b', l) ∧
    both m2 a' b' ∧ a ≡ₚ l :: a' ∧ same_view m m2.
Proof.
  intros (Ha & Hb & Hab) Hl He.
  destruct (heap_remove_inv (HT := HT1) m (key_of (HT := HT1) m) a l e) as (m1 & a' & H1 & Ha' & Hp1 & Hr1);
    [exact Ha|done..|].
  destruct (same_view_lookup m m1 l e) as (e1 & He1 & _); [by eapply reindexed1_view|done|].
  destruct (second_remove m1 a' b l e1) as (m2 & b' & H2 & Hb2 & Hv2);
    [by eapply heap_inv_key_of|by eapply frame1|by rewrite <-Hab|done|].
  exists m1, a', e1, m2, b'. split_and!; [done..|]. etrans; [by eapply reindexed1_view|done].
Qed.

Lemma first_pop m a b :
  both m a b → a ≠ [] →
  ∃ m1 a' l, heap_Pop (HT := HT1) (m, a) = Ok (m1, a', l) ∧ at1 m1 a' ∧ at2 m1 b ∧ a ≡ₚ l :: a' ∧
    same_view m m1 ∧ (∀ x, x ∈ a → (key_of (HT := HT1) m l ≤ key_of (HT := HT1) m x)%Z) ∧
    (∀ x, key_of (HT := HT1) m1 x = key_of (HT := HT1) m x).
Proof.
  intros (Ha & Hb & Hab) Hne.
  destruct (heap_pop_inv (HT := HT1) m (key_of (HT := HT1) m) a) as (m1 & a' & l & H1 & Ha' & Hp1 & Hr1 & Hmin);
    [exact Ha|done|].
  exists m1, a', l. split_and!; [done|by eapply heap_inv_key_of|by eapply frame1|done|
    by eapply reindexed1_view|done|].
  intros x. unfold key_of. destruct (Hr1 x) as [->|(e & z & _ & -> & ->)]; [done|]. cbn.
  by rewrite key_setIndex.
Qed.

(** Pushing back the entry just popped. *)
Lemma first_push m a b l e :
  at1 m a → at2 m b → b ≡ₚ l :: a → m !! l = Some e → is_Some (key (HT := HT1) e) →
  ∃ m' a', heap_Push (HT := HT1) (m, a) l = Ok (m', a') ∧ both m' a' b ∧ same_view m m'.
Proof.
  intros Ha Hb Hp He [k Hk]. assert (l ∉ a) as Hl.
  { destruct Hb as (_ & Hnd & _). rewrite Hp in Hnd. by apply NoDup_cons in Hnd as [? _]. }
  destruct (heap_push_inv (HT := HT1) m (key_of (HT := HT1) m) a l e) as (m1 & a' & H1 & Ha' & Hp1 & Hr1);
    [exact Ha|done..|unfold key_of; rewrite He; cbn; by rewrite Hk|].
  exists m1, a'. split_and!; [done| |by eapply reindexed1_view].
  split_and!; [by eapply heap_inv_key_of|by eapply frame1|by rewrite Hp1, Hp].
Qed.
End pair.

(** ** A map of entries kept in two heaps

    [mm] is the map from applications to entries, [a] and [b] the heaps over
    all of them, [nx] the next free pointer.  [name] reads the application off
    an entry and [P] is what the component keeps true of each entry. *)
Section table.
Context {E D : Type} {HT1 HT2 : HeapType E}.
Context {HO1 : HeapOrder (HT := HT1) E} {HO2 : HeapOrder (HT := HT2) E}.
Context {HI1 : HeapIndex (HT := HT1) E} {HI2 : HeapIndex (HT := HT2) E}.
Context {HP : HeapPair E D HO1 HO2 HI1 HI2}.
Context (name : D → string).
Abbreviation store := (gmap nat E).
Implicit Types (P : D → Prop) (mm : gmap string nat) (en : store) (nx l : nat) (a b : Heap) (app : string).

Definition named P en app l : Prop :=
  ∃ d, view <$> en !! l = Some d ∧ name d = app ∧ P d.

Definition table P mm en nx a b : Prop :=
  both (HO1 := HO1) (HO2 := HO2) (HI1 := HI1) (HI2 := HI2) en a b ∧
  (∀ app l, mm !! app = Some l → named P en app l) ∧
  (∀ l, l ∈ a ↔ ∃ app, mm !! app = Some l) ∧
  (∀ l, is_Some (en !! l) → l < nx).

(** The same, while the entry [l] of [app] is out of both heaps. *)
Definition opened P mm en nx a b app l : Prop :=
  both (HO1 := HO1) (HO2 := HO2) (HI1 := HI1) (HI2 := HI2) en a b ∧
  l ∉ a ∧ mm !! app = Some l ∧
  (∀ app' k, mm !! app' = Some k → app' ≠ app → k ≠ l ∧ named P en app' k) ∧
  (∀ k, k ∈ a ↔ k ≠ l ∧ ∃ app', mm !! app' = Some k) ∧
  (∀ k, is_Some (en !! k) → k < nx) ∧ is_Some (en !! l).

(** What the map says of each application. *)
Definition contents mm en : gmap string D := omap (λ l, view <$> en !! l) mm.

Lemma contents_lookup mm en app : contents mm en !! app = mm !! app ≫= λ l, view <$> en !! l.
Proof. unfold contents. by rewrite lookup_omap. Qed.

Lemma contents_same_view mm en en' : same_view en en' → contents mm en' = contents mm en.
Proof. intros Hv. apply map_eq. intros app. rewrite !contents_lookup. destruct (mm !! app); [apply Hv|done]. Qed.

Lemma is_Some_view en en' l : view <$> en' !! l = view <$> en !! l → is_Some (en' !! l) → is_Some (en !! l).
Proof. intros Hv. by rewrite <-(fmap_is_Some view (en' !! l)), Hv, fmap_is_Some. Qed.

Lemma table_nil P : table P ∅ ∅ 0 [] [].
Proof.
  split_and!; [apply both_nil|intros app l; by rewrite lookup_empty| |intros l [e He]; by rewrite lookup_empty in He].
  intros l. split; [by intros ?%elem_of_nil|]. intros [app H]. by rewrite lookup_empty in H.
Qed.

Lemma table_mono (P Q : D → Prop) mm en nx a b :
  (∀ d, P d → Q d) → table P mm en nx a b → table Q mm en nx a b.
Proof.
  intros HPQ (Hb & Hm & Ha & Hn). split_and!; [done| |done..].
  intros app l Hl. destruct (Hm app l Hl) as (d & ? & ? & ?). exists d. auto.
Qed.

Lemma table_inj P mm en nx a b app app' l :
  table P mm en nx a b → mm !! app = Some l → mm !! app' = Some l → app = app'.
Proof.
  intros (_ & Hm & _) Ha Ha'. destruct (Hm app l Ha) as (d & Hd & <- & _).
  destruct (Hm app' l Ha') as (d' & Hd' & <- & _). congruence.
Qed.

Lemma table_contents P mm en nx a b app d :
  table P mm en nx a b → contents mm en !! app = Some d →
  P d ∧ name d = app ∧ ∃ l e, mm !! app = Some l ∧ en !! l = Some e ∧ view e = d ∧ l ∈ a.
Proof.
  intros (_ & Hm & Ha & _) Hc. rewrite contents_lookup in Hc. apply bind_Some in Hc as (l & Hl & Hd).
  destruct (Hm app l Hl) as (d' & Hd' & Hn & HPd). simplify_eq.
  split_and!; [done..|]. apply fmap_Some in Hd as (e & He & ->). exists l, e. split_and!; try done. apply Ha. eauto.
Qed.

Lemma table_member P mm en nx a b l :
  table P mm en nx a b → l ∈ a →
  ∃ e, en !! l = Some e ∧ P (view e) ∧ mm !! name (view e) = Some l ∧ contents mm en !! name (view e) = Some (view e).
Proof.
  intros (_ & Hm & Ha & _) Hl. apply Ha in Hl as [app Hl].
  destruct (Hm app l Hl) as (d & Hd & <- & HPd). pose proof Hd as (e & He & ->)%fmap_Some.
  exists e. split_and!; [done..|]. by rewrite contents_lookup, Hl.
Qed.

Lemma table_same_view P mm en nx a b en' a' b' :
  table P mm en nx a b → both (HO1 := HO1) (HO2 := HO2) (HI1 := HI1) (HI2 := HI2) en' a' b' →
  a' ≡ₚ a → same_view en en' → table P mm en' nx a' b'.
Proof.
  intros (_ & Hm & Ha & Hn) Hb Hp Hv. split_and!; [done| |by intros l; rewrite Hp|].
  - intros app l Hl. destruct (Hm app l Hl) as (d & Hd & ?). exists d. by rewrite (Hv l).
  - intros l Hl. apply Hn. eapply is_Some_view, Hl. apply Hv.
Qed.

(** Leaving the heaps: for an entry already in the map. *)
Lemma table_open P mm en nx a b app l en' a' b' :
  table P mm en nx a b → mm !! app = Some l →
  both (HO1 := HO1) (HO2 := HO2) (HI1 := HI1) (HI2 := HI2) en' a' b' →
  a ≡ₚ l :: a' → same_view en en' → opened P mm en' nx a' b' app l.
Proof.
  intros Ht Hl Hb Hp Hv. pose proof Ht as (((_ & Hnd & _) & _) & Hm & Ha & Hn).
  rewrite Hp in Hnd. apply NoDup_cons in Hnd as [Hla _]. split_and!; [done..| | | |].
  - intros app' k Hk Hne. split; [intros ->; by apply Hne; eapply table_inj|].
    destruct (Hm app' k Hk) as (d & Hd & ?). exists d. by rewrite (Hv k).
  - intros k. rewrite <-Ha, Hp. set_solver.
  - intros k Hk. apply Hn. eapply is_Some_view, Hk. apply Hv.
  - destruct (Hm app l Hl) as (d & Hd & _). rewrite <-(Hv l) in Hd. by apply fmap_Some in Hd as (e & -> & _).
Qed.

(** A new entry. *)
Lemma table_new P mm en nx a b app e :
  table P mm en nx a b → mm !! app = None →
  opened P (<[app := nx]> mm) (<[nx := e]> en) (S nx) a b app nx.
Proof.
  intros (Hb & Hm & Ha & Hn) Hl.
  assert (∀ k app', mm !! app' = Some k → k ≠ nx) as Hfresh.
  { intros k app' Hk ->. destruct (Hm _ _ Hk) as (d & (e' & He & _)%fmap_Some & _).
    specialize (Hn nx ltac:(eauto)). lia. }
  assert (nx ∉ a) as Hna by (intros [app' Hk]%Ha; by eapply Hfresh). split_and!.
  - by apply both_insert.
  - done.
  - by rewrite lookup_insert_eq.
  - intros app' k Hk Hne. rewrite lookup_insert_ne in Hk by done. split; [by eapply Hfresh|].
    destruct (Hm app' k Hk) as (d & Hd & ?). exists d. rewrite lookup_insert_ne; [done|].
    intros <-. by eapply Hfresh.
  - intros k. rewrite Ha. split.
    + intros [app' Hk]. split; [by eapply Hfresh|]. exists app'. rewrite lookup_insert_ne; [done|]. congruence.
    + intros [Hne [app' [[-> ->]|[_ Hk]]%lookup_insert_Some]]; [done|eauto].
  - intros k. destruct (decide (k = nx)) as [->|]; [lia|]. rewrite lookup_insert_ne by done.
    intros Hk%Hn. lia.
  - rewrite lookup_insert_eq. eauto.
Qed.

Lemma table_new_contents P mm en nx a b app e :
  table P mm en nx a b → mm !! app = None →
  contents (<[app := nx]> mm) (<[nx := e]> en) = <[app := view e]> (contents mm en).
Proof.
  intros (_ & Hm & _ & Hn) Hl. apply map_eq. intros app'. rewrite lookup_insert, !contents_lookup.
  case_decide as Hd; [subst app'; rewrite lookup_insert_eq; cbn; by rewrite lookup_insert_eq|].
  rewrite lookup_insert_ne by done. destruct (mm !! app') as [k|] eqn:Hk; [|done]. cbn.
  rewrite lookup_insert_ne; [done|]. intros <-.
  destruct (Hm _ _ Hk) as (d & (e' & He & _)%fmap_Some & _). specialize (Hn nx ltac:(eauto)). lia.
Qed.

(** The entry, changed to [e], goes back into both heaps. *)
Lemma table_close P mm en nx a b app l e :
  opened P mm en nx a b app l → name (view e) = app → P (view e) →
  is_Some (key (HT := HT1) e) → is_Some (key (HT := HT2) e) →
  ∃ en1 a' en2 b', heap_Push (HT := HT1) (<[l := e]> en, a) l = Ok (en1, a') ∧
    heap_Push (HT := HT2) (en1, b) l = Ok (en2, b') ∧
    table P mm en2 nx a' b' ∧ a' ≡ₚ l :: a ∧ contents mm en2 = <[app := view e]> (contents mm en).
Proof.
  intros (Hb & Hla & Hl & Hm & Ha & Hn & He0) Hname HPe Hk1 Hk2.
  destruct (both_push (HP := HP) (<[l := e]> en) a b l e) as (en1 & a' & en2 & b' & H1 & H2 & Hb2 & Hp & Hv);
    [by apply both_insert|done|by rewrite lookup_insert_eq|done..|].
  exists en1, a', en2, b'.
  assert (view <$> en2 !! l = Some (view e)) as Hvl by (by rewrite (Hv l), lookup_insert_eq).
  assert (∀ k, k ≠ l → view <$> en2 !! k = view <$> en !! k) as Hvk.
  { intros k Hk. by rewrite (Hv k), lookup_insert_ne. }
  split_and!; [done..| |done|].
  - split_and!; [done| | |].
    + intros app' k Hk. destruct (decide (app' = app)) as [->|Hne]; [simplify_eq; by exists (view e)|].
      destruct (Hm app' k Hk Hne) as (Hkl & d & Hd & ?). exists d. by rewrite Hvk.
    + intros k. rewrite Hp, elem_of_cons, Ha. split.
      * intros [->|[_ ?]]; [by eauto|done].
      * intros [app' Hk]. destruct (decide (k = l)); [by left|right; eauto].
    + intros k Hk. destruct (decide (k = l)) as [->|Hne]; [by apply Hn|]. apply Hn. eapply is_Some_view, Hk. auto.
  - apply map_eq. intros app'. rewrite lookup_insert, !contents_lookup.
    case_decide as Hd; [subst app'; by rewrite Hl|].
    destruct (mm !! app') as [k|] eqn:Hk; [|done]. cbn. apply Hvk. by apply (Hm app' k Hk).
Qed.

(** The entry leaves the map. *)
Lemma table_drop P mm en nx a b app l e :
  opened P mm en nx a b app l →
  table P (delete app mm) (<[l := e]> en) nx a b ∧
  contents (delete app mm) (<[l := e]> en) = delete app (contents mm en).
Proof.
  intros (Hb & Hla & Hl & Hm & Ha & Hn & He0). split.
  - split_and!; [by apply both_insert| | |].
    + intros app' k [Hne Hk]%lookup_delete_Some. destruct (Hm app' k Hk) as (Hkl & d & Hd & ?); [done|].
      exists d. by rewrite lookup_insert_ne.
    + intros k. rewrite Ha. split.
      * intros [Hne [app' Hk]]. exists app'. apply lookup_delete_Some. split; [|done]. intros <-. congruence.
      * intros [app' [Hne Hk]%lookup_delete_Some]. split; [by apply (Hm app' k Hk)|eauto].
    + intros k. destruct (decide (k = l)) as [->|]; [by intros; apply Hn|]. rewrite lookup_insert_ne by done. apply Hn.
  - apply map_eq. intros app'. rewrite lookup_delete, !contents_lookup.
    case_decide as Hd; [subst app'; by rewrite lookup_delete_eq|]. rewrite lookup_delete_ne by done.
    destruct (mm !! app') as [k|] eqn:Hk; [|done]. cbn. rewrite lookup_insert_ne; [done|].
    intros <-. destruct (Hm app' l Hk) as [? _]; done.
Qed.

(** The heaps list the map: [d] reads the entries. *)
Lemma table_to_list {X} (F : string → D → X) (d : nat → D) P mm en nx a b :
  table P mm en nx a b → (∀ l, l ∈ a → view <$> en !! l = Some (d l)) →
  (λ l, F (name (d l)) (d l)) <$> a ≡ₚ (λ '(app, v), F app v) <$> map_to_list (contents mm en).
Proof.
  intros Ht Hd. pose proof Ht as (((_ & Hnd & _) & _) & Hm & Ha & _).
  assert (contents mm en = d <$> mm) as ->.
  { apply map_eq. intros app. rewrite contents_lookup, lookup_fmap.
    destruct (mm !! app) as [l|] eqn:Hl; [|done]. cbn. apply Hd, Ha. eauto. }
  rewrite map_to_list_fmap, <-list_fmap_compose.
  rewrite (list_fmap_ext _ ((λ l, F (name (d l)) (d l)) ∘ snd) (map_to_list mm)).
  - rewrite list_fmap_compose. apply fmap_Permutation, NoDup_Permutation; [done| |].
    + apply NoDup_fmap_2_strong; [|apply NoDup_map_to_list].
      intros [a1 l1] [a2 l2] H1%elem_of_map_to_list H2%elem_of_map_to_list Heq. cbn in *. subst l2.
      f_equal. by eapply table_inj.
    + intros l. rewrite Ha, list_elem_of_fmap. split.
      * intros [app Hl]. exists (app, l). split; [done|]. by apply elem_of_map_to_list.
      * intros ([app l'] & -> & Hl%elem_of_map_to_list). eauto.
  - intros k [app l] Hk. cbn. apply list_elem_of_lookup_2, elem_of_map_to_list in Hk.
    destruct (Hm app l Hk) as (v & Hv & <- & _). rewrite Hd in Hv by (apply Ha; eauto). by injection Hv as <-.
Qed.

(** An entry opened without changing what it says. *)
Lemma opened_entry P mm en nx a b app l :
  opened P mm en nx a b app l → ∃ e, en !! l = Some e ∧ contents mm en !! app = Some (view e).
Proof.
  intros (_ & _ & Hl & _ & _ & _ & [e He]). exists e. split; [done|]. by rewrite contents_lookup, Hl; cbn; rewrite He.
Qed.
End table.

#[global] Arguments contents : simpl never.
