(* ===== verification/ActiveApps.v ===== *)
(** stats/active_apps.go: the applications that were active lately.

    [ActiveApps] keeps, for each application, the time of its last request,
    in a map and in two heaps by time: the min-heap serves [Trim], the
    max-heap serves [ActiveSince].  The theorems show that no operation
    panics, and that the structure implements a plain map from applications
    to times: [Mark] raises an entry, [Trim] keeps the entries newer than its
    argument, [ActiveSince] lists exactly the applications active since its
    argument, newest first.

    The ticker's goroutine is the definition [tick].  The theorems are about
    sequential histories, in which one operation ends before the next begins.
    [Mark] and [Trim] hold the mutex for their whole length; [ActiveSince]
    releases it after it has copied the heap and pops the copy, whose items are
    pointers to the shared entries, without it.  A [Mark] or [Trim] that runs
    at that time is not modelled. *)

From Stdlib Require Import ZArith Lia.
From stdpp Require Import base list gmap strings sorting.
From S2P Require Import Prelude Heap HeapPair.

Open Scope go_scope.

(** [time.Time.Unix]: whole seconds; times are nanoseconds since the epoch. *)
Definition Unix (ns : Z) : Z := (ns / Second)%Z.

Definition ActiveAppsTrimInterval : Z := (60 * Second)%Z.
Definition ActiveAppsEntryLifetime : Z := (30 * 60 * Second)%Z.

Record activeAppsEntry := mkEntry {
  e_t : Z;
  e_ti : Z;
  e_tj : Z;
  ApplicationId : string
}.

Definition entry_Mark (t : Z) (x : activeAppsEntry) : activeAppsEntry :=
  if (e_t x <? t)%Z then mkEntry t (e_ti x) (e_tj x) (ApplicationId x) else x.

Definition byTimeMinHeap : HeapType activeAppsEntry := {|
  less yi yj := Ok (e_t yi <? e_t yj)%Z;
  setIndex j y := mkEntry (e_t y) j (e_tj y) (ApplicationId y)
|}.

Definition byTimeMaxHeap : HeapType activeAppsEntry := {|
  less yi yj := Ok (e_t yj <? e_t yi)%Z;
  setIndex j y := mkEntry (e_t y) (e_ti y) j (ApplicationId y)
|}.

(** The snapshots: same order, [SetIndex] does nothing. *)
Definition byTimeMinHeapSnapshot : HeapType activeAppsEntry := {|
  less := less (HeapType := byTimeMinHeap);
  setIndex _ y := y
|}.

Definition byTimeMaxHeapSnapshot : HeapType activeAppsEntry := {|
  less := less (HeapType := byTimeMaxHeap);
  setIndex _ y := y
|}.

(** [entries] holds the objects behind the pointers, [next] is the next
    pointer Go's allocator returns. *)
Record ActiveApps := mkActiveApps {
  m : gmap string nat;
  entries : gmap nat activeAppsEntry;
  next : nat;
  i : Heap;
  j : Heap
}.

Definition NewActiveApps : ActiveApps := mkActiveApps ∅ ∅ 0 [] [].

Definition Mark (app : string) (z : Z) (x : ActiveApps) : result ActiveApps :=
  let t := Unix z in
  let* '(mm, en, nx, hi, hj, l) :=
    (match m x !! app with
     | Some l =>
         let* y := deref (entries x) l in
         let* '(en1, hi, _) := heap_Remove (HT := byTimeMinHeap) (entries x, i x) (e_ti y) in
         let* y1 := deref en1 l in
         let* '(en2, hj, _) := heap_Remove (HT := byTimeMaxHeap) (en1, j x) (e_tj y1) in
         Ok (m x, en2, next x, hi, hj, l)
     | None =>
         let l := next x in
         Ok (<[app := l]> (m x), <[l := mkEntry 0 0 0 app]> (entries x), S l, i x, j x, l)
     end) in
  let* y := deref en l in
  let en1 := <[l := entry_Mark t y]> en in
  let* '(en2, hi') := heap_Push (HT := byTimeMinHeap) (en1, hi) l in
  let* '(en3, hj') := heap_Push (HT := byTimeMaxHeap) (en2, hj) l in
  Ok (mkActiveApps mm en3 nx hi' hj').

(** Each turn of the loop that continues shortens the min-heap by one. *)
Fixpoint Trim_loop (fuel : nat) (t : Z) (x : ActiveApps) : result ActiveApps :=
  match fuel with
  | 0 => Panic "out of fuel"
  | S fuel =>
      if 0 <? Len (i x) then
        let* '(en1, hi, l) := heap_Pop (HT := byTimeMinHeap) (entries x, i x) in
        let* z := deref en1 l in
        if (t <? e_t z)%Z then
          let* '(en2, hi') := heap_Push (HT := byTimeMinHeap) (en1, hi) l in
          Ok (mkActiveApps (m x) en2 (next x) hi' (j x))
        else
          let* '(en2, hj, _) := heap_Remove (HT := byTimeMaxHeap) (en1, j x) (e_tj z) in
          let* z2 := deref en2 l in
          Trim_loop fuel t (mkActiveApps (delete (ApplicationId z2) (m x)) en2 (next x) hi hj)
      else Ok x
  end.

Definition Trim (y : Z) (x : ActiveApps) : result ActiveApps :=
  Trim_loop (S (Len (i x))) (Unix y) x.

(** The goroutine of [NewActiveApps], at a tick of the ticker. *)
Definition tick (now : Z) (x : ActiveApps) : result ActiveApps :=
  Trim (now - ActiveAppsEntryLifetime) x.

Fixpoint ActiveSince_loop (fuel : nat) (t : Z) (a : gmap nat activeAppsEntry * Heap) (b : list string)
  : result (list string) :=
  match fuel with
  | 0 => Panic "out of fuel"
  | S fuel =>
      if 0 <? Len a.2 then
        let* '(en, h, l) := heap_Pop (HT := byTimeMaxHeapSnapshot) a in
        let* z := deref en l in
        if (e_t z <? t)%Z then Ok b
        else ActiveSince_loop fuel t (en, h) (b ++ [ApplicationId z])
      else Ok b
  end.

Definition ActiveSince (y : Z) (x : ActiveApps) : result (list string) :=
  let a := Copy (j x) in
  ActiveSince_loop (S (Len a)) (Unix y) (entries x, a) [].

(** ** The heaps keep their promises *)
Section heaps.
#[local] Obligation Tactic := try done.

#[export] Program Instance min_order : HeapOrder (HT := byTimeMinHeap) activeAppsEntry :=
  { key e := Some (e_t e) }.
Next Obligation. intros a b x y [= <-] [= <-]. cbn. by rewrite ltb_key. Qed.

#[export] Program Instance max_order : HeapOrder (HT := byTimeMaxHeap) activeAppsEntry :=
  { key e := Some (- e_t e)%Z }.
Next Obligation. intros a b x y [= <-] [= <-]. cbn. by rewrite gtb_key. Qed.

#[export] Program Instance snapshot_order : HeapOrder (HT := byTimeMaxHeapSnapshot) activeAppsEntry :=
  { key e := Some (- e_t e)%Z }.
Next Obligation. intros a b x y [= <-] [= <-]. cbn. by rewrite gtb_key. Qed.

#[export] Program Instance min_index : HeapIndex (HT := byTimeMinHeap) activeAppsEntry :=
  { getIndex := e_ti }.

#[export] Program Instance max_index : HeapIndex (HT := byTimeMaxHeap) activeAppsEntry :=
  { getIndex := e_tj }.

#[export] Program Instance time_heaps :
    HeapPair activeAppsEntry (Z * string) min_order max_order min_index max_index :=
  { view e := (e_t e, ApplicationId e) }.
End heaps.

Abbreviation view := (HeapPair.view (HeapPair := time_heaps)).
Abbreviation contents := (HeapPair.contents (HP := time_heaps)).

(** ** The abstract state and the invariant *)

(** Each application's last request. *)
Definition active (x : ActiveApps) : gmap string Z := fst <$> contents (m x) (entries x).

Definition wf (x : ActiveApps) : Prop :=
  table (HP := time_heaps) snd (λ _, True) (m x) (entries x) (next x) (i x) (j x).

Lemma active_wf_new : wf NewActiveApps.
Proof. apply table_nil. Qed.

Lemma entry_Mark_view t y : view (entry_Mark t y) = (Z.max t (e_t y), ApplicationId y).
Proof. unfold entry_Mark. destruct (Z.ltb_spec (e_t y) t); cbn; f_equal; lia. Qed.

Lemma active_mark_ok app z x :
  wf x →
  ∃ x', Mark app z x = Ok x' ∧ wf x' ∧
    active x' = <[app := Z.max (Unix z) (default 0%Z (active x !! app))]> (active x).
Proof.
  intros Hwf. pose proof Hwf as (Hb & Hm & Hi & _). unfold Mark, active, deref. rewrite lookup_fmap.
  destruct (m x !! app) as [l|] eqn:Hl.
  - assert (l ∈ i x) as Hli by (apply Hi; eauto).
    destruct (table_member _ _ _ _ _ _ _ _ Hwf Hli) as (y & Hy & _ & Hname & _).
    pose proof (table_inj _ _ _ _ _ _ _ _ _ _ Hwf Hl Hname) as ->. cbn in Hl. rewrite Hy. cbn [rbind].
    destruct (both_remove (HP := time_heaps) _ _ _ _ _ Hb Hli Hy) as
      (en1 & hi & y1 & en2 & hj & H1 & Hy1 & H2 & Hb2 & Hp2 & Hv2). cbn in H1, H2.
    rewrite H1. cbn [rbind]. rewrite Hy1. cbn [rbind]. rewrite H2. cbn [rbind].
    pose proof (table_open _ _ _ _ _ _ _ _ _ _ _ _ Hwf Hl Hb2 Hp2 Hv2) as Hop.
    destruct (same_view_lookup _ _ _ _ Hv2 Hy) as (y2 & Hy2 & Hvy). rewrite Hy2. cbn [rbind].
    injection Hvy as Hty Hay.
    destruct (table_close _ _ _ _ _ _ _ _ _ (entry_Mark (Unix z) y2) Hop) as
      (en3 & hi' & en4 & hj' & -> & H4 & Ht' & _ & Hc); [by rewrite entry_Mark_view|done|by eauto..|].
    cbn [rbind]. rewrite H4. cbn [rbind]. eexists. split_and!; [done..|]. cbn.
    rewrite Hc, (contents_same_view _ _ _ Hv2), fmap_insert, entry_Mark_view, contents_lookup, Hl. cbn.
    rewrite Hy. cbn. by rewrite Hty.
  - pose proof (table_new _ _ _ _ _ _ _ _ (mkEntry 0 0 0 app) Hwf Hl) as Hop. cbn [rbind].
    rewrite lookup_insert_eq. cbn [rbind].
    destruct (table_close _ _ _ _ _ _ _ _ _ (entry_Mark (Unix z) (mkEntry 0 0 0 app)) Hop) as
      (en3 & hi' & en4 & hj' & -> & H4 & Ht' & _ & Hc); [by rewrite entry_Mark_view|done|by eauto..|].
    cbn [rbind]. rewrite H4. cbn [rbind]. eexists. split_and!; [done..|]. cbn.
    rewrite Hc, (table_new_contents _ _ _ _ _ _ _ _ _ Hwf Hl), insert_insert_eq, fmap_insert, entry_Mark_view.
    by rewrite contents_lookup, Hl.
Qed.

Lemma key_of_time x l e : entries x !! l = Some e → key_of (HO := min_order) (entries x) l = e_t e.
Proof. intros He. unfold key_of. by rewrite He. Qed.

(** The entries of the map are those of the heaps. *)
Lemma active_entry x app t :
  wf x → active x !! app = Some t →
  ∃ l e, m x !! app = Some l ∧ entries x !! l = Some e ∧ e_t e = t ∧ ApplicationId e = app ∧ l ∈ i x.
Proof.
  intros Hwf Ha. unfold active in Ha. rewrite lookup_fmap in Ha. apply fmap_Some in Ha as (d & Hd & ->).
  destruct (table_contents _ _ _ _ _ _ _ _ _ Hwf Hd) as (_ & <- & l & e & Hl & He & <- & Hli). eauto 10.
Qed.

Lemma active_trim_loop_ok fuel t x :
  wf x → length (i x) < fuel →
  ∃ x', Trim_loop fuel t x = Ok x' ∧ wf x' ∧ active x' = filter (λ kv, (t < kv.2)%Z) (active x).
Proof.
  revert x. induction fuel as [|fuel IH]; intros x Hwf Hf; [lia|]. cbn [Trim_loop]. unfold Len.
  pose proof Hwf as (Hb & _ & _ & _). destruct (Nat.ltb_spec 0 (length (i x))) as [Hlen|Hlen].
  2: { exists x. split_and!; [done..|]. symmetry. apply map_filter_id. intros app t' Ht.
       destruct (active_entry x app t' Hwf Ht) as (l & e & _ & _ & _ & _ & Hl).
       destruct (i x); [by apply elem_of_nil in Hl|cbn in Hlen; lia]. }
  destruct (first_pop (HP := time_heaps) _ _ _ Hb) as (en1 & hi & l & H1 & Hat1 & Hat2 & Hp & Hv & Hmin & Hkey);
    [by intros E; rewrite E in Hlen; cbn in Hlen; lia|].
  rewrite H1. cbn [rbind].
  assert (l ∈ i x) as Hli by (rewrite Hp; by left). destruct Hb as (Ha0 & Hb0 & Hab).
  destruct (table_member _ _ _ _ _ _ _ _ Hwf Hli) as (e & He & _ & Hme & Hce).
  destruct (same_view_lookup _ _ _ _ Hv He) as (z & Hz & Hvz). unfold deref. rewrite Hz. cbn [rbind].
  assert (j x ≡ₚ l :: hi) as Hpj by (by rewrite <-Hab). injection Hvz as Htz Haz.
  destruct (Z.ltb_spec t (e_t z)) as [Hlt|Hge].
  - destruct (first_push (HP := time_heaps) en1 hi (j x) l z) as (en2 & hi' & -> & Hb2 & Hv2); [by eauto..|].
    cbn [rbind]. eexists. split; [done|]. assert (same_view (entries x) en2) as Hv' by by etrans.
    split; [|unfold active; cbn; rewrite (contents_same_view _ _ _ Hv')].
    + eapply table_same_view; [done..| |done]. destruct Hb2 as (_ & _ & Hp2). cbn. by rewrite Hp2.
    + symmetry. apply map_filter_id. intros app t' Ht'.
      destruct (active_entry x app t' Hwf Ht') as (l' & e' & _ & He' & <- & _ & Hl').
      specialize (Hmin l' Hl'). rewrite (key_of_time x l e), (key_of_time x l' e') in Hmin by done. cbn. lia.
  - destruct (second_remove (HP := time_heaps) en1 hi (j x) l z) as (en2 & hj & H2 & Hb2 & Hv2); [done..|].
    cbn in H2. rewrite H2. cbn [rbind]. assert (same_view (entries x) en2) as Hv' by by etrans.
    pose proof (table_open _ _ _ _ _ _ _ _ _ _ _ _ Hwf Hme Hb2 Hp Hv') as Hop.
    destruct (same_view_lookup _ _ _ _ Hv2 Hz) as (z2 & Hz2 & [= _ Ha2]). rewrite Hz2. cbn [rbind].
    destruct (table_drop _ _ _ _ _ _ _ _ _ z2 Hop) as [Hwf' Hact]. rewrite (insert_id en2) in Hwf', Hact by done.
    cbn in Hwf', Hact. rewrite Ha2, Haz.
    destruct (IH (mkActiveApps (delete (ApplicationId e) (m x)) en2 (next x) hi hj) Hwf') as (x' & -> & Hwf2 & Hact2); [cbn; rewrite Hp in Hf; cbn in Hf; lia|].
    exists x'. split_and!; [done..|]. rewrite Hact2. unfold active. cbn.
    rewrite Hact, (contents_same_view _ _ _ Hv'), fmap_delete, map_filter_delete.
    apply delete_id. apply map_lookup_filter_None. right. intros t' Ht'. cbn.
    cbn in Hce. rewrite lookup_fmap, Hce in Ht'. injection Ht' as <-. cbn. lia.
Qed.

(** ** The snapshot *)

(** The time of each application of a list, newest first. *)
Definition newest_first (x : ActiveApps) : list string → Prop :=
  StronglySorted (λ a b, (default 0 (active x !! b) ≤ default 0 (active x !! a))%Z).

(** The applications of a list of pointers. *)
Definition names (en : gmap nat activeAppsEntry) (ls : list nat) : list string :=
  (λ l, default EmptyString (ApplicationId <$> en !! l)) <$> ls.

Lemma since_loop_ok fuel t en f h b :
  heap_ok (HO := snapshot_order) en f h → length h < fuel →
  ∃ ls, ActiveSince_loop fuel t (en, h) b = Ok (b ++ names en ls) ∧
    ls ≡ₚ filter (λ l, (f l ≤ - t)%Z) h ∧ StronglySorted (λ a b, (f a ≤ f b)%Z) ls.
Proof.
  revert h b. induction fuel as [|fuel IH]; intros h b Hok Hf; [lia|]. cbn [ActiveSince_loop fst snd].
  unfold Len. destruct (Nat.ltb_spec 0 (length h)) as [Hlen|Hlen].
  2: { destruct h; [|cbn in Hlen; lia]. exists []. rewrite app_nil_r. repeat constructor. }
  destruct (snapshot_pop_ok (HO := snapshot_order) en f h) as (h' & l & e & -> & Hok' & Hp & He & [= Hk] & Hmin);
    [done|done|intros ->; cbn in Hlen; lia|]. cbn [rbind]. unfold deref. rewrite He. cbn [rbind].
  destruct (Z.ltb_spec (e_t e) t) as [Hlt|Hge].
  - exists []. rewrite app_nil_r. split_and!; [done| |constructor].
    enough (filter (λ l, (f l ≤ - t)%Z) h = []) as ->; [done|].
    apply elem_of_nil_inv. intros x [Hx Hin]%list_elem_of_filter. specialize (Hmin x Hin). lia.
  - destruct (IH h' (b ++ [ApplicationId e]) Hok') as (ls & -> & Hls & Hs);
      [rewrite Hp in Hf; cbn in Hf; lia|].
    exists (l :: ls). split_and!.
    + rewrite <-app_assoc. cbn. by rewrite He.
    + rewrite Hp, Hls. rewrite filter_cons_True by lia. done.
    + constructor; [done|]. apply Forall_forall. intros x Hx. apply Hmin. rewrite Hp. right.
      rewrite Hls in Hx. by apply list_elem_of_filter in Hx as [_ ?].
Qed.

Lemma StronglySorted_fmap {A B} (R : A → A → Prop) (R' : B → B → Prop) (g : A → B) ls :
  StronglySorted R ls → (∀ a b, a ∈ ls → b ∈ ls → R a b → R' (g a) (g b)) → StronglySorted R' (g <$> ls).
Proof.
  induction 1 as [|a ls Hs IH Ha]; intros Hg; [constructor|]. cbn. constructor.
  - apply IH. intros ????. apply Hg; by right.
  - apply Forall_forall. intros y (b & -> & Hb)%list_elem_of_fmap. apply Hg; [by left|by right|].
    by eapply Forall_forall in Ha.
Qed.

Lemma since_ok y x :
  wf x →
  ∃ b, ActiveSince y x = Ok b ∧
    b ≡ₚ (map_to_list (filter (λ kv, (Unix y ≤ kv.2)%Z) (active x))).*1 ∧ newest_first x b.
Proof.
  intros Hwf. pose proof Hwf as ((_ & ((Hok & Hnd & _) & Hij)) & _). unfold ActiveSince, Copy.
  set (f := key_of (HO := max_order) (entries x)) in *.
  destruct (since_loop_ok (S (Len (j x))) (Unix y) (entries x) f (j x) [] Hok) as (ls & -> & Hls & Hs);
    [unfold Len; lia|]. cbn [app]. eexists. split; [done|].
  assert (∀ l, l ∈ ls → ∃ e, entries x !! l = Some e ∧ m x !! ApplicationId e = Some l ∧
    active x !! ApplicationId e = Some (e_t e) ∧ f l = (- e_t e)%Z ∧ (Unix y ≤ e_t e)%Z) as Hent.
  { intros l Hl. rewrite Hls in Hl. apply list_elem_of_filter in Hl as [Hf Hl]. rewrite <-Hij in Hl.
    destruct (table_member _ _ _ _ _ _ _ _ Hwf Hl) as (e & He & _ & Hme & Hce). exists e.
    assert (f l = (- e_t e)%Z) as Hfl by (unfold f, key_of; by rewrite He).
    unfold active. rewrite lookup_fmap. cbn in Hce, Hme. rewrite Hce. split_and!; try done. lia. }
  split.
  - apply NoDup_Permutation.
    + apply NoDup_fmap_2_strong; [|rewrite Hls; by apply NoDup_filter].
      intros l1 l2 (e1 & He1 & Hl1 & _)%Hent (e2 & He2 & Hl2 & _)%Hent. rewrite He1, He2. cbn. congruence.
    + apply NoDup_fst_map_to_list.
    + intros a. unfold names. rewrite list_elem_of_fmap. split.
      * intros (l & -> & (e & He & _ & Ha & _ & Hy)%Hent). rewrite He. cbn. apply list_elem_of_fmap.
        exists (ApplicationId e, e_t e). split; [done|]. apply elem_of_map_to_list, map_lookup_filter_Some. done.
      * intros ([a' t] & -> & [Ha Ht]%elem_of_map_to_list%map_lookup_filter_Some)%list_elem_of_fmap. cbn in *.
        destruct (active_entry x a' t Hwf Ha) as (l & e & Hl & He & <- & <- & Hli).
        exists l. rewrite He. split; [done|]. rewrite Hls. apply list_elem_of_filter.
        split; [|by rewrite <-Hij]. unfold f, key_of. rewrite He. cbn. lia.
  - eapply StronglySorted_fmap; [done|]. cbn. intros l1 l2 (e1 & He1 & _ & Ha1 & Hf1 & _)%Hent
      (e2 & He2 & _ & Ha2 & Hf2 & _)%Hent Hle. rewrite He1, He2. cbn. rewrite Ha1, Ha2. cbn. lia.
Qed.

(** ** Histories of the object *)
Inductive op :=
| OpMark (app : string) (z : Z)
| OpTrim (y : Z)
| OpTick (now : Z).

Definition step (o : op) (x : ActiveApps) : result ActiveApps :=
  match o with
  | OpMark app z => Mark app z x
  | OpTrim y => Trim y x
  | OpTick now => tick now x
  end.

Fixpoint run (ops : list op) (x : ActiveApps) : result ActiveApps :=
  match ops with
  | [] => Ok x
  | o :: ops => let* x' := step o x in run ops x'
  end.

(** The same history on a plain map from applications to times. *)
Definition spec_step (o : op) (s : gmap string Z) : gmap string Z :=
  match o with
  | OpMark app z => <[app := Z.max (Unix z) (default 0%Z (s !! app))]> s
  | OpTrim y => filter (λ kv, (Unix y < kv.2)%Z) s
  | OpTick now => filter (λ kv, (Unix (now - ActiveAppsEntryLifetime) < kv.2)%Z) s
  end.

Lemma active_step_ok o x : wf x → ∃ x', step o x = Ok x' ∧ wf x' ∧ active x' = spec_step o (active x).
Proof.
  destruct o; cbn [step spec_step]; intros Hwf; [by apply active_mark_ok|apply active_trim_loop_ok; [done|unfold Len; lia]..].
Qed.

Lemma active_run_ok ops x :
  wf x → ∃ x', run ops x = Ok x' ∧ wf x' ∧ active x' = foldl (λ s o, spec_step o s) (active x) ops.
Proof.
  revert x. induction ops as [|o ops IH]; intros x Hwf; [by exists x|]. cbn.
  destruct (active_step_ok o x Hwf) as (x1 & -> & Hwf1 & Hact). cbn. rewrite <-Hact. by apply IH.
Qed.

(** C7. Every sequential history of marks, trims and ticker firings, from a new
    [ActiveApps], runs without a panic (no stale heap index is ever used) and
    leaves exactly the map that the same history gives on a plain map from
    applications to times; [ActiveSince] then lists, newest first and without
    repetition, exactly the applications whose last request is not older than
    its argument, to the second. *)
Theorem active_apps_refine ops y :
  ∃ x b, run ops NewActiveApps = Ok x ∧
    active x = foldl (λ s o, spec_step o s) ∅ ops ∧
    ActiveSince y x = Ok b ∧
    b ≡ₚ (map_to_list (filter (λ kv, (Unix y ≤ kv.2)%Z) (active x))).*1 ∧ newest_first x b.
Proof.
  destruct (active_run_ok ops NewActiveApps active_wf_new) as (x & Hrun & Hwf & Hact).
  destruct (since_ok y x Hwf) as (b & Hb). exists x, b. split; [done|]. split; [exact Hact|done].
Qed.

(** A history, evaluated: the application trimmed at its last second is gone,
    the one marked again is not. *)
Example active_apps_example :
  rbind (run [OpMark "a" (5 * Second); OpMark "b" (10 * Second); OpMark "c" (30 * Second);
              OpMark "a" (20 * Second); OpTrim (10 * Second + 1)] NewActiveApps)
        (ActiveSince (20 * Second)) = Ok ["c"; "a"].
Proof. by vm_compute. Qed.
