(* ===== verification/TopApps.v ===== *)
(** stats/top_apps.go: the applications with most requests lately.

    A [topAppsEntry] counts an application's requests in slots of one second,
    oldest first, and their total [n].  [TopApps] keeps the entries in a map,
    in a heap by the time of the first slot (for [trim]) and in a heap by the
    number of requests (for [TopSince]).  The abstract state is the list of
    request times of each application; the theorems show that histories of
    the object never reach one of the four panics of the source, that they
    implement that abstract state, and that [TopSince] returns a correct top
    list.  Counters are 64-bit; the theorems are about histories of fewer
    than 2^63 requests, in which no counter wraps, and about sequential ones:
    [TopSince] releases the mutex after it has copied the heap and pops the
    copy, whose items are pointers to the shared entries, without it; a trim
    by the ticker at that time is not modelled. *)

From Stdlib Require Import ZArith Lia.
From stdpp Require Import base list gmap strings sorting.
From S2P Require Import Prelude Heap HeapPair ActiveApps.

Open Scope go_scope.

Definition TopAppsTrimInterval : Z := (10 * Second)%Z.
Definition TopAppsEntryLifetime : Z := (60 * Second)%Z.

Record topAppsEntryTimeSlot := mkSlot { s_t : Z; s_n : Z }.

Record topAppsEntry := mkTop {
  ti : Z;
  ni : Z;
  slots : list topAppsEntryTimeSlot;
  requests : Z;
  AppId : string
}.

(** The slot the request is counted in: a new one when [t] is later than the
    last. *)
Definition ensure_slot (t : Z) (sl : list topAppsEntryTimeSlot) : list topAppsEntryTimeSlot :=
  match last sl with
  | None => sl ++ [mkSlot t 0]
  | Some s => if (s_t s <? t)%Z then sl ++ [mkSlot t 0] else sl
  end.

Definition entry_Mark (t : Z) (x : topAppsEntry) : topAppsEntry :=
  let sl := ensure_slot t (slots x) in
  let sl' := alter (λ s, mkSlot (s_t s) (wrap64 (s_n s + 1))) (length sl - 1) sl in
  mkTop (ti x) (ni x) sl' (wrap64 (requests x + 1)) (AppId x).

(** The loop of [Trim]: the slots that stay, and the requests in the others. *)
Fixpoint collect (t : Z) (n : Z) (sl : list topAppsEntryTimeSlot) : list topAppsEntryTimeSlot * Z :=
  match sl with
  | [] => ([], n)
  | s :: rest => if (t <? s_t s)%Z then (sl, n) else collect t (wrap64 (n + s_n s)) rest
  end.

Definition entry_Trim (t : Z) (x : topAppsEntry) : topAppsEntry :=
  let '(sl, n) := collect t 0 (slots x) in
  mkTop (ti x) (ni x) sl (wrap64 (requests x - n)) (AppId x).

(** [y.t[0]]: an entry without slots makes [Less] panic. *)
Definition first_slot (y : topAppsEntry) : result Z :=
  match slots y with [] => Panic out_of_range | s :: _ => Ok (s_t s) end.

Definition byFirstMarkTimeHeap : HeapType topAppsEntry := {|
  less yi yj := let* a := first_slot yi in let* b := first_slot yj in Ok (a <? b)%Z;
  setIndex j y := mkTop j (ni y) (slots y) (requests y) (AppId y)
|}.

Definition byFirstMarkTimeHeapSnapshot : HeapType topAppsEntry := {|
  less := less (HeapType := byFirstMarkTimeHeap);
  setIndex _ y := y
|}.

Definition byRequestsHeap : HeapType topAppsEntry := {|
  less yi yj := Ok (requests yj <? requests yi)%Z;
  setIndex j y := mkTop (ti y) j (slots y) (requests y) (AppId y)
|}.

Definition byRequestsHeapSnapshot : HeapType topAppsEntry := {|
  less := less (HeapType := byRequestsHeap);
  setIndex _ y := y
|}.

Record TopApps := mkTopApps {
  m : gmap string nat;
  entries : gmap nat topAppsEntry;
  next : nat;
  t : Heap;
  n : Heap
}.

Definition NewTopApps : TopApps := mkTopApps ∅ ∅ 0 [] [].

Definition same_pointer (l l' : nat) (why : string) : result unit :=
  if l =? l' then Ok tt else Panic why.

Definition Mark (app : string) (z : Z) (x : TopApps) : result TopApps :=
  let tm := Unix z in
  let* '(mm, en, nx, ht, hn, l) :=
    (match m x !! app with
     | Some l =>
         let* y := deref (entries x) l in
         let* '(en1, ht, z1) := heap_Remove (HT := byFirstMarkTimeHeap) (entries x, t x) (ti y) in
         let* _ := same_pointer z1 l "z1 != y" in
         let* y1 := deref en1 l in
         let* '(en2, hn, z2) := heap_Remove (HT := byRequestsHeap) (en1, n x) (ni y1) in
         let* _ := same_pointer z2 l "z2 != y" in
         Ok (m x, en2, next x, ht, hn, l)
     | None =>
         let l := next x in
         Ok (<[app := l]> (m x), <[l := mkTop 0 0 [] 0 app]> (entries x), S l, t x, n x, l)
     end) in
  let* y := deref en l in
  let en1 := <[l := entry_Mark tm y]> en in
  let* '(en2, ht') := heap_Push (HT := byFirstMarkTimeHeap) (en1, ht) l in
  let* '(en3, hn') := heap_Push (HT := byRequestsHeap) (en2, hn) l in
  Ok (mkTopApps mm en3 nx ht' hn').

(** Both heaps, with [l] pushed back. *)
Definition push_both (en : gmap nat topAppsEntry) (ht hn : Heap) (l : nat) (mm : gmap string nat) (nx : nat)
  : result TopApps :=
  let* '(en1, ht') := heap_Push (HT := byFirstMarkTimeHeap) (en, ht) l in
  let* '(en2, hn') := heap_Push (HT := byRequestsHeap) (en1, hn) l in
  Ok (mkTopApps mm en2 nx ht' hn').

(** Each turn that continues removes or renews an entry whose first slot is
    not later than [tm]: there are at most [Len (t x)] of them. *)
Fixpoint trim_loop (fuel : nat) (tm : Z) (x : TopApps) : result TopApps :=
  match fuel with
  | 0 => Panic "out of fuel"
  | S fuel =>
      if 0 <? Len (t x) then
        let* '(en1, ht, u) := heap_Pop (HT := byFirstMarkTimeHeap) (entries x, t x) in
        let* eu := deref en1 u in
        let* '(en2, hn, v) := heap_Remove (HT := byRequestsHeap) (en1, n x) (ni eu) in
        let* _ := same_pointer v u "v != u" in
        let* eu := deref en2 u in
        let* t0 := first_slot eu in
        if (tm <? t0)%Z then push_both en2 ht hn u (m x) (next x)
        else
          let eu' := entry_Trim tm eu in
          let en3 := <[u := eu']> en2 in
          if length (slots eu') =? 0 then
            trim_loop fuel tm (mkTopApps (delete (AppId eu') (m x)) en3 (next x) ht hn)
          else
            let* t0' := first_slot eu' in
            if (t0' <=? tm)%Z then Panic "expected u.t[0].t <= t"
            else let* x' := push_both en3 ht hn u (m x) (next x) in trim_loop fuel tm x'
      else Ok x
  end.

Definition trim (y : Z) (x : TopApps) : result TopApps :=
  trim_loop (S (Len (t x))) (Unix y) x.

Definition Trim (y : Z) (x : TopApps) : result TopApps := trim y x.

(** The goroutine of [NewTopApps], at a tick of the ticker. *)
Definition tick (now : Z) (x : TopApps) : result TopApps := Trim (now - TopAppsEntryLifetime) x.

Record TopAppsTopEntry := mkTopEntry { ApplicationId : string; Requests : Z }.

Fixpoint TopSince_loop (fuel : nat) (k : Z) (a : gmap nat topAppsEntry * Heap) (s : list TopAppsTopEntry)
  : result (list TopAppsTopEntry) :=
  match fuel with
  | 0 => Panic "out of fuel"
  | S fuel =>
      if (0 <? Len a.2) && (Z.of_nat (length s) <? k)%Z then
        let* '(en, h, l) := heap_Pop (HT := byRequestsHeapSnapshot) a in
        let* z := deref en l in
        TopSince_loop fuel k (en, h) (s ++ [mkTopEntry (AppId z) (requests z)])
      else Ok s
  end.

(** [make] panics on a negative capacity. *)
Definition TopSince (y : Z) (k : Z) (x : TopApps) : result (TopApps * list TopAppsTopEntry) :=
  let* x' := trim (y - Second) x in
  let a := Copy (n x') in
  if (k <? 0)%Z then Panic "makeslice: cap out of range"
  else let* s := TopSince_loop (S (Len a)) k (entries x', a) [] in Ok (x', s).

Section heaps.
#[local] Obligation Tactic := try done.

#[export] Program Instance first_order : HeapOrder (HT := byFirstMarkTimeHeap) topAppsEntry :=
  { key e := s_t <$> head (slots e) }.
Next Obligation.
  intros a b x y Ha Hb. cbn in *. unfold first_slot.
  destruct (slots a), (slots b); simplify_eq/=. by rewrite ltb_key.
Qed.

#[export] Program Instance requests_order : HeapOrder (HT := byRequestsHeap) topAppsEntry :=
  { key e := Some (- requests e)%Z }.
Next Obligation. intros a b x y [= <-] [= <-]. cbn. by rewrite gtb_key. Qed.

#[export] Program Instance requests_snapshot_order : HeapOrder (HT := byRequestsHeapSnapshot) topAppsEntry :=
  { key e := Some (- requests e)%Z }.
Next Obligation. intros a b x y [= <-] [= <-]. cbn. by rewrite gtb_key. Qed.

#[export] Program Instance first_index : HeapIndex (HT := byFirstMarkTimeHeap) topAppsEntry :=
  { getIndex := ti }.

#[export] Program Instance requests_index : HeapIndex (HT := byRequestsHeap) topAppsEntry :=
  { getIndex := ni }.

#[export] Program Instance top_heaps :
    HeapPair topAppsEntry (list topAppsEntryTimeSlot * Z * string)
      first_order requests_order first_index requests_index :=
  { view e := (slots e, requests e, AppId e) }.
End heaps.

(** ** Slots *)
Implicit Types (sl : list topAppsEntryTimeSlot) (ts : list Z).

Definition total sl : Z := foldr (λ s k, s_n s + k)%Z 0%Z sl.

(** The time of each request a list of slots has counted. *)
Definition expand sl : list Z := sl ≫= λ s, replicate (Z.to_nat (s_n s)) (s_t s).

(** Slots are in strictly increasing order of time and hold a request each. *)
Definition ok_slots sl : Prop :=
  StronglySorted (λ a b, (s_t a < s_t b)%Z) sl ∧ Forall (λ s, (0 < s_n s)%Z) sl.

Lemma total_app sl1 sl2 : total (sl1 ++ sl2) = (total sl1 + total sl2)%Z.
Proof. unfold total. induction sl1 as [|s sl1 IH]; cbn; lia. Qed.

Lemma expand_app sl1 sl2 : expand (sl1 ++ sl2) = expand sl1 ++ expand sl2.
Proof. apply bind_app. Qed.

Lemma expand_one tm k : expand [mkSlot tm k] = replicate (Z.to_nat k) tm.
Proof. cbn. by rewrite app_nil_r. Qed.

Lemma total_nonneg sl : Forall (λ s, (0 < s_n s)%Z) sl → (0 ≤ total sl)%Z.
Proof. unfold total. induction 1; cbn; lia. Qed.

Lemma expand_length sl : Forall (λ s, (0 < s_n s)%Z) sl → Z.of_nat (length (expand sl)) = total sl.
Proof.
  induction 1 as [|s sl Hs _ IH]; [done|]. unfold expand, total in *. cbn.
  rewrite length_app, length_replicate. lia.
Qed.

Lemma elem_of_expand sl x :
  Forall (λ s, (0 < s_n s)%Z) sl → x ∈ expand sl ↔ ∃ s, s ∈ sl ∧ s_t s = x.
Proof.
  intros Hpos. unfold expand. rewrite list_elem_of_bind. split.
  - intros (s & [-> _]%elem_of_replicate & Hs). eauto.
  - intros (s & Hs & <-). exists s. split; [|done]. apply elem_of_replicate.
    rewrite Forall_forall in Hpos. specialize (Hpos s Hs). split; [done|lia].
Qed.

Lemma ok_slots_snoc sl s :
  ok_slots (sl ++ [s]) ↔ ok_slots sl ∧ (0 < s_n s)%Z ∧ ∀ x, x ∈ sl → (s_t x < s_t s)%Z.
Proof.
  unfold ok_slots. rewrite StronglySorted_app, Forall_app, Forall_singleton. split.
  - intros ((Hs & ? & _) & ? & ?). split_and!; try done. intros x Hx. apply Hs; [done|by left].
  - intros ((Hs & ?) & ? & Hx). split_and!; try done; [|repeat constructor].
    intros x1 x2 H1 ->%list_elem_of_singleton. auto.
Qed.

Lemma ok_slots_app sl1 sl2 : ok_slots (sl1 ++ sl2) → ok_slots sl1 ∧ ok_slots sl2.
Proof.
  intros [Hs [H1 H2]%Forall_app]. apply StronglySorted_app in Hs as (? & ? & ?). by split; split.
Qed.

(** What a request does to the list of times: a late one counts in the second
    of the last. *)
Definition spec_mark (tm : Z) ts : list Z :=
  ts ++ [match last ts with Some t' => Z.max t' tm | None => tm end].

Definition mark_slots (tm : Z) sl : list topAppsEntryTimeSlot :=
  let sl := ensure_slot tm sl in
  alter (λ s, mkSlot (s_t s) (wrap64 (s_n s + 1))) (length sl - 1) sl.

Lemma alter_last {A} (f : A → A) (l : list A) x : alter f (length (l ++ [x]) - 1) (l ++ [x]) = l ++ [f x].
Proof.
  rewrite length_app. cbn. rewrite Nat.add_sub. rewrite alter_app_r_alt by lia. by rewrite Nat.sub_diag.
Qed.

Lemma last_expand sl s : (0 < s_n s)%Z → last (expand (sl ++ [s])) = Some (s_t s).
Proof.
  intros Hs. destruct s as [tm k]. cbn in *. rewrite expand_app, expand_one.
  replace (Z.to_nat k) with (S (Z.to_nat (k - 1))) by lia. rewrite replicate_S_end, app_assoc. apply last_snoc.
Qed.

Lemma mark_slots_new tm sl :
  ok_slots sl → (∀ s, s ∈ sl → (s_t s < tm)%Z) →
  let sl' := sl ++ [mkSlot tm (wrap64 (0 + 1))] in
  ok_slots sl' ∧ total sl' = (total sl + 1)%Z ∧ expand sl' = expand sl ++ [tm].
Proof.
  intros Hok Hlt. rewrite wrap64_id by (unfold fits64; lia). cbv zeta. split_and!.
  - apply ok_slots_snoc. done.
  - by rewrite total_app.
  - by rewrite expand_app.
Qed.

Lemma mark_slots_ok tm sl :
  ok_slots sl → (total sl + 1 < 2 ^ 63)%Z →
  mark_slots tm sl ≠ [] ∧ ok_slots (mark_slots tm sl) ∧
  total (mark_slots tm sl) = (total sl + 1)%Z ∧ expand (mark_slots tm sl) = spec_mark tm (expand sl).
Proof.
  intros Hok Hmax. unfold mark_slots, ensure_slot.
  destruct sl as [|s sl _] using rev_ind; [destruct (mark_slots_new tm []) as (?&?&?); [done|set_solver|done]|].
  rewrite last_snoc. pose proof Hok as (Hok' & Hs & Hlt)%ok_slots_snoc. destruct s as [t0 k]. cbn in *.
  pose proof (total_nonneg sl (proj2 Hok')) as Hnn. rewrite total_app in Hmax. cbn in Hmax.
  destruct (Z.ltb_spec t0 tm) as [Ht|Ht]; rewrite alter_last; cbn [s_t s_n].
  - destruct (mark_slots_new tm (sl ++ [mkSlot t0 k])) as (H1 & H2 & H3); [done| |].
    { intros x [Hx| ->%list_elem_of_singleton]%elem_of_app; [specialize (Hlt x Hx); lia|done]. }
    split_and!; [by destruct sl|done..|]. rewrite H3. unfold spec_mark. rewrite last_expand by done.
    cbn. by rewrite Z.max_r by lia.
  - rewrite wrap64_id by (unfold fits64; lia). split_and!; [by destruct sl| | |].
    + apply ok_slots_snoc. cbn. split_and!; [done|lia|done].
    + rewrite !total_app. cbn. lia.
    + unfold spec_mark. rewrite last_expand by done. cbn. rewrite Z.max_l by lia.
      rewrite !expand_app, !expand_one, <-app_assoc. f_equal.
      replace (Z.to_nat (k + 1)) with (S (Z.to_nat k)) by lia. by rewrite replicate_S_end.
Qed.

Lemma collect_ok tm k sl :
  Forall (λ s, (0 < s_n s)%Z) sl → (0 ≤ k)%Z → (k + total sl < 2 ^ 63)%Z →
  ∃ old sl', collect tm k sl = (sl', (k + total old)%Z) ∧ sl = old ++ sl' ∧
    Forall (λ s, (s_t s ≤ tm)%Z) old ∧ ∀ s, head sl' = Some s → (tm < s_t s)%Z.
Proof.
  intros Hpos. revert k. induction Hpos as [|s sl Hs Hpos IH]; intros k Hk Hmax; cbn.
  { exists [], []. by rewrite Z.add_0_r. }
  cbn in Hmax. pose proof (total_nonneg sl Hpos) as Hnn. change (foldr _ _ sl) with (total sl) in Hmax.
  destruct (Z.ltb_spec tm (s_t s)) as [Ht|Ht].
  - exists [], (s :: sl). rewrite Z.add_0_r. split_and!; [done..|]. by intros ? [= <-].
  - rewrite wrap64_id by (unfold fits64; lia).
    destruct (IH (k + s_n s)%Z) as (old & sl' & -> & -> & Hold & Hhd); [lia..|].
    exists (s :: old), sl'. split_and!; [|done| |done].
    + f_equal. cbn. unfold total. lia.
    + by constructor.
Qed.

Lemma list_filter_id {A} (Q : A → Prop) `{∀ x, Decision (Q x)} (l : list A) :
  (∀ x, x ∈ l → Q x) → filter Q l = l.
Proof.
  induction l as [|x l IH]; intros Hl; [done|]. rewrite filter_cons_True by (apply Hl; by left).
  f_equal. apply IH. intros ??. apply Hl. by right.
Qed.

(** The requests of a list of slots that are later than [tm]. *)
Lemma expand_split tm old sl :
  ok_slots (old ++ sl) → Forall (λ s, (s_t s ≤ tm)%Z) old → (∀ s, head sl = Some s → (tm < s_t s)%Z) →
  filter (λ t', (tm < t')%Z) (expand (old ++ sl)) = expand sl.
Proof.
  intros Hok Hold Hhd. pose proof (ok_slots_app _ _ Hok) as [[_ Hp1] [Hs2 Hp2]].
  rewrite expand_app, filter_app.
  assert (filter (λ t', (tm < t')%Z) (expand old) = []) as ->.
  { apply elem_of_nil_inv. intros x [Hx (s & Hin & <-)%elem_of_expand]%list_elem_of_filter; [|done].
    rewrite Forall_forall in Hold. specialize (Hold s Hin). lia. }
  cbn. apply list_filter_id. intros x (s & Hin & <-)%elem_of_expand; [|done].
  destruct sl as [|s0 sl]; [by apply elem_of_nil in Hin|]. specialize (Hhd s0 eq_refl).
  apply StronglySorted_cons in Hs2 as [Hs0 _]. rewrite Forall_forall in Hs0.
  apply elem_of_cons in Hin as [->|Hin]; [done|]. specialize (Hs0 s Hin). lia.
Qed.

#[global] Arguments total : simpl never.
#[global] Arguments expand : simpl never.

(** ** The abstract state and the invariant *)
Abbreviation view := (HeapPair.view (HeapPair := top_heaps)).
Abbreviation contents := (HeapPair.contents (HP := top_heaps)).
Abbreviation data := (list topAppsEntryTimeSlot * Z * string)%type.

(** The times of each application's requests. *)
Definition history (x : TopApps) : gmap string (list Z) :=
  (λ d : data, expand d.1.1) <$> contents (m x) (entries x).

(** [c] bounds the number of requests. *)
Definition entry_ok (c : Z) (d : data) : Prop :=
  d.1.1 ≠ [] ∧ ok_slots d.1.1 ∧ d.1.2 = total d.1.1 ∧ (d.1.2 ≤ c)%Z.

Definition wf (c : Z) (x : TopApps) : Prop :=
  table (HP := top_heaps) snd (entry_ok c) (m x) (entries x) (next x) (t x) (n x).

Lemma top_wf_new : wf 0 NewTopApps.
Proof. apply table_nil. Qed.

Lemma entry_ok_key c e : entry_ok c (view e) → is_Some (key (HeapOrder := first_order) e).
Proof. intros [Hne _]. cbn in *. destruct (slots e); [done|]. by eauto. Qed.

Lemma entry_Mark_ok c tm y :
  ok_slots (slots y) → requests y = total (slots y) → (requests y ≤ c)%Z → (c + 1 < 2 ^ 63)%Z →
  entry_ok (c + 1) (view (entry_Mark tm y)) ∧ (view (entry_Mark tm y)).2 = AppId y ∧
  expand (slots (entry_Mark tm y)) = spec_mark tm (expand (slots y)).
Proof.
  intros Hok Hn Hc Hmax. destruct (mark_slots_ok tm (slots y) Hok) as (H1 & H2 & H3 & H4); [lia|].
  pose proof (total_nonneg _ (proj2 Hok)). split_and!; [|done..]. split_and!; cbn; try done.
  - change (wrap64 (requests y + 1) = total (mark_slots tm (slots y))).
    rewrite wrap64_id by (unfold fits64; lia). lia.
  - rewrite wrap64_id by (unfold fits64; lia). lia.
Qed.

(** The requests of [app], none when it is not in the map. *)
Definition requests_of (h : gmap string (list Z)) (app : string) : list Z := default [] (h !! app).

Lemma top_mark_ok c app z x :
  wf c x → (0 ≤ c)%Z → (c + 1 < 2 ^ 63)%Z →
  ∃ x', Mark app z x = Ok x' ∧ wf (c + 1) x' ∧
    history x' = <[app := spec_mark (Unix z) (requests_of (history x) app)]> (history x).
Proof.
  intros Hwf0 Hc Hmax. assert (wf (c + 1) x) as Hwf.
  { eapply table_mono, Hwf0. intros d (? & ? & ? & ?). split_and!; try done. lia. }
  pose proof Hwf as (Hb & Hm & Hi & _). unfold Mark, history, requests_of, deref. rewrite lookup_fmap.
  destruct (m x !! app) as [l|] eqn:Hl.
  - assert (l ∈ t x) as Hli by (apply Hi; eauto).
    destruct (table_member _ _ _ _ _ _ _ _ Hwf0 Hli) as (y & Hy & (_ & Hok & Htot & Hle) & Hname & Hcy).
    pose proof (table_inj _ _ _ _ _ _ _ _ _ _ Hwf Hl Hname) as ->. cbn in Hl. rewrite Hy. cbn [rbind].
    destruct (both_remove (HP := top_heaps) _ _ _ _ _ Hb Hli Hy) as
      (en1 & ht & y1 & en2 & hn & H1 & Hy1 & H2 & Hb2 & Hp2 & Hv2). cbn in H1, H2.
    rewrite H1. cbn [rbind]. unfold same_pointer. rewrite Nat.eqb_refl. cbn [rbind].
    rewrite Hy1. cbn [rbind]. rewrite H2. cbn [rbind]. rewrite Nat.eqb_refl. cbn [rbind].
    pose proof (table_open _ _ _ _ _ _ _ _ _ _ _ _ Hwf Hl Hb2 Hp2 Hv2) as Hop.
    destruct (same_view_lookup _ _ _ _ Hv2 Hy) as (y2 & Hy2 & [= Hsy Hny Hay]). rewrite Hy2. cbn [rbind].
    destruct (entry_Mark_ok c (Unix z) y2) as (Hok2 & Hid & Hexp); [by rewrite ?Hsy, ?Hny..|done|].
    destruct (table_close _ _ _ _ _ _ _ _ _ (entry_Mark (Unix z) y2) Hop) as
      (en3 & ht' & en4 & hn' & -> & H4 & Ht' & _ & Hc'); [by rewrite Hid|done|by eapply entry_ok_key|by eauto|].
    cbn [rbind]. rewrite H4. cbn [rbind]. eexists. split_and!; [done..|]. cbn [m entries].
    rewrite Hc', (contents_same_view _ _ _ Hv2), fmap_insert, Hcy. f_equal.
    etrans; [exact Hexp|]. by rewrite Hsy.
  - pose proof (table_new _ _ _ _ _ _ _ _ (mkTop 0 0 [] 0 app) Hwf Hl) as Hop. cbn [rbind].
    rewrite lookup_insert_eq. cbn [rbind].
    destruct (entry_Mark_ok c (Unix z) (mkTop 0 0 [] 0 app)) as (Hok2 & Hid & Hexp);
      [repeat constructor|done|done|done|].
    destruct (table_close _ _ _ _ _ _ _ _ _ (entry_Mark (Unix z) (mkTop 0 0 [] 0 app)) Hop) as
      (en3 & ht' & en4 & hn' & -> & H4 & Ht' & _ & Hc'); [by rewrite Hid|done|by eapply entry_ok_key|by eauto|].
    cbn [rbind]. rewrite H4. cbn [rbind]. eexists. split_and!; [done..|]. cbn [m entries].
    rewrite Hc', (table_new_contents _ _ _ _ _ _ _ _ _ Hwf Hl), insert_insert_eq, fmap_insert.
    by rewrite contents_lookup, Hl.
Qed.

(** ** Trimming *)
Definition later (tm : Z) ts : list Z := filter (λ t', (tm < t')%Z) ts.

(** Only the requests later than [tm] stay, and only the applications that
    have one. *)
Definition spec_trim (tm : Z) (h : gmap string (list Z)) : gmap string (list Z) :=
  omap (λ ts, match later tm ts with [] => None | ts' => Some ts' end) h.

Lemma spec_trim_lookup tm h app :
  spec_trim tm h !! app = h !! app ≫= λ ts, match later tm ts with [] => None | ts' => Some ts' end.
Proof. unfold spec_trim. by rewrite lookup_omap. Qed.

Lemma later_twice tm ts : later tm (later tm ts) = later tm ts.
Proof. apply list_filter_id. by intros x [? _]%list_elem_of_filter. Qed.

(** Trimming one application first changes nothing. *)
Lemma spec_trim_insert tm h app ts :
  h !! app = Some ts → spec_trim tm (<[app := later tm ts]> h) = spec_trim tm h.
Proof.
  intros Hh. apply map_eq. intros app'. rewrite !spec_trim_lookup, lookup_insert.
  case_decide as Hd; [subst app'; rewrite Hh; cbn; by rewrite later_twice|done].
Qed.

Lemma spec_trim_delete tm h app ts :
  h !! app = Some ts → later tm ts = [] → spec_trim tm (delete app h) = spec_trim tm h.
Proof.
  intros Hh Hl. apply map_eq. intros app'. rewrite !spec_trim_lookup, lookup_delete.
  case_decide as Hd; [subst app'; rewrite Hh; cbn; by rewrite Hl|done].
Qed.

Lemma spec_trim_id tm h :
  (∀ app ts, h !! app = Some ts → ts ≠ [] ∧ ∀ t', t' ∈ ts → (tm < t')%Z) → spec_trim tm h = h.
Proof.
  intros Hh. apply map_eq. intros app. rewrite spec_trim_lookup.
  destruct (h !! app) as [ts|] eqn:E; [|done]. cbn. destruct (Hh app ts E) as [Hne Hts].
  unfold later. rewrite list_filter_id by done. by destruct ts.
Qed.

Lemma entry_Trim_ok c tm y :
  entry_ok c (view y) → (c < 2 ^ 63)%Z →
  ∃ sl, view (entry_Trim tm y) = (sl, total sl, AppId y) ∧ ok_slots sl ∧ (total sl ≤ c)%Z ∧
    expand sl = later tm (expand (slots y)) ∧ ∀ s, head sl = Some s → (tm < s_t s)%Z.
Proof.
  intros (_ & Hok & Htot & Hc) Hmax. cbn in *. pose proof (total_nonneg _ (proj2 Hok)) as Hnn.
  unfold entry_Trim. destruct (collect_ok tm 0 (slots y) (proj2 Hok)) as (old & sl & E & Hsl & Hold & Hhd); [lia..|].
  rewrite E. exists sl. rewrite Hsl in *. destruct (ok_slots_app _ _ Hok) as [Hok1 Hok2].
  rewrite total_app in *. pose proof (total_nonneg _ (proj2 Hok1)). pose proof (total_nonneg _ (proj2 Hok2)).
  split_and!; [|done|lia| |done].
  - cbn. f_equal. f_equal. rewrite wrap64_id by (unfold fits64; lia). lia.
  - unfold later. by rewrite expand_split.
Qed.

(** The entries whose first slot is not later than [tm]. *)
Definition is_old (tm : Z) (d : data) : bool :=
  match d.1.1 with [] => false | s :: _ => (s_t s <=? tm)%Z end.

Definition old_entries (tm : Z) (x : TopApps) : gmap string data :=
  filter (λ kv, is_old tm kv.2 = true) (contents (m x) (entries x)).

Lemma table_size c x : wf c x → size (contents (m x) (entries x)) = length (t x).
Proof.
  intros Hwf. pose proof (table_to_list _ (λ a _, a) (λ l, default ([], 0%Z, EmptyString) (view <$> entries x !! l))
    _ _ _ _ _ _ Hwf) as Hp.
  rewrite <-length_map_to_list. rewrite <-(length_fmap (λ '(app, v), app) (map_to_list _)), <-Hp, length_fmap; [done|].
  intros l Hl. destruct (table_member _ _ _ _ _ _ _ _ Hwf Hl) as (e & -> & _). done.
Qed.

(** The second half of a turn: the entry goes back into both heaps. *)
Lemma push_both_ok c mm en nx ht hn app l e :
  opened (HP := top_heaps) snd (entry_ok c) mm en nx ht hn app l →
  AppId e = app → entry_ok c (view e) →
  ∃ x', push_both (<[l := e]> en) ht hn l mm nx = Ok x' ∧ wf c x' ∧
    contents (m x') (entries x') = <[app := view e]> (contents mm en).
Proof.
  intros Hop Happ Hok.
  destruct (table_close _ _ _ _ _ _ _ _ _ e Hop) as (en1 & a' & en2 & b' & H1 & H2 & Ht & _ & Hc);
    [done|done|by eapply entry_ok_key|by eauto|].
  unfold push_both. rewrite H1. cbn [rbind]. rewrite H2. cbn [rbind]. eauto.
Qed.

Lemma history_lookup x app d :
  contents (m x) (entries x) !! app = Some d → history x !! app = Some (expand d.1.1).
Proof. intros Hd. unfold history. by rewrite lookup_fmap, Hd. Qed.

(** The start of a turn: the entry with the earliest first slot leaves both
    heaps. *)
Lemma trim_pop c x :
  wf c x → t x ≠ [] →
  ∃ en1 ht u eu en2 hn e2, heap_Pop (HT := byFirstMarkTimeHeap) (entries x, t x) = Ok (en1, ht, u) ∧
    en1 !! u = Some eu ∧ heap_Remove (HT := byRequestsHeap) (en1, n x) (ni eu) = Ok (en2, hn, u) ∧
    en2 !! u = Some e2 ∧ entry_ok c (view e2) ∧
    opened (HP := top_heaps) snd (entry_ok c) (m x) en2 (next x) ht hn (AppId e2) u ∧
    contents (m x) en2 = contents (m x) (entries x) ∧
    contents (m x) (entries x) !! AppId e2 = Some (view e2) ∧
    (∀ app d s s', contents (m x) (entries x) !! app = Some d → head d.1.1 = Some s →
       head (slots e2) = Some s' → (s_t s' ≤ s_t s)%Z).
Proof.
  intros Hwf Hne. pose proof Hwf as (Hb & _).
  destruct (first_pop (HP := top_heaps) _ _ _ Hb Hne) as (en1 & ht & u & H1 & Hat1 & Hat2 & Hp & Hv & Hmin & _).
  assert (u ∈ t x) as Hu by (rewrite Hp; by left). destruct Hb as (_ & _ & Hab).
  destruct (table_member _ _ _ _ _ _ _ _ Hwf Hu) as (e & He & Hok & Hme & Hce).
  destruct (same_view_lookup _ _ _ _ Hv He) as (eu & Heu & Hvu).
  destruct (second_remove (HP := top_heaps) en1 ht (n x) u eu) as (en2 & hn & H2 & Hb2 & Hv2);
    [done..|by rewrite <-Hab|done|]. cbn in H2.
  destruct (same_view_lookup _ _ _ _ Hv2 Heu) as (e2 & He2 & Hv2').
  assert (same_view (HP := top_heaps) (entries x) en2) as Hv' by by etrans.
  rewrite Hvu in Hv2'. exists en1, ht, u, eu, en2, hn, e2. rewrite Hv2'.
  injection Hv2' as Hs2 Hn2 Ha2. rewrite Ha2, Hs2. split_and!; try done.
  - by eapply table_open.
  - by apply contents_same_view.
  - intros app d s s' Hd Hs Hs'.
    destruct (table_contents _ _ _ _ _ _ _ _ _ Hwf Hd) as (_ & _ & l & e' & _ & He' & <- & Hl).
    specialize (Hmin l Hl). unfold key_of in Hmin. rewrite He, He' in Hmin. cbn in Hmin, Hs.
    rewrite Hs, Hs' in Hmin. done.
Qed.

(** One old entry fewer. *)
Lemma old_entries_less tm x c' app d :
  contents (m x) (entries x) !! app = Some d → is_old tm d = true →
  filter (λ kv, is_old tm kv.2 = true) c' = delete app (old_entries tm x) →
  size (filter (λ kv, is_old tm kv.2 = true) c') < size (old_entries tm x).
Proof.
  intros Hd Hold ->. assert (old_entries tm x !! app = Some d) as Ho by by apply map_lookup_filter_Some.
  rewrite map_size_delete_Some by eauto. assert (size (old_entries tm x) ≠ 0); [|lia].
  intros E%map_size_empty_inv. rewrite E in Ho. by rewrite lookup_empty in Ho.
Qed.

(** When the first slot of every application is young there is nothing to
    trim. *)
Lemma young_history c tm x :
  wf c x → (∀ app d s1, contents (m x) (entries x) !! app = Some d → head d.1.1 = Some s1 → (tm < s_t s1)%Z) →
  spec_trim tm (history x) = history x.
Proof.
  intros Hwf Hmin. apply spec_trim_id. intros app ts Hts. unfold history in Hts. rewrite lookup_fmap in Hts.
  apply fmap_Some in Hts as (d & Hd & ->). destruct (table_contents _ _ _ _ _ _ _ _ _ Hwf Hd) as ((Hne & Hsl & _) & _).
  destruct d.1.1 as [|s1 sl1] eqn:Ed; [done|]. specialize (Hmin app d s1 Hd). rewrite Ed in Hmin.
  specialize (Hmin eq_refl). destruct Hsl as [Hso Hpo]. split.
  - intros E. pose proof (proj2 (elem_of_expand (s1 :: sl1) (s_t s1) Hpo)) as Hin.
    rewrite E in Hin. apply elem_of_nil in Hin; [done|]. exists s1. split; [by left|done].
  - intros t' (s & Hs & <-)%elem_of_expand; [|done]. apply StronglySorted_cons in Hso as [Hs1 _].
    rewrite Forall_forall in Hs1. apply elem_of_cons in Hs as [->|Hs]; [lia|]. specialize (Hs1 s Hs). lia.
Qed.

Lemma top_trim_loop_ok fuel c tm x :
  wf c x → (c < 2 ^ 63)%Z → size (old_entries tm x) < fuel →
  ∃ x', trim_loop fuel tm x = Ok x' ∧ wf c x' ∧ history x' = spec_trim tm (history x).
Proof.
  intros Hwf Hmax. revert x Hwf. induction fuel as [|fuel IH]; intros x Hwf Hf; [lia|].
  cbn [trim_loop]. unfold Len. destruct (Nat.ltb_spec 0 (length (t x))) as [Hlen|Hlen].
  2: { exists x. split_and!; [done..|]. assert (contents (m x) (entries x) = ∅) as Hc.
       { apply map_size_empty_inv. rewrite (table_size c) by done. lia. }
       unfold history. rewrite Hc. by rewrite fmap_empty. }
  destruct (trim_pop c x Hwf) as (en1 & ht & u & eu & en2 & hn & e2 & -> & Heu & H2 & He2 & Hok & Hop & Hcs & Hce & Hmin);
    [intros E; rewrite E in Hlen; cbn in Hlen; lia|].
  cbn [rbind]. unfold deref. rewrite Heu. cbn [rbind]. rewrite H2. cbn [rbind].
  unfold same_pointer. rewrite Nat.eqb_refl. cbn [rbind]. rewrite He2. cbn [rbind]. unfold first_slot.
  destruct (slots e2) as [|s0 sl0] eqn:Esl; [by destruct Hok as [? _]; cbn in *|]. cbn [rbind].
  destruct (Z.ltb_spec tm (s_t s0)) as [Hlt|Hge].
  - destruct (push_both_ok c (m x) en2 (next x) ht hn (AppId e2) u e2) as (x' & HP & Hwf' & Hc'); [done..|].
    rewrite insert_id in HP by done. rewrite HP. exists x'. split_and!; [done..|].
    rewrite (young_history c tm x Hwf).
    { unfold history. by rewrite Hc', Hcs, insert_id. }
    intros app d s1 Hd Hs1. specialize (Hmin app d s1 s0 Hd Hs1 eq_refl). lia.
  - destruct (entry_Trim_ok c tm e2 Hok Hmax) as (sl & Hview & Hoksl & Htot & Hexp & Hhd).
    rewrite Esl in Hexp. pose proof Hview as [= Hs3 Hn3 Ha3]. rewrite Hs3.
    assert (is_old tm (view e2) = true) as Hold.
    { unfold is_old. cbn. rewrite Esl. by apply Z.leb_le. }
    assert (history x !! AppId e2 = Some (expand (s0 :: sl0))) as Hh.
    { rewrite (history_lookup x _ _ Hce). cbn. by rewrite Esl. }
    destruct sl as [|s1 sl1]; cbn [length Nat.eqb].
    + destruct (table_drop _ _ _ _ _ _ _ _ _ (entry_Trim tm e2) Hop) as [Hwf' Hc']. rewrite Hcs in Hc'. rewrite Ha3.
      destruct (IH (mkTopApps (delete (AppId e2) (m x)) (<[u:=entry_Trim tm e2]> en2) (next x) ht hn) Hwf') as
        (x' & -> & Hwf2 & Hh2).
      { unfold old_entries at 1. cbn [m entries]. rewrite Hc'.
        pose proof (old_entries_less tm x (delete (AppId e2) (contents (m x) (entries x))) _ _ Hce Hold) as Hsz.
        rewrite map_filter_delete in Hsz |- *. specialize (Hsz eq_refl). lia. }
      exists x'. split_and!; [done..|]. rewrite Hh2. unfold history at 1. cbn [m entries].
      rewrite Hc', fmap_delete. by eapply spec_trim_delete.
    + specialize (Hhd s1 eq_refl). cbn [rbind].
      destruct (Z.leb_spec (s_t s1) tm); [lia|].
      destruct (push_both_ok c (m x) en2 (next x) ht hn (AppId e2) u (entry_Trim tm e2)) as (x1 & -> & Hwf1 & Hc1);
        [done|done|by rewrite Hview|]. cbn [rbind]. rewrite Hview, Hcs in Hc1.
      destruct (IH x1 Hwf1) as (x' & -> & Hwf2 & Hh2).
      { unfold old_entries at 1. rewrite Hc1.
        pose proof (old_entries_less tm x (<[AppId e2 := (s1 :: sl1, total (s1 :: sl1), AppId e2)]>
          (contents (m x) (entries x))) _ _ Hce Hold) as Hsz.
        rewrite map_filter_insert_False in Hsz |- * by (cbn; intros ?%Z.leb_le; lia).
        rewrite map_filter_delete in Hsz |- *. specialize (Hsz eq_refl). lia. }
      exists x'. split_and!; [done..|]. rewrite Hh2. unfold history at 1.
      rewrite Hc1, fmap_insert. cbn [fst]. rewrite Hexp. by apply spec_trim_insert.
Qed.

Lemma trim_ok c y x :
  wf c x → (c < 2 ^ 63)%Z → ∃ x', trim y x = Ok x' ∧ wf c x' ∧ history x' = spec_trim (Unix y) (history x).
Proof.
  intros Hwf Hmax. apply top_trim_loop_ok; [done..|]. unfold Len. rewrite <-(table_size c) by done.
  unfold old_entries. pose proof (map_size_filter (λ kv, is_old (Unix y) kv.2 = true) (contents (m x) (entries x))). lia.
Qed.

(** ** The top list *)
Definition top_of (en : gmap nat topAppsEntry) (l : nat) : TopAppsTopEntry :=
  match en !! l with Some z => mkTopEntry (AppId z) (requests z) | None => mkTopEntry EmptyString 0 end.

Lemma top_loop_ok fuel k en f h s :
  heap_ok (HO := requests_snapshot_order) en f h → length h < fuel →
  ∃ ls rest, TopSince_loop fuel k (en, h) s = Ok (s ++ (top_of en <$> ls)) ∧ ls ++ rest ≡ₚ h ∧
    StronglySorted (λ a b, (f a ≤ f b)%Z) ls ∧ (∀ a b, a ∈ ls → b ∈ rest → (f a ≤ f b)%Z) ∧
    length ls = Nat.min (length h) (Z.to_nat (k - Z.of_nat (length s))).
Proof.
  revert h s. induction fuel as [|fuel IH]; intros h s Hok Hf; [lia|]. cbn [TopSince_loop fst snd]. unfold Len.
  destruct (Nat.ltb_spec 0 (length h)) as [Hlen|Hlen]; cbn [andb];
    [destruct (Z.ltb_spec (Z.of_nat (length s)) k) as [Hk|Hk]|].
  - destruct (snapshot_pop_ok (HO := requests_snapshot_order) en f h) as (h' & l & e & -> & Hok' & Hp & He & _ & Hmin);
      [done|done|intros ->; cbn in Hlen; lia|]. cbn [rbind]. unfold deref. rewrite He. cbn [rbind].
    apply Permutation_length in Hp as Hl. cbn in Hl.
    destruct (IH h' (s ++ [mkTopEntry (AppId e) (requests e)]) Hok') as (ls & rest & -> & Hp' & Hs & Hlr & Hlen');
      [lia|]. exists (l :: ls), rest. split_and!.
    + rewrite <-app_assoc. cbn. unfold top_of at 2. by rewrite He.
    + cbn. by rewrite Hp', Hp.
    + constructor; [done|]. apply Forall_forall. intros x Hx. apply Hmin. rewrite Hp, <-Hp'. set_solver.
    + intros a b [->|Ha]%elem_of_cons Hb; [|by apply Hlr]. apply Hmin. rewrite Hp, <-Hp'. set_solver.
    + cbn. rewrite Hlen', length_app. cbn. lia.
  - exists [], h. rewrite app_nil_r. split_and!; [done..|constructor|set_solver|]. cbn. lia.
  - destruct h; [|cbn in Hlen; lia]. exists [], []. rewrite app_nil_r. split_and!; try done; [constructor|set_solver].
Qed.

(** [s] is a list of [k] applications with most requests, and their numbers. *)
Definition is_top (k : Z) (h : gmap string (list Z)) (s : list TopAppsTopEntry) : Prop :=
  (∃ rest, s ++ rest ≡ₚ (λ '(app, ts), mkTopEntry app (Z.of_nat (length ts))) <$> map_to_list h ∧
     ∀ a b, a ∈ s → b ∈ rest → (Requests b ≤ Requests a)%Z) ∧
  StronglySorted (λ a b, (Requests b ≤ Requests a)%Z) s ∧
  length s = Nat.min (size h) (Z.to_nat k).

Lemma top_list c x :
  wf c x →
  top_of (entries x) <$> t x ≡ₚ (λ '(app, ts), mkTopEntry app (Z.of_nat (length ts))) <$> map_to_list (history x).
Proof.
  intros Hwf. set (d := λ l, default ([], 0%Z, EmptyString) (view <$> entries x !! l)).
  pose proof (table_to_list _ (λ app (v : data), mkTopEntry app v.1.2) d _ _ _ _ _ _ Hwf) as Hp.
  unfold history. rewrite map_to_list_fmap, <-list_fmap_compose.
  rewrite (list_fmap_ext _ (λ '(app, v), mkTopEntry app v.1.2) (map_to_list (contents (m x) (entries x)))).
  - rewrite <-Hp.
    + apply reflexive_eq, list_fmap_ext. intros k l Hl%list_elem_of_lookup_2.
      destruct (table_member _ _ _ _ _ _ _ _ Hwf Hl) as (e & He & _). unfold top_of, d. by rewrite He.
    + intros l Hl. destruct (table_member _ _ _ _ _ _ _ _ Hwf Hl) as (e & He & _). unfold d. by rewrite He.
  - intros k [app v] Hk%list_elem_of_lookup_2%elem_of_map_to_list. cbn.
    destruct (table_contents _ _ _ _ _ _ _ _ _ Hwf Hk) as ((_ & [_ Hpo] & Htot & _) & _).
    by rewrite Htot, expand_length.
Qed.

Lemma top_since_ok c y k x :
  wf c x → (c < 2 ^ 63)%Z → (0 ≤ k)%Z →
  ∃ x' s, TopSince y k x = Ok (x', s) ∧ wf c x' ∧
    history x' = spec_trim (Unix (y - Second)) (history x) ∧ is_top k (history x') s.
Proof.
  intros Hwf Hmax Hk. unfold TopSince. destruct (trim_ok c (y - Second) x Hwf Hmax) as (x' & -> & Hwf' & Hh).
  cbn [rbind]. destruct (Z.ltb_spec k 0); [lia|].
  pose proof Hwf' as ((_ & (Hok & _) & Htn) & _).
  set (f := key_of (HO := requests_order) (entries x')) in *. unfold Copy.
  destruct (top_loop_ok (S (Len (n x'))) k (entries x') f (n x') [] Hok) as (ls & rest & -> & Hp & Hs & Hlr & Hlen);
    [unfold Len; lia|]. cbn [rbind app]. eexists _, _. split_and!; [done..|].
  assert (∀ l, l ∈ ls ++ rest → f l = (- Requests (top_of (entries x') l))%Z) as Hf.
  { intros l Hl. rewrite Hp in Hl. rewrite <-Htn in Hl.
    destruct (table_member _ _ _ _ _ _ _ _ Hwf' Hl) as (e & He & _). unfold f, key_of, top_of. by rewrite He. }
  split_and!.
  - exists (top_of (entries x') <$> rest). split.
    + rewrite <-fmap_app, Hp, <-Htn. by eapply top_list.
    + intros a b (l1 & -> & H1)%list_elem_of_fmap (l2 & -> & H2)%list_elem_of_fmap.
      specialize (Hlr l1 l2 H1 H2). rewrite !Hf in Hlr by set_solver. lia.
  - eapply StronglySorted_fmap; [done|]. intros a b Ha Hb Hab. cbv beta in *. rewrite !Hf in Hab by set_solver. lia.
  - rewrite length_fmap, Hlen. cbn. rewrite Z.sub_0_r. f_equal.
    unfold history. rewrite map_size_fmap, (table_size c) by done. by rewrite Htn.
Qed.

(** ** Histories of the object *)
Inductive op :=
| OpMark (app : string) (z : Z)
| OpTrim (y : Z)
| OpTick (now : Z)
| OpTop (y k : Z).

Definition step (o : op) (x : TopApps) : result TopApps :=
  match o with
  | OpMark app z => Mark app z x
  | OpTrim y => Trim y x
  | OpTick now => tick now x
  | OpTop y k => let* '(x', _) := TopSince y k x in Ok x'
  end.

Fixpoint run (ops : list op) (x : TopApps) : result TopApps :=
  match ops with
  | [] => Ok x
  | o :: ops => let* x' := step o x in run ops x'
  end.

(** The same history on the lists of request times; asking for a top list
    trims too. *)
Definition spec_step (o : op) (h : gmap string (list Z)) : gmap string (list Z) :=
  match o with
  | OpMark app z => <[app := spec_mark (Unix z) (requests_of h app)]> h
  | OpTrim y => spec_trim (Unix y) h
  | OpTick now => spec_trim (Unix (now - TopAppsEntryLifetime)) h
  | OpTop y _ => spec_trim (Unix (y - Second)) h
  end.

(** Top lists are asked for with a length that is not negative. *)
Definition asks (o : op) : Prop := match o with OpTop _ k => (0 ≤ k)%Z | _ => True end.

Lemma wf_mono c c' x : (c ≤ c')%Z → wf c x → wf c' x.
Proof. intros Hc. apply table_mono. intros d (? & ? & ? & ?). split_and!; try done. lia. Qed.

Lemma top_step_ok c o x :
  wf c x → (0 ≤ c)%Z → (c + 1 < 2 ^ 63)%Z → asks o →
  ∃ x', step o x = Ok x' ∧ wf (c + 1) x' ∧ history x' = spec_step o (history x).
Proof.
  intros Hwf Hc Hmax Ho. destruct o as [app z|y|now|y k]; cbn [step spec_step].
  - by apply top_mark_ok.
  - destruct (trim_ok c y x) as (x' & ? & ? & ?); [done|lia|]. exists x'. split_and!; try done. by eapply wf_mono; [|done]; lia.
  - destruct (trim_ok c (now - TopAppsEntryLifetime) x) as (x' & ? & ? & ?); [done|lia|]. exists x'.
    split_and!; try done. by eapply wf_mono; [|done]; lia.
  - destruct (top_since_ok c y k x) as (x' & s & -> & ? & ? & _); [done|lia|done|]. exists x'.
    split_and!; try done. by eapply wf_mono; [|done]; lia.
Qed.

Lemma top_run_ok ops c x :
  wf c x → (0 ≤ c)%Z → (c + Z.of_nat (length ops) < 2 ^ 63)%Z → Forall asks ops →
  ∃ x', run ops x = Ok x' ∧ wf (c + Z.of_nat (length ops)) x' ∧
    history x' = foldl (λ h o, spec_step o h) (history x) ops.
Proof.
  revert c x. induction ops as [|o ops IH]; intros c x Hwf Hc Hmax Ho; cbn [length run foldl] in *.
  { exists x. by rewrite Z.add_0_r. }
  apply Forall_cons in Ho as [Ho Hops].
  destruct (top_step_ok c o x Hwf) as (x1 & -> & Hwf1 & Hh); [lia..|done|]. cbn [rbind]. rewrite <-Hh.
  replace (c + Z.of_nat (S (length ops)))%Z with (c + 1 + Z.of_nat (length ops))%Z by lia.
  apply IH; [done|lia|lia|done].
Qed.

(** C6. Every sequential history of fewer than 2^63 requests, trims, ticker firings and
    top lists, from a new [TopApps], runs without reaching any of the panics
    of the source (the heap removals return the entry asked for, a time heap
    comparison never meets an entry without slots, a trimmed entry starts
    after the trim time) and leaves exactly the request times that the same
    history gives on plain lists; [TopSince] then returns the [k]
    applications with most requests since its argument, to the second, in
    decreasing order and with their exact numbers. *)
Theorem top_apps_refine ops y k :
  (Z.of_nat (length ops) < 2 ^ 63)%Z → Forall asks ops → (0 ≤ k)%Z →
  ∃ x x' s, run ops NewTopApps = Ok x ∧
    history x = foldl (λ h o, spec_step o h) ∅ ops ∧
    TopSince y k x = Ok (x', s) ∧
    history x' = spec_trim (Unix (y - Second)) (history x) ∧ is_top k (history x') s.
Proof.
  intros Hlen Hops Hk. destruct (top_run_ok ops 0 NewTopApps top_wf_new) as (x & Hrun & Hwf & Hh); [lia..|done|].
  destruct (top_since_ok _ y k x Hwf) as (x' & s & Hs & _ & Hh' & Htop); [lia|done|].
  exists x, x', s. split_and!; try done.
Qed.

Lemma top_apps_refine_witness :
  ∃ x x' s, run [OpMark "a" (5 * Second); OpMark "b" (6 * Second); OpMark "b" (7 * Second)] NewTopApps = Ok x ∧
    history x = {["a" := [5%Z]; "b" := [6%Z; 7%Z]]} ∧
    TopSince (6 * Second) 1 x = Ok (x', s) ∧
    history x' = spec_trim (Unix (6 * Second - Second)) (history x) ∧ is_top 1 (history x') s.
Proof.
  apply (top_apps_refine [OpMark "a" (5 * Second); OpMark "b" (6 * Second); OpMark "b" (7 * Second)] (6 * Second) 1);
    [by vm_compute|repeat constructor|lia].
Defined.

Example top_apps_example :
  rbind (run [OpMark "a" (5 * Second); OpMark "b" (6 * Second); OpMark "b" (7 * Second);
              OpMark "b" (6 * Second); OpMark "c" (6 * Second); OpMark "c" (8 * Second)] NewTopApps)
        (λ x, rbind (TopSince (6 * Second) 2 x) (λ '(_, s), Ok s)) =
  Ok [mkTopEntry "b" 3; mkTopEntry "c" 2].
Proof. by vm_compute. Qed.
