(* ===== verification/Varz.v ===== *)
(** varz/varz.go: the counters the controller publishes.

    An [HttpMetric] counts requests and the classes of responses; a [RealVarz]
    keeps one for all traffic and one per component tag, the counts of bad
    requests and gateways, and the two statistics of stats/.  The meter and
    the histogram of go-metrics (exponentially decaying floating-point
    averages) are parameters.  The theorems follow every history of captured
    events and show that each counter is the exact number of the events it
    is for.  VarzJson.v has the document that is made of them. *)

From Stdlib Require Import ZArith Lia.
From stdpp Require Import base list gmap strings.
From S2P Require Import Prelude Trie Pool Registry Heap HeapPair ActiveApps TopApps.

Open Scope go_scope.

(** [NewMeter]/[Mark] and [NewHistogram]/[Update] of go-metrics. *)
Class GoMetrics := {
  Meter : Type;
  NewMeter : Meter;
  Meter_Mark : Z → Meter → Meter;
  Histogram : Type;
  NewHistogram : Histogram;
  Histogram_Update : Z → Histogram → Histogram
}.

(** Meter and histogram as the plain sequences of what they were told. *)
#[export] Instance logged_metrics : GoMetrics | 100 := {
  Meter := list Z;
  NewMeter := [];
  Meter_Mark z l := l ++ [z];
  Histogram := list Z;
  NewHistogram := [];
  Histogram_Update z l := l ++ [z]
}.

(** The entry of the top list as it is published. *)
Record varzTopEntry := mkVarzTop {
  vt_ApplicationId : string;
  RequestsPerSecond : Z;
  RequestsPerMinute : Z
}.

Section varz.
Context {GM : GoMetrics}.

Record HttpMetric := mkHttpMetric {
  Requests : Z;
  Rate : Meter;
  Responses2xx : Z;
  Responses3xx : Z;
  Responses4xx : Z;
  Responses5xx : Z;
  ResponsesXxx : Z;
  Latency : Histogram
}.

Definition NewHttpMetric : HttpMetric := mkHttpMetric 0 NewMeter 0 0 0 0 0 NewHistogram.

(** [Counter.Inc(1)] *)
Definition Inc (c : Z) : Z := wrap64 (c + 1).

Definition CaptureRequest (x : HttpMetric) : HttpMetric :=
  mkHttpMetric (Inc (Requests x)) (Meter_Mark 1 (Rate x)) (Responses2xx x) (Responses3xx x) (Responses4xx x)
    (Responses5xx x) (ResponsesXxx x) (Latency x).

(** Go's division truncates towards zero. *)
Definition CaptureResponse (statusCode duration : Z) (x : HttpMetric) : HttpMetric :=
  let c := (statusCode ÷ 100)%Z in
  let upd k v := if (c =? k)%Z then Inc v else v in
  let other := if existsb (Z.eqb c) [2; 3; 4; 5]%Z then ResponsesXxx x else Inc (ResponsesXxx x) in
  mkHttpMetric (Requests x) (Rate x) (upd 2%Z (Responses2xx x)) (upd 3%Z (Responses3xx x))
    (upd 4%Z (Responses4xx x)) (upd 5%Z (Responses5xx x)) other (Histogram_Update duration (Latency x)).

(** [TaggedHttpMetric] is a Go map: metrics are made on first use. *)
Definition httpMetric (t : string) (x : gmap string HttpMetric) : HttpMetric :=
  default NewHttpMetric (x !! t).

Definition Tagged_CaptureRequest (t : string) (x : gmap string HttpMetric) : gmap string HttpMetric :=
  <[t := CaptureRequest (httpMetric t x)]> x.

Definition Tagged_CaptureResponse (t : string) (statusCode z : Z) (x : gmap string HttpMetric)
  : gmap string HttpMetric :=
  <[t := CaptureResponse statusCode z (httpMetric t x)]> x.

(** The registry is read only to publish; [x.r] is an argument of [refresh]. *)
Record RealVarz := mkVarz {
  All : HttpMetric;
  Component : gmap string HttpMetric;
  Urls : Z;
  Droplets : Z;
  BadRequests : Z;
  BadGateways : Z;
  v_TopApps : list varzTopEntry;
  MillisSinceLastRegistryUpdate : Z;
  activeApps : ActiveApps;
  topApps : TopApps
}.

Definition NewVarz : RealVarz :=
  mkVarz NewHttpMetric ∅ 0 0 0 0 [] 0 NewActiveApps NewTopApps.

Definition CaptureBadRequest (x : RealVarz) : RealVarz :=
  mkVarz (All x) (Component x) (Urls x) (Droplets x) (wrap64 (BadRequests x + 1)) (BadGateways x) (v_TopApps x)
    (MillisSinceLastRegistryUpdate x) (activeApps x) (topApps x).

Definition CaptureBadGateway (x : RealVarz) : RealVarz :=
  mkVarz (All x) (Component x) (Urls x) (Droplets x) (BadRequests x) (wrap64 (BadGateways x + 1)) (v_TopApps x)
    (MillisSinceLastRegistryUpdate x) (activeApps x) (topApps x).

Definition set_metrics (a : HttpMetric) (c : gmap string HttpMetric) (x : RealVarz) : RealVarz :=
  mkVarz a c (Urls x) (Droplets x) (BadRequests x) (BadGateways x) (v_TopApps x)
    (MillisSinceLastRegistryUpdate x) (activeApps x) (topApps x).

Definition set_stats (a : ActiveApps) (p : TopApps) (x : RealVarz) : RealVarz :=
  mkVarz (All x) (Component x) (Urls x) (Droplets x) (BadRequests x) (BadGateways x) (v_TopApps x)
    (MillisSinceLastRegistryUpdate x) a p.

Definition CaptureAppStats (b : Endpoint) (t : Z) (x : RealVarz) : result RealVarz :=
  if decide (Pool.ApplicationId b = EmptyString) then Ok x
  else
    let* a := ActiveApps.Mark (Pool.ApplicationId b) t (activeApps x) in
    let* p := TopApps.Mark (Pool.ApplicationId b) t (topApps x) in
    Ok (set_stats a p x).

Definition CaptureRoutingRequest (b : Endpoint) (x : RealVarz) : RealVarz :=
  let c := match Tags b !! "component" with
           | Some t => Tagged_CaptureRequest t (Component x)
           | None => Component x
           end in
  set_metrics (CaptureRequest (All x)) c x.

Definition CaptureRoutingResponseLatency (endpoint : Endpoint) (statusCode startedAt duration : Z) (x : RealVarz)
  : result RealVarz :=
  let c := match Tags endpoint !! "component" with
           | Some tags => Tagged_CaptureResponse tags statusCode duration (Component x)
           | None => Component x
           end in
  let* x' := CaptureAppStats endpoint startedAt (set_metrics (All x) c x) in
  Ok (set_metrics (CaptureResponse statusCode duration (All x')) (Component x') x').

Definition updateTop (now : Z) (x : RealVarz) : result RealVarz :=
  let* '(p, y) := TopSince (now - 60 * Second) 10 (topApps x) in
  let top := (λ z, mkVarzTop (TopApps.ApplicationId z)
                (TopApps.Requests z ÷ (TopAppsEntryLifetime ÷ Second))%Z (TopApps.Requests z)) <$> y in
  Ok (mkVarz (All x) (Component x) (Urls x) (Droplets x) (BadRequests x) (BadGateways x) top
        (MillisSinceLastRegistryUpdate x) (activeApps x) p).

(** What [MarshalJSON] computes before it encodes. *)
Definition refresh (r : RouteRegistry) (now : Z) (x : RealVarz) : result RealVarz :=
  updateTop now
    (mkVarz (All x) (Component x) (Z.of_nat (NumUris r)) (Z.of_nat (NumEndpoints r)) (BadRequests x)
       (BadGateways x) (v_TopApps x) ((now - TimeOfLastUpdate r) ÷ 1000000)%Z (activeApps x) (topApps x)).

(** ** Histories *)
Inductive event :=
| EvBadRequest
| EvBadGateway
| EvRequest (b : Endpoint)
| EvResponse (b : Endpoint) (statusCode startedAt duration : Z).

Definition capture (e : event) (x : RealVarz) : result RealVarz :=
  match e with
  | EvBadRequest => Ok (CaptureBadRequest x)
  | EvBadGateway => Ok (CaptureBadGateway x)
  | EvRequest b => Ok (CaptureRoutingRequest b x)
  | EvResponse b c s d => CaptureRoutingResponseLatency b c s d x
  end.

Fixpoint capture_all (evs : list event) (x : RealVarz) : result RealVarz :=
  match evs with
  | [] => Ok x
  | e :: evs => let* x' := capture e x in capture_all evs x'
  end.

(** Numbers of events. *)
Definition tally (p : event → bool) (evs : list event) : Z := Z.of_nat (length (filter (λ e, p e = true) evs)).

Definition is_request (e : event) : bool := match e with EvRequest _ => true | _ => false end.
Definition is_bad_request (e : event) : bool := match e with EvBadRequest => true | _ => false end.
Definition is_bad_gateway (e : event) : bool := match e with EvBadGateway => true | _ => false end.

(** A response with a status code from [lo] to [hi]. *)
Definition is_response (lo hi : Z) (e : event) : bool :=
  match e with EvResponse _ c _ _ => (lo <=? c)%Z && (c <=? hi)%Z | _ => false end.

Definition is_other_response (e : event) : bool :=
  match e with EvResponse _ c _ _ => (c <? 200)%Z || (599 <? c)%Z | _ => false end.

Definition endpoint_of (e : event) : option Endpoint :=
  match e with EvRequest b | EvResponse b _ _ _ => Some b | _ => None end.

(** The events of endpoints with the component tag [t]. *)
Definition tagged (t : string) (e : event) : Prop := (endpoint_of e ≫= λ b, Tags b !! "component") = Some t.

#[global] Instance tagged_dec t e : Decision (tagged t e).
Proof. unfold tagged. apply _. Defined.

(** The requests that reach the statistics: those of responses with an
    application. *)
Definition app_marks (e : event) : list (string * Z) :=
  match e with
  | EvResponse b _ s _ => if decide (Pool.ApplicationId b = EmptyString) then [] else [(Pool.ApplicationId b, s)]
  | _ => []
  end.

(** The counters of [x] are the numbers of the events. *)
Definition counts (evs : list event) (x : HttpMetric) : Prop :=
  Requests x = tally is_request evs ∧
  Responses2xx x = tally (is_response 200 299) evs ∧
  Responses3xx x = tally (is_response 300 399) evs ∧
  Responses4xx x = tally (is_response 400 499) evs ∧
  Responses5xx x = tally (is_response 500 599) evs ∧
  ResponsesXxx x = tally is_other_response evs.

Lemma tally_snoc p evs e : tally p (evs ++ [e]) = (tally p evs + if p e then 1 else 0)%Z.
Proof.
  unfold tally. rewrite filter_app, length_app, filter_cons. destruct (decide (p e = true)) as [->|Hn]; cbn; [lia|].
  destruct (p e); [done|]. lia.
Qed.

Lemma tally_bound p evs : (0 ≤ tally p evs ≤ Z.of_nat (length evs))%Z.
Proof. unfold tally. pose proof (length_filter (λ e, p e = true) evs). lia. Qed.

Lemma Inc_small c n : (0 ≤ c ≤ n)%Z → (n + 1 < 2 ^ 63)%Z → Inc c = (c + 1)%Z.
Proof. intros. apply wrap64_id. unfold fits64. lia. Qed.

(** The class of a status code, as the switch sees it. *)
Lemma status_class c k : (0 < k)%Z → (c ÷ 100 =? k)%Z = (100 * k <=? c)%Z && (c <=? 100 * k + 99)%Z.
Proof.
  intros Hk. assert ((c ÷ 100)%Z = k ↔ (100 * k ≤ c ≤ 100 * k + 99)%Z) as Hiff.
  { pose proof (Z.quot_rem' c 100) as Hq. destruct (Z_lt_le_dec c 0) as [Hc|Hc].
    - assert (- (100) < Z.rem c 100 ≤ 0)%Z by (apply Z.rem_bound_pos_neg; lia). lia.
    - assert (0 <= Z.rem c 100 < 100)%Z by (apply Z.rem_bound_pos; lia). lia. }
  destruct (Z.eqb_spec (c ÷ 100) k) as [Hc|Hc]; symmetry.
  - apply andb_true_iff. rewrite !Z.leb_le. by apply Hiff.
  - apply andb_false_iff. rewrite !Z.leb_gt. lia.
Qed.

(** An event that is neither a request nor a response leaves a metric alone. *)
Lemma counts_skip evs e x : endpoint_of e = None → counts evs x → counts (evs ++ [e]) x.
Proof. destruct e; try done; intros _ Hc; unfold counts; rewrite !tally_snoc; cbn; rewrite !Z.add_0_r; done. Qed.

Lemma counts_request evs b x :
  (Z.of_nat (length evs) + 1 < 2 ^ 63)%Z → counts evs x → counts (evs ++ [EvRequest b]) (CaptureRequest x).
Proof.
  intros Hl (H1 & H2). unfold counts. rewrite !tally_snoc. cbn. rewrite !Z.add_0_r. split; [|done].
  rewrite H1. eapply Inc_small; [apply tally_bound|done].
Qed.

Lemma counts_response evs b c s d x :
  (Z.of_nat (length evs) + 1 < 2 ^ 63)%Z → counts evs x →
  counts (evs ++ [EvResponse b c s d]) (CaptureResponse c d x).
Proof.
  intros Hl (H1 & H2 & H3 & H4 & H5 & H6). unfold counts. rewrite !tally_snoc.
  assert (∀ p v, v = tally p evs → Inc v = (tally p evs + 1)%Z) as HInc.
  { intros p v ->. eapply Inc_small; [apply tally_bound|done]. }
  cbn -[Z.add Z.leb Z.ltb Z.mul Z.quot Z.eqb]. rewrite !status_class by lia. cbn -[Z.add Z.leb Z.ltb].
  split_and!; [lia|destruct ((_ <=? c)%Z && _); [by apply HInc|lia]..|].
  destruct (Z.ltb_spec c 200), (Z.ltb_spec 599 c); cbn [orb];
    repeat match goal with |- context [(?a <=? ?b)%Z] => destruct (Z.leb_spec a b); try lia end;
    cbn [andb orb]; try lia; by apply HInc.
Qed.

(** The metric of each component tag is for the events with that tag. *)
Definition tag_counts (evs : list event) (c : gmap string HttpMetric) : Prop :=
  ∀ t, match c !! t with
       | Some y => counts (filter (tagged t) evs) y ∧ filter (tagged t) evs ≠ []
       | None => filter (tagged t) evs = []
       end.

Lemma tag_counts_skip evs e c :
  (endpoint_of e ≫= λ b, Tags b !! "component") = None → tag_counts evs c → tag_counts (evs ++ [e]) c.
Proof.
  intros He Hc t. specialize (Hc t). rewrite filter_app, filter_cons_False, app_nil_r; [done|].
  unfold tagged. by rewrite He.
Qed.

Lemma counts_nil : counts [] NewHttpMetric.
Proof. done. Qed.

(** [f] is what the event does to the metric of its tag. *)
Lemma tag_counts_update evs e t c f :
  tagged t e → (∀ y, counts (filter (tagged t) evs) y → counts (filter (tagged t) evs ++ [e]) (f y)) →
  tag_counts evs c → tag_counts (evs ++ [e]) (<[t := f (httpMetric t c)]> c).
Proof.
  intros Ht Hf Hc t'. rewrite filter_app, filter_cons. cbn. rewrite lookup_insert. case_decide as Hd.
  - subst t'. rewrite decide_True by done. split; [|by destruct (filter _ evs)]. apply Hf.
    specialize (Hc t). unfold httpMetric. destruct (c !! t) as [y|]; [apply Hc|]. rewrite Hc. apply counts_nil.
  - rewrite decide_False; [rewrite app_nil_r; apply Hc|]. intros Ht'. unfold tagged in *. congruence.
Qed.

Definition marks (evs : list event) : list (string * Z) := evs ≫= app_marks.

(** All the counters at once. *)
Definition varz_counts (evs : list event) (x : RealVarz) : Prop :=
  BadRequests x = tally is_bad_request evs ∧ BadGateways x = tally is_bad_gateway evs ∧
  counts evs (All x) ∧ tag_counts evs (Component x) ∧
  active (activeApps x) = foldl (λ s '(app, z), ActiveApps.spec_step (ActiveApps.OpMark app z) s) ∅ (marks evs) ∧
  history (topApps x) = foldl (λ s '(app, z), TopApps.spec_step (TopApps.OpMark app z) s) ∅ (marks evs).

Definition varz_ok (evs : list event) (x : RealVarz) : Prop :=
  varz_counts evs x ∧ ActiveApps.wf (activeApps x) ∧ TopApps.wf (Z.of_nat (length evs)) (topApps x).

Lemma varz_ok_new : varz_ok [] NewVarz.
Proof. split_and!; [split_and!; done|apply ActiveApps.active_wf_new|apply TopApps.top_wf_new]. Qed.

Lemma marks_snoc evs e : marks (evs ++ [e]) = marks evs ++ app_marks e.
Proof. unfold marks. rewrite bind_app. cbn. by rewrite app_nil_r. Qed.

Lemma length_tagged evs t : length (filter (tagged t) evs) ≤ length evs.
Proof. apply length_filter. Qed.

Lemma CaptureAppStats_ok n b t x :
  ActiveApps.wf (activeApps x) → TopApps.wf n (topApps x) → (0 ≤ n)%Z → (n + 1 < 2 ^ 63)%Z →
  ∃ a p, CaptureAppStats b t x = Ok (set_stats a p x) ∧ ActiveApps.wf a ∧ TopApps.wf (n + 1) p ∧
    active a = foldl (λ s '(app, z), ActiveApps.spec_step (ActiveApps.OpMark app z) s)
      (active (activeApps x)) (app_marks (EvResponse b 0 t 0)) ∧
    history p = foldl (λ s '(app, z), TopApps.spec_step (TopApps.OpMark app z) s)
      (history (topApps x)) (app_marks (EvResponse b 0 t 0)).
Proof.
  intros Ha Hp Hn Hmax. unfold CaptureAppStats. cbn [app_marks]. case_decide as Hd.
  - exists (activeApps x), (topApps x). split_and!; try done; [by destruct x|].
    by eapply TopApps.wf_mono; [|done]; lia.
  - destruct (ActiveApps.active_mark_ok (Pool.ApplicationId b) t _ Ha) as (a & -> & Ha' & Hact).
    destruct (TopApps.top_mark_ok n (Pool.ApplicationId b) t _ Hp) as (p & -> & Hp' & Hh); [done..|].
    cbn [rbind]. by exists a, p.
Qed.

Ltac varz_proj :=
  unfold CaptureRoutingRequest, CaptureBadRequest, CaptureBadGateway, set_metrics, set_stats in *;
  cbn [All Component BadRequests BadGateways activeApps topApps] in *.

Lemma capture_ok evs e x :
  varz_ok evs x → (Z.of_nat (length evs) + 1 < 2 ^ 63)%Z →
  ∃ x', capture e x = Ok x' ∧ varz_ok (evs ++ [e]) x'.
Proof.
  intros ((Hbr & Hbg & Hall & Htag & Hact & Hh) & Ha & Hp) Hmax.
  assert (∀ t, (Z.of_nat (length (filter (tagged t) evs)) + 1 < 2 ^ 63)%Z) as Hmax'.
  { intros t. pose proof (length_tagged evs t). lia. }
  assert (TopApps.wf (Z.of_nat (length (evs ++ [e]))) (topApps x)) as Hp'.
  { eapply TopApps.wf_mono; [|done]. rewrite length_app. lia. }
  unfold varz_ok, varz_counts. rewrite !tally_snoc, marks_snoc, !foldl_app.
  destruct e as [| |b|b c s d]; cbn [capture is_bad_request is_bad_gateway app_marks foldl];
    rewrite ?Z.add_0_r, <-?Hact, <-?Hh.
  - eexists. split; [done|]. varz_proj. split_and!; try done; [|by apply counts_skip|by apply tag_counts_skip].
    rewrite Hbr. eapply Inc_small; [apply tally_bound|done].
  - eexists. split; [done|]. varz_proj. split_and!; try done; [|by apply counts_skip|by apply tag_counts_skip].
    rewrite Hbg. eapply Inc_small; [apply tally_bound|done].
  - eexists. split; [done|]. varz_proj. split_and!; try done; [by apply counts_request|].
    destruct (Tags b !! "component") as [t|] eqn:Et; [|by apply tag_counts_skip].
    apply tag_counts_update; [done|by intros; apply counts_request|done].
  - unfold CaptureRoutingResponseLatency.
    match goal with |- context [set_metrics (All x) ?c x] => set (c' := c) end.
    destruct (CaptureAppStats_ok (Z.of_nat (length evs)) b s (set_metrics (All x) c' x)) as
      (a & p & -> & Ha2 & Hp2 & Hact2 & Hh2); [done|done|lia|done|].
    cbn [rbind]. eexists. split; [done|]. varz_proj. cbn [app_marks] in Hact2, Hh2. varz_proj.
    split_and!; try done; [by apply counts_response| |by rewrite length_app, Nat2Z.inj_add].
    subst c'. destruct (Tags b !! "component") as [t|] eqn:Et; [|by apply tag_counts_skip].
    apply tag_counts_update; [done|by intros; apply counts_response|done].
Qed.

Lemma capture_all_ok evs evs' x :
  varz_ok evs x → (Z.of_nat (length (evs ++ evs')) < 2 ^ 63)%Z →
  ∃ x', capture_all evs' x = Ok x' ∧ varz_ok (evs ++ evs') x'.
Proof.
  revert evs x. induction evs' as [|e evs' IH]; intros evs x Hok Hmax; cbn [capture_all].
  { exists x. by rewrite app_nil_r. }
  rewrite length_app in Hmax. cbn in Hmax.
  destruct (capture_ok evs e x Hok) as (x1 & -> & Hok1); [lia|]. cbn [rbind].
  replace (evs ++ e :: evs') with ((evs ++ [e]) ++ evs') by by rewrite <-app_assoc.
  apply IH; [done|]. rewrite !length_app. cbn. lia.
Qed.

(** After any history of fewer than 2^63 captured events, none of which
    panics, every published counter is exact: requests, responses by class
    (a class holds the codes from 100 k to 100 k + 99, everything else,
    negative codes included, is "xxx"), bad requests and gateways; each
    component tag has a metric exactly if an event had the tag, with the
    numbers of its events; and the statistics of the applications have seen
    exactly the responses of endpoints with an application. *)
Theorem varz_counts_exact evs :
  (Z.of_nat (length evs) < 2 ^ 63)%Z →
  ∃ x, capture_all evs NewVarz = Ok x ∧ varz_counts evs x.
Proof.
  intros Hlen. destruct (capture_all_ok [] evs NewVarz varz_ok_new Hlen) as (x & Hx & Hok & _). by exists x.
Qed.

(** The published top list: the ten applications with most requests of the
    last minute, with their requests per minute and, rounded down, per
    second. *)
Theorem update_top_exact evs now x :
  varz_ok evs x → (Z.of_nat (length evs) < 2 ^ 63)%Z →
  ∃ x' s, updateTop now x = Ok x' ∧
    is_top 10 (spec_trim (Unix (now - 61 * Second)) (history (topApps x))) s ∧
    v_TopApps x' = (λ z, mkVarzTop (TopApps.ApplicationId z) (TopApps.Requests z / 60)%Z (TopApps.Requests z)) <$> s.
Proof.
  intros (_ & _ & Hp) Hlen. unfold updateTop.
  destruct (top_since_ok _ (now - 60 * Second) 10 _ Hp) as (p & s & -> & _ & Hh & Htop); [done|lia|].
  cbn [rbind]. eexists _, s. split; [done|]. rewrite Hh in Htop.
  replace (now - 60 * Second - Second)%Z with (now - 61 * Second)%Z in Htop by lia. split; [done|]. cbn.
  apply list_fmap_ext. intros i z Hz%list_elem_of_lookup_2. f_equal. cbn.
  change (TopAppsEntryLifetime ÷ Second)%Z with 60%Z. apply Z.quot_div_nonneg; [|lia].
  destruct Htop as ((rest & Hperm & _) & _).
  assert (z ∈ s ++ rest) as Hin by (apply elem_of_app; by left). rewrite Hperm in Hin.
  apply list_elem_of_fmap in Hin as ([app ts] & -> & _). cbn. lia.
Qed.
End varz.

Lemma varz_counts_exact_witness :
  ∃ x, capture_all [EvBadRequest; EvResponse (NewEndpoint 0 "app" "10.0.0.1" 80 "" "" {["component" := "web"]} 30 ""
         (mkTag "" 0)) 404 Second 5] NewVarz = Ok x ∧
    varz_counts [EvBadRequest; EvResponse (NewEndpoint 0 "app" "10.0.0.1" 80 "" "" {["component" := "web"]} 30 ""
         (mkTag "" 0)) 404 Second 5] x.
Proof. apply varz_counts_exact. by vm_compute. Defined.
