(* ===== verification/Metrics.v ===== *)
(** metrics/: the reporters, and common/schema/log_counter.go.

    [MetricsReporter] turns captured events into calls of dropsonde's metric
    sender and batcher, libraries the model keeps as the sequence of calls
    made to them.  [CompositeReporter] forwards each event to the varz
    counters and to the metrics.  The theorems show that the two agree: what
    the batcher was told to count is what the varz counters show. *)

From Stdlib Require Import ZArith Lia Ascii.
From stdpp Require Import base list gmap strings.
From S2P Require Import Prelude GoStrings Pool Heap HeapPair ActiveApps TopApps Varz.

Open Scope go_scope.

(** A call of the sender or the batcher.  Values are the integers the source
    converts to float64. *)
Inductive metric_call :=
| BatchIncrementCounter (name : string)
| IncrementCounter (name : string)
| SendValue (name : string) (value : Z) (unit_ : string).

#[global] Instance metric_call_eq_dec : EqDecision metric_call.
Proof. solve_decision. Defined.

Definition getResponseCounterName (statusCode : Z) : string :=
  let c := (statusCode ÷ 100)%Z in
  if (2 <=? c)%Z && (c <=? 5)%Z then Itoa c +:+ "xx" else "xxx".

(** [MetricsReporter]'s methods: the calls each makes, in order. *)
Definition m_CaptureBadRequest : list metric_call := [BatchIncrementCounter "rejected_requests"].
Definition m_CaptureBadGateway : list metric_call := [BatchIncrementCounter "bad_gateways"].

Definition m_CaptureRoutingRequest (b : Endpoint) : list metric_call :=
  BatchIncrementCounter "total_requests" ::
  match Tags b !! "component" with
  | Some componentName =>
      if decide (componentName = EmptyString) then []
      else BatchIncrementCounter ("requests." +:+ componentName) ::
           (if HasPrefix componentName "dea-" then [BatchIncrementCounter "routed_app_requests"] else [])
  | None => []
  end.

(** [res] is nil when the route service did not answer. *)
Definition m_CaptureRouteServiceResponse (res : option Z) : list metric_call :=
  let statusCode := default 0%Z res in
  [BatchIncrementCounter ("responses.route_services." +:+ getResponseCounterName statusCode);
   BatchIncrementCounter "responses.route_services"].

Definition m_CaptureRoutingResponse (statusCode : Z) : list metric_call :=
  [BatchIncrementCounter ("responses." +:+ getResponseCounterName statusCode); BatchIncrementCounter "responses"].

Definition m_CaptureRoutingResponseLatency (b : Endpoint) (d : Z) : list metric_call :=
  let latency := (d ÷ 1000000)%Z in
  SendValue "latency" latency "ms" ::
  match Tags b !! "component" with
  | Some componentName =>
      if decide (componentName = EmptyString) then [] else [SendValue ("latency." +:+ componentName) latency "ms"]
  | None => []
  end.

Definition m_CaptureLookupTime (t : Z) : list metric_call := [SendValue "route_lookup_time" t "ns"].

Definition m_CaptureRouteStats (totalRoutes msSinceLastUpdate : Z) : list metric_call :=
  [SendValue "total_routes" totalRoutes ""; SendValue "ms_since_last_registry_update" msSinceLastUpdate "ms"].

Definition m_CaptureRegistryMessage (component : string) : list metric_call :=
  [IncrementCounter (if decide (component = EmptyString) then "registry_message"
                     else "registry_message." +:+ component)].

Definition m_CaptureUnregistryMessage (component : string) : list metric_call :=
  [IncrementCounter (if decide (component = EmptyString) then "unregistry_message"
                     else "unregistry_message." +:+ component)].

Definition m_CaptureWebSocketUpdate : list metric_call := [BatchIncrementCounter "websocket_upgrades"].
Definition m_CaptureWebSocketFailure : list metric_call := [BatchIncrementCounter "websocket_failures"].

(** ** The composite reporter *)
Section composite.
Context {GM : GoMetrics}.

(** The two reporters it holds: the varz counters and the calls made so far. *)
Record CompositeReporter := mkComposite { varzReporter : RealVarz; proxyReporter : list metric_call }.

Definition NewCompositeReporter : CompositeReporter := mkComposite NewVarz [].

Definition send (calls : list metric_call) (c : CompositeReporter) : CompositeReporter :=
  mkComposite (varzReporter c) (proxyReporter c ++ calls).

Definition c_CaptureBadRequest (c : CompositeReporter) : CompositeReporter :=
  send m_CaptureBadRequest (mkComposite (CaptureBadRequest (varzReporter c)) (proxyReporter c)).

Definition c_CaptureBadGateway (c : CompositeReporter) : CompositeReporter :=
  send m_CaptureBadGateway (mkComposite (CaptureBadGateway (varzReporter c)) (proxyReporter c)).

Definition c_CaptureRoutingRequest (b : Endpoint) (c : CompositeReporter) : CompositeReporter :=
  send (m_CaptureRoutingRequest b) (mkComposite (CaptureRoutingRequest b (varzReporter c)) (proxyReporter c)).

Definition c_CaptureRouteServiceResponse (res : option Z) (c : CompositeReporter) : CompositeReporter :=
  send (m_CaptureRouteServiceResponse res) c.

Definition c_CaptureRoutingResponse (statusCode : Z) (c : CompositeReporter) : CompositeReporter :=
  send (m_CaptureRoutingResponse statusCode) c.

Definition c_CaptureRoutingResponseLatency (b : Endpoint) (statusCode t d : Z) (c : CompositeReporter)
  : result CompositeReporter :=
  let* v := CaptureRoutingResponseLatency b statusCode t d (varzReporter c) in
  Ok (send (m_CaptureRoutingResponseLatency b d) (mkComposite v (proxyReporter c))).

Definition c_CaptureWebSocketUpdate (c : CompositeReporter) : CompositeReporter := send m_CaptureWebSocketUpdate c.
Definition c_CaptureWebSocketFailure (c : CompositeReporter) : CompositeReporter := send m_CaptureWebSocketFailure c.

(** The calls of a proxy that answers requests. *)
Inductive report :=
| RBadRequest
| RBadGateway
| RRequest (b : Endpoint)
| RRouteService (res : option Z)
| RResponse (statusCode : Z)
| RLatency (b : Endpoint) (statusCode t d : Z)
| RWebSocketUpdate
| RWebSocketFailure.

Definition report_one (r : report) (c : CompositeReporter) : result CompositeReporter :=
  match r with
  | RBadRequest => Ok (c_CaptureBadRequest c)
  | RBadGateway => Ok (c_CaptureBadGateway c)
  | RRequest b => Ok (c_CaptureRoutingRequest b c)
  | RRouteService res => Ok (c_CaptureRouteServiceResponse res c)
  | RResponse code => Ok (c_CaptureRoutingResponse code c)
  | RLatency b code t d => c_CaptureRoutingResponseLatency b code t d c
  | RWebSocketUpdate => Ok (c_CaptureWebSocketUpdate c)
  | RWebSocketFailure => Ok (c_CaptureWebSocketFailure c)
  end.

Fixpoint report_all (rs : list report) (c : CompositeReporter) : result CompositeReporter :=
  match rs with
  | [] => Ok c
  | r :: rs => let* c' := report_one r c in report_all rs c'
  end.

(** What the batcher counts under a name. *)
Definition batched (name : string) (calls : list metric_call) : Z :=
  Z.of_nat (length (filter (λ x, x = BatchIncrementCounter name) calls)).

(** What reaches the varz counters, and what reaches the metrics. *)
Definition varz_event (r : report) : list event :=
  match r with
  | RBadRequest => [EvBadRequest]
  | RBadGateway => [EvBadGateway]
  | RRequest b => [EvRequest b]
  | RLatency b code t d => [EvResponse b code t d]
  | _ => []
  end.

Definition calls_of (r : report) : list metric_call :=
  match r with
  | RBadRequest => m_CaptureBadRequest
  | RBadGateway => m_CaptureBadGateway
  | RRequest b => m_CaptureRoutingRequest b
  | RRouteService res => m_CaptureRouteServiceResponse res
  | RResponse code => m_CaptureRoutingResponse code
  | RLatency b _ _ d => m_CaptureRoutingResponseLatency b d
  | RWebSocketUpdate => m_CaptureWebSocketUpdate
  | RWebSocketFailure => m_CaptureWebSocketFailure
  end.

Lemma report_one_split r c :
  report_one r c =
  rbind (capture_all (varz_event r) (varzReporter c)) (λ v, Ok (mkComposite v (proxyReporter c ++ calls_of r))).
Proof.
  destruct r as [| |b|res|code|b code t d| |]; destruct c as [v p]; cbn; try done.
  unfold c_CaptureRoutingResponseLatency. cbn.
  by destruct (CaptureRoutingResponseLatency b code t d v).
Qed.

Lemma capture_all_app evs evs' x :
  capture_all (evs ++ evs') x = rbind (capture_all evs x) (capture_all evs').
Proof.
  revert x. induction evs as [|e evs IH]; intros x; [done|]. cbn. by destruct (capture e x); cbn.
Qed.

(** A history of reports is a history of the two reporters, side by side. *)
Lemma report_all_split rs c :
  report_all rs c =
  rbind (capture_all (rs ≫= varz_event) (varzReporter c))
    (λ v, Ok (mkComposite v (proxyReporter c ++ (rs ≫= calls_of)))).
Proof.
  revert c. induction rs as [|r rs IH]; intros c; cbn [report_all mbind list_bind].
  { cbn. rewrite app_nil_r. by destruct c. }
  rewrite report_one_split, capture_all_app. destruct (capture_all (varz_event r) (varzReporter c)); cbn [rbind]; try done.
  rewrite IH. cbn [varzReporter proxyReporter]. by rewrite app_assoc.
Qed.

Lemma batched_app name l1 l2 : batched name (l1 ++ l2) = (batched name l1 + batched name l2)%Z.
Proof. unfold batched. rewrite filter_app, length_app. lia. Qed.

Lemma batched_cons name x l :
  batched name (x :: l) = ((if decide (x = BatchIncrementCounter name) then 1 else 0) + batched name l)%Z.
Proof. unfold batched. rewrite filter_cons. case_decide; cbn; lia. Qed.

Lemma batched_nil name : batched name [] = 0%Z.
Proof. done. Qed.

Lemma tally_app p evs evs' : tally p (evs ++ evs') = (tally p evs + tally p evs')%Z.
Proof. unfold tally. rewrite filter_app, length_app. lia. Qed.

(** Two counters agree on a history when they agree on each report. *)
Lemma agree_pointwise name p rs :
  (∀ r, r ∈ rs → batched name (calls_of r) = tally p (varz_event r)) →
  batched name (rs ≫= calls_of) = tally p (rs ≫= varz_event).
Proof.
  induction rs as [|r rs IH]; intros Hr; [done|]. cbn [mbind list_bind]. rewrite batched_app, tally_app.
  rewrite Hr by (by left). f_equal. apply IH. intros ??. apply Hr. by right.
Qed.

(** The requests of a component tag, none when it has no metric. *)
Definition tag_requests (x : RealVarz) (t : string) : Z := default 0%Z (Requests <$> Component x !! t).

Lemma tag_requests_tally evs x t :
  tag_counts evs (Component x) → tag_requests x t = tally (λ e, is_request e && bool_decide (tagged t e)) evs.
Proof.
  intros Hc. specialize (Hc t). unfold tag_requests.
  assert (tally is_request (filter (tagged t) evs) = tally (λ e, is_request e && bool_decide (tagged t e)) evs) as <-.
  { unfold tally. rewrite list_filter_filter. do 2 f_equal. apply list_filter_iff.
    intros e. rewrite andb_true_iff, bool_decide_eq_true. done. }
  destruct (Component x !! t) as [y|]; cbn; [by destruct Hc as [[-> _] _]|by rewrite Hc].
Qed.

(** The counters of a report under the names of interest. *)
Ltac count_report :=
  unfold m_CaptureRoutingRequest, m_CaptureRoutingResponseLatency, m_CaptureRouteServiceResponse,
    m_CaptureRoutingResponse;
  repeat (case_match || case_decide); rewrite ?batched_cons, ?batched_nil; repeat case_decide; try done.

Lemma batched_tag t r :
  t ≠ EmptyString →
  batched ("requests." +:+ t) (calls_of r) =
  tally (λ e, is_request e && bool_decide (tagged t e)) (varz_event r).
Proof.
  intros Ht. destruct r as [| |b|res|code|b code z d| |]; cbn [calls_of varz_event]; try done.
  - unfold m_CaptureRoutingRequest, tally. rewrite filter_cons. cbn [is_request andb filter list_filter].
    assert (bool_decide (tagged t (EvRequest b)) = bool_decide (Tags b !! "component" = Some t)) as ->
      by by apply bool_decide_ext.
    rewrite batched_cons, decide_False by done.
    destruct (Tags b !! "component") as [c|]; [|by rewrite bool_decide_eq_false_2].
    destruct (decide (c = t)) as [->|Hc].
    + rewrite bool_decide_eq_true_2 by done. rewrite (decide_False (P := t = _)) by done.
      rewrite batched_cons, decide_True by done. by destruct (HasPrefix t "dea-").
    + rewrite bool_decide_eq_false_2 by congruence. case_decide; [done|].
      rewrite batched_cons, decide_False; [by destruct (HasPrefix c "dea-")|]. intros [= Heq]. done.
  - unfold m_CaptureRoutingResponseLatency. count_report.
Qed.

(** A status code is counted in one class and once in all. *)
Lemma responses_classes code :
  (batched "responses.2xx" (m_CaptureRoutingResponse code) + batched "responses.3xx" (m_CaptureRoutingResponse code) +
   batched "responses.4xx" (m_CaptureRoutingResponse code) + batched "responses.5xx" (m_CaptureRoutingResponse code) +
   batched "responses.xxx" (m_CaptureRoutingResponse code))%Z = batched "responses" (m_CaptureRoutingResponse code).
Proof.
  unfold m_CaptureRoutingResponse, getResponseCounterName. set (c := (code ÷ 100)%Z).
  destruct (Z.leb_spec 2 c), (Z.leb_spec c 5); cbn [andb]; try done.
  assert (c = 2 ∨ c = 3 ∨ c = 4 ∨ c = 5)%Z as [-> | [-> | [-> | ->]]] by lia; done.
Qed.

(** Every report makes the five responses counters and the total agree. *)
Lemma responses_report r :
  (batched "responses.2xx" (calls_of r) + batched "responses.3xx" (calls_of r) +
   batched "responses.4xx" (calls_of r) + batched "responses.5xx" (calls_of r) +
   batched "responses.xxx" (calls_of r))%Z = batched "responses" (calls_of r).
Proof.
  destruct r as [| |b|res|code|b code z d| |]; cbn [calls_of]; try done; [|apply responses_classes|].
  - unfold m_CaptureRoutingRequest. destruct (Tags b !! "component") as [c|]; [|done].
    case_decide; [done|]. rewrite !batched_cons, !decide_False by done. by destruct (HasPrefix c "dea-").
  - unfold m_CaptureRoutingResponseLatency. destruct (Tags b !! "component") as [c|]; [|done].
    by case_decide.
Qed.

(** On every history of fewer than 2^63 reports the composite reporter
    does not panic and its two reporters agree: the rejected requests, bad
    gateways and requests the metrics batcher was told to count are the varz
    counters, the counter "requests.t" of every nonempty component tag [t]
    is the varz counter of that tag, and the counters of the response
    classes add up to the counter of all responses. *)
Theorem reporters_agree rs :
  (Z.of_nat (length (rs ≫= varz_event)) < 2 ^ 63)%Z →
  ∃ v calls, report_all rs NewCompositeReporter = Ok (mkComposite v calls) ∧
    batched "rejected_requests" calls = BadRequests v ∧
    batched "bad_gateways" calls = BadGateways v ∧
    batched "total_requests" calls = Requests (All v) ∧
    (∀ t, t ≠ EmptyString → batched ("requests." +:+ t) calls = tag_requests v t) ∧
    (batched "responses.2xx" calls + batched "responses.3xx" calls + batched "responses.4xx" calls +
     batched "responses.5xx" calls + batched "responses.xxx" calls)%Z = batched "responses" calls.
Proof.
  intros Hlen. rewrite report_all_split. cbn [varzReporter proxyReporter NewCompositeReporter app].
  destruct (capture_all_ok [] (rs ≫= varz_event) NewVarz varz_ok_new Hlen) as
    (v & -> & (Hbr & Hbg & (Hreq & _) & Htag & _) & _). cbn [rbind]. eexists v, _. split; [done|].
  rewrite Hbr, Hbg, Hreq. split_and!.
  - apply agree_pointwise. intros r _. destruct r as [| |b|res|code|b code z d| |]; cbn [calls_of varz_event]; try done; count_report.
  - apply agree_pointwise. intros r _. destruct r as [| |b|res|code|b code z d| |]; cbn [calls_of varz_event]; try done; count_report.
  - apply agree_pointwise. intros r _. destruct r as [| |b|res|code|b code z d| |]; cbn [calls_of varz_event]; try done; count_report.
  - intros t Ht. rewrite (tag_requests_tally _ _ _ Htag). apply agree_pointwise. intros r _. by apply batched_tag.
  - cbn [app]. clear. induction rs as [|r rs IH]; [done|]. cbn [mbind list_bind]. rewrite !batched_app.
    rewrite <-(responses_report r). lia.
Qed.
End composite.

Lemma reporters_agree_witness :
  ∃ v calls, report_all [RRequest (NewEndpoint 0 "app" "10.0.0.1" 80 "" "" {["component" := "dea-1"]} 30 ""
      (mkTag "" 0)); RResponse 404] NewCompositeReporter = Ok (mkComposite v calls) ∧
    batched "rejected_requests" calls = BadRequests v ∧
    batched "bad_gateways" calls = BadGateways v ∧
    batched "total_requests" calls = Requests (All v) ∧
    (∀ t, t ≠ EmptyString → batched ("requests." +:+ t) calls = tag_requests v t) ∧
    (batched "responses.2xx" calls + batched "responses.3xx" calls + batched "responses.4xx" calls +
     batched "responses.5xx" calls + batched "responses.xxx" calls)%Z = batched "responses" calls.
Proof. apply reporters_agree. by vm_compute. Defined.

(** ** LogCounter (common/schema/log_counter.go): log records by level *)
Record LogCounter := mkLogCounter { lc_counts : gmap string Z }.

Definition NewLogCounter : LogCounter := mkLogCounter ∅.

Definition GetCount (lc : LogCounter) (key : string) : Z := default 0%Z (lc_counts lc !! key).

Definition Log (level : Z) (lc : LogCounter) : LogCounter :=
  mkLogCounter (<[Itoa level := wrap64 (GetCount lc (Itoa level) + 1)]> (lc_counts lc)).

Lemma GetCount_Log level lc key :
  GetCount (Log level lc) key =
  if decide (Itoa level = key) then wrap64 (GetCount lc (Itoa level) + 1) else GetCount lc key.
Proof. unfold GetCount, Log. cbn. rewrite lookup_insert. by case_decide. Qed.

(** Each level is counted on its own. *)
Lemma log_counter_exact levels level :
  (Z.of_nat (length levels) < 2 ^ 63)%Z →
  GetCount (foldl (λ lc l, Log l lc) NewLogCounter levels) (Itoa level) =
  Z.of_nat (length (filter (λ l, l = level) levels)).
Proof.
  induction levels as [|l levels IH] using rev_ind; intros Hlen; [done|].
  rewrite length_app in Hlen. cbn in Hlen. rewrite foldl_snoc, filter_app, length_app, filter_cons.
  rewrite GetCount_Log. case_decide as Hd.
  - assert (l = level) as -> by (by apply (inj Itoa)). rewrite decide_True by done.
    rewrite IH by lia. cbn.
    pose proof (length_filter (λ l, l = level) levels). rewrite wrap64_id; [lia|]. unfold fits64. lia.
  - rewrite decide_False by congruence. cbn. rewrite Nat.add_0_r. apply IH. lia.
Qed.
