(* ===== verification/Duration.v ===== *)
(** common/schema/duration.go: durations as text.

    [formatDuration] writes whole seconds as days, hours, minutes and seconds;
    [UnmarshalJSON] reads that text back through [strconv.ParseInt] and
    [time.ParseDuration].  Both are written out here, floating point included
    (Rocq's specification floats, 53 bits), since [Duration.Seconds] goes
    through float64.  Calendar times ([Time]) are formatted by package time
    and are not modelled. *)

From Stdlib Require Import Ascii ZArith Lia SpecFloat.
From stdpp Require Import base list strings pretty.
From S2P Require Import Prelude GoStrings Codec Tier2.

Open Scope go_scope.
Open Scope Z_scope.

(** ** float64 *)
Definition f_add := SFadd 53 1024.
Definition f_mul := SFmul 53 1024.
Definition f_div := SFdiv 53 1024.

(** [float64(n)] *)
Definition f_of_int (n : Z) : spec_float := binary_normalize 53 1024 n 0 false.

(** [float64(n)] of an integer below 2^53, which is exact: the float with
    mantissa [n]. *)
Definition f_exact (n : Z) : spec_float :=
  match n with
  | Z0 => S754_zero false
  | Zpos p => S754_finite false p 0
  | Zneg p => S754_finite true p 0
  end.

(** [int64(x)]: towards zero. *)
Definition f_to_int (x : spec_float) : Z :=
  match x with
  | S754_finite s p e =>
      let a := if e <? 0 then Z.pos p / 2 ^ (- e) else Z.pos p * 2 ^ e in
      if s then - a else a
  | _ => 0
  end.

(** The float64 nearest to 1e-9. *)
Definition nano : spec_float := S754_finite false 4835703278458517 (-82).

(** ** package time *)

(** [Duration.Seconds]; [d / Second] is below 2^34. *)
Definition Seconds (d : Z) : spec_float :=
  f_add (f_exact (d ÷ Second)) (f_mul (f_exact (Z.rem d Second)) nano).

(** [leadingInt], with its overflow tests. *)
Fixpoint leadingInt (x : Z) (s : string) : option (Z * string) :=
  match s with
  | String c s' =>
      if is_digit c then
        if (2 ^ 63 - 1) / 10 <? x then None
        else
          let x' := wrap64 (x * 10 + (byte_val c - 48)) in
          if x' <? 0 then None else leadingInt x' s'
      else Some (x, s)
  | EmptyString => Some (x, EmptyString)
  end.

Definition unitMap (u : string) : option Z :=
  if decide (u = "ns") then Some 1
  else if decide (u = "us") then Some 1000
  else if decide (u = String (byte_of 194) (String (byte_of 181) "s")) then Some 1000
  else if decide (u = String (byte_of 206) (String (byte_of 188) "s")) then Some 1000
  else if decide (u = "ms") then Some 1000000
  else if decide (u = "s") then Some Second
  else if decide (u = "m") then Some (60 * Second)
  else if decide (u = "h") then Some (3600 * Second)
  else None.

(** The unit: everything up to a digit or a dot. *)
Fixpoint take_unit (s : string) : string * string :=
  match s with
  | String c s' =>
      if is_digit c || bool_decide (c = "."%char) then (EmptyString, s)
      else let '(u, r) := take_unit s' in (String c u, r)
  | EmptyString => (EmptyString, EmptyString)
  end.

Fixpoint scale10 (n : nat) (x : spec_float) : spec_float :=
  match n with O => x | S n => scale10 n (f_mul x (f_of_int 10)) end.

Definition invalid : string := "time: invalid duration".
Definition len (s : string) : nat := String.length s.

(** The digits after the dot: their value, their number and the rest. *)
Definition fraction (s : string) : result (Z * nat * bool * string) :=
  match s with
  | String c s1 =>
      if bool_decide (c = "."%char) then
        match leadingInt 0 s1 with
        | Some (f, s2) => Ok (f, (len s1 - len s2)%nat, negb (len s1 =? len s2)%nat, s2)
        | None => Err invalid
        end
      else Ok (0, O, false, s)
  | EmptyString => Ok (0, O, false, s)
  end.

(** One number with its unit, in nanoseconds, and the rest. *)
Definition duration_term (s : string) : result (Z * string) :=
  match s with
  | EmptyString => Err invalid
  | String c _ =>
      if negb (bool_decide (c = "."%char) || is_digit c) then Err invalid
      else
        match leadingInt 0 s with
        | None => Err invalid
        | Some (v, s1) =>
            let pre := negb (len s =? len s1)%nat in
            let* '(f, n, post, s2) := fraction s1 in
            if negb pre && negb post then Err invalid
            else
              let '(u, s3) := take_unit s2 in
              if decide (u = EmptyString) then Err "time: missing unit in duration"
              else
                match unitMap u with
                | None => Err "time: unknown unit"
                | Some unit =>
                    if (2 ^ 63 - 1) / unit <? v then Err invalid
                    else
                      let v1 := v * unit in
                      let v2 := if 0 <? f
                                then wrap64 (v1 + f_to_int (f_mul (f_of_int f)
                                       (f_div (f_of_int unit) (scale10 n (f_of_int 1)))))
                                else v1 in
                      if (0 <? f) && (v2 <? 0) then Err invalid else Ok (v2, s3)
                end
        end
  end.

(** Every turn consumes a character. *)
Fixpoint duration_loop (fuel : nat) (d : Z) (s : string) : result Z :=
  match s with
  | EmptyString => Ok d
  | _ =>
      match fuel with
      | O => Panic "out of fuel"
      | S fuel =>
          let* '(v, s') := duration_term s in
          let d' := wrap64 (d + v) in
          if d' <? 0 then Err invalid else duration_loop fuel d' s'
      end
  end.

Definition ParseDuration (s : string) : result Z :=
  let '(neg, s1) := match s with
    | String c r =>
        if bool_decide (c = "-"%char) then (true, r)
        else if bool_decide (c = "+"%char) then (false, r) else (false, s)
    | EmptyString => (false, s)
    end in
  if decide (s1 = "0") then Ok 0
  else if decide (s1 = EmptyString) then Err invalid
  else let* d := duration_loop (len s1) 0 s1 in Ok (if neg : bool then wrap64 (- d) else d).

(** ** package strconv *)

(** [strconv.ParseInt(s, 10, 64)] *)
Definition ParseInt (s : string) : result Z :=
  let '(neg, r) := match s with
    | String c r =>
        if bool_decide (c = "-"%char) then (true, r)
        else if bool_decide (c = "+"%char) then (false, r) else (false, s)
    | EmptyString => (false, s)
    end in
  if decide (r = EmptyString) then Err "invalid syntax"
  else
    match digits_val 0 r with
    | None => Err "invalid syntax"
    | Some v =>
        let z := if neg : bool then - v else v in
        if (- 2 ^ 63 <=? z) && (z <? 2 ^ 63) then Ok z else Err "value out of range"
    end.

(** ** package strings *)
Fixpoint trim_left (c : ascii) (s : string) : string :=
  match s with
  | String a s' => if bool_decide (a = c) then trim_left c s' else s
  | EmptyString => EmptyString
  end.

Fixpoint trim_right (c : ascii) (s : string) : string :=
  match s with
  | EmptyString => EmptyString
  | String a s' =>
      match trim_right c s' with
      | EmptyString => if bool_decide (a = c) then EmptyString else String a EmptyString
      | r => String a r
      end
  end.

(** [strings.Trim(s, "c")] *)
Definition Trim (c : ascii) (s : string) : string := trim_right c (trim_left c s).

(** [strings.Join(l, "")] *)
Definition concat (l : list string) : string := foldr String.append EmptyString l.

(** [s[:len(s)-1]] *)
Fixpoint chop (s : string) : result string :=
  match s with
  | EmptyString => Panic "slice bounds out of range"
  | String a EmptyString => Ok EmptyString
  | String a s' => let* r := chop s' in Ok (String a r)
  end.

(** ** duration.go *)
Definition formatDuration (d : Z) : string :=
  let t := f_to_int (Seconds d) in
  let day := t ÷ (60 * 60 * 24) in
  let t := Z.rem t (60 * 60 * 24) in
  let hour := t ÷ (60 * 60) in
  let t := Z.rem t (60 * 60) in
  let min := t ÷ 60 in
  let sec := Z.rem t 60 in
  Itoa day +:+ "d:" +:+ Itoa hour +:+ "h:" +:+ Itoa min +:+ "m:" +:+ Itoa sec +:+ "s".

Definition MarshalJSON (d : Z) : string :=
  String dquote (formatDuration d +:+ String dquote EmptyString).

Definition UnmarshalJSON (b : string) : result Z :=
  match Split ":" (Trim dquote b) with
  | [] => Panic "index out of range"
  | ds :: u =>
      let* ds' := chop ds in
      let* di := ParseInt ds' in
      match u with
      | [] => Panic "index out of range"
      | hs :: rest =>
          let* hs' := chop hs in
          let* hi := ParseInt hs' in
          let hi := wrap64 (hi + wrap64 (di * 24)) in
          ParseDuration (concat ((Itoa hi +:+ "h") :: rest))
      end
  end.

(** [UnixToTime], in seconds since the epoch; the time it returns beside an
    error is not modelled. *)
Definition UnixToTime (unixTime : string) : result Z := ParseInt unixTime.

Example duration_examples :
  MarshalJSON (36 * 3600 * Second + 10 * Second) = String dquote ("1d:12h:0m:10s" +:+ String dquote EmptyString) ∧
  ParseDuration "1.5s" = Ok 1500000000 ∧ ParseDuration "-2h3m" = Ok (- 7380 * Second) ∧
  ParseDuration "3x" = Err "time: unknown unit".
Proof. by vm_compute. Qed.

(** ** Lemmas *)
Lemma seconds_whole s : 0 ≤ s → f_to_int (Seconds (s * Second)) = s.
Proof.
  intros Hs. unfold Seconds. rewrite Z.quot_mul, Z.rem_mul by (unfold Second; lia).
  destruct s as [|p|p]; [done| |lia]. cbn. lia.
Qed.

Lemma chop_snoc x c : chop (x +:+ String c EmptyString) = Ok x.
Proof.
  induction x as [|a x IH]; [done|]. rewrite sapp_cons. cbn [chop].
  destruct (x +:+ String c EmptyString) as [|b y] eqn:E; [by destruct x|]. by rewrite IH.
Qed.

Lemma ParseInt_Itoa z : fits64 z → ParseInt (Itoa z) = Ok z.
Proof.
  intros Hz. unfold fits64 in Hz. destruct (Itoa_shape z) as (neg & a & t & -> & Ha & _ & _ & Hv). unfold ParseInt.
  assert (a ≠ "-"%char ∧ a ≠ "+"%char) as [Hm Hp] by (split; intros ->; by vm_compute in Ha).
  destruct neg.
  - change ("-" +:+ String a t) with (String "-" (String a t)). cbv beta iota. rewrite bool_decide_eq_true_2, decide_False by done. rewrite Hv. rewrite Z.opp_involutive.
    destruct (Z.leb_spec (- 2 ^ 63) z), (Z.ltb_spec z (2 ^ 63)); cbn [andb]; done || lia.
  - change (EmptyString +:+ String a t) with (String a t). cbv beta iota.
    rewrite !bool_decide_eq_false_2, decide_False by done. rewrite Hv.
    destruct (Z.leb_spec (- 2 ^ 63) z), (Z.ltb_spec z (2 ^ 63)); cbn [andb]; done || lia.
Qed.

Lemma trim_right_app c x : count_char c x = 0%nat → trim_right c (x +:+ String c EmptyString) = x.
Proof.
  induction x as [|a x IH]; intros Hx.
  { change (trim_right c (String c EmptyString) = EmptyString). cbn. by rewrite bool_decide_eq_true_2. }
  rewrite sapp_cons. cbn [trim_right count_char] in *. case_bool_decide as Ha; [done|].
  rewrite IH by done. by destruct x.
Qed.

Lemma Trim_quoted c x : count_char c x = 0%nat → Trim c (String c (x +:+ String c EmptyString)) = x.
Proof.
  intros Hx. unfold Trim. cbn [trim_left]. rewrite bool_decide_eq_true_2 by done.
  assert (trim_left c (x +:+ String c EmptyString) = (if decide (x = EmptyString) then EmptyString else x +:+ String c EmptyString)) as ->.
  { destruct x as [|a x].
    - change (trim_left c (String c EmptyString) = EmptyString). cbn. by rewrite bool_decide_eq_true_2.
    - rewrite sapp_cons. cbn in *. by case_bool_decide. }
  case_decide as Hd; [by rewrite Hd|]. by apply trim_right_app.
Qed.

Lemma leadingInt_digits t x v c r :
  string_forallb is_digit t = true → 0 ≤ x → digits_val x t = Some v → v < 2 ^ 63 → is_digit c = false →
  leadingInt x (t +:+ String c r) = Some (v, String c r).
Proof.
  revert x. induction t as [|a t IH]; intros x Ht Hx Hv Hmax Hc.
  { injection Hv as ->. change (EmptyString +:+ String c r) with (String c r). cbn [leadingInt]. by rewrite Hc. }
  rewrite sapp_cons. cbn [leadingInt string_forallb digits_val] in *.
  apply andb_true_iff in Ht as [Ha Ht]. rewrite Ha in *. destruct (digit_val_byte a Ha) as [_ Hb].
  assert (x * 10 + (byte_val a - 48) ≤ v) as Hge by (eapply digits_val_ge, Hv; lia).
  destruct (Z.ltb_spec ((2 ^ 63 - 1) / 10) x) as [Hlt|_].
  { exfalso. assert ((2 ^ 63 - 1) / 10 = 922337203685477580) as E by done. lia. }
  rewrite wrap64_id by (unfold fits64; lia). destruct (Z.ltb_spec (x * 10 + (byte_val a - 48)) 0); [lia|].
  apply IH; done || lia.
Qed.

(** The text that may follow a term: another term or nothing. *)
Definition term_end (r : string) : Prop := match r with EmptyString => True | String c _ => is_digit c = true end.

Lemma take_unit_one c r : is_digit c = false → c ≠ "."%char → term_end r →
  take_unit (String c r) = (String c EmptyString, r).
Proof.
  intros Hc Hd Hr. cbn. rewrite Hc, bool_decide_eq_false_2 by done. cbn.
  destruct r as [|a r]; [done|]. cbn in *. by rewrite Hr.
Qed.

Lemma Itoa_digits v : 0 ≤ v → string_forallb is_digit (Itoa v) = true ∧ Itoa v ≠ EmptyString ∧
  digits_val 0 (Itoa v) = Some v.
Proof.
  intros Hv. destruct (Itoa_shape v) as ([] & a & t & Hi & Ha & Ht & _ & Hval).
  - pose proof (digits_val_ge 0 (String a t) _ ltac:(lia) Hval). assert (v = 0) as -> by lia. discriminate Hi.
  - rewrite Hi. change (EmptyString +:+ String a t) with (String a t). cbn [string_forallb]. by rewrite Ha, Ht.
Qed.

Lemma Itoa_head v : 0 ≤ v → ∃ a t, Itoa v = String a t ∧ is_digit a = true.
Proof.
  intros Hv. destruct (Itoa_digits v Hv) as (Hd & Hne & _). destruct (Itoa v) as [|a t]; [done|].
  cbn in Hd. apply andb_true_iff in Hd as [Ha _]. eauto.
Qed.

(** A number without fraction and a unit of one letter. *)
Lemma duration_term_ok v c unit r :
  0 ≤ v → is_digit c = false → c ≠ "."%char → unitMap (String c EmptyString) = Some unit →
  0 < unit → v * unit < 2 ^ 63 → term_end r →
  duration_term (Itoa v +:+ String c r) = Ok (v * unit, r).
Proof.
  intros Hv Hc Hdot Hu Hpos Hmax Hr. destruct (Itoa_digits v Hv) as (Hd & _ & Hval).
  destruct (Itoa_head v Hv) as (a & t & Hi & Ha).
  pose proof (leadingInt_digits (Itoa v) 0 v c r Hd ltac:(lia) Hval ltac:(nia) Hc) as HL.
  unfold duration_term. rewrite Hi in *. rewrite sapp_cons in *. rewrite Ha, orb_true_r. cbn [negb]. rewrite HL.
  assert ((len (String a (t +:+ String c r)) =? len (String c r))%nat = false) as ->.
  { apply Nat.eqb_neq. unfold len. cbn [String.length]. rewrite slength_app. cbn. lia. }
  cbn [negb fraction]. rewrite bool_decide_eq_false_2 by done. cbn [rbind andb negb].
  rewrite take_unit_one by done. rewrite decide_False by done. rewrite Hu.
  destruct (Z.ltb_spec ((2 ^ 63 - 1) / unit) v) as [Hlt|_]; [|done].
  exfalso. pose proof (Z.mul_succ_div_gt (2 ^ 63 - 1) unit Hpos). nia.
Qed.

Lemma duration_loop_step fuel d v c unit r :
  0 ≤ v → is_digit c = false → c ≠ "."%char → unitMap (String c EmptyString) = Some unit →
  0 < unit → 0 ≤ d → d + v * unit < 2 ^ 63 → term_end r →
  duration_loop (S fuel) d (Itoa v +:+ String c r) = duration_loop fuel (d + v * unit) r.
Proof.
  intros Hv Hc Hdot Hu Hpos Hd Hmax Hr. destruct (Itoa_head v Hv) as (a & t & Hi & Ha).
  cbn [duration_loop]. rewrite (duration_term_ok v c unit r) by (done || nia).
  rewrite Hi, sapp_cons. cbn [rbind]. rewrite wrap64_id by (unfold fits64; nia).
  destruct (Z.ltb_spec (d + v * unit) 0); [nia|done].
Qed.

Lemma ParseDuration_hms h m s :
  0 ≤ h → 0 ≤ m → 0 ≤ s → (h * 3600 + m * 60 + s) * Second < 2 ^ 63 →
  ParseDuration (Itoa h +:+ "h" +:+ Itoa m +:+ "m" +:+ Itoa s +:+ "s") = Ok ((h * 3600 + m * 60 + s) * Second).
Proof.
  intros Hh Hm Hs Hmax. unfold ParseDuration.
  destruct (Itoa_head h Hh) as (a & t & Hi & Ha), (Itoa_head m Hm) as (a1 & t1 & Hi1 & Ha1),
    (Itoa_head s Hs) as (a2 & t2 & Hi2 & Ha2).
  assert (a ≠ "-"%char ∧ a ≠ "+"%char) as [Hn Hp] by (split; intros ->; by vm_compute in Ha).
  set (S3 := Itoa s +:+ "s"). set (S2 := Itoa m +:+ "m" +:+ S3). set (S1 := Itoa h +:+ "h" +:+ S2).
  assert (S1 = String a (t +:+ "h" +:+ S2)) as E1 by (unfold S1; by rewrite Hi). rewrite E1 at 1.
  rewrite !bool_decide_eq_false_2 by done. cbn [fst snd]. rewrite decide_False, decide_False.
  2: { rewrite E1. done. }
  2: { rewrite E1. intros [= _ E]. by destruct t. }
  assert (∃ k, len S1 = S (S (S k))) as [k ->].
  { exists (len S1 - 3)%nat. unfold S1, S2, S3, len. rewrite !slength_app. cbn. lia. }
  unfold Second in *.
  change S1 with (Itoa h +:+ String "h" S2).
  rewrite (duration_loop_step _ 0 h "h" (3600 * 1000000000)) by (done || lia || (unfold S2; by rewrite Hi1)).
  change S2 with (Itoa m +:+ String "m" S3).
  rewrite (duration_loop_step _ _ m "m" (60 * 1000000000)) by (done || lia || (unfold S3; by rewrite Hi2)).
  change S3 with (Itoa s +:+ String "s" EmptyString).
  rewrite (duration_loop_step _ _ s "s" 1000000000) by (done || lia).
  destruct k; cbn [duration_loop rbind]; f_equal; lia.
Qed.

Lemma mod_day s : s mod 86400 mod 3600 = s mod 3600.
Proof. apply Z.mod_mod_divide. by exists 24. Qed.

Lemma mod_hour s : s mod 3600 mod 60 = s mod 60.
Proof. apply Z.mod_mod_divide. by exists 60. Qed.

Lemma format_whole s :
  0 ≤ s →
  formatDuration (s * Second) =
    Itoa (s / 86400) +:+ "d:" +:+ Itoa (s mod 86400 / 3600) +:+ "h:" +:+ Itoa (s mod 3600 / 60) +:+ "m:" +:+
    Itoa (s mod 60) +:+ "s".
Proof.
  intros Hs. unfold formatDuration. rewrite seconds_whole by done.
  change (60 * 60 * 24) with 86400. change (60 * 60) with 3600.
  pose proof (Z.mod_pos_bound s 86400 ltac:(lia)). pose proof (Z.mod_pos_bound s 3600 ltac:(lia)).
  rewrite (Z.rem_mod_nonneg s 86400), (Z.quot_div_nonneg s 86400), (Z.rem_mod_nonneg (s mod 86400)),
    (Z.quot_div_nonneg (s mod 86400)), mod_day by lia.
  by rewrite Z.rem_mod_nonneg, Z.quot_div_nonneg, mod_hour by lia.
Qed.

(** The parts of a number of seconds add up. *)
Lemma seconds_parts s :
  ((s mod 86400 / 3600 + s / 86400 * 24) * 3600 + s mod 3600 / 60 * 60 + s mod 60) = s.
Proof.
  pose proof (Z.div_mod s 86400 ltac:(lia)). pose proof (Z.div_mod (s mod 86400) 3600 ltac:(lia)).
  pose proof (Z.div_mod (s mod 3600) 60 ltac:(lia)).
  rewrite mod_day in *. rewrite mod_hour in *. lia.
Qed.

(** The fields of the text. *)
Lemma split_fields d h m x :
  Split ":" (Itoa d +:+ "d:" +:+ Itoa h +:+ "h:" +:+ Itoa m +:+ "m:" +:+ Itoa x +:+ "s") =
  [Itoa d +:+ "d"; Itoa h +:+ "h"; Itoa m +:+ "m"; Itoa x +:+ "s"].
Proof.
  assert (∀ z c, c ≠ ":"%char → count_char ":" (Itoa z +:+ String c EmptyString) = 0%nat) as H.
  { intros z c Hc. rewrite count_char_app, Itoa_no_char by done. cbn. by rewrite bool_decide_eq_false_2. }
  assert (∀ z c r, c ≠ ":"%char →
    Split ":" (Itoa z +:+ String c (String ":" EmptyString) +:+ r) = (Itoa z +:+ String c EmptyString) :: Split ":" r) as Hs.
  { intros z c r Hc. rewrite <-(Split_app ":" _ r) by by apply H. by rewrite sapp_assoc. }
  rewrite !Hs by done. by rewrite Split_no_sep by by apply H.
Qed.

Lemma format_no_quote d : count_char dquote (formatDuration d) = 0%nat.
Proof. unfold formatDuration. by rewrite !count_char_app, !Itoa_no_char by done. Qed.

(** Durations as text.  A duration of whole seconds below 2^63 nanoseconds
    is read back exactly from the JSON text written for it, floating point and
    overflow tests included. *)
Theorem duration_roundtrip s :
  0 ≤ s → s * Second < 2 ^ 63 → UnmarshalJSON (MarshalJSON (s * Second)) = Ok (s * Second).
Proof.
  intros Hs Hmax. unfold UnmarshalJSON, MarshalJSON. rewrite Trim_quoted by apply format_no_quote.
  rewrite format_whole, split_fields by done.
  pose proof (Z.mod_pos_bound s 60 ltac:(lia)). pose proof (seconds_parts s) as Hp.
  pose proof (Z.div_pos s 86400 ltac:(lia) ltac:(lia)).
  pose proof (Z.div_pos (s mod 86400) 3600 (proj1 (Z.mod_pos_bound s 86400 ltac:(lia))) ltac:(lia)).
  pose proof (Z.div_pos (s mod 3600) 60 (proj1 (Z.mod_pos_bound s 3600 ltac:(lia))) ltac:(lia)).
  unfold Second in *. rewrite !chop_snoc. cbn [rbind].
  rewrite !ParseInt_Itoa by (unfold fits64; lia). cbn [rbind].
  rewrite (wrap64_id (_ * 24)), wrap64_id by (unfold fits64; lia). cbn [concat foldr].
  rewrite !sapp_assoc, sapp_nil_r.
  rewrite ParseDuration_hms by (unfold Second; lia). by rewrite Hp.
Qed.

Lemma duration_roundtrip_witness :
  0 ≤ 129610 ∧ 129610 * Second < 2 ^ 63 ∧
  MarshalJSON (129610 * Second) = String dquote ("1d:12h:0m:10s" +:+ String dquote EmptyString) ∧
  UnmarshalJSON (MarshalJSON (129610 * Second)) = Ok (129610 * Second).
Proof.
  split; [lia|]. split; [by vm_compute|]. split; [by vm_compute|].
  apply (duration_roundtrip 129610); [lia|by vm_compute].
Defined.
