(* ===== verification/Http.v ===== *)
(** The HTTP side of the status component: common/http/basic_auth.go,
    common/http/headers.go, handlers/healthcheck.go and the request
    multiplexer of net/http (Go 1.7) that common/component.go fills.

    A handler reads a request and changes the response it is given.  Which
    handler a request reaches is computed here, with the cleaning of paths and
    the matching of patterns; what net/http answers itself (redirects, "not
    found") is a parameter. *)

From Stdlib Require Import Ascii ZArith Lia.
From stdpp Require Import base gmap list strings pretty.
From S2P Require Import Prelude GoStrings Codec.

Open Scope go_scope.
Open Scope Z_scope.

(** ** net/http: headers, requests, responses *)
Notation Header := (gmap string (list string)).

(** net/textproto: the bytes of a header name, and its canonical form. *)
Definition validHeaderFieldByte (a : ascii) : bool :=
  let n := byte_val a in
  ((48 <=? n) && (n <=? 57)) || ((65 <=? n) && (n <=? 90)) || ((97 <=? n) && (n <=? 122)) ||
  contains_char a "!#$%&'*+-.^_`|~".

Definition upper_ascii (a : ascii) : ascii :=
  let n := byte_val a in if (97 <=? n) && (n <=? 122) then byte_of (n - 32) else a.

Fixpoint canonical (upper : bool) (s : string) : string :=
  match s with
  | EmptyString => EmptyString
  | String a s' =>
      let b := if upper then upper_ascii a else lower_ascii a in
      String b (canonical (bool_decide (b = "-"%char)) s')
  end.

Definition CanonicalHeaderKey (s : string) : string :=
  if string_forallb validHeaderFieldByte s then canonical true s else s.

Definition Header_Get (h : Header) (k : string) : string :=
  match h !! CanonicalHeaderKey k with Some (v :: _) => v | _ => EmptyString end.

Definition Header_Set (h : Header) (k v : string) : Header := <[CanonicalHeaderKey k := [v]]> h.

(** [loaded] is what an atomic load of the heartbeat flag gives while the
    request is served. *)
Record Request := mkRequest {
  Method : string; Host : string; Path : string; RequestURI : string;
  rq_Header : Header; Close : bool; loaded : Z;
}.

(** The response under construction: the header map of the writer, what has
    been sent (status and header) and the body. *)
Record Response := mkResponse { rw_Header : Header; sent : option (Z * Header); body : string }.

Definition new_response : Response := mkResponse ∅ None EmptyString.

Definition set_header (k v : string) (w : Response) : Response :=
  mkResponse (Header_Set (rw_Header w) k v) (sent w) (body w).

(** Only the first call counts. *)
Definition WriteHeader (code : Z) (w : Response) : Response :=
  match sent w with
  | Some _ => w
  | None => mkResponse (rw_Header w) (Some (code, rw_Header w)) (body w)
  end.

Definition Write (b : string) (w : Response) : Response :=
  let w := WriteHeader 200 w in mkResponse (rw_Header w) (sent w) (body w +:+ b).

Definition Handler : Type := Request → Response → Request * Response.

(** ** basic_auth.go *)
Definition Authenticator : Type := string → string → bool.

(** [nil] is [None]; the slice returned has two elements. *)
Definition extractCredentials (req : Request) : option (string * string) :=
  match Split " " (Header_Get (rq_Header req) "Authorization") with
  | [x0; x1] =>
      if negb (bool_decide (x0 = "Basic")) then None
      else
        match DecodeString x1 with
        | Ok y => match Split ":" y with [z0; z1] => Some (z0, z1) | _ => None end
        | _ => None
        end
  | _ => None
  end.

Definition authenticatedEndpoint (path : string) : bool := negb (bool_decide (path = "/health")).

Definition BasicAuth_ServeHTTP (h : Handler) (auth : Authenticator) : Handler := λ req w,
  let y := extractCredentials req in
  if authenticatedEndpoint (Path req) &&
     match y with None => true | Some (user, password) => negb (auth user password) end
  then
    let w := set_header "WWW-Authenticate" "Basic" w in
    let w := WriteHeader 401 w in
    (req, Write ("401 Unauthorized" +:+ String (byte_of 10) EmptyString) w)
  else h req w.

(** ** headers.go *)
Definition VcapBackendHeader := "X-Vcap-Backend".
Definition CfRouteEndpointHeader := "X-Cf-RouteEndpoint".
Definition VcapRouterHeader := "X-Vcap-Router".

Definition SetTraceHeaders (w : Response) (routerIp addr : string) : Response :=
  set_header CfRouteEndpointHeader addr
    (set_header VcapBackendHeader addr (set_header VcapRouterHeader routerIp w)).

(** ** handlers/healthcheck.go *)

Definition Healthcheck_ServeHTTP : Handler := λ req w,
  let w := set_header "Cache-Control" "private, max-age=0" w in
  let w := set_header "Expires" "0" w in
  let closing := mkRequest (Method req) (Host req) (Path req) (RequestURI req) (rq_Header req) true (loaded req) in
  if loaded req =? 0 then (closing, WriteHeader 503 w)
  else (closing, Write ("ok" +:+ String (byte_of 10) EmptyString) (WriteHeader 200 w)).

(** ** net/http: ServeMux *)

(** [path.Clean] of a rooted path. *)
Definition clean_step (acc : list string) (x : string) : list string :=
  if decide (x = EmptyString) then acc
  else if decide (x = ".") then acc
  else if decide (x = "..") then tail acc
  else x :: acc.

Definition clean_rooted (p : string) : string :=
  String "/" (Join "/" (rev (foldl clean_step [] (Split "/" p)))).

Definition last_is_slash (p : string) : bool := HasSuffix p "/".

Definition cleanPath (p : string) : string :=
  match p with
  | EmptyString => "/"
  | String c _ =>
      let p := if bool_decide (c = "/"%char) then p else String "/" p in
      let np := clean_rooted p in
      if last_is_slash p && negb (bool_decide (np = "/")) then np +:+ "/" else np
  end.

(** What net/http answers itself. *)
Inductive Builtin := Redirect (url : string) | NotFound | BadRequest.

Inductive Target := ToHandler (h : Handler) | ToBuiltin (b : Builtin).

Record muxEntry := mkEntry { explicit : bool; target : Target; pattern : string }.

Record ServeMux := mkMux { mux_m : gmap string muxEntry; mux_hosts : bool }.

Definition NewServeMux : ServeMux := mkMux ∅ false.

Definition explicit_at (m : gmap string muxEntry) (k : string) : bool :=
  match m !! k with Some e => explicit e | None => false end.

(** The pattern without its last character, where that is a slash. *)
Definition tree_of (p : string) : option string :=
  if last_is_slash p then Some (trim_suffix "/" p) else None.

(** The path of a pattern that starts with a host name. *)
Definition pattern_path (p : string) : string :=
  match p with
  | String c _ => if bool_decide (c = "/"%char) then p
                  else match cut "/" p with Some (_, t) => String "/" t | None => p end
  | EmptyString => p
  end.

Definition Handle (mux : ServeMux) (p : string) (h : Handler) : result ServeMux :=
  match p with
  | EmptyString => Panic "http: invalid pattern"
  | String c _ =>
      if explicit_at (mux_m mux) p then Panic "http: multiple registrations"
      else
        let m := <[p := mkEntry true (ToHandler h) p]> (mux_m mux) in
        let hosts := mux_hosts mux || negb (bool_decide (c = "/"%char)) in
        match tree_of p with
        | Some t =>
            if explicit_at m t then Ok (mkMux m hosts)
            else Ok (mkMux (<[t := mkEntry false (ToBuiltin (Redirect (pattern_path p))) p]> m) hosts)
        | None => Ok (mkMux m hosts)
        end
  end.

Definition pathMatch (p path : string) : bool :=
  if decide (p = EmptyString) then false
  else if last_is_slash p then HasPrefix path p
  else bool_decide (p = path).

Section Mux.
  Context `{!MapOrder string}.
  Variable builtin : Builtin → Handler.

(** The longest pattern that matches. *)
Definition match_step (path : string) (best : option (nat * Target)) (kv : string * muxEntry) : option (nat * Target) :=
  let '(k, v) := kv in
  if pathMatch k path then
    match best with
    | Some (n, _) => if (n <? String.length k)%nat then Some (String.length k, target v) else best
    | None => Some (String.length k, target v)
    end
  else best.

Definition mux_match (mux : ServeMux) (path : string) : option Target :=
  snd <$> foldl (match_step path) None (go_range (mux_m mux)).

Definition mux_handler (mux : ServeMux) (host path : string) : Target :=
  match (if mux_hosts mux then mux_match mux (host +:+ path) else None) with
  | Some t => t
  | None => match mux_match mux path with Some t => t | None => ToBuiltin NotFound end
  end.

Definition mux_Handler (mux : ServeMux) (r : Request) : Target :=
  if negb (bool_decide (Method r = "CONNECT")) && negb (bool_decide (cleanPath (Path r) = Path r))
  then ToBuiltin (Redirect (cleanPath (Path r)))
  else mux_handler mux (Host r) (Path r).

Definition mux_ServeHTTP (mux : ServeMux) : Handler := λ r w,
  let t := if bool_decide (RequestURI r = "*") then ToBuiltin BadRequest else mux_Handler mux r in
  match t with ToHandler h => h r w | ToBuiltin b => builtin b r w end.
End Mux.

(** ** Lemmas: credentials *)
Lemma extractCredentials_spec req u p :
  extractCredentials req = Some (u, p) ↔
  ∃ e, Header_Get (rq_Header req) "Authorization" = "Basic " +:+ e ∧ count_char " " e = 0%nat ∧
       DecodeString e = Ok (u +:+ String ":" p) ∧ count_char ":" u = 0%nat ∧ count_char ":" p = 0%nat.
Proof.
  unfold extractCredentials. split.
  - destruct (Split " " _) as [|x0 [|x1 [|]]] eqn:Es; try done.
    case_bool_decide as Hx; [subst x0|done]. cbn [negb].
    destruct (DecodeString x1) as [y| |] eqn:Ed; try done.
    destruct (Split ":" y) as [|z0 [|z1 [|]]] eqn:Ez; try done. intros [= -> ->].
    pose proof (Join_Split " " (Header_Get (rq_Header req) "Authorization")) as Hj. rewrite Es in Hj.
    pose proof (Join_Split ":" y) as Hy. rewrite Ez in Hy.
    pose proof (Split_Forall " " (Header_Get (rq_Header req) "Authorization")) as HF. rewrite Es in HF.
    pose proof (Split_Forall ":" y) as HG. rewrite Ez in HG.
    inversion_clear HF as [|?? _ HF']. inversion_clear HF' as [|?? H1 _].
    inversion_clear HG as [|?? H2 HG']. inversion_clear HG' as [|?? H3 _].
    exists x1. rewrite <-Hj. split_and!; [done|done| |done|done]. by rewrite Ed, <-Hy.
  - intros (e & -> & He & Hd & Hu & Hp). change ("Basic " +:+ e) with ("Basic" +:+ String " " e).
    rewrite Split_app, Split_no_sep by done. rewrite bool_decide_eq_true_2 by done. cbn [negb].
    by rewrite Hd, Split_app, Split_no_sep.
Qed.

Lemma b64_char_not_space d : 0 ≤ d < 64 → bool_decide (b64_char d = " "%char) = false.
Proof.
  intros Hd. apply (below64 (λ d, negb (bool_decide (b64_char d = " "%char)))) in Hd; [|by vm_compute].
  by apply negb_true_iff in Hd.
Qed.

Lemma Encode_no_space s : count_char " " (EncodeToString s) = 0%nat.
Proof.
  induction s as [|a|a b|a b c s IH] using string_ind3; [done|..];
    pose proof (byte_val_bounds a); try pose proof (byte_val_bounds b);
    try pose proof (byte_val_bounds c); cbn [EncodeToString count_char];
    rewrite !b64_char_not_space by div_mod_bounds; done || by rewrite IH.
Qed.

(** [req.SetBasicAuth] of the client: the header [extractCredentials] reads. *)
Lemma extract_BasicAuth req u p :
  Header_Get (rq_Header req) "Authorization" = "Basic " +:+ EncodeToString (u +:+ String ":" p) →
  count_char ":" u = 0%nat → count_char ":" p = 0%nat → extractCredentials req = Some (u, p).
Proof.
  intros Hh Hu Hp. apply extractCredentials_spec. eexists.
  by rewrite Hh, DecodeString_Encode, Encode_no_space.
Qed.

(** ** Lemmas: the multiplexer *)
Lemma pathMatch_prefix k path : pathMatch k path = true → ∃ t, path = k +:+ t.
Proof.
  unfold pathMatch. case_decide; [done|]. destruct (last_is_slash k).
  - apply HasPrefix_spec.
  - intros ->%bool_decide_eq_true_1. exists EmptyString. by rewrite sapp_nil_r.
Qed.

Lemma pathMatch_refl k : k ≠ EmptyString → pathMatch k k = true.
Proof.
  intros Hk. unfold pathMatch. rewrite decide_False by done. destruct (last_is_slash k).
  - apply HasPrefix_spec. exists EmptyString. by rewrite sapp_nil_r.
  - by apply bool_decide_eq_true_2.
Qed.

(** A pattern that matches is shorter than the path, or is the path. *)
Lemma pathMatch_shorter k path : pathMatch k path = true → (String.length k < String.length path)%nat ∨ k = path.
Proof.
  intros [t ->]%pathMatch_prefix. rewrite slength_app. destruct t as [|a t].
  - right. by rewrite sapp_nil_r.
  - left. cbn. lia.
Qed.

Lemma match_fold path t l best :
  (∀ k e, (k, e) ∈ l → k = path → target e = t) →
  match best with Some (n, t') => (n < String.length path)%nat ∨ (n = String.length path ∧ t' = t) | None => True end →
  (best = Some (String.length path, t)) ∨ ((path ∈ l.*1) ∧ path ≠ EmptyString) →
  foldl (match_step path) best l = Some (String.length path, t).
Proof.
  revert best. induction l as [|[k e] l IH]; intros best Hl Hb Hin; cbn [foldl].
  { destruct Hin as [?|[Hn _]]; [done|]. by apply elem_of_nil in Hn. }
  apply IH; clear IH.
  - intros k' e' H. apply (Hl k' e'). by right.
  - unfold match_step. destruct (pathMatch k path) eqn:Hm; [|done].
    assert ((String.length k < String.length path)%nat ∨ (String.length k = String.length path ∧ target e = t)) as Hk.
    { destruct (pathMatch_shorter k path Hm) as [?| ->]; [by left|right].
      split; [done|]. apply (Hl path e); [by left|done]. }
    destruct best as [[n t']|]; [|done]. by destruct (Nat.ltb_spec n (String.length k)).
  - destruct Hin as [->|[Hin Hne]].
    + left. unfold match_step. destruct (pathMatch k path) eqn:Hm; [|done].
      destruct (Nat.ltb_spec (String.length path) (String.length k)); [|done].
      destruct (pathMatch_shorter k path Hm) as [?| ->]; lia.
    + apply elem_of_cons in Hin as [Heq|Hin]; [cbn in Heq; subst path|by right]. left. unfold match_step.
      rewrite pathMatch_refl by done.
      assert (target e = t) as -> by (apply (Hl k e); [by left|done]).
      destruct best as [[n t']|]; [|done]. destruct (Nat.ltb_spec n (String.length k)); [done|].
      destruct Hb as [?|[-> ->]]; [lia|done].
Qed.

Section MuxFacts.
  Context `{!MapOrder string}.
  Variable builtin : Builtin → Handler.

Lemma mux_match_exact mux path e :
  mux_m mux !! path = Some e → path ≠ EmptyString → mux_match mux path = Some (target e).
Proof.
  intros He Hne. unfold mux_match. rewrite (match_fold path (target e)); [done|..].
  - intros k e' Hin ->. apply elem_of_go_range in Hin. by simplify_eq.
  - done.
  - right. split; [|done]. apply list_elem_of_fmap. exists (path, e). split; [done|]. by apply elem_of_go_range.
Qed.

(** A pattern registered as it is requested is served by its handler. *)
Lemma mux_serves mux r w h :
  mux_m mux !! Path r = Some (mkEntry true (ToHandler h) (Path r)) → mux_hosts mux = false →
  cleanPath (Path r) = Path r → Path r ≠ EmptyString → RequestURI r ≠ "*" →
  mux_ServeHTTP builtin mux r w = h r w.
Proof.
  intros Hm Hh Hc Hne Hu. unfold mux_ServeHTTP. rewrite bool_decide_eq_false_2 by done.
  unfold mux_Handler. rewrite (bool_decide_eq_true_2 (cleanPath _ = _)) by done. rewrite andb_false_r.
  unfold mux_handler. rewrite Hh. by rewrite (mux_match_exact _ _ _ Hm).
Qed.

(** Registering a pattern keeps the handlers of the others. *)
Lemma Handle_Ok mux p h mux' :
  Handle mux p h = Ok mux' →
  mux_m mux' !! p = Some (mkEntry true (ToHandler h) p) ∧
  (∀ q e, mux_m mux !! q = Some e → explicit e = true → mux_m mux' !! q = Some e) ∧
  (HasPrefix p "/" = true → mux_hosts mux' = mux_hosts mux).
Proof.
  unfold Handle. destruct p as [|c p]; [done|]. set (q := String c p).
  destruct (explicit_at (mux_m mux) q) eqn:Ex; [done|].
  assert (∀ k e, mux_m mux !! k = Some e → explicit e = true → k ≠ q) as Hk.
  { intros k e He Hx ->. unfold explicit_at in Ex. by rewrite He, Hx in Ex. }
  assert (HasPrefix q "/" = true → mux_hosts mux || negb (bool_decide (c = "/"%char)) = mux_hosts mux) as Hp.
  { intros [t [= -> _]]%HasPrefix_spec. rewrite bool_decide_eq_true_2 by done. by rewrite orb_false_r. }
  set (m := <[q := mkEntry true (ToHandler h) q]> (mux_m mux)).
  assert (m !! q = Some (mkEntry true (ToHandler h) q)) as Hq by apply lookup_insert_eq.
  assert (∀ k e, mux_m mux !! k = Some e → explicit e = true → m !! k = Some e) as Hm.
  { intros k e He Hx. unfold m. rewrite lookup_insert_ne; [done|]. symmetry. by eapply Hk. }
  destruct (tree_of q) as [t|]; [|intros [= <-]; by eauto].
  destruct (explicit_at m t) eqn:Et; intros [= <-]; [by eauto|]. cbn [mux_m mux_hosts].
  assert (∀ k e, m !! k = Some e → explicit e = true → t ≠ k) as Ht.
  { intros k e He Hx ->. unfold explicit_at in Et. by rewrite He, Hx in Et. }
  split_and!; [..|done].
  - rewrite lookup_insert_ne; [done|]. by eapply Ht.
  - intros k e He Hx. rewrite lookup_insert_ne; [by apply Hm|]. eapply Ht; [by apply Hm|done].
Qed.
End MuxFacts.
