(* ===== verification/Component.v ===== *)
(** common/component.go: the status component of the controller, with its
    HTTP server, and common/health/varz.go.

    The server runs in its own goroutine: [Stop] and that goroutine are a
    transition system over the channels [quitCh] and [statusCh].  What the
    operating system and the UUID library answer is the record [Env]; the JSON
    text of a varz is a parameter. *)

From Stdlib Require Import Ascii ZArith Lia SpecFloat.
From stdpp Require Import base gmap list strings relations.
From S2P Require Import Prelude GoStrings Codec Duration Http.

Open Scope go_scope.
Open Scope Z_scope.

(** ** health/varz.go *)
Record GenericVarz := mkVarz {
  VType : string; Index : Z; VHost : string; Credentials : list string;
  UUID : string; StartTime : Z; NumCores : Z; MemStat : Z; Cpu : spec_float; Uptime : Z;
}.

(** [transform]: the JSON object is decoded into the map that is there; the
    text [null] makes the map nil. *)
Definition transform {V} (x : result (option (gmap string V))) (y : option (gmap string V)) :
    result (option (gmap string V)) :=
  let* o := x in
  Ok (match o with Some m => Some (m ∪ default ∅ y) | None => None end).

(** [Varz.MarshalJSON], up to the text of the final map. *)
Definition Varz_MarshalJSON {V} (unique generic : result (option (gmap string V))) : result (option (gmap string V)) :=
  let* r := transform unique (Some ∅) in transform generic r.

(** The common fields win over the component's own. *)
Lemma varz_generic_wins {V} (u : option (gmap string V)) (g : gmap string V) :
  ∃ m, Varz_MarshalJSON (Ok u) (Ok (Some g)) = Ok (Some m) ∧
    ∀ k, m !! k = match g !! k with Some v => Some v | None => u ≫= lookup k end.
Proof.
  eexists. split; [reflexivity|]. intros k. cbn. rewrite lookup_union.
  destruct u as [u|]; cbn.
  - rewrite map_union_empty. by destruct (g !! k), (u !! k).
  - rewrite lookup_empty. by destruct (g !! k).
Qed.

(** ** ProcessStatus *)
Definition RefreshInterval : Z := 1 * Second.

(** The channel [stopSignal] is [None] while nil. *)
Record ProcessStatus := mkProcess {
  lastCpuTime : Z; stopSignal : option unit; stopped : bool; CpuUsage : spec_float; MemRss : Z; locked : bool;
}.

Definition NewProcessStatus : ProcessStatus := mkProcess 0 None false (S754_zero false) 0 false.

(** [Getrusage]: user time, system time and resident set. *)
Definition Process_Update (utime stime maxrss : Z) (p : ProcessStatus) : ProcessStatus :=
  let t := wrap64 (utime + stime) in
  mkProcess t (stopSignal p) (stopped p)
    (f_div (f_of_int (wrap64 (t - lastCpuTime p))) (f_of_int RefreshInterval)) maxrss (locked p).

(** A send on a nil channel never returns, and the deferred unlock with it. *)
Inductive outcome := Returned | Blocked.

Definition StopUpdate (p : ProcessStatus) : ProcessStatus * outcome :=
  if stopped p then (p, Returned)
  else
    match stopSignal p with
    | None => (mkProcess (lastCpuTime p) None true (CpuUsage p) (MemRss p) true, Blocked)
    | Some _ => (mkProcess (lastCpuTime p) None true (CpuUsage p) (MemRss p) (locked p), Returned)
    end.

(** ** VcapComponent *)

(** The goroutine that calls [Serve]. *)
Inductive server := NotStarted | Serving | ServeReturned (err : string) | ServerDone.

(** [listener]: [None] is nil, otherwise whether it is open; [quitCh]:
    [None] is nil, otherwise whether it is closed; [statusCh]: what is in the
    buffer of one element. *)
Record VcapComponent := mkComponent {
  Varz : GenericVarz; has_Logger : bool; InfoRoutes : gmap string (result string); Health : Handler;
  listener : option bool; statusCh : list (option string); quitCh : option bool;
  handler : option Handler; srv : server;
}.

(** The package variables [log] and [procStat]. *)
Record Package := mkPackage { log_set : bool; procStat : option ProcessStatus }.

Record Env := mkEnv {
  GenerateUUID : nat → result string; LocalIP : result string; LocalPort : result Z;
  NumCPU : Z; Now : Z; Listen : string → result unit;
}.

Definition set_Varz (v : GenericVarz) (c : VcapComponent) : VcapComponent :=
  mkComponent v (has_Logger c) (InfoRoutes c) (Health c) (listener c) (statusCh c) (quitCh c) (handler c) (srv c).

Definition set_host (h : string) (v : GenericVarz) : GenericVarz :=
  mkVarz (VType v) (Index v) h (Credentials v) (UUID v) (StartTime v) (NumCores v) (MemStat v) (Cpu v) (Uptime v).

Definition set_credentials (l : list string) (v : GenericVarz) : GenericVarz :=
  mkVarz (VType v) (Index v) (VHost v) l (UUID v) (StartTime v) (NumCores v) (MemStat v) (Cpu v) (Uptime v).

Definition set_uuid (u : string) (t : Z) (v : GenericVarz) : GenericVarz :=
  mkVarz (VType v) (Index v) (VHost v) (Credentials v) u t (NumCores v) (MemStat v) (Cpu v) (Uptime v).

Definition set_cores (n : Z) (v : GenericVarz) : GenericVarz :=
  mkVarz (VType v) (Index v) (VHost v) (Credentials v) (UUID v) (StartTime v) n (MemStat v) (Cpu v) (Uptime v).

(** [UpdateVarz]; [procStat] nil panics. *)
Definition UpdateVarz (now : Z) (pkg : Package) (c : VcapComponent) : result VcapComponent :=
  match procStat pkg with
  | None => Panic "nil pointer"
  | Some p =>
      let v := Varz c in
      Ok (set_Varz (mkVarz (VType v) (Index v) (VHost v) (Credentials v) (UUID v) (StartTime v) (NumCores v)
                      (MemRss p) (CpuUsage p) (wrap64 (now - StartTime v))) c)
  end.

(** An information route; what the encoder makes of its value is the map's
    content, and an encoding error writes nothing. *)
Definition info_handler (m : result string) : Handler := λ r w,
  let w := set_header "Connection" "close" w in
  let w := set_header "Content-Type" "application/json" w in
  let w := WriteHeader 200 w in
  match m with
  | Ok b => (r, Write (b +:+ String (byte_of 10) EmptyString) w)
  | _ => (r, w)
  end.

(** The comparison with the credentials; fewer than two of them panic in
    [Authenticate] and are excluded by [Start]. *)
Definition credentials_match (creds : list string) : Authenticator := λ user password,
  match creds with
  | c0 :: c1 :: _ => bool_decide (user = c0) && bool_decide (password = c1)
  | _ => false
  end.

Section Component.
  Context `{!MapOrder string}.
  Variable builtin : Builtin → Handler.

Definition register_info (acc : result ServeMux) (pm : string * result string) : result ServeMux :=
  let* mux := acc in Handle mux pm.1 (info_handler pm.2).

(** The patterns [ListenAndServe] registers. *)
Definition routes (broker : option Handler) (c : VcapComponent) : result ServeMux :=
  let* mux := match broker with Some b => Handle NewServeMux "/" b | None => Ok NewServeMux end in
  let* mux := Handle mux "/health" (Health c) in
  foldl register_info (Ok mux) (go_range (InfoRoutes c)).

Definition ListenAndServe (env : Env) (broker : option Handler) (c : VcapComponent) : result VcapComponent :=
  let* hs := routes broker c in
  let f := credentials_match (Credentials (Varz c)) in
  let s := BasicAuth_ServeHTTP (mux_ServeHTTP builtin hs) f in
  match Listen env (VHost (Varz c)) with
  | Ok _ => Ok (mkComponent (Varz c) (has_Logger c) (InfoRoutes c) (Health c) (Some true) [] (quitCh c) (Some s) Serving)
  | Err e => Ok (mkComponent (Varz c) (has_Logger c) (InfoRoutes c) (Health c) (listener c) [Some e] (quitCh c) (handler c) (srv c))
  | Panic w => Panic w
  end.

(** [log.Error] followed by [return err]. *)
Definition log_and_return {A} (pkg : Package) (e : string) : result A :=
  if log_set pkg then Err e else Panic "nil pointer".

(** The host, as given or from the machine's address and a free port. *)
Definition choose_host (env : Env) (pkg : Package) (v : GenericVarz) : result GenericVarz :=
  if decide (VHost v = EmptyString) then
    match LocalIP env with
    | Ok host =>
        match LocalPort env with
        | Ok port => Ok (set_host (host +:+ String ":" (Itoa port)) v)
        | Err e => log_and_return pkg e
        | Panic w => Panic w
        end
    | Err e => log_and_return pkg e
    | Panic w => Panic w
    end
  else Ok v.

Definition choose_credentials (env : Env) (c : VcapComponent) (v : GenericVarz) : result GenericVarz :=
  if decide (length (Credentials v) = 2%nat) then Ok v
  else if negb (has_Logger c) then Panic "nil pointer"
  else
    let* user := GenerateUUID env 1 in
    let* password := GenerateUUID env 2 in
    Ok (set_credentials [user; password] v).

(** [Start]; of a start that fails only the error is kept. *)
Definition Start (env : Env) (broker : option Handler) (pkg : Package) (c : VcapComponent) :
    result (Package * VcapComponent) :=
  if decide (VType (Varz c) = EmptyString) then log_and_return pkg "type is required"
  else
    let* guid := GenerateUUID env 0 in
    let v := set_uuid (Itoa (Index (Varz c)) +:+ String "-" guid) (Now env) (Varz c) in
    let* v := choose_host env pkg v in
    let* v := choose_credentials env c v in
    let pkg := mkPackage (log_set pkg || has_Logger c) (Some NewProcessStatus) in
    let c := mkComponent (set_cores (NumCPU env) v) (has_Logger c) (InfoRoutes c) (Health c) (listener c)
               (statusCh c) (Some false) (handler c) (srv c) in
    let* c := ListenAndServe env broker c in
    Ok (pkg, c).

(** ** Register *)
Variable marshal : GenericVarz → result string.

(** The subscription to vcap.component.discover: the component after the
    message and what it publishes. *)
Definition on_discover (now : Z) (reply : string) (c : VcapComponent) : VcapComponent * list (string * string) :=
  if decide (reply = EmptyString) then (c, [])
  else
    let v := Varz c in
    let v := mkVarz (VType v) (Index v) (VHost v) (Credentials v) (UUID v) (StartTime v) (NumCores v)
               (MemStat v) (Cpu v) (wrap64 (now - StartTime v)) in
    match marshal v with
    | Ok b => (set_Varz v c, [(reply, b)])
    | _ => (set_Varz v c, [])
    end.

Definition Component_Register (c : VcapComponent) : result (list (string * string)) :=
  let* b := marshal (Varz c) in Ok [("vcap.component.announce", b)].

(** ** Stop, beside the goroutine of the server *)
Inductive stop_pc := Closing | ClosingListener | Waiting | Stopped | Panicked.

Definition with_quit (q : option bool) (c : VcapComponent) : VcapComponent :=
  mkComponent (Varz c) (has_Logger c) (InfoRoutes c) (Health c) (listener c) (statusCh c) q (handler c) (srv c).
Definition with_listener (l : option bool) (c : VcapComponent) : VcapComponent :=
  mkComponent (Varz c) (has_Logger c) (InfoRoutes c) (Health c) l (statusCh c) (quitCh c) (handler c) (srv c).
Definition with_server (st : list (option string)) (s : server) (c : VcapComponent) : VcapComponent :=
  mkComponent (Varz c) (has_Logger c) (InfoRoutes c) (Health c) (listener c) st (quitCh c) (handler c) s.

Inductive step : VcapComponent * stop_pc → VcapComponent * stop_pc → Prop :=
  | step_close c : quitCh c = Some false → step (c, Closing) (with_quit (Some true) c, ClosingListener)
  | step_close_panic c : quitCh c ≠ Some false → step (c, Closing) (c, Panicked)
  | step_no_listener c : listener c = None → step (c, ClosingListener) (c, Stopped)
  | step_listener c b : listener c = Some b → step (c, ClosingListener) (with_listener (Some false) c, Waiting)
  | step_receive c e st : statusCh c = e :: st → step (c, Waiting) (with_server st (srv c) c, Stopped)
  | step_serve_returns c pc e :
      (** any time: an accept error, or the listener was closed *)
      srv c = Serving → step (c, pc) (with_server (statusCh c) (ServeReturned e) c, pc)
  | step_send c pc e :
      srv c = ServeReturned e → statusCh c = [] →
      step (c, pc)
        (with_server [if decide (quitCh c = Some true) then None else Some e] ServerDone c, pc).
End Component.

(** ** The server's handler *)
Lemma register_info_stuck l acc mux : foldl register_info acc l = Ok mux → is_ok acc.
Proof.
  revert acc. induction l as [|pm l IH]; intros acc; cbn; [by eexists|].
  intros (mux' & H)%IH. unfold register_info in H. by apply rbind_Ok in H as (m & -> & _); eexists.
Qed.

Lemma register_info_Ok l mux mux' :
  foldl register_info (Ok mux) l = Ok mux' →
  (∀ q e, mux_m mux !! q = Some e → explicit e = true → mux_m mux' !! q = Some e) ∧
  (∀ p m, (p, m) ∈ l → mux_m mux' !! p = Some (mkEntry true (ToHandler (info_handler m)) p)) ∧
  (Forall (λ p, HasPrefix p "/" = true) l.*1 → mux_hosts mux' = mux_hosts mux).
Proof.
  revert mux. induction l as [|[p m] l IH]; intros mux.
  { intros [= <-]. split_and!; [done| |done]. by intros p m H%elem_of_nil. }
  cbn [foldl register_info rbind fst snd]. intros H.
  destruct (register_info_stuck _ _ _ H) as [mux1 Hp]. rewrite Hp in H.
  destruct (Handle_Ok _ _ _ _ Hp) as (Hnew & Hkeep & Hhosts). destruct (IH _ H) as (IHk & IHn & IHh).
  split_and!.
  - intros q e Hq He. apply IHk; [|done]. by apply Hkeep.
  - intros p' m' [[= -> ->]|Hin]%elem_of_cons; [by apply IHk|by apply IHn].
  - intros HF. cbn in HF. inversion_clear HF as [|?? Hpre HF']. by rewrite IHh, Hhosts.
Qed.

Section ComponentFacts.
  Context `{!MapOrder string}.
  Variable builtin : Builtin → Handler.

(** The patterns of the map start with a slash: none names a host. *)
Definition rooted (c : VcapComponent) : Prop := ∀ p m, InfoRoutes c !! p = Some m → HasPrefix p "/" = true.

Lemma routes_Ok broker c mux :
  routes broker c = Ok mux → rooted c →
  mux_hosts mux = false ∧
  mux_m mux !! "/health" = Some (mkEntry true (ToHandler (Health c)) "/health") ∧
  (∀ p m, InfoRoutes c !! p = Some m → mux_m mux !! p = Some (mkEntry true (ToHandler (info_handler m)) p)).
Proof.
  unfold routes. intros (mux1 & H1 & (mux2 & H2 & H3)%rbind_Ok)%rbind_Ok Hr.
  assert (mux_hosts mux1 = false) as Hh1.
  { destruct broker as [b|]; [|by simplify_eq]. by apply Handle_Ok in H1 as (_ & _ & ->). }
  destruct (Handle_Ok _ _ _ _ H2) as (Hn & Hk & Hh2). destruct (register_info_Ok _ _ _ H3) as (HK & HN & HH).
  split_and!.
  - rewrite HH; [by rewrite Hh2|]. apply Forall_forall. intros p ([p' m] & -> & Hin)%list_elem_of_fmap.
    apply elem_of_go_range in Hin. by eapply Hr.
  - by apply HK.
  - intros p m Hp. by apply HN, elem_of_go_range.
Qed.

(** What a successful start leaves. *)
Lemma Start_Ok env broker pkg c pkg' c' :
  Start builtin env broker pkg c = Ok (pkg', c') →
  ∃ user password mux,
    Credentials (Varz c') = [user; password] ∧ quitCh c' = Some false ∧ routes broker c = Ok mux ∧
    ((listener c' = Some true ∧ statusCh c' = [] ∧ srv c' = Serving ∧
      handler c' = Some (BasicAuth_ServeHTTP (mux_ServeHTTP builtin mux) (credentials_match [user; password]))) ∨
     (listener c' = listener c ∧ (∃ e, statusCh c' = [Some e]) ∧ srv c' = srv c ∧ handler c' = handler c)).
Proof.
  unfold Start. case_decide; [by unfold log_and_return; destruct (log_set pkg)|].
  intros (guid & _ & (v1 & H1 & (v2 & H2 & (c2 & H3 & [= <- <-])%rbind_Ok)%rbind_Ok)%rbind_Ok)%rbind_Ok.
  assert (∃ user password, Credentials v2 = [user; password]) as (u & p & Hc).
  { revert H2. unfold choose_credentials. case_decide as Hl.
    - intros [= ->]. destruct (Credentials v2) as [|u [|p [|]]]; try done. eauto.
    - destruct (has_Logger c); [|done]. cbn [negb].
      intros (u & _ & (p & _ & [= <-])%rbind_Ok)%rbind_Ok. by exists u, p. }
  unfold ListenAndServe in H3. apply rbind_Ok in H3 as (mux & Hm & H3).
  cbn [Varz set_cores Credentials VHost listener handler srv quitCh InfoRoutes Health] in H3.
  exists u, p, mux. destruct (Listen env _); simplify_eq; cbn; rewrite Hc; split_and!; try done.
  - by left.
  - right. split_and!; try done. by eexists.
Qed.

(** Two credentials that are given are kept. *)
Lemma Start_credentials env broker pkg c pkg' c' u p :
  Start builtin env broker pkg c = Ok (pkg', c') → Credentials (Varz c) = [u; p] → Credentials (Varz c') = [u; p].
Proof.
  unfold Start. case_decide; [by unfold log_and_return; destruct (log_set pkg)|]. intros HS Hc. revert HS.
  intros (guid & _ & (v1 & H1 & (v2 & H2 & (c2 & H3 & [= <- <-])%rbind_Ok)%rbind_Ok)%rbind_Ok)%rbind_Ok.
  assert (Credentials v1 = [u; p]) as Hv1.
  { revert H1. unfold choose_host, log_and_return. case_decide; [|by intros [= <-]].
    destruct (LocalIP env), (LocalPort env), (log_set pkg); try done; by intros [= <-]. }
  assert (v2 = v1) as ->.
  { revert H2. unfold choose_credentials. rewrite Hv1. by intros [= ->]. }
  unfold ListenAndServe in H3. apply rbind_Ok in H3 as (mux & Hm & H3).
  destruct (Listen env _); simplify_eq; done.
Qed.

(** The answer to a request that is not let in. *)
Definition refused (res : Request * Response) : Prop :=
  sent res.2 = Some (401, {["Www-Authenticate" := ["Basic"]]}) ∧
  body res.2 = "401 Unauthorized" +:+ String (byte_of 10) EmptyString.

Lemma credentials_match_spec u p u' p' :
  credentials_match [u; p] u' p' = bool_decide (Some (u', p') = Some (u, p)).
Proof. cbn. do 3 case_bool_decide; naive_solver. Qed.

Lemma auth_refuses h u p r :
  Path r ≠ "/health" → extractCredentials r ≠ Some (u, p) →
  refused (BasicAuth_ServeHTTP h (credentials_match [u; p]) r new_response).
Proof.
  intros Hp Hc. unfold BasicAuth_ServeHTTP, authenticatedEndpoint. rewrite bool_decide_eq_false_2 by done.
  cbn [negb andb].
  assert (match extractCredentials r with
    | Some (user, password) => negb (credentials_match [u; p] user password) | None => true end = true) as ->.
  { destruct (extractCredentials r) as [[u' p']|]; [|done].
    by rewrite credentials_match_spec, bool_decide_eq_false_2. }
  split; by vm_compute.
Qed.

Lemma auth_accepts h u p r w :
  extractCredentials r = Some (u, p) ∨ Path r = "/health" →
  BasicAuth_ServeHTTP h (credentials_match [u; p]) r w = h r w.
Proof.
  unfold BasicAuth_ServeHTTP, authenticatedEndpoint. intros [-> | ->]; [|done].
  rewrite credentials_match_spec, (bool_decide_eq_true_2 (Some _ = _)) by done. by rewrite andb_false_r.
Qed.

(** C19. Access to the status server.  After a start that succeeded in
    listening, with information routes that name no host: a request for
    anything but /health is answered 401 unless it carries the two
    credentials; /health is answered by the health check without any; an
    information route requested with the credentials of the client library's
    SetBasicAuth is answered with its value; and when one of the credentials
    contains a colon nothing but /health is ever answered. *)
Theorem component_access env broker pkg c pkg' c' h :
  Start builtin env broker pkg c = Ok (pkg', c') → handler c = None → handler c' = Some h → rooted c →
  ∃ user password, Credentials (Varz c') = [user; password] ∧
    (∀ r, Path r ≠ "/health" → extractCredentials r ≠ Some (user, password) → refused (h r new_response)) ∧
    (∀ r w, Path r = "/health" → RequestURI r ≠ "*" → h r w = Health c r w) ∧
    (∀ r w m, InfoRoutes c !! Path r = Some m → cleanPath (Path r) = Path r → RequestURI r ≠ "*" →
       Header_Get (rq_Header r) "Authorization" = "Basic " +:+ EncodeToString (user +:+ String ":" password) →
       count_char ":" user = 0%nat → count_char ":" password = 0%nat → h r w = info_handler m r w) ∧
    (count_char ":" user ≠ 0%nat ∨ count_char ":" password ≠ 0%nat →
       ∀ r, Path r ≠ "/health" → refused (h r new_response)).
Proof.
  intros HS Hnone Hh Hr. destruct (Start_Ok _ _ _ _ _ _ HS) as (u & p & mux & Hc & _ & Hm & [HL|HL]);
    [|destruct HL as (_ & _ & _ & HL); congruence].
  destruct HL as (_ & _ & _ & Hh'). assert (h = BasicAuth_ServeHTTP (mux_ServeHTTP builtin mux) (credentials_match [u; p])) as -> by congruence.
  destruct (routes_Ok _ _ _ Hm Hr) as (Hhosts & Hhealth & Hinfo).
  exists u, p. split_and!; [done|intros; by apply auth_refuses|..].
  - intros r w Hp Hu. rewrite auth_accepts by by right. rewrite <-Hp in Hhealth. apply mux_serves; try done; by rewrite Hp.
  - intros r w m Hi Hcl Hu Ha Hcu Hcp. rewrite auth_accepts by (left; by apply extract_BasicAuth).
    apply mux_serves; try done; [by apply Hinfo|]. intros He. pose proof (Hr _ _ Hi) as Hpre. by rewrite He in Hpre.
  - intros Hcolon r Hp. apply auth_refuses; [done|].
    intros (e & _ & _ & _ & Hcu & Hcp)%extractCredentials_spec. by destruct Hcolon.
Qed.
(** ** Stopping *)

(** How many steps a state can still make. *)
Definition fuel_of (s : VcapComponent * stop_pc) : nat :=
  match s.2 with Closing => 3 | ClosingListener => 2 | Waiting => 1 | Stopped | Panicked => 0 end +
  match srv s.1 with Serving => 2 | ServeReturned _ => 1 | NotStarted | ServerDone => 0 end.

(** The quit channel is closed once, by [Stop]; while [Stop] runs a listener
    comes with a goroutine that has sent or will send its status into an
    empty buffer. *)
Definition stopping (s : VcapComponent * stop_pc) : Prop :=
  let '(c, pc) := s in
  match pc with
  | Closing => quitCh c = Some false
  | Panicked => False
  | _ => quitCh c = Some true
  end ∧
  match srv c with
  | NotStarted => listener c = None ∧ pc ≠ Waiting
  | Serving | ServeReturned _ => (∃ b, listener c = Some b) ∧ statusCh c = [] ∧ pc ≠ Stopped
  | ServerDone => (∃ b, listener c = Some b) ∧ (pc = Stopped ∨ ∃ e, statusCh c = [e])
  end.

Lemma stopping_step s s' : stopping s → step s s' → stopping s' ∧ (fuel_of s' < fuel_of s)%nat.
Proof.
  intros Hs Hst.
  destruct Hst as [c Hq'|c Hq'|c Hl|c b Hl|c e st Hst|c pc e Hsrv|c pc e Hsrv Hst]; cbn in *; destruct Hs as [Hq Hv]; try done.
  - split; [split; [done|]|lia]. by destruct (srv c); intuition.
  - split; [split; [done|]|lia]. rewrite Hl in *. destruct (srv c); naive_solver.
  - split; [split; [done|]|lia]. rewrite Hl in *. destruct (srv c); naive_solver.
  - split; [split; [done|]|lia]. rewrite Hst in *. destruct (srv c); naive_solver.
  - rewrite Hsrv in *. split; [split; [done|]|lia]. naive_solver.
  - rewrite Hsrv in *. split; [split; [done|]|lia]. naive_solver.
Qed.

Lemma stopping_nf s :
  stopping s → nf step s → s.2 = Stopped ∧ (srv s.1 = ServerDone ∨ (srv s.1 = NotStarted ∧ listener s.1 = None)).
Proof.
  destruct s as [c pc]. cbn. intros [Hq Hv] Hnf.
  assert (∀ s', ~ step (c, pc) s') as Hno by (intros s' Hs'; apply Hnf; by exists s').
  destruct (srv c) eqn:Es.
  - destruct pc; try done; [by destruct (Hno _ (step_close c Hq))| |by destruct Hv|by naive_solver].
    by destruct (Hno _ (step_no_listener c (proj1 Hv))).
  - by destruct (Hno _ (step_serve_returns c pc "use of closed network connection" Es)).
  - by destruct (Hno _ (step_send c pc err Es (proj1 (proj2 Hv)))).
  - destruct Hv as [[b Hb] Hv]. destruct pc; try done;
      [by destruct (Hno _ (step_close c Hq))|by destruct (Hno _ (step_listener c b Hb))| |by eauto].
    destruct Hv as [|[e He]]; [done|]. by destruct (Hno _ (step_receive c e [] He)).
Qed.

(** C20. Stopping ends.  From a component that was started once, every run of
    Stop beside the goroutine of the server has at most five steps, reaches
    no panic, and where it cannot go on Stop has returned and the goroutine,
    if the component listened, has ended. *)
Theorem component_stop_returns env broker pkg c pkg' c' n s :
  Start builtin env broker pkg c = Ok (pkg', c') → listener c = None → srv c = NotStarted →
  nsteps step n (c', Closing) s →
  (n ≤ 5)%nat ∧ s.2 ≠ Panicked ∧
  (nf step s → s.2 = Stopped ∧ (srv s.1 = ServerDone ∨ (srv s.1 = NotStarted ∧ listener s.1 = None))).
Proof.
  intros HS Hl Hs Hrun.
  assert (stopping (c', Closing) ∧ (fuel_of (c', Closing) ≤ 5)%nat) as [Hinv Hfuel].
  { destruct (Start_Ok _ _ _ _ _ _ HS) as (u & p & mux & _ & Hq & _ & [(Hl' & Hst & Hsv & _)|(Hl' & _ & Hsv & _)]);
      cbn; rewrite Hsv, Hl', ?Hl, ?Hs, ?Hst; (split; [split; [done|]|lia]); [by eauto|done]. }
  assert (stopping s ∧ (n + fuel_of s ≤ fuel_of (c', Closing))%nat) as [Hend Hlen].
  { clear -Hrun Hinv. induction Hrun as [s|n s1 s2 s3 H12 Hrun IH]; [by split; [|lia]|].
    destruct (stopping_step _ _ Hinv H12) as [H2 Hlt]. destruct (IH H2). split; [done|lia]. }
  split_and!; [lia| |by apply stopping_nf]. destruct s as [? []]; try done. by destruct Hend.
Qed.
End ComponentFacts.

(** ** Witnesses *)
Definition example_varz : GenericVarz :=
  mkVarz "Router" 0 "127.0.0.1:8080" ["user"; "secret"] EmptyString 0 0 0 (S754_zero false) 0.

Definition example_component : VcapComponent :=
  mkComponent example_varz true {["/routes" := Ok "{}"]} Healthcheck_ServeHTTP None [] None None NotStarted.

Definition example_env : Env := mkEnv (λ _, Ok "guid") (Ok "10.0.0.1") (Ok 4000) 4 1000 (λ _, Ok tt).

Definition no_builtin : Builtin → Handler := λ _ r w, (r, w).

Definition example_request (path auth : string) : Request :=
  mkRequest "GET" "localhost" path path {["Authorization" := [auth]]} false 1.

(** The response to a request for /routes, and its status. *)
Definition example_response (auth : string) : result (option Z * string) :=
  let* '(_, c') := Start no_builtin example_env None (mkPackage false None) example_component in
  match handler c' with
  | Some h => let w := (h (example_request "/routes" auth) new_response).2 in Ok (fst <$> sent w, body w)
  | None => Err "not listening"
  end.

Example status_server_answers :
  example_response ("Basic " +:+ EncodeToString "user:secret") = Ok (Some 200, "{}" +:+ String (byte_of 10) EmptyString) ∧
  example_response ("Basic " +:+ EncodeToString "user:other") =
    Ok (Some 401, "401 Unauthorized" +:+ String (byte_of 10) EmptyString).
Proof. by vm_compute. Qed.

Definition example_start : result (Package * VcapComponent) :=
  Start no_builtin example_env None (mkPackage false None) example_component.

Definition started {A} (f : VcapComponent → A) : option A :=
  match example_start with Ok (_, c) => Some (f c) | _ => None end.

Lemma component_access_witness :
  ∃ pkg' c' h, example_start = Ok (pkg', c') ∧ handler c' = Some h ∧
    refused (h (example_request "/routes" "Basic dTpw") new_response).
Proof.
  assert (started (λ c, (Credentials (Varz c), bool_decide (is_Some (handler c)))) = Some (["user"; "secret"], true)) as Hst
    by by vm_compute.
  unfold started in Hst. destruct example_start as [[pkg' c']| |] eqn:HS; [|discriminate Hst..].
  injection Hst as Hu [h Hh]%bool_decide_eq_true_1. exists pkg', c', h. split; [done|]. split; [done|].
  destruct (component_access no_builtin example_env None (mkPackage false None) example_component pkg' c' h
    HS eq_refl Hh) as (u & p & Hc & Href & _).
  { intros q m Hm. change (({["/routes" := Ok "{}"]} : gmap string (result string)) !! q = Some m) in Hm. apply lookup_singleton_Some in Hm as [<- _]. reflexivity. }
  rewrite Hu in Hc. injection Hc as <- <-. apply Href; [done|]. by vm_compute.
Defined.

Lemma component_stop_returns_witness :
  ∃ pkg' c' n s, example_start = Ok (pkg', c') ∧
    nsteps step n (c', Closing) s ∧ s.2 = Waiting ∧ (n ≤ 5)%nat ∧ s.2 ≠ Panicked.
Proof.
  assert (started (λ c, (quitCh c, listener c)) = Some (Some false, Some true)) as Hst by by vm_compute.
  unfold started in Hst. destruct example_start as [[pkg' c']| |] eqn:HS; [|discriminate Hst..].
  injection Hst as Hq Hl. set (c1 := with_quit (Some true) c'). set (c2 := with_listener (Some false) c1).
  assert (nsteps step 2 (c', Closing) (c2, Waiting)) as Hrun.
  { eapply nsteps_l; [by apply step_close|]. eapply nsteps_l; [by apply (step_listener c1 true)|]. apply nsteps_O. }
  exists pkg', c', 2%nat, (c2, Waiting). split; [done|]. split; [done|]. split; [done|].
  destruct (component_stop_returns no_builtin example_env None (mkPackage false None) example_component pkg' c' 2
    (c2, Waiting) HS eq_refl eq_refl Hrun) as (Hn & Hp & _). by split.
Defined.
