(* ===== verification/Logger.v ===== *)
(** logger/logger.go and logger/lager_adapter.go.

    A logger keeps the fields of its context in a Go slice and appends to it
    with [append], which writes into the spare capacity of the array when
    there is some.  Two slices may share an array, so the arrays are a store
    and a slice is a reference into it.  What reaches zap is the sequence of
    [entry]s; whether zap's level lets an entry through is its own matter. *)

From Stdlib Require Import Ascii ZArith Lia.
From stdpp Require Import base gmap list strings.
From S2P Require Import Prelude GoStrings.

Open Scope go_scope.

(** ** Slices of fields *)
Record Field := mkField { f_key : string; f_val : string }.

#[global] Instance Field_eq_dec : EqDecision Field.
Proof. solve_decision. Defined.

(** The element of a fresh array. *)
Definition zero_field : Field := mkField EmptyString EmptyString.

Record slice := mkSlice { sl_arr : nat; sl_len : nat; sl_cap : nat }.

(** The nil slice; without capacity its array is never touched. *)
Definition nil_slice : slice := mkSlice 0 0 0.

Notation store := (list (list Field)).

(** The capacity the runtime chooses when [append] needs more room: from the
    old capacity and the length needed. *)
Class SliceGrowth := {
  grow : nat → nat → nat;
  grow_enough : ∀ cap n, n ≤ grow cap n
}.

Definition read (st : store) (s : slice) : list Field := take (sl_len s) (default [] (st !! sl_arr s)).

Section Logger.
  Context `{!SliceGrowth}.

Definition append (s : slice) (fs : list Field) (st : store) : slice * store :=
  let n := sl_len s + length fs in
  if n <=? sl_cap s then
    (mkSlice (sl_arr s) n (sl_cap s),
     alter (λ a, take (sl_len s) a ++ fs ++ drop n a) (sl_arr s) st)
  else
    let cap := grow (sl_cap s) n in
    (mkSlice (length st) n cap, st ++ [read st s ++ fs ++ replicate (cap - n) zero_field]).

(** ** logger.go *)
Inductive Level := DebugLevel | InfoLevel | WarnLevel | ErrorLevel | DPanicLevel | PanicLevel | FatalLevel.

(** zap's number of a level. *)
Definition level_int (l : Level) : Z :=
  match l with
  | DebugLevel => -1 | InfoLevel => 0 | WarnLevel => 1 | ErrorLevel => 2
  | DPanicLevel => 3 | PanicLevel => 4 | FatalLevel => 5
  end.

Definition levelNumber (l : Level) : Z := wrap64 (level_int l + 1).

(** [bound] is the source the embedded zap logger was made with. *)
Record logger := mkLogger { source : string; context : slice; bound : string }.

Record entry := mkEntryL { e_source : string; e_level : Level; e_msg : string; e_data : list Field }.

Definition NewLogger (component : string) : logger := mkLogger component nil_slice component.

Definition Session (l : logger) (component : string) : logger :=
  let newSource := source l +:+ String "." component in
  mkLogger newSource (context l) newSource.

Definition SessionName (l : logger) : string := source l.

(** The fields nested under "data", read when the entry is encoded. *)
Definition wrapDataFields (l : logger) (fs : list Field) (st : store) : list Field * store :=
  let '(s, st) := append (context l) fs st in (read st s, st).

Definition With (l : logger) (fs : list Field) (st : store) : logger * store :=
  let '(s, st) := append (context l) fs st in (mkLogger (source l) s (bound l), st).

(** [Log], and with its level each of Debug, Info, Warn, Error, DPanic, Panic
    and Fatal. *)
Definition Log (l : logger) (level : Level) (msg : string) (fs : list Field) (st : store) : entry * store :=
  let '(data, st) := wrapDataFields l fs st in (mkEntryL (bound l) level msg data, st).

(** ** lager_adapter.go *)
Definition dataToFields `{!MapOrder string} (data : list (gmap string string)) : list Field :=
  data ≫= λ datum, (λ kv, mkField kv.1 kv.2) <$> go_range datum.

Definition appendError (err : string) (fs : list Field) : list Field := fs ++ [mkField "error" err].

(** [data] is nil when no data argument is given. *)
Definition Adapter_Session `{!MapOrder string} (l : logger) (task : string) (data : list (gmap string string)) (st : store) :
    logger * store :=
  match data with
  | [] => (Session l task, st)
  | _ => With l (dataToFields data) st
  end.

Definition Adapter_WithData `{!MapOrder string} (l : logger) (data : gmap string string) (st : store) : logger * store :=
  With l (dataToFields [data]) st.

Definition Adapter_Debug `{!MapOrder string} (l : logger) (action : string) (data : list (gmap string string)) (st : store) :=
  Log l DebugLevel action (dataToFields data) st.
Definition Adapter_Info `{!MapOrder string} (l : logger) (action : string) (data : list (gmap string string)) (st : store) :=
  Log l InfoLevel action (dataToFields data) st.
Definition Adapter_Error `{!MapOrder string} (l : logger) (action err : string) (data : list (gmap string string)) (st : store) :=
  Log l ErrorLevel action (appendError err (dataToFields data)) st.
Definition Adapter_Fatal `{!MapOrder string} (l : logger) (action err : string) (data : list (gmap string string)) (st : store) :=
  Log l FatalLevel action (appendError err (dataToFields data)) st.

(** ** Histories *)

(** Operations on the loggers made so far, by number. *)
Inductive op :=
  | OSession (i : nat) (component : string)
  | OWith (i : nat) (fs : list Field)
  | OLog (i : nat) (level : Level) (msg : string) (fs : list Field).

Record state := mkState { loggers : list logger; st_store : store; out : list entry }.

Definition perform (s : state) (o : op) : state :=
  match o with
  | OSession i component =>
      match loggers s !! i with
      | Some l => mkState (loggers s ++ [Session l component]) (st_store s) (out s)
      | None => s
      end
  | OWith i fs =>
      match loggers s !! i with
      | Some l => let '(l', st) := With l fs (st_store s) in mkState (loggers s ++ [l']) st (out s)
      | None => s
      end
  | OLog i level msg fs =>
      match loggers s !! i with
      | Some l => let '(e, st) := Log l level msg fs (st_store s) in mkState (loggers s) st (out s ++ [e])
      | None => s
      end
  end.

Definition initial (component : string) : state := mkState [NewLogger component] [] [].
Definition run (component : string) (l : list op) : state := foldl perform (initial component) l.

(** The specification: a logger is a name and the fields given to it. *)
Record aLogger := mkA { a_source : string; a_context : list Field }.
Record aState := mkAS { a_loggers : list aLogger; a_out : list entry }.

Definition a_perform (s : aState) (o : op) : aState :=
  match o with
  | OSession i component =>
      match a_loggers s !! i with
      | Some l => mkAS (a_loggers s ++ [mkA (a_source l +:+ String "." component) (a_context l)]) (a_out s)
      | None => s
      end
  | OWith i fs =>
      match a_loggers s !! i with
      | Some l => mkAS (a_loggers s ++ [mkA (a_source l) (a_context l ++ fs)]) (a_out s)
      | None => s
      end
  | OLog i level msg fs =>
      match a_loggers s !! i with
      | Some l => mkAS (a_loggers s) (a_out s ++ [mkEntryL (a_source l) level msg (a_context l ++ fs)])
      | None => s
      end
  end.

Definition a_run (component : string) (l : list op) : aState :=
  foldl a_perform (mkAS [mkA component []] []) l.

(** [With] is called on loggers without context, as the repository does. *)
Fixpoint with_once (s : aState) (l : list op) : Prop :=
  match l with
  | [] => True
  | o :: l =>
      match o with
      | OWith i _ => match a_loggers s !! i with Some a => a_context a = [] | None => True end
      | _ => True
      end ∧ with_once (a_perform s o) l
  end.
End Logger.

(** ** Lemmas *)
Definition valid (st : store) (s : slice) : Prop :=
  sl_len s ≤ sl_cap s ∧ (sl_cap s = 0 ∨ ∃ a, st !! sl_arr s = Some a ∧ length a = sl_cap s).

(** An append to [s] leaves [s2] alone: another array, or nothing of [s2]
    lies behind [s]. *)
Definition apart (s s2 : slice) : Prop := sl_arr s = sl_arr s2 → sl_cap s ≠ 0 → sl_len s2 ≤ sl_len s ∨ sl_cap s2 = 0.

Section LoggerFacts.
  Context `{!SliceGrowth}.

Lemma append_read st s fs s' st' :
  valid st s → append s fs st = (s', st') → read st' s' = read st s ++ fs ∧ valid st' s'.
Proof.
  unfold append, valid. intros [Hlen Hv]. destruct (Nat.leb_spec (sl_len s + length fs) (sl_cap s)) as [Hle|Hgt]; intros [= <- <-].
  - destruct Hv as [H0|(a & Ha & Hl)].
    + assert (fs = []) as -> by (destruct fs; [done|cbn in *; lia]). assert (sl_len s = 0) as E by lia.
      unfold read. cbn. rewrite E, H0. cbn. split; [done|]. split; [lia|by left].
    + unfold read. cbn. rewrite list_lookup_alter_eq, Ha. cbn. split.
      * rewrite app_assoc. apply take_app_length'. rewrite length_app, length_take. lia.
      * split; [done|]. right. eexists. split; [done|]. rewrite !length_app, length_take, length_drop. lia.
  - pose proof (grow_enough (sl_cap s) (sl_len s + length fs)) as Hg.
    assert (length (read st s) = sl_len s) as Hr.
    { unfold read. rewrite length_take. destruct Hv as [H0|(a & -> & Hl)]; [lia|cbn; lia]. }
    unfold read at 1. cbn. rewrite lookup_app_r, Nat.sub_diag by lia. cbn. split.
    + rewrite app_assoc. apply take_app_length'. rewrite length_app. lia.
    + split; [done|]. right. eexists. split; [done|]. rewrite !length_app, length_replicate. lia.
Qed.

Lemma append_other st s fs s' st' s2 :
  valid st s → append s fs st = (s', st') → valid st s2 → apart s s2 → read st' s2 = read st s2 ∧ valid st' s2.
Proof.
  unfold append. intros [Hlen Hv] Happ [Hlen2 Hv2] Hap. revert Happ.
  destruct Hv2 as [H0|(b & Hb & Hb')].
  { intros _. unfold read, valid. assert (sl_len s2 = 0) as -> by lia. split; [done|]. split; [lia|by left]. }
  destruct (Nat.leb_spec (sl_len s + length fs) (sl_cap s)) as [Hle|Hgt]; intros [= <- <-].
  - unfold read, valid. destruct (decide (sl_arr s = sl_arr s2)) as [E|E].
    + rewrite E, list_lookup_alter_eq, Hb. cbn. destruct Hv as [H0|(a & Ha & Hl)].
      { assert (fs = []) as -> by (destruct fs; [done|cbn in *; lia]). assert (sl_len s = 0) as -> by lia.
        cbn. split; [done|]. split; [done|]. right. by exists b. }
      rewrite E, Hb in Ha. injection Ha as <-.
      assert (sl_len s2 ≤ sl_len s) as Hle2.
      { destruct (decide (sl_cap s = 0)) as [|Hc]; [lia|]. destruct (Hap E Hc); lia. }
      split.
      * rewrite take_app_le, take_take by (rewrite length_take; lia). f_equal. lia.
      * split; [done|]. right. eexists. split; [done|]. rewrite !length_app, length_take, length_drop. lia.
    + rewrite list_lookup_alter_ne, Hb by done. split; [done|]. split; [done|]. right. by exists b.
  - unfold read, valid. rewrite (lookup_app_l_Some _ _ _ _ Hb), Hb. split; [done|]. split; [done|]. right. by exists b.
Qed.

(** A logger stands for its specification. *)
Definition refines (st : store) (l : logger) (a : aLogger) : Prop :=
  source l = a_source a ∧ bound l = a_source a ∧ read st (context l) = a_context a ∧ valid st (context l) ∧
  (sl_len (context l) = 0 → sl_cap (context l) = 0).

(** Slices that share an array have the same length. *)
Definition aligned (ls : list logger) : Prop :=
  ∀ l1 l2, l1 ∈ ls → l2 ∈ ls → sl_arr (context l1) = sl_arr (context l2) →
    sl_cap (context l1) ≠ 0 → sl_cap (context l2) ≠ 0 → sl_len (context l1) = sl_len (context l2).

Definition represents (s : state) (a : aState) : Prop :=
  Forall2 (refines (st_store s)) (loggers s) (a_loggers a) ∧ aligned (loggers s) ∧ out s = a_out a.

Lemma aligned_apart ls l1 l2 : aligned ls → l1 ∈ ls → l2 ∈ ls → apart (context l1) (context l2).
Proof.
  intros Hal H1 H2 E Hc. destruct (decide (sl_cap (context l2) = 0)); [by right|left].
  rewrite (Hal l1 l2); done || lia.
Qed.

(** An append to the context of one of the loggers keeps them all. *)
Lemma append_keeps st ls als l fs s' st' :
  Forall2 (refines st) ls als → aligned ls → l ∈ ls → append (context l) fs st = (s', st') →
  Forall2 (refines st') ls als.
Proof.
  intros HF Hal Hl Happ.
  assert (valid st (context l)) as Hv.
  { apply list_elem_of_lookup in Hl as [i Hi]. by destruct (Forall2_lookup_l _ _ _ _ _ HF Hi) as (a & _ & _ & _ & _ & ? & _). }
  apply Forall2_same_length_lookup. split; [by eapply Forall2_length|].
  intros i l2 a2 H1 H2. destruct (Forall2_lookup_lr _ _ _ _ _ _ HF H1 H2) as (Hs & Hb & Hr & Hv2 & H0).
  destruct (append_other _ _ _ _ _ (context l2) Hv Happ Hv2) as [Hr' Hv'].
  { eapply aligned_apart; [done..|]. by eapply list_elem_of_lookup_2. }
  split_and!; try done. by rewrite Hr'.
Qed.

Lemma refines_None st ls als i : Forall2 (refines st) ls als → ls !! i = None → als !! i = None.
Proof. intros HF. rewrite !lookup_ge_None. by rewrite (Forall2_length _ _ _ HF). Qed.

Lemma represents_log s a i level msg fs :
  represents s a → represents (perform s (OLog i level msg fs)) (a_perform a (OLog i level msg fs)).
Proof.
  intros (HF & Hal & Ho). cbn. destruct (loggers s !! i) as [l|] eqn:Hi.
  - destruct (Forall2_lookup_l _ _ _ _ _ HF Hi) as (al & Ha & Hs & Hb & Hr & Hv & H0). rewrite Ha.
    unfold Log, wrapDataFields. destruct (append (context l) fs (st_store s)) as [s' st'] eqn:Happ.
    destruct (append_read _ _ _ _ _ Hv Happ) as [Hread _]. split_and!; cbn; [|done|by rewrite Ho, Hread, Hr, Hb].
    eapply append_keeps; [done..|by eapply list_elem_of_lookup_2|done].
  - by rewrite (refines_None _ _ _ _ HF Hi).
Qed.

(** A new logger keeps the others aligned when its context is that of an
    existing one or lies in an array of its own. *)
Lemma aligned_snoc ls l :
  aligned ls →
  (∀ l2, l2 ∈ ls → sl_arr (context l) = sl_arr (context l2) → sl_cap (context l) ≠ 0 → sl_cap (context l2) ≠ 0 →
     sl_len (context l) = sl_len (context l2)) →
  aligned (ls ++ [l]).
Proof.
  intros Hal Hn l1 l2 [H1|H1]%elem_of_app [H2|H2]%elem_of_app; try apply list_elem_of_singleton in H1 as ->;
    try apply list_elem_of_singleton in H2 as ->; [by apply Hal| |by apply Hn|done].
  intros E Hc1 Hc2. symmetry. by apply Hn.
Qed.

Lemma represents_session s a i c :
  represents s a → represents (perform s (OSession i c)) (a_perform a (OSession i c)).
Proof.
  intros (HF & Hal & Ho). cbn. destruct (loggers s !! i) as [l|] eqn:Hi.
  - destruct (Forall2_lookup_l _ _ _ _ _ HF Hi) as (al & Ha & Hs & Hb & Hr & Hv & H0). rewrite Ha.
    split_and!; cbn; [| |done].
    + apply Forall2_app; [done|]. constructor; [|constructor]. unfold refines; cbn. by rewrite Hs.
    + apply aligned_snoc; [done|]. intros l2 H2 E Hc1 Hc2. cbn in *. apply Hal; try done. by eapply list_elem_of_lookup_2.
  - by rewrite (refines_None _ _ _ _ HF Hi).
Qed.

Lemma represents_with s a i fs :
  represents s a → match a_loggers a !! i with Some al => a_context al = [] | None => True end →
  represents (perform s (OWith i fs)) (a_perform a (OWith i fs)).
Proof.
  intros (HF & Hal & Ho) Hempty. cbn. destruct (loggers s !! i) as [l|] eqn:Hi;
    [|by rewrite (refines_None _ _ _ _ HF Hi)].
  destruct (Forall2_lookup_l _ _ _ _ _ HF Hi) as (al & Ha & Hs & Hb & Hr & Hv & H0). rewrite Ha in *.
  assert (sl_len (context l) = 0) as Hl0.
  { rewrite Hempty in Hr. destruct Hv as [Hle [Hc|(b & Hb1 & Hb2)]]; [lia|].
    unfold read in Hr. rewrite Hb1 in Hr. apply (f_equal length) in Hr. rewrite length_take in Hr. cbn in Hr. lia. }
  unfold With. destruct (append (context l) fs (st_store s)) as [s' st'] eqn:Happ.
  destruct (append_read _ _ _ _ _ Hv Happ) as [Hread Hv']. split_and!; cbn; [| |done].
  - apply Forall2_app; [eapply append_keeps; [done..|by eapply list_elem_of_lookup_2|done]|].
    constructor; [|constructor]. split_and!; cbn; try done; [by rewrite Hread, Hr|].
    revert Happ. unfold append. rewrite Hl0, H0 by done. destruct fs as [|f fs]; cbn; intros [= <- _]; cbn; [done|lia].
  - apply aligned_snoc; [done|]. intros l2 H2 E Hc1 Hc2. cbn in *. exfalso.
    revert Happ. unfold append. rewrite Hl0, H0 by done. destruct fs as [|f fs]; cbn; intros [= <- _]; cbn in *; [lia|].
    apply list_elem_of_lookup in H2 as [j Hj].
    destruct (Forall2_lookup_l _ _ _ _ _ HF Hj) as (a2 & _ & _ & _ & _ & [_ [Hc|(b & Hb1 & _)]] & _); [done|].
    apply lookup_lt_Some in Hb1. lia.
Qed.

(** C26. Messages carry their context.  In a history where With is called on
    loggers without context (as everywhere in the repository), whatever
    capacities the runtime gives the arrays the loggers share, the entries
    that reach zap are exactly those of loggers that own their fields: the
    session name, the level, the message, and the context followed by the
    fields of the call. *)
Theorem logger_refines component l :
  with_once (mkAS [mkA component []] []) l → out (run component l) = a_out (a_run component l).
Proof.
  unfold run, a_run. assert (represents (initial component) (mkAS [mkA component []] [])) as Hr.
  { split_and!; [|by intros l1 l2 ->%list_elem_of_singleton ->%list_elem_of_singleton|done].
    constructor; [|constructor]. split_and!; try done. split; [done|by left]. }
  revert Hr. generalize (initial component) as s, (mkAS [mkA component []] []) as a.
  induction l as [|o l IH]; intros s a Hr Hw; cbn [foldl]; [apply Hr|].
  destruct Hw as [Ho Hw]. apply IH; [|done].
  destruct o; [by apply represents_session|by apply represents_with|by apply represents_log].
Qed.
End LoggerFacts.

(** Doubling, as the runtime does for short slices. *)
#[global] Program Instance doubling : SliceGrowth | 100 := { grow := λ cap n, Nat.max n (2 * cap) }.
Next Obligation. intros; cbn; lia. Qed.

Definition field (s : string) : Field := mkField s s.

Lemma logger_refines_witness :
  let l := [OSession 0 "registry"; OWith 1 [field "a"]; OLog 2 InfoLevel "m" [field "b"]; OSession 2 "x";
            OLog 3 WarnLevel "n" []] in
  with_once (mkAS [mkA "cf" []] []) l ∧ out (run "cf" l) = a_out (a_run "cf" l) ∧
  out (run "cf" l) = [mkEntryL "cf.registry" InfoLevel "m" [field "a"; field "b"];
                      mkEntryL "cf.registry.x" WarnLevel "n" [field "a"]].
Proof.
  intros l. assert (with_once (mkAS [mkA "cf" []] []) l) as Hw by by vm_compute.
  split; [done|]. split; [exact (logger_refines "cf" l Hw)|]. by vm_compute.
Defined.

(** The shared array.  With three calls of With in a row the array has
    room for a fourth field: a logger made from the third one loses its own
    field as soon as the third one logs a message with a field. *)
Theorem logger_context_overwritten :
  ∃ l, (a_out (a_run "cf" l) = [mkEntryL "cf" InfoLevel "m" [field "a"; field "b"; field "c"; field "e"];
                                mkEntryL "cf" InfoLevel "n" [field "a"; field "b"; field "c"; field "d"]]) ∧
       (out (run "cf" l) = [mkEntryL "cf" InfoLevel "m" [field "a"; field "b"; field "c"; field "e"];
                            mkEntryL "cf" InfoLevel "n" [field "a"; field "b"; field "c"; field "e"]]).
Proof.
  exists [OWith 0 [field "a"]; OWith 1 [field "b"]; OWith 2 [field "c"]; OWith 3 [field "d"];
          OLog 3 InfoLevel "m" [field "e"]; OLog 4 InfoLevel "n" []].
  by vm_compute.
Qed.
