(* ===== verification/Driver.v ===== *)
(** f5router/configwriter.go and f5router/driver.go: the file the
    configuration is written to, and the Python process that reads it.

    The writer is a sequence of system calls, each of which may fail; the
    states of the file after each call are kept, so that what a reader may see
    can be stated.  The driver is a transition system of three parties: the
    child process, the goroutine that starts and reaps it
    ([runBigIPDriver]), and [Run]. *)

From Stdlib Require Import Ascii ZArith Lia.
From stdpp Require Import base list strings relations.
From S2P Require Import Prelude GoStrings Logger.

Open Scope go_scope.

(** ** configwriter.go *)

(** The file: its text ([None] while it does not exist), the descriptors the
    writer has open and whether it holds the lock. *)
Record file := mkFile { content : option string; fds : nat; locked : bool }.

(** What the system calls answer; [write_n] is the number of bytes written. *)
Record OS := mkOS {
  open_err : option string; lock_err : option string; truncate_err : option string;
  write_n : nat; write_err : option string; unlock_err : option string; close_err : option string;
}.

(** [os.File.Write] reports an error unless it wrote everything. *)
Definition os_ok (os : OS) (input : string) : Prop :=
  write_n os ≤ String.length input ∧ (write_n os ≠ String.length input → write_err os ≠ None).

Definition outcome : Type := (nat * option string) * list file.

(** [O_CREATE]: a missing file appears empty. *)
Definition sys_open (f : file) : file := mkFile (Some (default EmptyString (content f))) (S (fds f)) (locked f).
Definition sys_lock (f : file) : file := mkFile (content f) (fds f) true.
Definition sys_truncate (f : file) : file := mkFile (Some EmptyString) (fds f) (locked f).
(** The first [n] bytes of the input, written over the start of the file: a
    longer old text keeps its end. *)
Definition sys_write (n : nat) (input : string) (f : file) : file :=
  let old := default EmptyString (content f) in
  mkFile (Some (String.substring 0 n input +:+ String.substring n (String.length old - n) old)) (fds f) (locked f).
Definition sys_unlock (f : file) : file := mkFile (content f) (fds f) false.
(** Closing a descriptor releases the locks of the process on the file. *)
Definition sys_close (f : file) : file := mkFile (content f) (fds f - 1) false.

(** [_write]: the result and the states passed through, the last one first. *)
Definition _write (os : OS) (input : string) (f : file) : outcome :=
  match lock_err os with
  | Some e => ((0, Some e), [f])
  | None =>
      let f1 := sys_lock f in
      match truncate_err os with
      | Some e => ((0, Some e), [f1; f])
      | None =>
          let f2 := sys_truncate f1 in
          let f3 := sys_write (write_n os) input f2 in
          match write_err os with
          | Some e => ((write_n os, Some e), [f3; f2; f1; f])
          | None =>
              match unlock_err os with
              | Some e => ((write_n os, Some e), [f3; f2; f1; f])
              | None => ((write_n os, None), [sys_unlock f3; f3; f2; f1; f])
              end
          end
      end
  end.

(** [Write], with the deferred close: its error counts when there is none
    yet. *)
Definition Write (os : OS) (input : string) (f : file) : outcome :=
  match open_err os with
  | Some e => ((0, Some e), [f])
  | None =>
      let '((n, err), tr) := _write os input (sys_open f) in
      let last := default f (head tr) in
      ((n, match err with Some e => Some e | None => close_err os end), sys_close last :: tr ++ [f])
  end.

(** ** driver.go *)
Definition DefaultCmd : string := "bigipconfigdriver.py".

(** The command and its arguments. *)
Definition createDriverCmd (driverCmd fname : string) : string * list string :=
  if decide (driverCmd = DefaultCmd)
  then (driverCmd, ["--config-file"; fname; "--ctlr-prefix"; "cf"])
  else ("python", [driverCmd; "--config-file"; fname; "--ctlr-prefix"; "cf"]).

(** The level at which a line of the driver is logged. *)
Definition line_level (line : string) : Level :=
  if Contains line "DEBUG]" then DebugLevel
  else if Contains line "Warn]" then WarnLevel
  else if Contains line "ERROR]" then ErrorLevel
  else if Contains line "CRITICAL]" then ErrorLevel
  else InfoLevel.

(** How the process ended: [cmd.Wait] returns an [ExitError] for a signal and
    for a status other than 0; [WaitFailed] is any other error. *)
Inductive exit := ExitCode (n : Z) | Signaled (sig : Z) | WaitFailed (err : string).

(** The message after [cmd.Wait]. *)
Definition verdict (e : exit) (stopping : bool) : Level * string :=
  match e with
  | Signaled _ =>
      if stopping then (InfoLevel, "f5router-driver-signaled-to-stop")
      else (FatalLevel, "f5router-driver-unexpected-signal")
  | ExitCode n =>
      if decide (n = 0%Z) then (InfoLevel, "f5router-driver-exited-normally")
      else (FatalLevel, "f5router-driver-exited-unexpectedly")
  | WaitFailed _ => (FatalLevel, "f5router-driver-exited-unexpectedly")
  end.

Inductive child := NoChild | Running | Zombie (e : exit) | Reaped (e : exit).
Inductive goroutine := GStart | GPid | GScan | GDone.
Inductive run_pc := RPid | RSignals | RKill | RWait | RReturned (err : option string).

(** [fatal]: a message at level Fatal, which ends the controller. *)
Record driver := mkDriver {
  proc : child; gor : goroutine; pc : run_pc; stopping : bool; done_ch : bool; ready : bool;
  fatal : option string; logged : list (Level * string);
}.

Definition start_Run : driver := mkDriver NoChild GStart RPid false false false None [].

Definition with_proc (c : child) (d : driver) : driver :=
  mkDriver c (gor d) (pc d) (stopping d) (done_ch d) (ready d) (fatal d) (logged d).
Definition with_gor (g : goroutine) (d : driver) : driver :=
  mkDriver (proc d) g (pc d) (stopping d) (done_ch d) (ready d) (fatal d) (logged d).
Definition with_pc (p : run_pc) (d : driver) : driver :=
  mkDriver (proc d) (gor d) p (stopping d) (done_ch d) (ready d) (fatal d) (logged d).

(** [d.logger.X(msg)]; Fatal does not return. *)
Definition log_msg (m : Level * string) (d : driver) : driver :=
  mkDriver (proc d) (gor d) (pc d) (stopping d) (done_ch d) (ready d)
    (match m.1 with FatalLevel => Some m.2 | _ => fatal d end) (logged d ++ [m]).

(** After [cmd.Wait]: the verdict, and [close(done)] when it lets us. *)
Definition finish (e : exit) (d : driver) : driver :=
  let d := log_msg (verdict e (stopping d)) (with_gor GDone (with_proc (Reaped e) d)) in
  mkDriver (proc d) (gor d) (pc d) (stopping d) (match fatal d with Some _ => done_ch d | None => true end)
    (ready d) (fatal d) (logged d).

(** [proc.Signal]: an error when the process has been waited for. *)
Definition kill (d : driver) : driver :=
  match proc d with
  | Running | Zombie _ => with_pc RWait d
  | Reaped _ | NoChild => with_pc (RReturned (Some "os: process already finished")) d
  end.

(** [os.FindProcess] fails with [find_err]; on Unix it never does. *)
Inductive dstep (find_err : option string) : driver → driver → Prop :=
  | d_start_fails d m :
      fatal d = None → gor d = GStart → m ∈ ["f5router-driver-pipe-failed"; "f5router-driver-failed-start"] →
      dstep find_err d (log_msg (FatalLevel, m) d)
  | d_start d :
      fatal d = None → gor d = GStart →
      dstep find_err d (log_msg (InfoLevel, "f5router-driver-process-pid") (with_gor GPid (with_proc Running d)))
  | d_pid d :
      (** the rendezvous on the channel, then [close(ready)] *)
      fatal d = None → gor d = GPid → pc d = RPid →
      dstep find_err d (mkDriver (proc d) GScan RSignals (stopping d) (done_ch d) true (fatal d)
                          (logged d ++ [(InfoLevel, "f5router-driver-started")]))
  | d_line d line :
      fatal d = None → gor d = GScan → proc d = Running → dstep find_err d (log_msg (line_level line, line) d)
  | d_exit d e : fatal d = None → proc d = Running → dstep find_err d (with_proc (Zombie e) d)
  | d_reap d e : fatal d = None → gor d = GScan → proc d = Zombie e → dstep find_err d (finish e d)
  | d_signal d :
      fatal d = None → pc d = RSignals →
      dstep find_err d (mkDriver (proc d) (gor d) RKill true (done_ch d) (ready d) (fatal d) (logged d))
  | d_kill d :
      fatal d = None → pc d = RKill →
      dstep find_err d (match find_err with Some e => with_pc (RReturned (Some e)) d | None => kill d end)
  | d_done d :
      fatal d = None → pc d = RWait → done_ch d = true → dstep find_err d (with_pc (RReturned None) d).

Definition reachable (find_err : option string) : driver → Prop := rtc (dstep find_err) start_Run.

(** ** The writer *)
Lemma substring_all s : String.substring 0 (String.length s) s = s.
Proof. induction s as [|a s IH]; [done|]. cbn. by rewrite IH. Qed.

(** Into an empty file. *)
Lemma sys_write_empty n input f :
  content f = Some EmptyString → sys_write n input f = mkFile (Some (String.substring 0 n input)) (fds f) (locked f).
Proof.
  intros E. unfold sys_write. rewrite E. cbn. do 2 f_equal. destruct n; cbn; by rewrite sapp_nil_r.
Qed.

(** What a reader may find while the writer does not hold the lock. *)
Definition readable (input : string) (err : option string) (n : nat) (f g : file) : Prop :=
  content g = content f ∨ (content f = None ∧ content g = Some EmptyString) ∨ content g = Some input ∨
  (err ≠ None ∧ content g = Some (String.substring 0 n input)).

(** C25. Writing the configuration.  On every path the descriptor is closed
    and the lock released.  When no error is reported the file holds the
    whole text; a reader that respects the lock sees the old text (or the
    file just created) or the whole new text, and the beginning of the new
    text only after an error was reported. *)
Theorem writer_exact os input f n err tr :
  os_ok os input → locked f = false → Write os input f = ((n, err), tr) →
  (∃ last, head tr = Some last ∧ fds last = fds f ∧ locked last = false ∧
     (err = None → content last = Some input ∧ n = String.length input)) ∧
  (∀ g, g ∈ tr → locked g = false → readable input err n f g).
Proof.
  intros [Hn Hw] Hl. unfold Write, _write, readable. cbv zeta. rewrite !sys_write_empty by done. destruct f as [c k b]. cbn in Hl. subst b.
  assert (c = Some (default EmptyString c) ∨ c = None) as Hc by (destruct c; auto).
  assert (write_err os = None → String.substring 0 (write_n os) input = input ∧ write_n os = String.length input) as Hfull.
  { intros E. destruct (decide (write_n os = String.length input)) as [->|Hne]; [by rewrite substring_all|].
    by destruct (Hw Hne E). }
  destruct (open_err os); [intros [= <- <- <-]|destruct (lock_err os); [|destruct (truncate_err os);
    [|destruct (write_err os); [|destruct (unlock_err os)]]]; intros [= <- <- <-]].
  all: (split; [eexists; split; [reflexivity|]; cbn; split_and!; try done; try lia;
        intros ?; by destruct Hfull as [-> ?]|]).
  all: intros g Hg Hlk; cbn in Hg; rewrite ?elem_of_cons, ?elem_of_nil in Hg;
    repeat destruct Hg as [->|Hg]; try done; cbn in *; try discriminate; try (destruct Hfull as [-> _]; [done|]); try done;
    destruct Hc as [Hc| ->]; rewrite <-?Hc; cbn; auto 10.
Qed.

(** ** The driver *)
Definition abnormal (e : exit) : Prop := e ≠ ExitCode 0.

Lemma verdict_fatal e b : (verdict e b).1 = FatalLevel ↔ abnormal e ∧ (∀ sig, e = Signaled sig → b = false).
Proof.
  unfold abnormal. destruct e as [n|sig|err]; cbn.
  - case_decide as Hn; cbn; split; try naive_solver.
  - destruct b; cbn; naive_solver.
  - naive_solver.
Qed.

Definition inv (d : driver) : Prop :=
  match gor d with
  | GStart => proc d = NoChild ∧ pc d = RPid
  | GPid => (proc d = Running ∨ ∃ e, proc d = Zombie e) ∧ pc d = RPid
  | GScan => (proc d = Running ∨ ∃ e, proc d = Zombie e) ∧ ∀ err, pc d ≠ RReturned err
  | GDone => ∃ e, proc d = Reaped e ∧ (abnormal e → fatal d ≠ None ∨ (stopping d = true ∧ ∃ sig, e = Signaled sig))
  end ∧
  (pc d = RPid ∨ pc d = RSignals ∨ stopping d = true) ∧
  (done_ch d = true → gor d = GDone ∧ fatal d = None) ∧
  (fatal d ≠ None → (gor d = GStart) ∨
     (gor d = GDone ∧ ∃ e, proc d = Reaped e ∧ abnormal e ∧ ∀ sig, e = Signaled sig → stopping d = false)).

Lemma finish_inv d e : inv d → fatal d = None → gor d = GScan → inv (finish e d).
Proof.
  intros (Hg & Hp & Hd & Hf) Hn Hgor. unfold inv, finish. cbn. rewrite Hn, Hgor in *.
  pose proof (verdict_fatal e (stopping d)) as Hv.
  destruct ((verdict e (stopping d)).1) eqn:Ev;
    [..|apply proj1 in Hv; destruct (Hv eq_refl) as [Ha Hs]; split_and!; [|done| |];
        [exists e; split; [done|by left]|by intros [? _]%Hd|right; by eauto]].
  all: assert (abnormal e → stopping d = true ∧ ∃ sig, e = Signaled sig) as Hab;
    [|split_and!; [exists e; split; [done|by eauto]|done|done|done]].
  all: intros Ha; destruct e as [n|sig|err]; try by (apply proj2 in Hv; discriminate Hv).
  all: destruct (stopping d); [by eauto|apply proj2 in Hv; discriminate Hv; split; [done|by intros]].
Qed.

Lemma line_not_fatal line : match line_level line with FatalLevel => Some line | _ => None end = None.
Proof.
  unfold line_level.
  by destruct (Contains line "DEBUG]"), (Contains line "Warn]"), (Contains line "ERROR]"), (Contains line "CRITICAL]").
Qed.

Lemma inv_step d d' : inv d → dstep None d d' → inv d'.
Proof.
  intros Hi Hst. destruct Hst as [d m Hn Hgor Hm|d Hn Hgor|d Hn Hgor Hpc|d line Hn Hgor Hpr|d e Hn Hpr|d e Hn Hgor Hpr
    |d Hn Hpc|d Hn Hpc|d Hn Hpc Hdn]; [..|by apply finish_inv| | |]; destruct Hi as (Hg & Hp & Hd & Hf);
    unfold inv; cbn; rewrite ?Hn, ?Hgor, ?Hpc, ?Hpr in *; cbn in *.
  - split_and!; naive_solver.
  - split_and!; naive_solver.
  - split_and!; naive_solver.
  - rewrite line_not_fatal. split_and!; naive_solver.
  - destruct (gor d); split_and!; naive_solver.
  - destruct (gor d); split_and!; naive_solver.
  - unfold kill. destruct (gor d) eqn:Eg, (proc d) eqn:Ep; cbn; rewrite ?Eg, ?Ep, ?Hn; split_and!; naive_solver.
  - destruct (gor d); split_and!; naive_solver.
Qed.

Lemma reachable_inv d : reachable None d → inv d.
Proof.
  intros Hr. assert (inv start_Run) as Hi by (unfold inv; cbn; naive_solver).
  revert Hi. induction Hr as [|x y z Hs _ IH]; [done|]. intros Hi. by eapply IH, inv_step.
Qed.

(** C24. The driver process.  In every reachable state: when Run has returned
    the child has been waited for and a signal had been received; the
    controller is ended by a fatal message only when the child could not be started or
    ended abnormally without having been told to stop by a signal; and an
    abnormal end is never overlooked. *)
Theorem driver_run_safe d :
  reachable None d →
  (∀ err, pc d = RReturned err → stopping d = true ∧ ∃ e, proc d = Reaped e) ∧
  (fatal d ≠ None → proc d = NoChild ∨
     ∃ e, proc d = Reaped e ∧ abnormal e ∧ ∀ sig, e = Signaled sig → stopping d = false) ∧
  (∀ e, proc d = Reaped e → abnormal e → fatal d ≠ None ∨ (stopping d = true ∧ ∃ sig, e = Signaled sig)).
Proof.
  intros (Hg & Hp & _ & Hf)%reachable_inv. split_and!.
  - intros err Hpc. rewrite Hpc in *. split; [by destruct Hp as [|[|]]|].
    destruct (gor d); [by destruct Hg|by destruct Hg|by destruct Hg as [_ Hg]; destruct (Hg err)|].
    destruct Hg as (e & He & _). by exists e.
  - intros [HG|[HG (e & He & Ha & Hs)]]%Hf; rewrite HG in Hg; [by left; apply Hg|]. right. by exists e.
  - intros e He Ha. rewrite He in Hg.
    destruct (gor d); [by destruct Hg|by destruct Hg as [[?|[??]] _]|by destruct Hg as [[?|[??]] _]|].
    destruct Hg as (e' & [= <-] & Hg). by apply Hg.
Qed.

Definition example_run : driver :=
  kill (mkDriver Running GScan RKill true false true None [(InfoLevel, "f5router-driver-process-pid"); (InfoLevel, "f5router-driver-started")]).

Lemma driver_run_safe_witness :
  ∃ d, reachable None d ∧ pc d = RReturned None ∧ stopping d = true ∧ ∃ e, proc d = Reaped e.
Proof.
  assert (reachable None (with_pc (RReturned None) (finish (Signaled 15) (with_proc (Zombie (Signaled 15)) example_run)))) as Hr.
  { eapply rtc_l; [by apply (d_start None start_Run)|]. eapply rtc_l; [by apply d_pid|].
    eapply rtc_l; [by apply d_signal|]. eapply rtc_l; [by apply d_kill|].
    eapply rtc_l; [by apply (d_exit _ _ (Signaled 15))|]. eapply rtc_l; [by apply (d_reap _ _ (Signaled 15))|].
    eapply rtc_l; [by apply d_done|]. apply rtc_refl. }
  eexists. split; [exact Hr|]. split; [reflexivity|]. by apply (proj1 (driver_run_safe _ Hr) None).
Defined.

(** A driver that ends with status 0 on its own goes unnoticed: nothing
    happens until a signal arrives, and Run then returns an error. *)
Lemma normal_exit_unnoticed :
  ∃ d, reachable None d ∧ proc d = Reaped (ExitCode 0) ∧ fatal d = None ∧ pc d = RSignals ∧ stopping d = false ∧
    ∀ d', dstep None d d' → pc d' = RKill.
Proof.
  eexists. split.
  { eapply rtc_l; [by apply (d_start None start_Run)|]. eapply rtc_l; [by apply d_pid|].
    eapply rtc_l; [by apply (d_exit _ _ (ExitCode 0))|]. eapply rtc_l; [by apply (d_reap _ _ (ExitCode 0))|]. apply rtc_refl. }
  split_and!; try done. intros d' Hst. by inversion Hst.
Qed.

Lemma writer_exact_witness :
  let os := mkOS None None None 2 (Some "no space left") None None in
  let f := mkFile (Some "old") 0 false in
  os_ok os "new" ∧ locked f = false ∧ (Write os "new" f).1 = (2, Some "no space left") ∧
  ∀ g, g ∈ (Write os "new" f).2 → locked g = false → readable "new" (Some "no space left") 2 f g.
Proof.
  intros os f. assert (os_ok os "new") as Hok by (split; [cbn; lia|done]).
  split; [done|]. split; [done|]. split; [done|].
  exact (proj2 (writer_exact os "new" f 2 (Some "no space left") (Write os "new" f).2 Hok eq_refl eq_refl)).
Defined.
