(* ===== verification/Controller.v ===== *)
(** controller/controller.go: the process member that runs the status
    component, starts and stops the pruning of the route tables and reports
    the controller as healthy.

    It composes the status component (Component.v) with the registry and the
    TCP routing table, whose pruning cycles it drives. *)

From Stdlib Require Import Ascii ZArith Lia SpecFloat.
From stdpp Require Import base gmap list strings pretty.
From S2P Require Import Prelude GoStrings Config Registry RoutingTable Codec Duration Http Component.

Open Scope go_scope.
Open Scope Z_scope.

(** [strconv.ParseUint(s, 10, 16)] *)
Definition ParseUint16 (s : string) : result Z :=
  if decide (s = EmptyString) then Err "invalid syntax"
  else
    match digits_val 0 s with
    | None => Err "invalid syntax"
    | Some v => if v <? 2 ^ 16 then Ok v else Err "value out of range"
    end.

(** The port: the environment variable PORT, or the configured one. *)
Definition status_port (PORT : option string) (cfg : Config) : Z :=
  match PORT with
  | Some portStr => match ParseUint16 portStr with Ok port => port | _ => StPort (Status cfg) end
  | None => StPort (Status cfg)
  end.

(** [registry] and [table] are [None] while nil. *)
Record Controller := mkController {
  ct_config : Config; ct_component : VcapComponent;
  ct_registry : option Registry.RouteRegistry; ct_table : option RoutingTable.RoutingTable; heartbeatOK : Z;
}.

(** The component before [Start]; [info] is what the encoder makes of the
    registry. *)
Definition new_component (PORT : option string) (index : Z) (cfg : Config) (info : result string) : VcapComponent :=
  let host := StHost (Status cfg) +:+ String ":" (Itoa (status_port PORT cfg)) in
  let varz := mkVarz "Controller" index host [StUser (Status cfg); StPass (Status cfg)] EmptyString 0 0 0
                (S754_zero false) 0 in
  mkComponent varz true {["/routes" := info]} Healthcheck_ServeHTTP None [] None None NotStarted.

Section Controller.
  Context `{!MapOrder string}.
  Variable builtin : Builtin → Handler.

Definition NewController (env : Env) (PORT : option string) (index : Z) (cfg : Config)
    (r : option Registry.RouteRegistry) (t : option RoutingTable.RoutingTable) (info : result string)
    (broker : option Handler) (pkg : Package) : result (Package * Controller) :=
  let* '(pkg, component) := Start builtin env broker pkg (new_component PORT index cfg info) in
  Ok (pkg, mkController cfg component r t 0).
End Controller.

(** A method call through a pointer. *)
Definition through {A} (f : A → A) (o : option A) : result (option A) :=
  match o with Some a => Ok (Some (f a)) | None => Panic "nil pointer" end.

(** [Run] up to [close(ready)], with what it publishes and how long it
    sleeps; an error of [Register] is dropped. *)
Definition Run_ready (marshal : GenericVarz → result string) (c : Controller) :
    result (Controller * list (string * string) * Z) :=
  let* r := if negb (bool_decide (RoutingModeOf (ct_config c) = TCP))
            then through Registry.StartPruningCycle (ct_registry c) else Ok (ct_registry c) in
  let* t := if negb (bool_decide (RoutingModeOf (ct_config c) = HTTP))
            then through RoutingTable.StartPruningCycle (ct_table c) else Ok (ct_table c) in
  let published := match Component_Register marshal (ct_component c) with Ok l => l | _ => [] end in
  let delay := if 0 <? StartResponseDelayInterval (ct_config c) then StartResponseDelayInterval (ct_config c) else 0 in
  Ok (mkController (ct_config c) (ct_component c) r t 1, published, delay).

(** [Stop] up to the stop of the component, which Component.v describes. *)
Definition Controller_Stop (c : Controller) : result Controller :=
  let* r := if negb (bool_decide (RoutingModeOf (ct_config c) = TCP))
            then through Registry.StopPruningCycle (ct_registry c) else Ok (ct_registry c) in
  let* t := if negb (bool_decide (RoutingModeOf (ct_config c) = HTTP))
            then through RoutingTable.StopPruningCycle (ct_table c) else Ok (ct_table c) in
  Ok (mkController (ct_config c) (ct_component c) r t (heartbeatOK c)).

(** A request is served with the heartbeat flag of the moment. *)
Definition serve (c : Controller) (r : Request) : Request * Response :=
  match handler (ct_component c) with
  | Some h => h (mkRequest (Method r) (Host r) (Path r) (RequestURI r) (rq_Header r) (Close r) (heartbeatOK c)) new_response
  | None => (r, new_response)
  end.

(** ** What the modes mean *)

(** HTTP routes are handled in mode [HTTP] and in mode [all], TCP routes in
    mode [TCP] and in mode [all]. *)
Definition handles_http (c : Config) : bool := match RoutingModeOf c with HTTP | all => true | TCP => false end.
Definition handles_tcp (c : Config) : bool := match RoutingModeOf c with TCP | all => true | HTTP => false end.

(** The tests of the source. *)
Lemma not_tcp c : negb (bool_decide (RoutingModeOf c = TCP)) = handles_http c.
Proof. unfold handles_http. by destruct (RoutingModeOf c). Qed.
Lemma not_http c : negb (bool_decide (RoutingModeOf c = HTTP)) = handles_tcp c.
Proof. unfold handles_tcp. by destruct (RoutingModeOf c). Qed.

(** [f] on the registry and [g] on the table, where they are handled. *)
Definition on_tables (f : Registry.RouteRegistry → Registry.RouteRegistry)
    (g : RoutingTable.RoutingTable → RoutingTable.RoutingTable) (c : Controller) : result Controller :=
  let* r := if handles_http (ct_config c) then through f (ct_registry c) else Ok (ct_registry c) in
  let* t := if handles_tcp (ct_config c) then through g (ct_table c) else Ok (ct_table c) in
  Ok (mkController (ct_config c) (ct_component c) r t (heartbeatOK c)).

Lemma Run_ready_tables marshal c c0 :
  on_tables Registry.StartPruningCycle RoutingTable.StartPruningCycle c = Ok c0 →
  ∃ published delay, Run_ready marshal c =
    Ok (mkController (ct_config c0) (ct_component c0) (ct_registry c0) (ct_table c0) 1, published, delay).
Proof.
  unfold on_tables, Run_ready. rewrite not_tcp, not_http. intros (r & -> & (t & -> & [= <-])%rbind_Ok)%rbind_Ok.
  by eexists _, _.
Qed.

Lemma Stop_tables c : Controller_Stop c = on_tables Registry.StopPruningCycle RoutingTable.StopPruningCycle c.
Proof. unfold Controller_Stop, on_tables. by rewrite not_tcp, not_http. Qed.

(** ** Lemmas *)
Section ControllerFacts.
  Context `{!MapOrder string}.
  Variable builtin : Builtin → Handler.

Lemma new_component_rooted PORT index cfg info : rooted (new_component PORT index cfg info).
Proof.
  intros p m Hp. change (({["/routes" := info]} : gmap string (result string)) !! p = Some m) in Hp.
  apply lookup_singleton_Some in Hp as [<- _]. reflexivity.
Qed.

(** The server of a controller that listens. *)
Lemma NewController_Ok env PORT index cfg r t info broker pkg pkg' c :
  NewController builtin env PORT index cfg r t info broker pkg = Ok (pkg', c) →
  ct_config c = cfg ∧ ct_registry c = r ∧ ct_table c = t ∧ heartbeatOK c = 0 ∧
  ∀ h, handler (ct_component c) = Some h →
  ∃ mux, routes broker (new_component PORT index cfg info) = Ok mux ∧
    h = BasicAuth_ServeHTTP (mux_ServeHTTP builtin mux) (credentials_match [StUser (Status cfg); StPass (Status cfg)]).
Proof.
  unfold NewController. intros ([p' comp] & HS & [= <- <-])%rbind_Ok. split_and!; try done. cbn [ct_component].
  intros h Hh. destruct (Start_Ok _ _ _ _ _ _ _ HS) as (u & p & mux & Hc & _ & Hm & [(_ & _ & _ & Hh')|(_ & _ & _ & Hh')]);
    [|by rewrite Hh' in Hh].
  exists mux. split; [done|]. rewrite Hh in Hh'. injection Hh' as ->. rewrite <-Hc.
  by rewrite (Start_credentials _ _ _ _ _ _ _ _ _ HS eq_refl).
Qed.

(** Where the mode asks for a table there is one. *)
Definition wired (c : Controller) : Prop :=
  (handles_http (ct_config c) = true → is_Some (ct_registry c)) ∧
  (handles_tcp (ct_config c) = true → is_Some (ct_table c)).

Lemma on_tables_wired f g c :
  wired c →
  ∃ c', on_tables f g c = Ok c' ∧ wired c' ∧ ct_config c' = ct_config c ∧ ct_component c' = ct_component c ∧
    heartbeatOK c' = heartbeatOK c ∧
    ct_registry c' = (if handles_http (ct_config c) then f <$> ct_registry c else ct_registry c) ∧
    ct_table c' = (if handles_tcp (ct_config c) then g <$> ct_table c else ct_table c).
Proof.
  intros [Hr Ht]. unfold on_tables, through, wired.
  destruct (handles_http (ct_config c)) eqn:E1; [destruct Hr as [r Hr]; [done|]; rewrite Hr|];
    (destruct (handles_tcp (ct_config c)) eqn:E2; [destruct Ht as [t Ht]; [done|]; rewrite Ht|]);
    cbn; eexists; (split; [done|]); cbn; rewrite E1, E2; eauto 15.
Qed.

Lemma stopped_registry now b r : Registry.tick now b (Registry.StopPruningCycle r) = Ok (Registry.StopPruningCycle r).
Proof. unfold Registry.tick, Registry.StopPruningCycle. destruct (ticker r) eqn:E; cbn; by rewrite ?E. Qed.

Lemma stopped_table `{!MapOrder RoutingTable.RoutingKey} `{!MapOrder RoutingTable.BackendServerKey} now t :
  RoutingTable.tick now (RoutingTable.StopPruningCycle t) = RoutingTable.StopPruningCycle t.
Proof. unfold RoutingTable.tick, RoutingTable.StopPruningCycle. destruct (rt_ticker t) eqn:E; cbn; by rewrite ?E. Qed.

Lemma serve_health env PORT index cfg r t info broker pkg pkg' c c1 rq :
  NewController builtin env PORT index cfg r t info broker pkg = Ok (pkg', c) →
  is_Some (handler (ct_component c)) → ct_component c1 = ct_component c →
  Path rq = "/health" → RequestURI rq ≠ "*" →
  fst <$> sent (serve c1 rq).2 = Some (if heartbeatOK c1 =? 0 then 503 else 200) ∧
  body (serve c1 rq).2 = (if heartbeatOK c1 =? 0 then EmptyString else "ok" +:+ String (byte_of 10) EmptyString).
Proof.
  intros Hn [h Hh] Hc1 Hp Hu. destruct (NewController_Ok _ _ _ _ _ _ _ _ _ _ _ Hn) as (_ & _ & _ & _ & Hsrv).
  destruct (Hsrv _ Hh) as (mux & Hm & ->). unfold serve. rewrite Hc1, Hh.
  destruct (routes_Ok _ _ _ Hm (new_component_rooted _ _ _ _)) as (Hhosts & Hhealth & _).
  rewrite auth_accepts by by right.
  rewrite (mux_serves builtin _ _ _ Healthcheck_ServeHTTP);
    [|by rewrite Hp|done|by rewrite Hp|by rewrite Hp|done].
  unfold Healthcheck_ServeHTTP. cbn [loaded]. by destruct (heartbeatOK c1 =? 0).
Qed.

(** C21. The life of the controller.  A controller whose tables are those its
    mode handles becomes ready: the pruning cycle of each handled table runs
    when its interval is positive, and /health, which answered 503 until
    then, answers 200; after Stop no tick of a handled table prunes. *)
Theorem controller_run `{!MapOrder RoutingTable.RoutingKey} `{!MapOrder RoutingTable.BackendServerKey}
    env PORT index cfg r t info broker pkg pkg' c marshal :
  NewController builtin env PORT index cfg r t info broker pkg = Ok (pkg', c) →
  is_Some (handler (ct_component c)) → wired c →
  ∃ c1 published delay c2,
    Run_ready marshal c = Ok (c1, published, delay) ∧ Controller_Stop c1 = Ok c2 ∧
    (∀ rq, Path rq = "/health" → RequestURI rq ≠ "*" →
       fst <$> sent (serve c rq).2 = Some 503 ∧ fst <$> sent (serve c1 rq).2 = Some 200) ∧
    (handles_http cfg = true → ∃ reg reg', ct_registry c1 = Some reg ∧ ct_registry c2 = Some reg' ∧
       (0 < pruneStaleDropletsInterval reg → ticker reg = Some true) ∧
       ∀ now b, Registry.tick now b reg' = Ok reg') ∧
    (handles_tcp cfg = true → ∃ tab tab', ct_table c1 = Some tab ∧ ct_table c2 = Some tab' ∧
       (0 < rt_pruneInterval tab → rt_ticker tab = Some true) ∧
       ∀ now, RoutingTable.tick now tab' = tab').
Proof.
  intros Hn Hh Hw. destruct (NewController_Ok _ _ _ _ _ _ _ _ _ _ _ Hn) as (Hcfg & Hr & Ht & H0 & _).
  destruct (on_tables_wired Registry.StartPruningCycle RoutingTable.StartPruningCycle c Hw)
    as (c0 & E0 & Hw0 & Hg0 & Hc0 & _ & Hr0 & Ht0).
  set (c1 := mkController (ct_config c0) (ct_component c0) (ct_registry c0) (ct_table c0) 1).
  destruct (on_tables_wired Registry.StopPruningCycle RoutingTable.StopPruningCycle c1 Hw0)
    as (c2 & E2 & _ & _ & _ & _ & Hr2 & Ht2).
  destruct (Run_ready_tables marshal c c0 E0) as (published & delay & Hrun).
  exists c1, published, delay, c2. split; [done|]. split; [by rewrite Stop_tables|].
  cbn [ct_config ct_registry ct_table c1] in Hr2, Ht2. rewrite Hg0, Hcfg in *. split_and!.
  - intros rq Hp Hu. destruct (serve_health _ _ _ _ _ _ _ _ _ _ _ c _ Hn Hh eq_refl Hp Hu) as [-> _].
    destruct (serve_health _ _ _ _ _ _ _ _ _ _ _ c1 _ Hn Hh Hc0 Hp Hu) as [-> _]. by rewrite H0.
  - intros Hm. rewrite Hm in *. destruct (proj1 Hw) as [reg Hreg]; [by rewrite Hcfg|]. rewrite Hreg in Hr0. cbn in Hr0.
    rewrite Hr0 in Hr2. cbn in Hr2. eexists _, _. split_and!; [exact Hr0|exact Hr2| |intros; apply stopped_registry].
    unfold Registry.StartPruningCycle. destruct (Z.ltb_spec 0 (pruneStaleDropletsInterval reg)); [done|]. lia.
  - intros Hm. rewrite Hm in *. destruct (proj2 Hw) as [tab Htab]; [by rewrite Hcfg|]. rewrite Htab in Ht0. cbn in Ht0.
    rewrite Ht0 in Ht2. cbn in Ht2. eexists _, _. split_and!; [exact Ht0|exact Ht2| |intros; apply stopped_table].
    unfold RoutingTable.StartPruningCycle. destruct (Z.ltb_spec 0 (rt_pruneInterval tab)); [done|]. lia.
Qed.

(** Empty credentials.  The controller hands the configured user and
    password to the component even when they are empty, so the component
    never replaces them by random ones: a request with the header
    "Basic Og==" (no user, no password) is served the routes. *)
Theorem status_open_by_default env PORT index cfg r t info broker pkg pkg' c rq :
  NewController builtin env PORT index cfg r t info broker pkg = Ok (pkg', c) →
  is_Some (handler (ct_component c)) → StUser (Status cfg) = EmptyString → StPass (Status cfg) = EmptyString →
  Path rq = "/routes" → RequestURI rq ≠ "*" → Header_Get (rq_Header rq) "Authorization" = "Basic Og==" →
  fst <$> sent (serve c rq).2 = Some 200 ∧
  ∀ text, info = Ok text → body (serve c rq).2 = text +:+ String (byte_of 10) EmptyString.
Proof.
  intros Hn [h Hh] Hu0 Hp0 Hp Hu Ha. destruct (NewController_Ok _ _ _ _ _ _ _ _ _ _ _ Hn) as (_ & _ & _ & _ & Hsrv).
  destruct (Hsrv _ Hh) as (mux & Hm & ->). unfold serve. rewrite Hh, Hu0, Hp0.
  destruct (routes_Ok _ _ _ Hm (new_component_rooted _ _ _ _)) as (Hhosts & _ & Hinfo).
  rewrite auth_accepts.
  2: { left. apply extractCredentials_spec. exists "Og==". by split_and!. }
  rewrite (mux_serves builtin _ _ _ (info_handler info));
    [|rewrite Hp; apply Hinfo, lookup_singleton_eq|done|by rewrite Hp|by rewrite Hp|done].
  unfold info_handler. destruct info as [text| |]; cbn; (split; [done|]); intros ? [=]; by subst.
Qed.
End ControllerFacts.

(** ** Witnesses *)
Definition example_controller : result (Package * Controller) :=
  NewController no_builtin example_env (Some "9090") 0 defaultConfig None
    (Some (RoutingTable.NewRoutingTable defaultConfig true)) (Ok "{}") None (mkPackage false None).

Definition on_example {A} (f : Controller → A) : option A :=
  match example_controller with Ok (_, c) => Some (f c) | _ => None end.

Lemma controller_run_witness :
  ∃ pkg' c c1 published delay,
    example_controller = Ok (pkg', c) ∧ Run_ready (λ _, Ok "varz") c = Ok (c1, published, delay) ∧
    fst <$> sent (serve c1 (example_request "/health" EmptyString)).2 = Some 200.
Proof.
  assert (on_example (λ c, (bool_decide (is_Some (handler (ct_component c))), bool_decide (is_Some (ct_table c)),
    handles_http (ct_config c))) = Some (true, true, false)) as He by by vm_compute.
  unfold on_example in He. destruct example_controller as [[pkg' c]| |] eqn:HS; [|discriminate He..].
  injection He as Hh%bool_decide_eq_true_1 Ht%bool_decide_eq_true_1 Hm.
  destruct (controller_run no_builtin _ _ _ _ _ _ _ _ _ pkg' c (λ _, Ok "varz") HS Hh)
    as (c1 & pub & delay & c2 & Hr & _ & Hserve & _).
  { split; [by rewrite Hm|done]. }
  exists pkg', c, c1, pub, delay. split; [done|]. split; [done|]. by apply Hserve.
Defined.

Lemma status_open_by_default_witness :
  ∃ pkg' c, example_controller = Ok (pkg', c) ∧
    body (serve c (example_request "/routes" "Basic Og==")).2 = "{}" +:+ String (byte_of 10) EmptyString.
Proof.
  assert (on_example (λ c, bool_decide (is_Some (handler (ct_component c)))) = Some true) as He by by vm_compute.
  unfold on_example in He. destruct example_controller as [[pkg' c]| |] eqn:HS; [|discriminate He..].
  injection He as Hh%bool_decide_eq_true_1. exists pkg', c. split; [done|].
  by apply (status_open_by_default no_builtin _ _ _ _ _ _ _ _ _ pkg' c (example_request "/routes" "Basic Og==") HS Hh).
Defined.
