(* ===== verification/Main.v ===== *)
(** main.go: how the parts are put together, and the connection to the
    message bus.

    [logger.Fatal] ends the process: it is [Err] here.  The clients of the
    routing API, of the UAA and of NATS are arguments (what their calls
    answer); the process group of ifrit runs the members in the order of the
    list. *)

From Stdlib Require Import Ascii ZArith Lia.
From stdpp Require Import base gmap list strings pretty.
From S2P Require Import Prelude GoStrings Config Codec GoUrl Duration Driver Registry RoutingTable Http Component Controller.

Open Scope go_scope.
Open Scope Z_scope.

(** ** Configuration of the clients *)
Record NatsConfig := mkNatsConfig { n_Host : string; n_Port : Z; n_User : string; n_Pass : string }.

Record OAuthConfig := mkOAuth {
  TokenEndpoint : string; o_Port : Z; SkipSSLValidation : bool; ClientName : string; ClientSecret : string; CACerts : string;
}.

(** [Config.NatsServers]: the text of a URL with user and password. *)
Definition nats_server (info : NatsConfig) : string :=
  "nats://" +:+ GoUrl.escape (n_User info) encodeUserPassword +:+ ":" +:+
  GoUrl.escape (n_Pass info) encodeUserPassword +:+ "@" +:+
  GoUrl.escape (n_Host info +:+ ":" +:+ Itoa (n_Port info)) encodeHost.

Definition NatsServers (l : list NatsConfig) : list string := nats_server <$> l.

(** ** Logging *)
Inductive LagerLevel := LDEBUG | LINFO | LERROR | LFATAL.

(** The switch of [createLogger] is over the variable it sets, which is zero
    (DEBUG); the configured level is only read by zap. *)
Definition minLagerLogLevel (level : string) : LagerLevel :=
  match LDEBUG with LDEBUG => LDEBUG | LINFO => LINFO | LERROR => LERROR | LFATAL => LFATAL end.

(** ** The UAA and the routing API *)
Inductive uaa := NoOp | Uaa (endpoint : string).

Definition newUaaClient (authDisabled : bool) (o : OAuthConfig) (newClient : result unit) : result uaa :=
  if authDisabled then Ok NoOp
  else if o_Port o =? -1 then Err "tls-not-enabled"
  else
    let tokenURL := "https://" +:+ TokenEndpoint o +:+ ":" +:+ Itoa (o_Port o) in
    match newClient with
    | Ok _ => Ok (Uaa tokenURL)
    | Err _ => Err "initialize-token-fetcher-error"
    | Panic w => Panic w
    end.

(** The client of the routing API: its address and its token. *)
Record apiClient := mkApi { api_uri : string; api_token : option string }.

Definition setupRoutingAPIClient (c : Config) (authDisabled : bool) (o : OAuthConfig) (newClient : result unit)
    (token : result string) (Routes : result unit) : result apiClient :=
  let uri := RoutingApiUri c +:+ ":" +:+ Itoa (RoutingApiPort c) in
  let* _ := newUaaClient authDisabled o newClient in
  let* tok :=
    if authDisabled then Ok None
    else
      match token with
      | Ok t => if decide (t = EmptyString) then Err "empty token fetched" else Ok (Some t)
      | Err e => Err ("unable-to-fetch-token: " +:+ e)
      | Panic w => Panic w
      end in
  let* _ := Routes in
  Ok (mkApi uri tok).

Record RouterGroup := mkGroup { rg_Guid : string; rg_Type : string }.

Definition fetchRoutingGroupGUID (c : Config) (group : string → result RouterGroup) : result string :=
  if decide (RouterGroupName c = EmptyString) then Ok EmptyString
  else
    match group (RouterGroupName c) with
    | Ok rg => if decide (rg_Type rg = "http") then Ok (rg_Guid rg) else Err "expected-router-group-type-http"
    | Err _ => Err "fetching-router-group-failed"
    | Panic w => Panic w
    end.

(** [setupRouteFetcher] and [setupTCPRouteFetcher] end the process when no
    token is granted. *)
Definition setupFetcher (authDisabled : bool) (o : OAuthConfig) (newClient : result unit) (token : result string) :
    result unit :=
  let* u := newUaaClient authDisabled o newClient in
  match u with
  | NoOp => Ok tt
  | Uaa _ => match token with Ok _ => Ok tt | Err _ => Err "unable-to-fetch-token" | Panic w => Panic w end
  end.

(** The two fetchers differ in the client they are made with. *)
Definition setupRouteFetcher := setupFetcher.
Definition setupTCPRouteFetcher := setupFetcher.

(** ** The connection to NATS *)

(** At most [attempts] calls of Connect; the number of calls made. *)
Fixpoint connect_loop (connect : nat → result string) (made attempts : nat) (err : string) : result string * nat :=
  match attempts with
  | O => (Err err, made)
  | S attempts =>
      match connect made with
      | Ok url => (Ok url, S made)
      | Err e => connect_loop connect (S made) attempts e
      | Panic w => (Panic w, S made)
      end
  end.

(** [connectToNatsServer]: the host that is stored, and the calls made. *)
Definition connectToNatsServer (connect : nat → result string) (parse : string → result string) : result string * nat :=
  match connect_loop connect 0 3 EmptyString with
  | (Ok url, n) => (Ok (match parse url with Ok host => host | _ => EmptyString end), n)
  | (Err _, n) => (Err "nats-connection-error", n)
  | (Panic w, n) => (Panic w, n)
  end.

(** The callbacks of [natsOptions]: the stored host, the goroutines that wait
    on connectedChan, and whether somebody receives from startMsg. *)
Record nats := mkNats { natsHost : option string; waiters : nat; receiver : bool }.

Inductive callback := ClosedCB | DisconnectedCB | ReconnectedCB (host : result string).

(** Both channels are unbuffered: a send without receiver never returns. *)
Inductive cb_result := Completed (n : nats) | Blocks | Ends (w : string).

Definition run_callback (n : nats) (cb : callback) : cb_result :=
  match cb with
  | ClosedCB => Ends "nats-connection-closed"
  | DisconnectedCB =>
      match natsHost n with
      | None => Ends "interface conversion: interface is nil, not string"
      | Some _ => Completed (mkNats (natsHost n) (S (waiters n)) (receiver n))
      end
  | ReconnectedCB host =>
      match waiters n with
      | O => Blocks
      | S w =>
          let h := match host with Ok h => h | _ => EmptyString end in
          if receiver n then Completed (mkNats (Some h) w (receiver n)) else Blocks
      end
  end.

Fixpoint run_callbacks (n : nats) (l : list callback) : cb_result :=
  match l with
  | [] => Completed n
  | cb :: l => match run_callback n cb with Completed n' => run_callbacks n' l | r => r end
  end.

(** ** main *)

(** [createSubscriber] *)
Record SubscriberOpts := mkOpts { ID : string; MinimumRegisterIntervalInSeconds : Z; PruneThresholdInSeconds : Z }.

Definition createSubscriber (c : Config) (index : Z) (guid : result string) : result SubscriberOpts :=
  match guid with
  | Ok g => Ok (mkOpts (Itoa index +:+ "-" +:+ g) (f_to_int (Seconds (StartResponseDelayInterval c)))
                  (f_to_int (Seconds (DropletStaleThreshold c))))
  | Err _ => Err "failed-to-generate-uuid"
  | Panic w => Panic w
  end.

(** The driver's command; a configured file must exist. *)
Definition driver_path (c : Config) (exists_ : string → bool) : result string :=
  if decide (DriverCmd (BigIP c) = EmptyString) then Ok DefaultCmd
  else if exists_ (DriverCmd (BigIP c)) then Ok (DriverCmd (BigIP c))
  else Err "driver-file-does-not-exist".

(** What the outside answers during start-up. *)
Record World := mkWorld {
  authDisabled : bool; oauth : OAuthConfig; newClient : result unit; token : result string; Routes : result unit;
  groups : string → result RouterGroup; file_exists : string → bool; guid : result string;
  newWriter : result unit; newRouter : result unit; newBroker : result unit; plans : result unit; newController : result unit;
}.

Record Wiring := mkWiring {
  members : list string; w_registry : option RouteRegistry; w_table : option RoutingTable;
  w_api : option apiClient; w_group : string; w_driver : string; w_opts : option SubscriberOpts;
}.

(** A call whose error ends the process with a message. *)
Definition or_fatal (m : result unit) (msg : string) : result unit :=
  match m with Err _ => Err msg | r => r end.

(** The routing API client and the GUID of the router group. *)
Definition wire_api (w : World) (c : Config) : result (option apiClient * string) :=
  if RoutingApiEnabled c then
    match setupRoutingAPIClient c (authDisabled w) (oauth w) (newClient w) (token w) (Routes w) with
    | Ok api => let* g := fetchRoutingGroupGUID c (groups w) in Ok (Some api, g)
    | Err _ => Err "routing-api-connection-failed"
    | Panic p => Panic p
    end
  else Ok (None, EmptyString).

(** The registry with its fetcher and subscriber. *)
Definition wire_http (w : World) (c : Config) (index : Z) : result (option RouteRegistry * list string * option SubscriberOpts) :=
  if negb (bool_decide (RoutingModeOf c = TCP)) then
    let r := NewRouteRegistry c true in
    let r := if SuspendPruningIfNatsUnavailable c then SuspendPruning (λ disconnected, disconnected) r else r in
    let* fetcher :=
      if RoutingApiEnabled c
      then let* _ := setupRouteFetcher (authDisabled w) (oauth w) (newClient w) (token w) in Ok ["http-route-fetcher"]
      else Ok [] in
    let* opts := createSubscriber c index (guid w) in
    Ok (Some r, fetcher ++ ["subscriber"], Some opts)
  else Ok (None, [], None).

(** The TCP table with its fetcher. *)
Definition wire_tcp (w : World) (c : Config) : result (option RoutingTable * list string) :=
  if negb (bool_decide (RoutingModeOf c = HTTP)) then
    let* _ := setupTCPRouteFetcher (authDisabled w) (oauth w) (newClient w) (token w) in
    Ok (Some (NewRoutingTable c true), ["tcp-route-fetcher"])
  else Ok (None, []).

Definition wire (w : World) (c : Config) (index : Z) : result Wiring :=
  let* '(api, g) := wire_api w c in
  let* _ := or_fatal (newWriter w) "writer-failed-initialization" in
  let* _ := or_fatal (newRouter w) "f5router-failed-initialization" in
  let* dp := driver_path c (file_exists w) in
  let* _ :=
    if BrokerMode c then
      let* _ := or_fatal (newBroker w) "create-new-broker-error" in or_fatal (plans w) "process-broker-plan-error"
    else Ok tt in
  let* '(r, hm, opts) := wire_http w c index in
  let* '(t, tm) := wire_tcp w c in
  let* _ := or_fatal (newController w) "failed-starting-controller" in
  Ok (mkWiring (hm ++ tm ++ ["controller"; "f5router"; "f5driver"]) r t api g dp opts).

(** The state of the NATS callbacks once [main] has started the members. *)
Definition connected (host : string) (wr : Wiring) : nats :=
  mkNats (Some host) 0 (bool_decide ("subscriber" ∈ members wr)).

(** ** Lemmas *)
Lemma connect_loop_spec connect made attempts err :
  let '(res, n) := connect_loop connect made attempts err in
  (made ≤ n ≤ made + attempts)%nat ∧
  (∀ url, res = Ok url → ∃ i, n = S i ∧ (made ≤ i)%nat ∧ connect i = Ok url ∧ ∀ j, (made ≤ j < i)%nat → ∃ e, connect j = Err e) ∧
  (∀ e, res = Err e → n = (made + attempts)%nat ∧ ∀ j, (made ≤ j < made + attempts)%nat → ∃ e, connect j = Err e).
Proof.
  revert made err. induction attempts as [|k IH]; intros made err; cbn.
  { split; [lia|]. split; [done|]. intros e _. split; [lia|]. intros j Hj. lia. }
  destruct (connect made) as [url|e|w] eqn:E.
  - split; [lia|]. split; [|done]. intros url' [= <-]. exists made. split_and!; [done|lia|done|]. intros j Hj. lia.
  - specialize (IH (S made) e). destruct (connect_loop connect (S made) k e) as [res n]. destruct IH as (Hn & Hok & Herr).
    split; [lia|]. split.
    + intros url Hr. destruct (Hok url Hr) as (i & -> & Hi & Hc & Hj). exists i. split_and!; [done|lia|done|].
      intros j Hj'. destruct (decide (j = made)) as [->|]; [by eauto|]. apply Hj. lia.
    + intros e' Hr. destruct (Herr e' Hr) as [-> Hj]. split; [lia|]. intros j Hj'.
      destruct (decide (j = made)) as [->|]; [by eauto|]. apply Hj. lia.
  - split; [lia|]. by split.
Qed.

(** The process ends exactly when three attempts have failed. *)
Lemma connect_three connect parse :
  (connectToNatsServer connect parse).1 = Err "nats-connection-error" →
  (connectToNatsServer connect parse).2 = 3%nat ∧ ∀ j, (j < 3)%nat → ∃ e, connect j = Err e.
Proof.
  unfold connectToNatsServer. pose proof (connect_loop_spec connect 0 3 EmptyString) as Hs.
  destruct (connect_loop connect 0 3 EmptyString) as [[url|e|w] n]; try done. intros _.
  destruct Hs as (_ & _ & Hs). destruct (Hs e eq_refl) as [-> Hj]. split; [done|]. intros j ?. apply Hj. lia.
Qed.

(** The members of each mode. *)
Definition expected_members (c : Config) : list string :=
  (if handles_http c then (if RoutingApiEnabled c then ["http-route-fetcher"] else []) ++ ["subscriber"] else []) ++
  (if handles_tcp c then ["tcp-route-fetcher"] else []) ++ ["controller"; "f5router"; "f5driver"].

Lemma wire_Ok w c index wr :
  wire w c index = Ok wr →
  members wr = expected_members c ∧ (is_Some (w_registry wr) ↔ handles_http c = true) ∧
  (is_Some (w_table wr) ↔ handles_tcp c = true) ∧ (is_Some (w_api wr) ↔ RoutingApiEnabled c = true).
Proof.
  unfold wire. intros ([api g] & Ha & (_ & _ & (_ & _ & (dp & _ & (_ & _ & Hw)%rbind_Ok)%rbind_Ok)%rbind_Ok)%rbind_Ok)%rbind_Ok.
  apply rbind_Ok in Hw as ([[r hm] opts] & Hh & ([t tm] & Ht & (_ & _ & [= <-])%rbind_Ok)%rbind_Ok).
  cbn. unfold expected_members.
  assert (is_Some api ↔ RoutingApiEnabled c = true) as Hapi.
  { revert Ha. unfold wire_api. destruct (RoutingApiEnabled c); [|intros [= <- _]; by rewrite is_Some_alt].
    destruct (setupRoutingAPIClient _ _ _ _ _ _); [|done..]. intros (g' & _ & [= <- _])%rbind_Ok. by split; eauto. }
  assert (t = None ∧ tm = [] ∧ handles_tcp c = false ∨ is_Some t ∧ tm = ["tcp-route-fetcher"] ∧ handles_tcp c = true) as Htcp.
  { revert Ht. unfold wire_tcp. rewrite not_http. destruct (handles_tcp c); [|intros [= <- <-]; by left].
    intros (_ & _ & [= <- <-])%rbind_Ok. right. by eauto. }
  assert (r = None ∧ hm = [] ∧ handles_http c = false ∨ is_Some r ∧ handles_http c = true ∧
    hm = (if RoutingApiEnabled c then ["http-route-fetcher"] else []) ++ ["subscriber"]) as Hhttp.
  { revert Hh. unfold wire_http. rewrite not_tcp. destruct (handles_http c); [|intros [= <- <- <-]; by left].
    intros (f & Hf & (o & _ & [= <- <- <-])%rbind_Ok)%rbind_Ok. right. split; [by eauto|]. split; [done|].
    destruct (RoutingApiEnabled c); [apply rbind_Ok in Hf as (_ & _ & [= <-])|injection Hf as <-]; done. }
  destruct Htcp as [(-> & -> & ->)|(Ht' & -> & ->)], Hhttp as [(-> & -> & ->)|(Hr' & -> & ->)];
    split_and!; try done; try (split; [by intros [??]|done]).
Qed.

(** The wiring.  For a configuration that Process accepted, when main
    reaches the start of its members: their order is fetchers and subscriber,
    then controller, F5 router and driver; the registry and the TCP table
    exist exactly in the modes that handle them, so the controller finds the
    tables it prunes; and a fetcher is started only with a routing API
    client. *)
Theorem main_wiring numCPU localIP loadCert c0 c w index wr :
  Process numCPU localIP loadCert c0 = Ok c → wire w c index = Ok wr →
  members wr = expected_members c ∧
  (∀ component hb, wired (mkController c component (w_registry wr) (w_table wr) hb)) ∧
  ("http-route-fetcher" ∈ members wr ∨ "tcp-route-fetcher" ∈ members wr → is_Some (w_api wr)).
Proof.
  intros HP (Hm & Hr & Ht & Ha)%wire_Ok. destruct (Process_Ok _ _ _ _ _ HP) as (_ & _ & Hmode & _).
  split; [done|]. split; [by split; [apply Hr|apply Ht]|]. rewrite Ha, Hm. unfold expected_members.
  destruct (RoutingApiEnabled c) eqn:E; [done|].
  destruct (handles_tcp c) eqn:Et.
  - exfalso. unfold handles_tcp in Et.
    assert (RoutingModeOf c = TCP ∨ RoutingModeOf c = all) as Hc by (destruct (RoutingModeOf c); auto; done).
    by apply Hmode in Hc.
  - intros Hin. exfalso. rewrite app_nil_l in Hin. revert Hin. destruct (handles_http c); set_solver.
Qed.

(** C23. Reconnections.  Where HTTP routes are handled, every sequence of
    disconnections and reconnections of the message bus is handled to the
    end, leaves no goroutine waiting and stores the last host.  In TCP mode
    nobody receives from startMsg: the first reconnection never returns. *)
Theorem nats_callbacks_return w c index wr host :
  wire w c index = Ok wr →
  (handles_http c = true → ∀ hosts,
     run_callbacks (connected host wr) (hosts ≫= λ h, [DisconnectedCB; ReconnectedCB (Ok h)]) =
       Completed (mkNats (Some (default host (last hosts))) 0 true)) ∧
  (handles_http c = false → ∀ h l,
     run_callbacks (connected host wr) (DisconnectedCB :: ReconnectedCB h :: l) = Blocks).
Proof.
  intros (Hm & _)%wire_Ok. unfold connected. rewrite Hm. unfold expected_members. split; intros Hh; rewrite Hh.
  - intros hosts. rewrite bool_decide_eq_true_2 by set_solver. clear Hm Hh.
    revert host. induction hosts as [|h hosts IH]; intros host; [done|].
    rewrite bind_cons. cbn [app run_callbacks run_callback natsHost waiters receiver].
    rewrite IH, last_cons. by destruct (last hosts).
  - intros h l. rewrite bool_decide_eq_false_2; [done|]. destruct (handles_tcp c); set_solver.
Qed.

(** ** Witnesses *)
Definition example_world : World :=
  mkWorld false (mkOAuth "uaa" 8443 false "ctlr" "secret" EmptyString) (Ok tt) (Ok "token") (Ok tt)
    (λ _, Ok (mkGroup "guid" "http")) (λ _, true) (Ok "0123")
    (Ok tt) (Ok tt) (Ok tt) (Ok tt) (Ok tt).

Lemma main_wiring_witness :
  ∃ c wr, Process 4 (Ok "10.0.0.5") (λ _ _, Err "no file") defaultConfig = Ok c ∧ wire example_world c 0 = Ok wr ∧
    members wr = expected_members c ∧ members wr = ["subscriber"; "controller"; "f5router"; "f5driver"].
Proof.
  destruct (Process 4 (Ok "10.0.0.5") (λ _ _, Err "no file") defaultConfig) as [c|e|p] eqn:HP; [|by vm_compute in HP..].
  destruct (wire example_world c 0) as [wr|e|p] eqn:HW; [|exfalso; vm_compute in HP; injection HP as <-; by vm_compute in HW..].
  exists c, wr. split; [done|]. split; [done|]. destruct (main_wiring _ _ _ _ _ _ _ _ HP HW) as [Hm _].
  split; [done|]. rewrite Hm. vm_compute in HP. injection HP as <-. by vm_compute.
Defined.

Definition tcp_wiring : result Wiring := wire example_world defaultConfig 0.

Lemma nats_callbacks_return_witness :
  ∃ wr, tcp_wiring = Ok wr ∧ handles_http defaultConfig = false ∧
    run_callbacks (connected "bus:4222" wr) [DisconnectedCB; ReconnectedCB (Ok "bus:4222")] = Blocks.
Proof.
  destruct tcp_wiring as [wr|e|p] eqn:HW; [|by vm_compute in HW..].
  exists wr. split; [done|]. split; [by vm_compute|].
  apply (proj2 (nats_callbacks_return example_world defaultConfig 0 wr "bus:4222" HW)). by vm_compute.
Defined.
