(* ===== verification/Clients.v ===== *)
(** The small wrappers around libraries: bigipclient/bigipclient.go,
    schema/schema.go and common/secure/crypto.go.

    What the libraries answer (the HTTP transport, the JSON-schema validator,
    AES-GCM, the random source) is an argument. *)

From Stdlib Require Import Ascii ZArith Lia.
From stdpp Require Import base gmap list strings.
From S2P Require Import Prelude GoStrings Codec Http.

Open Scope go_scope.

(** ** bigipclient.go *)

(** [req.SetBasicAuth] *)
Definition SetBasicAuth (h : Header) (user pass : string) : Header :=
  Header_Set h "Authorization" ("Basic " +:+ EncodeToString (user +:+ String ":" pass)).

(** [valid]: whether the URL makes a request; [Do]: the response, which is
    the text of its body or an error while reading it.  The status of the
    response is not looked at. *)
Definition Get (valid : string → result unit) (Do : string → Header → result (result string)) (url user pass : string) :
    result string :=
  let* _ := valid url in
  let h := SetBasicAuth (Header_Set ∅ "Accept" "application/json") user pass in
  let* body := Do url h in
  body.

(** ** schema.go *)
Definition schemaVersions : list string := ["cf-schema_v1.1.0.json"].

Definition getSchemaLocation (wd : result string) (TEST_MODE : string) : result string :=
  let* folderPath := wd in
  if decide (TEST_MODE = EmptyString) then Ok ("file://" +:+ folderPath +:+ "/schema/")
  else Ok ("file://" +:+ folderPath +:+ "/../schema/").

(** The loop over the versions; [validate] is the validator's answer for a
    schema path. *)
Fixpoint verify_loop (validate : string → result bool) (location : string) (versions : list string) : result bool :=
  match versions with
  | [] => Ok false
  | schema :: versions =>
      let* valid := validate (location +:+ schema) in
      if valid : bool then Ok true else verify_loop validate location versions
  end.

Definition VerifySchema (wd : result string) (TEST_MODE : string) (validate : string → string → result bool)
    (data : string) : result bool :=
  let* schemaLocation := getSchemaLocation wd TEST_MODE in
  verify_loop (λ path, validate path data) schemaLocation schemaVersions.

(** The verdict is that of the first version that accepts the text, with no
    error before it. *)
Lemma verify_loop_true validate location versions :
  verify_loop validate location versions = Ok true ↔
  ∃ (i : nat) v, versions !! i = Some v ∧ validate (location +:+ v) = Ok true ∧
    ∀ (j : nat) u, (j < i)%nat → versions !! j = Some u → validate (location +:+ u) = Ok false.
Proof.
  induction versions as [|s l IH]; cbn.
  { split; [done|]. by intros (i & v & Hv & _). }
  destruct (validate (location +:+ s)) as [[]|e|w] eqn:E; cbn.
  - split; [|done]. intros _. exists 0%nat, s. split_and!; [done..|]. intros j u Hj. lia.
  - rewrite IH. split.
    + intros (i & v & Hv & Ht & Hb). exists (S i), v. split_and!; [done..|].
      intros [|j] u Hj Hu; [by simplify_eq/=|]. apply (Hb j); [lia|done].
    + intros ([|i] & v & Hv & Ht & Hb); [simplify_eq/=; congruence|]. exists i, v. split_and!; [done..|].
      intros j u Hj Hu. apply (Hb (S j)); [lia|done].
  - split; [done|]. intros ([|i] & v & Hv & Ht & Hb); [simplify_eq/=; congruence|].
    specialize (Hb 0%nat s ltac:(lia) eq_refl). congruence.
  - split; [done|]. intros ([|i] & v & Hv & Ht & Hb); [simplify_eq/=; congruence|].
    specialize (Hb 0%nat s ltac:(lia) eq_refl). congruence.
Qed.

(** ** crypto.go *)

(** [cipher.AEAD], with no additional data. *)
Class AEAD := {
  NonceSize : nat;
  Seal : string → string → string;
  Open : string → string → result string;
  (** what is sealed under a nonce of the right size opens under it *)
  Open_Seal : ∀ nonce text, String.length nonce = NonceSize → Open nonce (Seal nonce text) = Ok text
}.

(** AES has keys of three sizes; GCM accepts every block cipher of its block
    size. [gcm] is the cipher of a key. *)
Definition NewAesGCM (gcm : string → AEAD) (key : string) : result AEAD :=
  if bool_decide (String.length key ∈ [16; 24; 32]%nat) then Ok (gcm key)
  else Err ("crypto/aes: invalid key size " +:+ Itoa (Z.of_nat (String.length key))).

(** [pbkdf2.Key] is an argument: password, salt, iterations and length. *)
Definition NewPbkdf2 (Key : string → string → Z → nat → string) (input : string) (keyLen : nat) : string :=
  Key input EmptyString 100001%Z keyLen.

(** A derived key of one of the three sizes makes a cipher, which decrypts
    what it encrypts. *)
Lemma derived_cipher gcm Key input keyLen :
  (∀ p s i n, String.length (Key p s i n) = n) → keyLen ∈ [16; 24; 32]%nat →
  NewAesGCM gcm (NewPbkdf2 Key input keyLen) = Ok (gcm (NewPbkdf2 Key input keyLen)).
Proof. intros HK Hn. unfold NewAesGCM, NewPbkdf2. by rewrite HK, bool_decide_eq_true_2. Qed.

(** [rand.Read] fills the buffer or fails. *)
Definition RandomBytes (Read : nat → result string) (size : nat) : result string := Read size.

Section Crypto.
  Context `{!AEAD}.
  Variable Read : nat → result string.

Definition generateNonce : result string := RandomBytes Read NonceSize.

Definition Encrypt (plainText : string) : result (string * string) :=
  let* nonce := generateNonce in
  Ok (Seal nonce plainText, nonce).

Definition Decrypt (cipherText nonce : string) : result string := Open nonce cipherText.

(** A text that could be encrypted is decrypted with the nonce returned. *)
Lemma decrypt_encrypt plainText cipherText nonce :
  (∀ n b, Read n = Ok b → String.length b = n) →
  Encrypt plainText = Ok (cipherText, nonce) → Decrypt cipherText nonce = Ok plainText.
Proof.
  unfold Encrypt, Decrypt. intros Hread (n & Hn & [= <- <-])%rbind_Ok. by apply Open_Seal, Hread.
Qed.
End Crypto.
