(* ===== verification/WorkQueue.v ===== *)
(** The work queue of the router and its worker: [UpdateRoute], [runWorker]
    and the end of [Run] in f5router/f5router.go, over the queue of
    k8s.io/client-go/util/workqueue.

    The queue keeps what is to be done ([dirty]), what is being done
    ([processing]) and the order; an item that is already to be done is not
    added again.  The goroutines that call [UpdateRoute], the worker, and the
    shutdown are one transition system; a panic of a handler ends the
    process. *)

From Stdlib Require Import ZArith Lia.
From stdpp Require Import base gmap list strings relations.
From S2P Require Import Prelude GoStrings Pool Config Resources Updates Tier2 Policy RoutingTable F5Router RouterFacts RouterRun.

Open Scope go_scope.
Open Scope nat_scope.

(** ** workqueue.Type *)
Section Queue.
  Context {A : Type} `{!EqDecision A}.

Record queue := mkQueue { q_items : list A; dirty : list A; processing : list A; shuttingDown : bool }.

Definition q_New : queue := mkQueue [] [] [] false.

Definition set_delete (i : A) (s : list A) : list A := filter (λ x, x ≠ i) s.

Definition q_Add (i : A) (q : queue) : queue :=
  if shuttingDown q then q
  else if decide (i ∈ dirty q) then q
  else
    let d := i :: dirty q in
    if decide (i ∈ processing q) then mkQueue (q_items q) d (processing q) false
    else mkQueue (q_items q ++ [i]) d (processing q) false.

Definition q_Len (q : queue) : nat := length (q_items q).

(** [None]: no item; the caller waits, or quits after a shutdown. *)
Definition q_Get (q : queue) : option (A * queue) :=
  match q_items q with
  | [] => None
  | i :: rest => Some (i, mkQueue rest (set_delete i (dirty q)) (i :: processing q) (shuttingDown q))
  end.

Definition q_Done (i : A) (q : queue) : queue :=
  let p := set_delete i (processing q) in
  if decide (i ∈ dirty q) then mkQueue (q_items q ++ [i]) (dirty q) p (shuttingDown q)
  else mkQueue (q_items q) (dirty q) p (shuttingDown q).

Definition q_ShutDown (q : queue) : queue := mkQueue (q_items q) (dirty q) (processing q) true.
End Queue.
Arguments queue : clear implicits.

(** ** The worker beside the callers of [UpdateRoute] *)
Section Worker.
  Context {A S W : Type} `{!EqDecision A}.
  Variable handle : A → S → result S.
  Variable drain : S → result (S * W).

(** Between [Get] and [Done]: the item is taken, then handled, then the
    length of the queue has been read and the configuration written. *)
Inductive worker := Idle | Busy (i : A) | Handled (i : A) | Finishing (i : A) | Stopped | Crashed.

Inductive event := EHandle (i : A) | EDrain.

(** [added]: the items given to [UpdateRoute] before the shutdown, [trace]:
    what the worker has done, [written]: the configurations. *)
Record sys := mkSys {
  q : queue A; router : S; wk : worker; written : list W; trace : list event; added : list A;
}.

Definition start (s : S) : sys := mkSys q_New s Idle [] [] [].

Definition with_worker (k : worker) (x : sys) : sys := mkSys (q x) (router x) k (written x) (trace x) (added x).

(** [UpdateRoute] *)
Definition UpdateRoute (i : A) (x : sys) : sys :=
  mkSys (q_Add i (q x)) (router x) (wk x) (written x) (trace x)
    (if shuttingDown (q x) then added x else added x ++ [i]).

(** A step of [runWorker], with the body of [process]. *)
Definition worker_step (x : sys) : option sys :=
  match wk x with
  | Idle =>
      match q_Get (q x) with
      | Some (i, q') => Some (mkSys q' (router x) (Busy i) (written x) (trace x) (added x))
      | None => if shuttingDown (q x) then Some (with_worker Stopped x) else None
      end
  | Busy i =>
      match handle i (router x) with
      | Ok r => Some (mkSys (q x) r (Handled i) (written x) (trace x ++ [EHandle i]) (added x))
      | _ => Some (with_worker Crashed x)
      end
  | Handled i =>
      if (q_Len (q x) =? 0) then
        match drain (router x) with
        | Ok (r, w) => Some (mkSys (q x) r (Finishing i) (written x ++ [w]) (trace x ++ [EDrain]) (added x))
        | _ => Some (with_worker Crashed x)
        end
      else Some (with_worker (Finishing i) x)
  | Finishing i => Some (mkSys (q_Done i (q x)) (router x) Idle (written x) (trace x) (added x))
  | Stopped | Crashed => None
  end.

(** [fresh i x]: what the callers respect. *)
Inductive sys_step (fresh : A → sys → Prop) : sys → sys → Prop :=
  | s_update i x : fresh i x → sys_step fresh x (UpdateRoute i x)
  | s_worker x x' : worker_step x = Some x' → sys_step fresh x x'
  | s_shutdown x :
      sys_step fresh x (mkSys (q_ShutDown (q x)) (router x) (wk x) (written x) (trace x) (added x)).

(** Every update is a new value. *)
Definition new_item (i : A) (x : sys) : Prop := i ∉ added x.

(** The item in the worker's hands. *)
Definition in_hand (x : sys) : list A :=
  match wk x with Busy i | Handled i | Finishing i => [i] | _ => [] end.

(** No equal update is waiting or being processed. *)
Definition unqueued (i : A) (x : sys) : Prop := i ∉ in_hand x ++ q_items (q x).

(** ** What the worker has done *)
Definition handled (l : list event) : list A := omap (λ e, match e with EHandle i => Some i | EDrain => None end) l.

(** The router and the configurations after a trace. *)
Definition replay_step (acc : result (S * list W)) (e : event) : result (S * list W) :=
  let* '(s, ws) := acc in
  match e with
  | EHandle i => let* s' := handle i s in Ok (s', ws)
  | EDrain => let* '(s', w) := drain s in Ok (s', ws ++ [w])
  end.

Definition replay (s : S) (l : list event) : result (S * list W) := foldl replay_step (Ok (s, [])) l.

(** The item in the worker's hands that has not been handled, and those
    waiting. *)
Definition pending (x : sys) : list A :=
  match wk x with Busy i => [i] | _ => [] end ++ q_items (q x).

Definition sys_inv (s0 : S) (x : sys) : Prop :=
  (wk x ≠ Crashed →
    added x = handled (trace x) ++ pending x ∧ NoDup (in_hand x ++ q_items (q x)) ∧
    dirty (q x) ≡ₚ q_items (q x) ∧ processing (q x) = in_hand x ∧
    (∀ i, wk x = Handled i ∨ wk x = Finishing i → i ∈ handled (trace x))) ∧
  replay s0 (trace x) = Ok (router x, written x) ∧
  ((wk x = Idle ∨ (∃ i, wk x = Finishing i) ∨ wk x = Stopped) → q_items (q x) = [] →
     trace x = [] ∨ last (trace x) = Some EDrain) ∧
  (wk x = Stopped → q_items (q x) = [] ∧ shuttingDown (q x) = true).

Lemma handled_snoc l e : handled (l ++ [e]) = handled l ++ match e with EHandle i => [i] | EDrain => [] end.
Proof. unfold handled. rewrite omap_app. by destruct e. Qed.

Lemma replay_snoc s0 l e : replay s0 (l ++ [e]) = replay_step (replay s0 l) e.
Proof. unfold replay. by rewrite foldl_app. Qed.

Lemma set_delete_notin (i : A) l : i ∉ l → set_delete i l = l.
Proof.
  induction l as [|x l IH]; intros Hi; [done|]. apply not_elem_of_cons in Hi as [Hx Hi].
  unfold set_delete in *. rewrite filter_cons_True by congruence. by rewrite IH.
Qed.

Lemma in_hand_added s0 x i : sys_inv s0 x → wk x ≠ Crashed → i ∈ in_hand x → i ∈ added x.
Proof.
  intros [H _] Hc Hi. destruct (H Hc) as (-> & _ & _ & _ & Hh). apply elem_of_app. unfold in_hand, pending in *.
  destruct (wk x); try by apply elem_of_nil in Hi.
  - right. set_solver.
  - left. apply list_elem_of_singleton in Hi as ->. apply Hh. by left.
  - left. apply list_elem_of_singleton in Hi as ->. apply Hh. by right.
Qed.

Lemma new_unqueued s0 i x : sys_inv s0 x → wk x ≠ Crashed → new_item i x → unqueued i x.
Proof.
  intros Hinv Hc Hnew [Hi|Hi]%elem_of_app; apply Hnew; [by eapply in_hand_added|].
  destruct Hinv as [Hm _]. destruct (Hm Hc) as (-> & _). unfold pending. set_solver.
Qed.

Lemma Add_new s0 i x :
  sys_inv s0 x → unqueued i x → wk x ≠ Crashed → shuttingDown (q x) = false →
  q_Add i (q x) = mkQueue (q_items (q x) ++ [i]) (i :: dirty (q x)) (processing (q x)) false.
Proof.
  intros Hinv Hnew Hc Hs. pose proof Hinv as [Hm _]. destruct (Hm Hc) as (Ha & _ & Hd & Hp & _).
  unfold unqueued in Hnew. unfold q_Add. rewrite Hs, decide_False, decide_False; [done|..].
  - rewrite Hp. set_solver.
  - rewrite Hd. set_solver.
Qed.

Lemma inv_update s0 i x : sys_inv s0 x → unqueued i x → sys_inv s0 (UpdateRoute i x).
Proof.
  intros Hinv Hnew. destruct (shuttingDown (q x)) eqn:Es.
  { unfold UpdateRoute. rewrite Es. unfold q_Add. rewrite Es. by destruct x. }
  pose proof Hinv as (Hm & Hr & Hl & Hs). unfold UpdateRoute. rewrite Es. split_and!; [|done| |]; cbn.
  - intros Hc. destruct (Hm Hc) as (Ha & Hnd & Hd & Hp & Hh). rewrite (Add_new s0) by done. cbn.
    unfold pending in *. cbn. split_and!; try done.
    + rewrite Ha. by rewrite <-!app_assoc.
    + unfold in_hand in *. cbn. rewrite app_assoc. apply NoDup_app. split_and!; [done| |apply NoDup_singleton].
      by intros y Hy ->%list_elem_of_singleton.
    + rewrite Hd. by rewrite Permutation_app_comm.
  - intros Hk He. assert (wk x ≠ Crashed) as Hc by (intros Hc; destruct Hk as [?|[[??]|?]]; congruence).
    rewrite (Add_new s0) in He by done. cbn in He. by destruct (q_items (q x)).
  - intros [_ Hb]%Hs. congruence.
Qed.

Lemma inv_get s0 x i rest :
  sys_inv s0 x → wk x = Idle → q_items (q x) = i :: rest →
  sys_inv s0 (mkSys (mkQueue rest (set_delete i (dirty (q x))) (i :: processing (q x)) (shuttingDown (q x)))
                (router x) (Busy i) (written x) (trace x) (added x)).
Proof.
  intros (Hm & Hr & Hl & Hs) Hw Hq. destruct Hm as (Ha & Hnd & Hd & Hp & Hh); [by rewrite Hw|].
  unfold pending, in_hand in *. rewrite Hw, Hq in *. cbn in Ha.
  split_and!; cbn; [|done|by intros [?|[[??]|?]]|done]. intros _. split_and!; [done|done| |by rewrite Hp|by intros ? [?|?]].
  apply NoDup_cons in Hnd as [Hi _]. unfold set_delete. rewrite Hd, filter_cons_False by (by intros []).
  change (set_delete i rest ≡ₚ rest). by rewrite set_delete_notin.
Qed.

Lemma inv_handle s0 x i r :
  sys_inv s0 x → wk x = Busy i → handle i (router x) = Ok r →
  sys_inv s0 (mkSys (q x) r (Handled i) (written x) (trace x ++ [EHandle i]) (added x)).
Proof.
  intros (Hm & Hr & Hl & Hs) Hw Hh. destruct Hm as (Ha & Hnd & Hd & Hp & Hf); [by rewrite Hw|].
  unfold pending, in_hand in *. rewrite Hw in *. split_and!; cbn [q router wk written trace added with_worker]; [|..|done].
  - intros _. rewrite handled_snoc. split_and!; [by rewrite Ha, <-app_assoc|done|done|done|].
    intros j [[= ->]|?]; [|done]. set_solver.
  - rewrite replay_snoc, Hr. cbn [replay_step rbind]. by rewrite Hh.
  - by intros [?|[[??]|?]].
Qed.

Lemma inv_drain s0 x i r w :
  sys_inv s0 x → wk x = Handled i → drain (router x) = Ok (r, w) →
  sys_inv s0 (mkSys (q x) r (Finishing i) (written x ++ [w]) (trace x ++ [EDrain]) (added x)).
Proof.
  intros (Hm & Hr & Hl & Hs) Hw Hh. destruct Hm as (Ha & Hnd & Hd & Hp & Hf); [by rewrite Hw|].
  unfold pending, in_hand in *. rewrite Hw in *. split_and!; cbn [q router wk written trace added with_worker]; [|..|done].
  - intros _. rewrite handled_snoc, app_nil_r. split_and!; try done. intros j [?|[= ->]]; [done|]. apply Hf. by left.
  - rewrite replay_snoc, Hr. cbn [replay_step rbind]. by rewrite Hh.
  - intros _ _. right. by rewrite last_snoc.
Qed.

Lemma inv_skip s0 x i :
  sys_inv s0 x → wk x = Handled i → q_items (q x) ≠ [] → sys_inv s0 (with_worker (Finishing i) x).
Proof.
  intros (Hm & Hr & Hl & Hs) Hw Hq. destruct Hm as (Ha & Hnd & Hd & Hp & Hf); [by rewrite Hw|].
  unfold pending, in_hand in *. rewrite Hw in *. split_and!; cbn [q router wk written trace added with_worker]; [|done..].
  intros _. split_and!; try done. intros j [?|[= ->]]; [done|]. apply Hf. by left.
Qed.

Lemma inv_done s0 x i :
  sys_inv s0 x → wk x = Finishing i → sys_inv s0 (mkSys (q_Done i (q x)) (router x) Idle (written x) (trace x) (added x)).
Proof.
  intros (Hm & Hr & Hl & Hs) Hw. destruct Hm as (Ha & Hnd & Hd & Hp & Hf); [by rewrite Hw|].
  unfold pending, in_hand in *. rewrite Hw in *. cbn in Ha.
  assert (i ∉ dirty (q x)) as Hi.
  { rewrite Hd. by apply NoDup_cons in Hnd as [? _]. }
  unfold q_Done. rewrite decide_False by done. split_and!; cbn [q router wk written trace added with_worker]; [|done|..|done].
  - intros _. split_and!; try done; [by apply NoDup_cons in Hnd as [_ ?]| |by intros ? [?|?]].
    rewrite Hp. unfold set_delete. by rewrite filter_cons_False by (by intros []).
  - intros _. apply Hl. right. left. by eexists.
Qed.

Lemma inv_crash s0 x : sys_inv s0 x → sys_inv s0 (with_worker Crashed x).
Proof. intros (_ & Hr & _). by split_and!; cbn [q router wk written trace added with_worker]; try done; intros [?|[[??]|?]]. Qed.

Lemma inv_worker s0 x x' : sys_inv s0 x → worker_step x = Some x' → sys_inv s0 x'.
Proof.
  intros Hinv. unfold worker_step. destruct (wk x) eqn:Hw; try done.
  - unfold q_Get. destruct (q_items (q x)) as [|i rest] eqn:Hq; [|intros [= <-]; by apply inv_get].
    destruct (shuttingDown (q x)) eqn:Hs; [|done]. intros [= <-]. destruct Hinv as (Hm & Hr & Hl & _).
    unfold pending, in_hand in *. rewrite Hw in *. split_and!; cbn; unfold pending, in_hand; cbn; try done.
    + intros _. destruct Hm as (? & ? & ? & ? & ?); [done|]. split_and!; try done. by intros ? [?|?].
    + intros _ _. apply Hl; [by left|done].
  - destruct (handle i (router x)) eqn:Hh; intros [= <-]; [by apply inv_handle|by apply inv_crash..].
  - unfold q_Len. destruct (Nat.eqb_spec (length (q_items (q x))) 0) as [H0|H0].
    + destruct (drain (router x)) as [[r w]| |] eqn:Hd; intros [= <-]; [by eapply inv_drain|by apply inv_crash..].
    + intros [= <-]. apply inv_skip; [done|done|]. intros E. by rewrite E in H0.
  - intros [= <-]. by apply inv_done.
Qed.

Lemma inv_shutdown s0 x :
  sys_inv s0 x → sys_inv s0 (mkSys (q_ShutDown (q x)) (router x) (wk x) (written x) (trace x) (added x)).
Proof. intros (Hm & Hr & Hl & Hs). split_and!; try done. cbn. by intros [? _]%Hs. Qed.

Lemma inv_reachable s0 x : rtc (sys_step unqueued) (start s0) x → sys_inv s0 x.
Proof.
  intros Hr. assert (sys_inv s0 (start s0)) as Hi.
  { split_and!; try done; [|by left]. intros _. split_and!; try done; [constructor|by intros ? [?|?]]. }
  revert Hi. induction Hr as [|x y z Hst _ IH]; [done|]. intros Hi. apply IH.
  destruct Hst; [by apply inv_update|by eapply inv_worker|by apply inv_shutdown].
Qed.

(** How many steps the worker can make alone. *)
Definition work_left (x : sys) : nat :=
  4 * length (q_items (q x)) +
  match wk x with Idle => 1 | Busy _ => 4 | Handled _ => 3 | Finishing _ => 2 | Stopped | Crashed => 0 end.

Lemma worker_added x x' : worker_step x = Some x' → added x' = added x.
Proof. unfold worker_step, with_worker. intros H. repeat case_match; by simplify_eq. Qed.

Lemma worker_progress s0 x x' : sys_inv s0 x → worker_step x = Some x' → work_left x' < work_left x.
Proof.
  intros Hinv. unfold worker_step, work_left, with_worker. destruct (wk x) eqn:Hw; try done.
  - unfold q_Get. destruct (q_items (q x)) as [|i rest] eqn:Hq; [|intros [= <-]; cbn; lia].
    destruct (shuttingDown (q x)); [|done]. intros [= <-]. cbn. rewrite Hq. cbn. lia.
  - destruct (handle i (router x)); intros [= <-]; cbn; lia.
  - destruct (q_Len (q x) =? 0); [destruct (drain (router x)) as [[r w]| |]|]; intros [= <-]; cbn; lia.
  - intros [= <-]. cbn. pose proof Hinv as (Hm & _). destruct Hm as (Ha & Hnd & Hd & _ & Hf); [by rewrite Hw|].
    unfold pending in Ha. rewrite Hw in Ha. cbn in Ha.
    assert (i ∉ dirty (q x)) as Hi.
    { rewrite Hd. unfold in_hand in Hnd. rewrite Hw in Hnd. by apply NoDup_cons in Hnd as [? _]. }
    unfold q_Done. rewrite decide_False by done. cbn. lia.
Qed.

(** The worker left alone. *)
Lemma worker_alone s0 x n x' :
  sys_inv s0 x → nsteps (λ a b, worker_step a = Some b) n x x' →
  sys_inv s0 x' ∧ added x' = added x ∧ n + work_left x' ≤ work_left x.
Proof.
  intros Hinv Hrun. induction Hrun as [|n x y z Hst _ IH]; [by split_and!; [done..|lia]|].
  pose proof (worker_progress _ _ _ Hinv Hst). pose proof (worker_added _ _ Hst) as Hadd.
  destruct IH as (Hz & Hz' & Hn); [by eapply inv_worker|]. split_and!; [done|congruence|lia].
Qed.

(** At rest nothing is left to do and the last thing done was to write the
    configuration. *)
Lemma worker_at_rest s0 x :
  sys_inv s0 x → worker_step x = None → wk x ≠ Crashed →
  (wk x = Idle ∨ wk x = Stopped) ∧ handled (trace x) = added x ∧ (added x = [] ∨ last (trace x) = Some EDrain).
Proof.
  intros (Hm & _ & Hl & Hs) Hrest Hc. destruct (Hm Hc) as (Ha & _).
  assert ((wk x = Idle ∨ wk x = Stopped) ∧ q_items (q x) = []) as [Hw Hq].
  { revert Hrest. unfold worker_step. destruct (wk x) eqn:E; try done.
    - unfold q_Get. destruct (q_items (q x)); [by auto|done].
    - by repeat case_match.
    - by repeat case_match.
    - intros _. split; [by right|]. by apply Hs. }
  assert (pending x = []) as Hp by (unfold pending; rewrite Hq; by destruct Hw as [-> | ->]).
  rewrite Hp, app_nil_r in Ha. split_and!; [done|done|].
  destruct Hl as [Ht|Ht]; [by destruct Hw; auto|done| |by right]. left. by rewrite Ha, Ht.
Qed.

Lemma rest_unqueued s0 i x : sys_inv s0 x → worker_step x = None → wk x ≠ Crashed → unqueued i x.
Proof.
  intros (_ & _ & _ & Hs) Hrest Hc. unfold unqueued, in_hand. revert Hrest. unfold worker_step.
  destruct (wk x) eqn:E; try done; [| | |]; try by repeat case_match.
  - unfold q_Get. destruct (q_items (q x)); [|done]. intros _. by intros ?%elem_of_nil.
  - destruct (Hs eq_refl) as [-> _]. intros _. by intros ?%elem_of_nil.
Qed.

(** Left alone the worker comes to rest, in one way. *)
Lemma worker_rests s0 x :
  sys_inv s0 x → ∃ n x', nsteps (λ a b, worker_step a = Some b) n x x' ∧ worker_step x' = None.
Proof.
  remember (work_left x) as k eqn:Hk. revert x Hk. induction k as [k IH] using lt_wf_ind. intros x -> Hinv.
  destruct (worker_step x) as [y|] eqn:E; [|by exists 0, x; split; [apply nsteps_O|]].
  destruct (IH (work_left y)) with y as (n & x' & Hn & Hr); [by eapply worker_progress|done|by eapply inv_worker|].
  exists (Datatypes.S n), x'. split; [by eapply nsteps_l|done].
Qed.

Lemma worker_rest_unique n m x y z :
  nsteps (λ a b, worker_step a = Some b) n x y → nsteps (λ a b, worker_step a = Some b) m x z →
  worker_step y = None → worker_step z = None → y = z.
Proof.
  intros Hy. revert m z. induction Hy as [x|n x x1 y Hst _ IH]; intros m z Hz Hry Hrz.
  - inversion Hz; by simplify_eq.
  - inversion Hz; simplify_eq; by eauto.
Qed.

(** C5. The router catches up.  Whatever the interleaving of updates, worker
    and shutdown, when no update is given while an equal one is waiting or
    being processed (those for HTTP routes are all different values): left alone the worker comes to rest within four steps per waiting
    update and a constant; its state and the configurations written are those
    of replaying what it did; and at rest, unless a handler panicked, it has
    handled every update that was given to it, in the order they were given,
    and has written the configuration after the last one. *)
Theorem worker_converges s0 x n x' :
  rtc (sys_step unqueued) (start s0) x → nsteps (λ a b, worker_step a = Some b) n x x' →
  n ≤ 4 * length (q_items (q x)) + 4 ∧ replay s0 (trace x') = Ok (router x', written x') ∧
  (worker_step x' = None → wk x' ≠ Crashed →
     handled (trace x') = added x ∧ (added x = [] ∨ last (trace x') = Some EDrain)).
Proof.
  intros Hr Hrun. destruct (worker_alone s0 x n x' (inv_reachable _ _ Hr) Hrun) as (Hinv & Hadd & Hn).
  split; [unfold work_left in Hn; destruct (wk x), (wk x'); lia|]. split; [by destruct Hinv as (_ & ? & _)|].
  intros Hrest Hc. rewrite <-Hadd. by apply (worker_at_rest s0 x').
Qed.

(** The worker does not look at what has been given to it. *)
Definition with_added (l : list A) (x : sys) : sys := mkSys (q x) (router x) (wk x) (written x) (trace x) l.

Lemma worker_step_added l x : worker_step (with_added l x) = with_added l <$> worker_step x.
Proof.
  unfold worker_step, with_added, with_worker. destruct x as [q0 r k w tr ad]; cbn.
  destruct k as [|i|i|i| |]; cbn; [|..|done|done|done].
  - by destruct (q_Get q0) as [[i q']|], (shuttingDown q0).
  - by destruct (handle i r).
  - destruct (q_Len q0 =? 0); [|done]. by destruct (drain r) as [[r' w']| |].
Qed.

Lemma worker_alone_added l n x x' :
  nsteps (λ a b, worker_step a = Some b) n x x' → nsteps (λ a b, worker_step a = Some b) n (with_added l x) (with_added l x').
Proof.
  induction 1 as [x|n x y z Hst _ IH]; [apply nsteps_O|]. eapply nsteps_l; [|exact IH]. by rewrite worker_step_added, Hst.
Qed.

(** An update that is waiting already is dropped. *)
Lemma UpdateRoute_dropped i x :
  i ∈ dirty (q x) → shuttingDown (q x) = false → UpdateRoute i x = with_added (added x ++ [i]) x.
Proof. intros Hd Hs. unfold UpdateRoute, q_Add, with_added. by rewrite Hs, decide_True. Qed.

(** Runs as lists of commands: an update, or a step of the worker. *)
Fixpoint drive (l : list (option A)) (x : sys) : sys :=
  match l with
  | [] => x
  | Some i :: l => drive l (UpdateRoute i x)
  | None :: l => drive l (default x (worker_step x))
  end.

Lemma drive_steps (P : A → sys → Prop) l x :
  (∀ i y, P i y) → rtc (sys_step P) x (drive l x).
Proof.
  intros HP. revert x. induction l as [|[i|] l IH]; intros x; cbn; [done|..].
  - eapply rtc_l; [by apply s_update|done].
  - destruct (worker_step x) as [x'|] eqn:E; cbn; [|done]. eapply rtc_l; [by eapply s_worker|done].
Qed.

(** The worker can make [k] steps. *)
Fixpoint alive (k : nat) (x : sys) : bool :=
  match k with
  | O => true
  | Datatypes.S k => match worker_step x with Some x' => alive k x' | None => false end
  end.

Lemma alive_nsteps k x :
  alive k x = true → nsteps (λ a b, worker_step a = Some b) k x (drive (replicate k None) x).
Proof.
  revert x. induction k as [|k IH]; intros x; cbn; [intros _; apply nsteps_O|].
  destruct (worker_step x) as [x'|] eqn:E; [|done]. intros Ha. eapply nsteps_l; [done|]. by apply IH.
Qed.
End Worker.

(** ** The router *)
#[global] Instance BigIPConfig_eq_dec : EqDecision BigIPConfig.
Proof. solve_decision. Defined.
#[global] Instance StatusConfig_eq_dec : EqDecision StatusConfig.
Proof. solve_decision. Defined.
#[global] Instance Config_eq_dec : EqDecision Config.
Proof. solve_decision. Defined.
#[global] Instance updateTCP_eq_dec : EqDecision updateTCP.
Proof. solve_decision. Defined.
#[global] Instance workItem_eq_dec : EqDecision workItem.
Proof. solve_decision. Defined.

Abbreviation router_sys := (@sys workItem F5Router Sections).

Definition busy_update : workItem := ItemHTTP demo_update.

Lemma worker_converges_witness :
  ∃ x x' : router_sys, rtc (sys_step handle drain unqueued) (start demo_router) x ∧
    nsteps (λ a b, worker_step handle drain a = Some b) 4 x x' ∧ worker_step handle drain x' = None ∧
    handled (trace x') = [busy_update] ∧ last (trace x') = Some EDrain.
Proof.
  set (x := UpdateRoute busy_update (start demo_router) : router_sys).
  assert (rtc (sys_step handle drain unqueued) (start demo_router) x) as Hr.
  { eapply rtc_l; [apply s_update|apply rtc_refl]. by intros ?%elem_of_nil. }
  set (x' := drive handle drain (replicate 4 None) x).
  assert (nsteps (λ a b, worker_step handle drain a = Some b) 4 x x') as Hn.
  { apply alive_nsteps. vm_compute. reflexivity. }
  exists x, x'. split; [done|]. split; [done|].
  assert (worker_step handle drain x' = None) as Hrest by (vm_compute; reflexivity).
  assert (wk x' = Idle) as Hi by (vm_compute; reflexivity).
  assert (wk x' ≠ Crashed) as Hc by by rewrite Hi.
  split; [done|]. destruct (worker_converges handle drain demo_router x 4 x' Hr Hn) as (_ & _ & Hend).
  destruct (Hend Hrest Hc) as [Hh [Ha|Hl]]; [discriminate Ha|]. by split.
Defined.
