(* ===== verification/Runners.v ===== *)
(** The members that bring routes in, as running processes: [Run] of
    routefetcher/route_fetcher.go with its subscription goroutine, and [Run]
    of mbus/subscriber.go.

    The goroutine of the fetcher and [Run] share the event channel, the stop
    flag and the event source; they are a transition system over the answers
    of the UAA and of the routing API.  What the handlers do to the tables is
    in Fetcher.v and Subscriber.v. *)

From Stdlib Require Import Ascii ZArith Lia.
From stdpp Require Import base gmap list strings relations.
From S2P Require Import Prelude GoStrings Config Codec Json Fetcher Subscriber Main.

Open Scope go_scope.
Open Scope nat_scope.

(** ** route_fetcher.go *)

(** The capacity of [eventChannel]. *)
Definition channel_cap : nat := 1024.

Section RouteFetcher.
  Context {E : Type}.

(** Where the goroutine of [startEventCycle] is. *)
Inductive cycle_pc :=
  | CToken | CCheck | CSubscribe | CFetch | CStore | CNext | CSend (e : E) | CAfter (err : string) | CSleep | CEnded.

(** [source]: the event source stored for [Run], [None] while nil, otherwise
    whether it is open; [received] and [handled_ev] are the events taken from
    the source and those given to [HandleEvent]. *)
Record fetcher := mkFetcher {
  chan : list E; stopEventSource : bool; source : option bool; cyc : cycle_pc; forceUpdate : bool;
  returned : bool; received : list E; handled_ev : list E; fetches : nat;
}.

Definition start_fetcher : fetcher := mkFetcher [] false None CToken false false [] [] 0.

Definition with_cyc (c : cycle_pc) (f : fetcher) : fetcher :=
  mkFetcher (chan f) (stopEventSource f) (source f) c (forceUpdate f) (returned f) (received f) (handled_ev f) (fetches f).

(** [NewTicker] panics for an interval that is not positive. *)
Definition Run_interval (c : Config) : result Z :=
  if (0 <? FetchRoutesInterval c)%Z then Ok (FetchRoutesInterval c) else Panic "non-positive interval for NewTicker".

Inductive fstep : fetcher → fetcher → Prop :=
  (** the goroutine *)
  | f_token_err f : cyc f = CToken → fstep f f
  | f_token f : cyc f = CToken → fstep f (with_cyc CCheck f)
  | f_check f : cyc f = CCheck → fstep f (with_cyc (if stopEventSource f then CEnded else CSubscribe) f)
  | f_subscribe_err f e : cyc f = CSubscribe → fstep f (with_cyc (CAfter e) f)
  | f_subscribe f : cyc f = CSubscribe → fstep f (with_cyc CFetch f)
  | f_fetch f :
      cyc f = CFetch →
      fstep f (mkFetcher (chan f) (stopEventSource f) (source f) CStore (forceUpdate f) (returned f) (received f)
                 (handled_ev f) (S (fetches f)))
  | f_store f :
      cyc f = CStore →
      fstep f (mkFetcher (chan f) (stopEventSource f) (Some true) CNext (forceUpdate f) (returned f) (received f)
                 (handled_ev f) (fetches f))
  | f_next f e : cyc f = CNext → source f = Some true → fstep f (with_cyc (CSend e) f)
  | f_next_err f err :
      cyc f = CNext →
      fstep f (mkFetcher (chan f) (stopEventSource f) (Some false) (CAfter err) (forceUpdate f) (returned f) (received f)
                 (handled_ev f) (fetches f))
  | f_send f e :
      cyc f = CSend e → length (chan f) < channel_cap →
      fstep f (mkFetcher (chan f ++ [e]) (stopEventSource f) (source f) CNext (forceUpdate f) (returned f)
                 (received f ++ [e]) (handled_ev f) (fetches f))
  | f_after f err :
      cyc f = CAfter err →
      fstep f (mkFetcher (chan f) (stopEventSource f) (source f) (if stopEventSource f then CEnded else CSleep)
                 (bool_decide (err = "unauthorized")) (returned f) (received f) (handled_ev f) (fetches f))
  | f_sleep f : cyc f = CSleep → fstep f (with_cyc CToken f)
  (** the loop of [Run] *)
  | f_tick f :
      returned f = false →
      fstep f (mkFetcher (chan f) (stopEventSource f) (source f) (cyc f) (forceUpdate f) false (received f)
                 (handled_ev f) (S (fetches f)))
  | f_event f e rest :
      returned f = false → chan f = e :: rest →
      fstep f (mkFetcher rest (stopEventSource f) (source f) (cyc f) (forceUpdate f) false (received f)
                 (handled_ev f ++ [e]) (fetches f))
  | f_signal f :
      returned f = false →
      fstep f (mkFetcher (chan f) true (match source f with Some _ => Some false | None => None end) (cyc f)
                 (forceUpdate f) true (received f) (handled_ev f) (fetches f)).

Lemma fstep_fifo f f' :
  received f = handled_ev f ++ chan f ∧ length (chan f) ≤ channel_cap → fstep f f' →
  received f' = handled_ev f' ++ chan f' ∧ length (chan f') ≤ channel_cap.
Proof.
  intros [Hr Hc] Hst. destruct Hst; cbn; try done.
  - rewrite Hr, <-app_assoc. split; [done|]. rewrite length_app. cbn. lia.
  - rewrite H0 in *. rewrite Hr, <-app_assoc. split; [done|]. cbn in *. lia.
Qed.

(** Events reach the handler in the order they were received, none is lost or
    repeated, and the channel stays within its capacity. *)
Lemma events_fifo f :
  rtc fstep start_fetcher f → received f = handled_ev f ++ chan f ∧ length (chan f) ≤ channel_cap.
Proof.
  assert (received start_fetcher = handled_ev start_fetcher ++ chan start_fetcher ∧
    length (chan start_fetcher) ≤ channel_cap) as H0 by (split; [done|cbn; lia]).
  intros Hr. revert H0. induction Hr as [|x y z Hs _ IH]; [done|]. intros H. by eapply IH, fstep_fifo.
Qed.

(** A signal that arrives between the subscription and the store of its
    source leaves the source open: [Run] has returned and the goroutine reads
    on. *)
Lemma late_source_stays_open :
  ∃ f, rtc fstep start_fetcher f ∧ returned f = true ∧ stopEventSource f = true ∧ source f = Some true ∧ cyc f = CNext.
Proof.
  eexists. split.
  { eapply rtc_l; [by apply f_token|]. eapply rtc_l; [by apply f_check|]. eapply rtc_l; [by apply f_subscribe|].
    eapply rtc_l; [by apply f_signal|]. eapply rtc_l; [by apply f_fetch|]. eapply rtc_l; [by apply f_store|]. apply rtc_refl. }
  done.
Qed.
End RouteFetcher.

(** ** mbus/subscriber.go *)

(** [common.RouterStart] with one host, and its text. *)
Definition RouterStart_json (opts : SubscriberOpts) (host : string) : json :=
  JObj [("id", JStr (ID opts)); ("hosts", JArr [JStr host]);
        ("minimumRegisterIntervalInSeconds", JNum (Itoa (MinimumRegisterIntervalInSeconds opts)));
        ("pruneThresholdInSeconds", JNum (Itoa (PruneThresholdInSeconds opts)))].

Definition RouterStart_text (opts : SubscriberOpts) (host : string) : string := print_json (RouterStart_json opts host).

(** [ip] is what [localip.LocalIP] answers. *)
Definition startMessage (opts : SubscriberOpts) (ip : result string) : result string :=
  let* host := ip in Ok (RouterStart_text opts host).

(** The connection: what was published, and the subjects subscribed to. *)
Record bus := mkBus { published : list (string * string); subscribed : list string }.

(** [Publish] and [Subscribe] fail or are recorded. *)
Definition publish (answer : result unit) (subject text : string) (b : bus) : result bus :=
  let* _ := answer in Ok (mkBus (published b ++ [(subject, text)]) (subscribed b)).

Definition subscribe_to (answer : result unit) (subject : string) (b : bus) : result bus :=
  let* _ := answer in Ok (mkBus (published b) (subscribed b ++ [subject])).

Definition sendStartMessage (opts : SubscriberOpts) (ip : result string) (answer : result unit) (b : bus) : result bus :=
  let* message := startMessage opts ip in publish answer "router.start" message b.

(** A message on router.greet: the error is dropped and the answer empty. *)
Definition on_greet (opts : SubscriberOpts) (ip : result string) (answer : result unit) (reply : string) (b : bus) : bus :=
  let response := match startMessage opts ip with Ok m => m | _ => EmptyString end in
  match publish answer reply response b with Ok b' => b' | _ => b end.

(** [Run] up to [close(ready)]. *)
Definition Subscriber_start (opts : SubscriberOpts) (ip : result string) (sent greet routes : result unit) (b : bus) :
    result bus :=
  let* b := sendStartMessage opts ip sent b in
  let* b := subscribe_to greet "router.greet" b in
  subscribe_to routes "router.*" b.

(** The loop: a start message for every element of [startMsgChan]; a failure
    is logged. *)
Definition on_startMsg (opts : SubscriberOpts) (b : bus) (answers : result string * result unit) : bus :=
  match sendStartMessage opts answers.1 answers.2 b with Ok b' => b' | _ => b end.

Definition Subscriber_loop (opts : SubscriberOpts) (l : list (result string * result unit)) (b : bus) : bus :=
  foldl (on_startMsg opts) b l.

(** Every reconnection that could be answered is answered with the message
    that was sent at the start. *)
Lemma start_messages opts host l b :
  published (Subscriber_loop opts l b) =
    published b ++ (l ≫= λ a, match a with (Ok h, Ok _) => [("router.start", RouterStart_text opts h)] | _ => [] end) ∧
  subscribed (Subscriber_loop opts l b) = subscribed b ∧
  (∀ b0, Subscriber_start opts (Ok host) (Ok tt) (Ok tt) (Ok tt) b0 =
     Ok (mkBus (published b0 ++ [("router.start", RouterStart_text opts host)]) (subscribed b0 ++ ["router.greet"; "router.*"]))).
Proof.
  split_and!.
  - revert b. induction l as [|[ip ans] l IH]; intros b; cbn; [by rewrite app_nil_r|].
    unfold Subscriber_loop in *. rewrite IH. unfold on_startMsg, sendStartMessage, publish, startMessage.
    destruct ip as [h| |], ans as [[]| |]; cbn; rewrite ?app_nil_l; try done. by rewrite <-app_assoc.
  - revert b. induction l as [|[ip ans] l IH]; intros b; cbn; [done|]. unfold Subscriber_loop in *. rewrite IH.
    unfold on_startMsg, sendStartMessage, publish, startMessage. by destruct ip as [h| |], ans as [[]| |].
  - intros b0. cbn. by rewrite <-app_assoc.
Qed.

(** A receiver reads the fields back from the text. *)
Lemma start_message_reads opts host m :
  startMessage opts (Ok host) = Ok m → parse_json m = Some (RouterStart_json opts host).
Proof.
  intros [= <-]. apply parse_print. repeat split; cbn; by eexists.
Qed.
