(* ===== verification/RoutesJson.v ===== *)
(** What the status server shows under /routes: [MarshalJSON] of
    registry/registry.go and route/pool.go, over the encoder of Json.v.

    The model of an endpoint does not tell a nil map of tags from an empty
    one; which of the two it is, and so whether the encoder writes null or an
    empty object, is an argument. *)

From Stdlib Require Import Ascii ZArith Lia.
From stdpp Require Import base gmap list strings sorting.
From S2P Require Import Prelude GoStrings Codec Duration Json Trie Config Pool Registry.

Open Scope go_scope.

(** encoding/json writes the keys of a map in increasing order. *)
Definition key_le (a b : string * json) : Prop := String.leb a.1 b.1 = true.

#[global] Instance key_le_dec : RelDecision key_le.
Proof. intros a b. unfold key_le. apply _. Defined.

Definition sort_members (l : list (string * json)) : list (string * json) := merge_sort key_le l.

Section Listing.
  Variable nil_tags : Endpoint → bool.

Definition tags_json (e : Endpoint) : json :=
  if decide (Tags e = ∅) then (if nil_tags e then JNull else JObj [])
  else JObj (sort_members ((λ kv, (kv.1, JStr kv.2)) <$> map_to_list (Tags e))).

(** [Endpoint.MarshalJSON] *)
Definition Endpoint_json (e : Endpoint) : json :=
  JObj ([("address", JStr (CanonicalAddr e)); ("ttl", JNum (Itoa (f_to_int (Seconds (staleThreshold e)))))] ++
        (if decide (RouteServiceUrl e = EmptyString) then [] else [("route_service_url", JStr (RouteServiceUrl e))]) ++
        [("tags", tags_json e)]).

(** [Pool.MarshalJSON] *)
Definition Pool_json (p : Pool) : json := JArr (Endpoint_json <$> Each p).

(** [RouteRegistry.MarshalJSON]; a nil pool would be written as null. *)
Definition Registry_json (r : RouteRegistry) : json :=
  JObj (sort_members
    ((λ ul, (ul.1, match pools r !! ul.2 with Some p => Pool_json p | None => JNull end)) <$>
       map_to_list (ToMap (byURI r)))).

Definition Registry_MarshalJSON (r : RouteRegistry) : string := print_json (Registry_json r).

(** ** Lemmas *)
Lemma sort_members_perm l : sort_members l ≡ₚ l.
Proof. apply merge_sort_Permutation. Qed.

Lemma String_leb_total a b : String.leb a b = true ∨ String.leb b a = true.
Proof.
  unfold String.leb. rewrite (String.compare_antisym a b). destruct (String.compare b a); cbn; auto.
Qed.

Lemma sort_members_sorted l : Sorted key_le (sort_members l).
Proof. apply Sorted_merge_sort. intros a b. apply String_leb_total. Qed.

Lemma Endpoint_json_integral e : integral (Endpoint_json e).
Proof.
  apply integral_obj. apply Forall_app. split; [constructor; [done|]; constructor; [by eexists|constructor]|].
  apply Forall_app. split; [case_decide; repeat constructor|]. constructor; [|constructor]. cbn. unfold tags_json.
  case_decide; [by destruct (nil_tags e)|]. apply integral_obj. rewrite sort_members_perm.
  apply Forall_fmap, Forall_true. done.
Qed.

Lemma Registry_json_integral r : integral (Registry_json r).
Proof.
  apply integral_obj. rewrite sort_members_perm. apply Forall_fmap, Forall_true. intros [u l]. cbn.
  destruct (pools r !! l); [|done]. apply integral_arr, Forall_fmap, Forall_true. intros e. apply Endpoint_json_integral.
Qed.

(** The key [toMap] builds for a path is its text. *)
Lemma newseg_Join p : head p ≠ Some EmptyString → fold_left newseg p EmptyString = Join "/" p.
Proof.
  assert (∀ q a, a ≠ EmptyString → fold_left newseg q a = Join "/" (a :: q)) as H.
  { induction q as [|x q IH]; intros a Ha; [done|]. cbn [fold_left]. unfold newseg at 2.
    rewrite bool_decide_eq_false_2 by done. rewrite IH.
    - destruct q as [|y q]; [done|]. rewrite !Join_cons by done.
      by rewrite sapp_assoc, (sapp_assoc "/" x).
    - by destruct a. }
  destruct p as [|x p]; [done|]. intros Hx. cbn [fold_left]. unfold newseg at 2. cbn [bool_decide].
  rewrite bool_decide_eq_true_2 by done. change (EmptyString +:+ x) with x. apply H. intros ->. done.
Qed.

Lemma good_path_head p : good_path p → head p ≠ Some EmptyString.
Proof.
  intros (Hs & [Hne _] & Hp) Hh. destruct p as [|x [|y p]]; [done|by injection Hh as ->|].
  injection Hh as ->. rewrite Join_cons in Hp by done.
  change (HasPrefix ("/" +:+ Join "/" (y :: p)) "/" = false) in Hp. by rewrite HasPrefix_app in Hp.
Qed.

(** The text of a path, on the paths of announced routes, names one path. *)
Lemma NoDup_path_texts t :
  (∀ p l, pool_at t p = Some l → good_path p) →
  NoDup ((λ '(p, l), (fold_left newseg p EmptyString, l)) <$> EachNodeWithPool t).*1.
Proof.
  intros Hg. rewrite <-list_fmap_compose.
  pose proof (NoDup_EachNodeWithPool t) as Hnd.
  assert (∀ pl, pl ∈ EachNodeWithPool t → good_path pl.1) as Hall.
  { intros [p l] Hp%elem_of_EachNodeWithPool. eauto. }
  induction (EachNodeWithPool t) as [|[p l] xs IH]; [constructor|].
  inversion_clear Hnd as [|?? Hp Hnd']. constructor; [|apply IH; set_solver].
  intros ([q m] & E & Hq)%list_elem_of_fmap. apply Hp. cbn in *.
  assert (good_path p) as Hgp by (apply (Hall (p, l)); set_solver).
  assert (good_path q) as Hgq by (apply (Hall (q, m)); set_solver).
  rewrite !newseg_Join in E by by apply good_path_head.
  apply good_path_inj in E as ->; [|done..]. apply list_elem_of_fmap. by exists (q, m).
Qed.

(** [ToMap] of a trie whose paths are those of announced routes: one entry
    for each pool, under the text of its path. *)
Lemma ToMap_lookup t u l :
  Segment t = EmptyString → (∀ p l, pool_at t p = Some l → good_path p) →
  ToMap t !! u = Some l ↔ ∃ p, pool_at t p = Some l ∧ u = Join "/" p.
Proof.
  intros Hr Hg. unfold ToMap. rewrite Hr, rev_alt. change (rev_append ?l []) with (reverse l).
  rewrite <-elem_of_list_to_map.
  - rewrite elem_of_reverse, list_elem_of_fmap. split.
    + intros ([p l'] & [= -> ->] & Hp%elem_of_EachNodeWithPool). exists p. split; [done|].
      by eapply newseg_Join, good_path_head, Hg.
    + intros (p & Hp & ->). exists (p, l). rewrite elem_of_EachNodeWithPool. split; [|done].
      by rewrite newseg_Join by eapply good_path_head, Hg, Hp.
  - rewrite fmap_reverse, reverse_Permutation. by apply NoDup_path_texts.
Qed.

Lemma Registry_members r u v :
  reg_ok r →
  (u, v) ∈ ((λ ul : string * nat, (ul.1, match pools r !! ul.2 with Some p => Pool_json p | None => JNull end)) <$>
     map_to_list (ToMap (byURI r))) ↔
  ∃ p l pl, pool_at (byURI r) p = Some l ∧ pools r !! l = Some pl ∧ u = Join "/" p ∧ v = Pool_json pl.
Proof.
  intros Hok. pose proof (so_path _ _ _ Hok) as Hg. pose proof (wf_root _ (so_wf _ _ _ Hok)) as [_ Hseg].
  rewrite list_elem_of_fmap. split.
  - intros ([u' l] & [= -> ->] & Hm%elem_of_map_to_list). apply ToMap_lookup in Hm as (p & Hp & ->); [|done..].
    destruct (so_pool _ _ _ Hok p l Hp) as (pl & Hl & _). exists p, l, pl. cbn. by rewrite Hl.
  - intros (p & l & pl & Hp & Hl & -> & ->). exists (Join "/" p, l). cbn. rewrite Hl. split; [done|].
    apply elem_of_map_to_list, ToMap_lookup; eauto.
Qed.

(** A pool's array holds its endpoints, each once. *)
Lemma Each_values p : pool_ok p → Each p ≡ₚ (map_to_list (abs p)).*2.*1.
Proof.
  intros Hok. unfold abs. rewrite map_to_list_to_map; [|rewrite <-list_fmap_compose; by apply NoDup_entries_addr].
  rewrite <-!list_fmap_compose. unfold Each, entries.
  induction (endpoints p) as [|l ls IH]; [done|]. cbn. destruct (elems p !! l); cbn; by rewrite IH.
Qed.
End Listing.

(** C38. What the status server shows of a registry that any run of its
    operations on well-formed URIs that can be named reached is valid JSON, and reading it back gives the routes:
    an object with exactly one member for each registered route, in the order
    of the keys, whose value is the array of the route's endpoints, each
    endpoint once. *)
Theorem routes_listing nil_tags c r :
  reg_reach c r →
  ∃ l, parse_json (Registry_MarshalJSON nil_tags r) = Some (JObj l) ∧ NoDup l.*1 ∧ Sorted key_le l ∧
    (∀ p, is_Some (routes r !! p) → Join "/" p ∈ l.*1) ∧
    ∀ uri v, (uri, v) ∈ l →
      ∃ p m eps, routes r !! p = Some m ∧ uri = Join "/" p ∧
        v = JArr (Endpoint_json nil_tags <$> eps) ∧ eps ≡ₚ (map_to_list m).*2.*1.
Proof.
  intros [Hok _]%reg_reach_inv. eexists. unfold Registry_MarshalJSON.
  rewrite parse_print by apply Registry_json_integral. split; [reflexivity|].
  split; [|split; [apply sort_members_sorted|split]].
  - rewrite sort_members_perm, <-list_fmap_compose.
    change (NoDup (fst <$> map_to_list (ToMap (byURI r)))). apply NoDup_fst_map_to_list.
  - intros p [m Hm]. unfold routes in Hm. rewrite routes_of_lookup in Hm.
    apply fmap_Some in Hm as (l & Hp & _). destruct (so_pool _ _ _ Hok p l Hp) as (pl & Hl & _).
    rewrite sort_members_perm. apply list_elem_of_fmap. exists (Join "/" p, Pool_json nil_tags pl). split; [done|].
    apply Registry_members; [done|]. by exists p, l, pl.
  - intros uri v. rewrite sort_members_perm. intros (p & l & pl & Hp & Hl & -> & ->)%Registry_members; [|done].
    destruct (store_held _ _ _ Hok p l Hp) as (pl' & Hl' & Hpl & _ & HR). simplify_eq.
    exists p, (abs pl), (Each pl). split_and!; [done..|by apply Each_values].
Qed.

Lemma routes_listing_witness :
  ∃ l, parse_json (Registry_MarshalJSON (λ _, true) demo_registered) = Some (JObj l) ∧ "foo.cf.com/a" ∈ l.*1.
Proof.
  destruct (routes_listing (λ _, true) defaultConfig demo_registered) as (l & Hl & _ & _ & Hin & _).
  - exact (proj2 demo_registered_ok).
  - exists l. split; [exact Hl|]. apply (Hin ["foo.cf.com"; "a"]). apply (bool_decide_unpack _). vm_compute. exact I.
Defined.
