(* ===== verification/Announce.v ===== *)
(** The updates the registry hands to its listener
    ([registry/registry.go], [updateRouter]), as the router receives them.

    Every update is made by [NewUpdate] with a logger session of its own, so
    no two of them are equal; every operation of the registry appends to what
    was handed over before, and what it appends names announced routes and
    endpoints only. *)
From Stdlib Require Import Ascii ZArith Lia.
From stdpp Require Import sorting base list gmap strings relations.
From S2P Require Import Prelude GoStrings Uri Trie Pool Config Resources Updates Policy Registry.
Import routeUpdate.
Local Open Scope Z_scope.

(** ** Numbering *)
Definition numbered (us : list updateHTTP) : Prop :=
  ∀ i u, us !! i = Some u → ∃ op uri ep, NewUpdate i op uri (Some ep) EmptyString = Ok u.

(** [r'] has handed over at least what [r] had. *)
Definition grows (r r' : RouteRegistry) : Prop :=
  ∀ us, listener r = Some us → ∃ new, listener r' = Some (us ++ new) ∧ (numbered us → numbered (us ++ new)).

#[global] Instance grows_preorder : PreOrder grows.
Proof.
  split.
  - intros r us E. exists []. by rewrite app_nil_r.
  - intros r1 r2 r3 H1 H2 us E. destruct (H1 us E) as (n1 & E1 & N1). destruct (H2 _ E1) as (n2 & E2 & N2).
    exists (n1 ++ n2). rewrite app_assoc. auto.
Qed.

Lemma grows_same r r' : listener r' = listener r → grows r r'.
Proof. intros E us Hus. exists []. rewrite E, app_nil_r. auto. Qed.

#[local] Hint Resolve grows_same : core.

Lemma NewUpdate_logger l op uri ep plan u : NewUpdate l op uri ep plan = Ok u → hu_logger u = l.
Proof.
  unfold NewUpdate. case_bool_decide; [done|].
  destruct op; try done; intros (name & _ & [= <-])%rbind_Ok; done.
Qed.

Lemma updateRouter_grows op uri ep r r' : updateRouter op uri ep r = Ok r' → grows r r'.
Proof.
  unfold updateRouter. intros H us E. rewrite E in H.
  destruct (NewUpdate (length us) op uri (Some ep) EmptyString) as [u|e|w] eqn:Hu; simplify_eq.
  - exists [u]. split; [done|]. intros Hn i v [Hv|[Hi Hv]]%lookup_app_Some; [eauto|].
    assert (i = length us) as -> by (apply lookup_lt_Some in Hv; simpl in Hv; lia).
    rewrite Nat.sub_diag in Hv. simplify_eq/=. eauto.
  - exists []. by rewrite app_nil_r.
Qed.

Lemma Register_grows now uri ep r r' : Register now uri ep r = Ok r' → grows r r'.
Proof.
  unfold Register, findOrCreate. intros ([[[r1 l] pool] b] & Hf & H)%rbind_Ok.
  assert (listener r1 = listener r) as H1.
  { destruct (Find (byURI r) (RouteKey uri)); simplify_eq; [|done].
    apply rbind_Ok in Hf as (? & _ & ?). by simplify_eq. }
  destruct (Put now pool ep) as [pool' added]. apply rbind_Ok in H as (r3 & H3 & [= <-]).
  transitivity r3; [|by apply grows_same].
  transitivity (upd_store (byURI r1) (<[l:=pool']> (pools r1)) r1); [by apply grows_same|].
  destruct (added && b); [by eapply updateRouter_grows|]. by simplify_eq.
Qed.

Lemma Unregister_grows uri ep r r' : Unregister uri ep r = Ok r' → grows r r'.
Proof.
  unfold Unregister. destruct (Find _ _) as [l|]; [|by intros [= <-]].
  intros (pool & _ & H)%rbind_Ok. destruct (Pool.Remove pool ep) as [pool' removed].
  apply rbind_Ok in H as (r2 & H2 & H). transitivity r2.
  - apply grows_same. destruct (IsEmpty pool'); [|by simplify_eq]. apply rbind_Ok in H2 as ([] & _ & ?). by simplify_eq.
  - destruct removed; [by eapply updateRouter_grows|by simplify_eq].
Qed.

Lemma announce_pruned_grows uri eps r r' : announce_pruned uri eps r = Ok r' → grows r r'.
Proof.
  revert r. induction eps as [|e eps IH]; intros r; cbn; [by intros [= <-]|].
  intros (r1 & H1%updateRouter_grows & H2%IH)%rbind_Ok. by etrans.
Qed.

Section ticks.
Context `{!VisitOrder}.

Lemma pruneNodes_grows now nodes r r' : pruneNodes now nodes r = Ok r' → grows r r'.
Proof.
  revert r. induction nodes as [|[p l] nodes IH]; intros r; cbn; [by intros [= <-]|].
  intros (r1 & H1 & H2%IH)%rbind_Ok. etrans; [|exact H2]. clear H2.
  unfold pruneNode in H1. apply rbind_Ok in H1 as (pool & _ & H1).
  destruct (PruneEndpoints _ _ _) as [pool' eps]. set (r0 := upd_store _ _ _) in H1.
  transitivity r0; [by apply grows_same|]. destruct eps; [by simplify_eq|].
  apply rbind_Ok in H1 as (uri & _ & H1). by eapply announce_pruned_grows.
Qed.

Lemma tick_grows now disc r r' : tick now disc r = Ok r' → grows r r'.
Proof.
  unfold tick, pruneStaleDroplets. destruct (ticker r) as [[]|]; [|by intros [= <-]..].
  destruct (suspendPruning r disc); [intros [= <-]; by apply grows_same|].
  intros Hp%pruneNodes_grows. etrans; [|exact Hp]. apply grows_same. by destruct (pruningStatus r).
Qed.
End ticks.

Lemma numbered_loggers us i u : numbered us → us !! i = Some u → hu_logger u = i.
Proof. intros Hn Hu. destruct (Hn i u Hu) as (op & uri & ep & E). by eapply NewUpdate_logger. Qed.

Lemma numbered_NoDup us : numbered us → NoDup us.
Proof.
  intros Hn. apply NoDup_alt. intros i j u Hi Hj. by rewrite <-(numbered_loggers us i u), <-(numbered_loggers us j u).
Qed.

Lemma made_fields l op uri ep u :
  NewUpdate l op uri (Some ep) EmptyString = Ok u → op = Add ∨ op = Remove →
  hu_op u = op ∧ hu_uri u = uri ∧ hu_endpoint u = Some ep ∧ makeObjectName (Uri_String uri) = Ok (hu_name u).
Proof.
  unfold NewUpdate. case_bool_decide; [done|]. intros Hm [-> | ->];
    apply rbind_Ok in Hm as (name & Hn & [= <-]); done.
Qed.

(** ** What the platform announces *)

(** A route the router can serve: one wildcard at most, and a rule can be made
    for it. *)
Definition servable (uri : string) : Prop :=
  (count_char "*" (Uri_String uri) ≤ 1)%nat ∧
  ∀ u, hu_uri u = uri → is_Some (hu_endpoint u) → is_ok (makeRouteRule u).

(** An endpoint with a host that is not empty and has no colon. *)
Definition plain_host (ep : Endpoint) : Prop :=
  Pool.Address ep ≠ EmptyString ∧ count_char ":" (Pool.Address ep) = 0%nat.

Section platform.
Context `{!VisitOrder}.
(** [U] holds of the routes that are ever announced. *)
Variable U : string → Prop.

Definition announced (uri : Uri) (ep : Endpoint) : Prop :=
  good_uri uri ∧ U (RouteKey uri) ∧ plain_host ep.

(** The operations of the registry, on what the platform announces. *)
Inductive reg_op : RouteRegistry → RouteRegistry → Prop :=
| op_register now uri ep r r' : announced uri ep → ep_valid ep → Register now uri ep r = Ok r' → reg_op r r'
| op_unregister uri ep r r' : announced uri ep → Unregister uri ep r = Ok r' → reg_op r r'
| op_tick now disconnected r r' : tick now disconnected r = Ok r' → reg_op r r'
| op_suspend f r : reg_op r (SuspendPruning f r)
| op_start r : reg_op r (StartPruningCycle r)
| op_stop r : reg_op r (StopPruningCycle r).

Definition good_event (ev : event) : Prop :=
  ∃ op uri ep, ev = (op, uri, Some ep) ∧ (op = Add ∨ op = Remove) ∧ U uri ∧ plain_host ep.

(** Routes and endpoints of the registry are announced ones. *)
Definition holds_announced (R : Routes) : Prop :=
  ∀ p m a ep t, R !! p = Some m → m !! a = Some (ep, t) → U (Join "/" p) ∧ plain_host ep.

Lemma reg_op_grows r r' : reg_op r r' → grows r r'.
Proof.
  intros []; [by eapply Register_grows|by eapply Unregister_grows|by eapply tick_grows|by apply grows_same|..];
    apply grows_same; unfold StartPruningCycle, StopPruningCycle; by case_match.
Qed.

Lemma put_spec_values now m ep a x t :
  (put_spec now m ep).1 !! a = Some (x, t) → x = ep ∨ ∃ t', m !! a = Some (x, t').
Proof.
  unfold put_spec. destruct (m !! CanonicalAddr ep) as [[old u]|] eqn:E; repeat case_match; cbn; intros Hx;
    try (apply lookup_insert_Some in Hx as [[<- [= <- <-]]|[_ ?]]); eauto.
Qed.

Lemma register_announced now uri ep R :
  announced uri ep → holds_announced R → holds_announced (spec_register now (segments (RouteKey uri)) ep R).
Proof.
  intros (Hu & HU & Hp) HR p m a x t Hm Ha. unfold spec_register in Hm.
  apply lookup_insert_Some in Hm as [[<- <-]|[_ Hm]]; [|by eapply HR].
  destruct (good_uri_segments uri Hu) as (_ & _ & ->). split; [done|].
  apply put_spec_values in Ha as [->|[t' Ha]]; [done|].
  destruct (R !! segments (RouteKey uri)) as [m0|] eqn:E; [|done]. by eapply HR.
Qed.

Lemma unregister_announced p ep R : holds_announced R → holds_announced (spec_unregister p ep R).
Proof.
  intros HR. unfold spec_unregister. destruct (removable R p ep); [|done].
  intros q m a x t Hm Ha. rewrite put_route_lookup in Hm. case_decide as Hq; [|by eapply HR]. subst q.
  unfold live in Hm. case_decide; [done|]. injection Hm as <-. apply lookup_delete_Some in Ha as [_ Ha].
  destruct (R !! p) as [m0|] eqn:E; [|done]. by eapply HR.
Qed.

Lemma refreshed_announced now R : holds_announced R → holds_announced (refreshed now R).
Proof.
  intros HR p m a x t Hm Ha. unfold refreshed in Hm. apply lookup_fmap_Some in Hm as (m0 & <- & Hm).
  unfold refresh in Ha. apply lookup_fmap_Some in Ha as ([x0 t0] & [= <- <-] & Ha). by eapply HR.
Qed.

Lemma prune_announced now thr R : holds_announced R → holds_announced (spec_prune now thr R).
Proof.
  intros HR p m a x t Hm Ha. unfold spec_prune in Hm. rewrite lookup_omap in Hm.
  apply bind_Some in Hm as (m0 & Hm & Hl). unfold live in Hl. case_decide; simplify_eq.
  apply map_lookup_filter_Some in Ha as [Ha _]. by eapply HR.
Qed.

Definition platform_inv (r : RouteRegistry) : Prop :=
  holds_announced (routes r) ∧ Forall good_event (sent r).

Lemma platform_frame r r' :
  byURI r' = byURI r → pools r' = pools r → listener r' = listener r → platform_inv r → platform_inv r'.
Proof. intros H1 H2 H3. unfold platform_inv, routes, sent. by rewrite H1, H2, H3. Qed.

Lemma tell_good r evs : Forall good_event evs → Forall good_event (tell r evs).
Proof. unfold tell. by case_match. Qed.

Lemma reg_op_inv r r' : reg_op r r' → reg_ok r → platform_inv r → platform_inv r'.
Proof.
  intros Hop Hok [HR HE]. destruct Hop as [now uri ep r r' Han Hv E|uri ep r r' Han E|now disc r r' E|f r|r|r].
  - pose proof Han as (Hu & HU & Hp). destruct (Register_spec now uri ep r Hok Hu Hv) as (r1 & E1 & _ & HR1 & _ & _ & HS).
    rewrite E in E1. injection E1 as <-. split; [rewrite HR1; by apply register_announced|].
    rewrite HS. apply Forall_app. split; [done|]. apply tell_good. destruct (known _ _ _); [done|].
    constructor; [|done]. exists Add, (RouteKey uri), ep. auto.
  - pose proof Han as (Hu & HU & Hp). destruct (Unregister_spec uri ep r Hok Hu) as (r1 & E1 & _ & HR1 & _ & HS).
    rewrite E in E1. injection E1 as <-. split; [rewrite HR1; by apply unregister_announced|].
    rewrite HS. apply Forall_app. split; [done|]. apply tell_good. destruct (removable _ _ _); [|done].
    constructor; [|done]. exists Remove, (RouteKey uri), ep. auto.
  - unfold tick in E. destruct (ticker r) as [[]|]; [|by simplify_eq..].
    destruct (pruneStaleDroplets_spec now disc r Hok) as (r1 & evs & E1 & _ & _ & HS & Hc).
    rewrite E in E1. injection E1 as <-. destruct (suspendPruning r disc).
    { destruct Hc as [-> _]. by apply (platform_frame r). }
    destruct Hc as (_ & HR1 & _ & Hev).
    assert (holds_announced (walk_start now r)) as HW.
    { unfold walk_start. destruct (pruningStatus r); [done|by apply refreshed_announced]. }
    split; [rewrite HR1; by apply prune_announced|]. rewrite HS. apply Forall_app. split; [done|].
    apply tell_good, Forall_forall. intros ev (p & m & ep & t & Hm & Ha & _ & ->)%Hev.
    destruct (HW p m _ ep t Hm Ha). exists Remove, (Join "/" p), ep. auto.
  - by apply (platform_frame r).
  - unfold StartPruningCycle. case_match; [by apply (platform_frame r)|done].
  - unfold StopPruningCycle. case_match; [by apply (platform_frame r)|done].
Qed.

Lemma reg_op_reach c r r' : reg_op r r' → reg_reach c r → reg_reach c r'.
Proof.
  intros Hop Hr. destruct Hop as [now uri ep r r' (Hu & _) Hv E|uri ep r r' (Hu & _) E|now disc r r' E|f r|r|r].
  - by eapply reach_register.
  - by eapply reach_unregister.
  - by eapply reach_tick.
  - by apply reach_suspend.
  - by apply reach_start.
  - by apply reach_stop.
Qed.

(** Everything about a registry that only saw announced routes. *)
Lemma platform_reach c r :
  rtc reg_op (NewRouteRegistry c true) r →
  reg_inv r ∧ platform_inv r ∧ ∃ us, listener r = Some us ∧ numbered us.
Proof.
  intros Hr. assert (reg_reach c r ∧ platform_inv r ∧ ∃ us, listener r = Some us ∧ numbered us) as (H1 & H2 & H3).
  { revert r Hr. apply (rtc_preserves reg_op).
    - intros x y Hop (H1 & H2 & us & E & Hn). destruct (reg_reach_inv c x H1) as (Hok & _).
      split; [by eapply reg_op_reach|]. split; [by eapply reg_op_inv|].
      destruct (reg_op_grows _ _ Hop us E) as (new & E' & Hn'). eauto.
    - split; [apply reach_new|]. split; [|by exists []].
      split; [|constructor]. intros p m a ep t Hm. unfold routes in Hm. rewrite routes_of_lookup in Hm.
      assert (pool_at (byURI (NewRouteRegistry c true)) p = None) as Hp by apply pool_at_empty. by rewrite Hp in Hm. }
  split; [|done]. by eapply reg_reach_inv.
Qed.
End platform.
