(* ===== verification/Serving.v ===== *)
(** The router as a server of routes (f5router/f5router.go): what it keeps
    for a route, in any run.

    The resources of a route - pool, virtual server, rule - come and go
    together ([router_good]); the handlers and the drain do not fail on routes
    that can be served; and the members of the pools are those of the table
    that the updates describe, as long as the allocator found an address for
    every route ([tracks]). *)
From Stdlib Require Import Ascii ZArith Lia.
From stdpp Require Import sorting countable base list gmap strings.
From S2P Require Import Prelude GoStrings GoNet Uri Pool Config Resources Updates Tier2 Alloc Policy Registry F5Router RouterFacts RouterRun Announce.
Import bigipResources routeUpdate.
Local Open Scope Z_scope.

Abbreviation Table := (gset (string * Member)) (only parsing).

(** The object name of a route. *)
Definition named (u n : string) : Prop := makeObjectName (Uri_String u) = Ok n.

(** A rule that sends the requests for route [u] to the virtual server [n]. *)
Definition rule_of (u n : string) (rl : Rule) : Prop :=
  ∃ ru rl0, hu_uri ru = u ∧ hu_name ru = n ∧ makeRouteRule ru = Ok rl0 ∧ unnumbered rl = unnumbered rl0.

Definition rule_at (r : F5Router) (u : string) : option (option Rule) :=
  (if contains_char "*" (Uri_String u) then r_wildcards r else r_rules r) !! u.

(** A member of a pool. *)
Definition pooled (r : F5Router) (n : string) (m : Member) : Prop := ∃ s, RouterFacts.abs r !! n = Some s ∧ m ∈ s.

(** Nothing but the objects of name [n] changes. *)
Definition elsewhere (n : string) (r r' : F5Router) : Prop :=
  keeps n r r' ∧ ∀ k, k ≠ n →
    virtualResources r' !! k = virtualResources r !! k ∧ RouterFacts.abs r' !! k = RouterFacts.abs r !! k.

Lemma spec_add_member n m (a : gmap string (gset Member)) n' m' :
  (∃ s, spec_add n m a !! n' = Some s ∧ m' ∈ s) ↔ (n' = n ∧ m' = m) ∨ ∃ s, a !! n' = Some s ∧ m' ∈ s.
Proof.
  unfold spec_add. destruct (decide (n' = n)) as [->|Hn].
  - rewrite lookup_insert_eq. destruct (a !! n) as [s|]; cbn; split.
    + intros (? & [= <-] & [->%elem_of_singleton|?]%elem_of_union); [by left|right; eauto].
    + intros [[_ ->]|(? & [= <-] & ?)]; (eexists; split; [done|]; set_solver).
    + intros (? & [= <-] & [->%elem_of_singleton|?]%elem_of_union); [by left|set_solver].
    + intros [[_ ->]|(? & ? & _)]; [|done]. eexists. split; [done|]. set_solver.
  - rewrite lookup_insert_ne by done. naive_solver.
Qed.

Lemma spec_remove_lookup n m (a : gmap string (gset Member)) n' :
  spec_remove n m a !! n' =
    if decide (n' = n) then a !! n ≫= λ s, if decide (s ∖ {[m]} = ∅) then None else Some (s ∖ {[m]}) else a !! n'.
Proof.
  unfold spec_remove. destruct (a !! n) as [s|] eqn:E; cbn; repeat case_decide; subst;
    rewrite ?lookup_delete_eq, ?lookup_insert_eq, ?lookup_delete_ne, ?lookup_insert_ne by done; done.
Qed.

Lemma spec_remove_member n m (a : gmap string (gset Member)) n' m' :
  (∃ s, spec_remove n m a !! n' = Some s ∧ m' ∈ s) ↔
  (∃ s, a !! n' = Some s ∧ m' ∈ s) ∧ ¬ (n' = n ∧ m' = m).
Proof.
  rewrite spec_remove_lookup. case_decide as Hn; [subst n'|naive_solver].
  destruct (a !! n) as [s|]; cbn; [|naive_solver]. case_decide as Hs.
  - split; [by intros (? & ? & _)|]. intros [(? & [= <-] & Hm) Hne]. set_solver.
  - split; [intros (? & [= <-] & Hm); split; [exists s|]; set_solver|].
    intros [(? & [= <-] & Hm) Hne]. eexists. split; [done|]. set_solver.
Qed.

Section serving.
Context `{!MapOrder string}.
Variable U : string → Prop.
Hypothesis U_servable : ∀ u, U u → servable u.
Hypothesis U_names : ∀ u1 u2 n, U u1 → U u2 → named u1 n → named u2 n → u1 = u2.

(** An entry of one of the two maps of rules. *)
Definition entry_ok (wild : bool) (u : string) (o : option Rule) : Prop :=
  U u ∧ contains_char "*" (Uri_String u) = wild ∧ ∃ n rl, o = Some rl ∧ named u n ∧ rule_of u n rl.

Record router_good (r : F5Router) : Prop := {
  rg_inv : router_inv alloc_live r;
  rg_rules : map_Forall (entry_ok false) (r_rules r);
  rg_wild : map_Forall (entry_ok true) (r_wildcards r);
  rg_virtual : ∀ u n, U u → named u n →
    is_Some (virtualResources r !! n) ↔ is_Some (RouterFacts.abs r !! n);
  rg_rule : ∀ u n, U u → named u n → is_Some (rule_at r u) ↔ is_Some (RouterFacts.abs r !! n)
}.

(** An update of an announced route and endpoint. *)
Definition update_for (op : Operation) (u : string) (ep : Endpoint) (ru : updateHTTP) : Prop :=
  U u ∧ plain_host ep ∧ ∃ l, NewUpdate l op u (Some ep) EmptyString = Ok ru.

Lemma update_good op u ep ru :
  update_for op u ep ru → op = Add ∨ op = Remove →
  hu_op ru = op ∧ hu_uri ru = u ∧ named u (hu_name ru) ∧ good_update ru ep ∧ is_ok (makeRouteRule ru).
Proof.
  intros (HU & [Ha _] & l & Hmade) Hop. destruct (made_fields _ _ _ _ _ Hmade Hop) as (H1 & H2 & H3 & H4).
  destruct (U_servable u HU) as [Hc Hr]. split_and!; [done|done|done| |by apply Hr; [|rewrite H3]].
  constructor; [done|done|by eapply makeObjectName_prefix|].
  unfold verifyRouteURI. rewrite H2. by destruct (Nat.ltb_spec 1 (count_char "*" (Uri_String u))); [lia|].
Qed.

Lemma is_ok_no_panic {A} (m : result A) : is_ok m → no_panic m.
Proof. intros [x ->] w. done. Qed.

(** The rules after an update of route [u]. *)
Lemma alter_rules_at f ru r r' u' :
  (r_rules r', r_wildcards r') = alter_rules f ru r →
  rule_at r' u' = if decide (u' = hu_uri ru) then f else rule_at r u'.
Proof.
  unfold alter_rules, rule_at. intros Hrw.
  destruct (contains_char "*" (Uri_String (hu_uri ru))) eqn:Ec; injection Hrw as -> ->; case_decide as Hu;
    subst; rewrite ?Ec, ?lookup_partial_alter_eq; try done; case_match; by rewrite ?lookup_partial_alter_ne.
Qed.

Lemma alter_rules_ok f ru r r' :
  (r_rules r', r_wildcards r') = alter_rules f ru r →
  (∀ o, f = Some o → entry_ok (contains_char "*" (Uri_String (hu_uri ru))) (hu_uri ru) o) →
  map_Forall (entry_ok false) (r_rules r) → map_Forall (entry_ok true) (r_wildcards r) →
  map_Forall (entry_ok false) (r_rules r') ∧ map_Forall (entry_ok true) (r_wildcards r').
Proof.
  unfold alter_rules. intros Hrw Hf Hr Hw.
  assert (∀ b (m : RuleMap), contains_char "*" (Uri_String (hu_uri ru)) = b → map_Forall (entry_ok b) m →
    map_Forall (entry_ok b) (partial_alter (λ _, f) (hu_uri ru) m)) as Halter.
  { intros b m <- Hm k o. destruct (decide (k = hu_uri ru)) as [->|Hk].
    - rewrite lookup_partial_alter_eq. apply Hf.
    - rewrite lookup_partial_alter_ne by done. apply Hm. }
  destruct (contains_char "*" (Uri_String (hu_uri ru))) eqn:Ec; injection Hrw as -> ->; auto.
Qed.

(** *** Registering an endpoint *)
Lemma add_good u ep ru r :
  router_good r → update_for Add u ep ru →
  ∃ r', processRouteAdd ru r = Ok r' ∧ router_good r' ∧ elsewhere (hu_name ru) r r' ∧
    ((virtualResources r !! hu_name ru = None ∧ no_address r (hu_name ru)) ∨
     RouterFacts.abs r' = spec_add (hu_name ru) (member_of ep) (RouterFacts.abs r)).
Proof.
  intros Hg Hru. pose proof Hru as [HU _].
  destruct (update_good Add u ep ru Hru) as (_ & Hu & Hn & Hgu & [rl Hrl]); [by left|].
  destruct (processRouteAdd_spec alloc_live ru ep r (rg_inv _ Hg) Hgu (is_ok_no_panic _ (ex_intro _ rl Hrl)))
    as (r' & E & Hinv & Hkeep & _ & _ & Hoth & Hcase).
  exists r'. split; [done|]. destruct Hcase as [(Habs & Hv & Hst & Hrw)|(Hv & Hna & t & ->)].
  2: { split; [destruct Hg; by constructor|]. split; [by split|by left]. }
  assert (made_rule ru = Some rl) as Hmade by (unfold made_rule; by rewrite Hrl).
  destruct (alter_rules_ok _ ru r r' Hrw) as [Hr Hw]; [|apply Hg..|].
  { intros o [= <-]. rewrite Hmade, Hu. split_and!; [done|done|]. exists (hu_name ru), rl.
    split_and!; [done|done|]. by exists ru, rl. }
  assert (∀ n, n ≠ hu_name ru → RouterFacts.abs r' !! n = RouterFacts.abs r !! n) as Habs'.
  { intros n Hne. rewrite Habs. unfold spec_add. by rewrite lookup_insert_ne. }
  split; [|split; [split; auto|by right]].
  assert (is_Some (RouterFacts.abs r' !! hu_name ru)) as Hsome by (rewrite Habs; unfold spec_add; by rewrite lookup_insert_eq).
  constructor; [done|done|done|..]; intros u' n' HU' Hn'; destruct (decide (n' = hu_name ru)) as [->|Hne].
  - naive_solver.
  - rewrite Hoth, Habs' by done. by eapply (rg_virtual _ Hg).
  - assert (u' = u) as -> by (by eapply U_names). rewrite (alter_rules_at _ _ _ _ _ Hrw), decide_True by done. naive_solver.
  - rewrite (alter_rules_at _ _ _ _ _ Hrw), decide_False by (intros ->; rewrite Hu in Hn'; unfold named in *; congruence).
    rewrite Habs' by done. by eapply (rg_rule _ Hg).
Qed.

(** *** Removing an endpoint *)
Lemma remove_good u ep ru r :
  router_good r → update_for Remove u ep ru →
  ∃ r', processRouteRemove ru r = Ok r' ∧ router_good r' ∧ elsewhere (hu_name ru) r r' ∧
    RouterFacts.abs r' = spec_remove (hu_name ru) (member_of ep) (RouterFacts.abs r).
Proof.
  intros Hg Hru. pose proof Hru as [HU _].
  destruct (update_good Remove u ep ru Hru) as (_ & Hu & Hn & Hgu & _); [by right|].
  destruct (processRouteRemove_spec alloc_live ru ep r (rg_inv _ Hg) Hgu) as (r' & E & Hinv & Hkeep & _ & Habs & Hcase).
  exists r'. split; [done|].
  assert (∀ n, n ≠ hu_name ru → RouterFacts.abs r' !! n = RouterFacts.abs r !! n) as Habs'.
  { intros n Hne. rewrite Habs, spec_remove_lookup. by rewrite decide_False. }
  assert (elsewhere (hu_name ru) r r') as Helse.
  { split; [done|]. intros k Hk. split; [|by apply Habs'].
    case_decide; [destruct Hcase as (_ & _ & -> & _); by rewrite lookup_delete_ne|by destruct Hcase as (? & ? & ? & ->)]. }
  split; [|by split].
  case_decide as Hd.
  - destruct Hcase as ((Hv & _) & Hrw & Hvi & _). destruct Hd as [_ Hnone].
    destruct (alter_rules_ok _ ru r r' Hrw) as [Hr Hw]; [done|apply Hg..|].
    constructor; [done|done|done|..]; intros u' n' HU' Hn'; destruct (decide (n' = hu_name ru)) as [->|Hne].
    + rewrite Hv, Hnone. done.
    + rewrite Hvi, lookup_delete_ne, Habs' by done. by eapply (rg_virtual _ Hg).
    + assert (u' = u) as -> by (by eapply U_names).
      rewrite (alter_rules_at _ _ _ _ _ Hrw), decide_True, Hnone by done. done.
    + rewrite (alter_rules_at _ _ _ _ _ Hrw), decide_False by (intros ->; rewrite Hu in Hn'; unfold named in *; congruence).
      rewrite Habs' by done. by eapply (rg_rule _ Hg).
  - assert (r_rules r' = r_rules r ∧ r_wildcards r' = r_wildcards r ∧ virtualResources r' = virtualResources r)
      as (Hr & Hw & Hvi) by (by destruct Hcase as (? & ? & ? & ->)).
    assert (∀ n, is_Some (RouterFacts.abs r' !! n) ↔ is_Some (RouterFacts.abs r !! n)) as Hdom.
    { intros n. destruct (decide (n = hu_name ru)) as [->|Hne]; [|by rewrite Habs'].
      split; intros Hs; [|destruct (RouterFacts.abs r' !! hu_name ru); [done|naive_solver]].
      rewrite Habs, spec_remove_lookup, decide_True in Hs by done.
      by destruct (RouterFacts.abs r !! hu_name ru). }
    constructor; rewrite ?Hr, ?Hw, ?Hvi; [done|apply Hg..| |]; intros u' n' HU' Hn'; rewrite Hdom.
    + by eapply (rg_virtual _ Hg).
    + unfold rule_at. rewrite Hr, Hw. by eapply (rg_rule _ Hg).
Qed.

(** *** Following the table *)

(** The names that belong to objects of another kind. *)
Variable other : string → Prop.

(** The pools of routes hold the members the table lists. *)
Definition tracks (T : Table) (r : F5Router) : Prop :=
  (∀ u m, (u, m) ∈ T → U u) ∧ ∀ n m, ¬ other n → pooled r n m ↔ ∃ u, (u, m) ∈ T ∧ named u n.

Lemma tracks_add T r r' u ep n :
  U u → named u n → RouterFacts.abs r' = spec_add n (member_of ep) (RouterFacts.abs r) →
  tracks T r → tracks ({[(u, member_of ep)]} ∪ T) r'.
Proof.
  intros HU Hn Habs [HT Hp]. split; [set_solver|]. intros n' m Ho. unfold pooled. rewrite Habs, spec_add_member.
  change (n' = n ∧ m = member_of ep ∨ pooled r n' m ↔ ∃ u', (u', m) ∈ ({[(u, member_of ep)]} : Table) ∪ T ∧ named u' n').
  rewrite Hp by done. split.
  - intros [[-> ->]|(u' & Hu' & Hn')]; [exists u|exists u']; (split; [set_solver|done]).
  - intros (u' & [[= -> ->]%elem_of_singleton|Hu']%elem_of_union & Hn'); [left|right; eauto].
    unfold named in *. split; [congruence|done].
Qed.

Lemma tracks_remove T r r' u ep n :
  U u → named u n → RouterFacts.abs r' = spec_remove n (member_of ep) (RouterFacts.abs r) →
  tracks T r → tracks (T ∖ {[(u, member_of ep)]}) r'.
Proof.
  intros HU Hn Habs [HT Hp]. split; [set_solver|]. intros n' m Ho. unfold pooled. rewrite Habs, spec_remove_member.
  change (pooled r n' m ∧ ¬ (n' = n ∧ m = member_of ep) ↔ ∃ u', (u', m) ∈ T ∖ {[(u, member_of ep)]} ∧ named u' n').
  rewrite Hp by done. split.
  - intros [(u' & Hu' & Hn') Hne]. exists u'. split; [|done]. apply elem_of_difference. split; [done|].
    intros [= -> ->]%elem_of_singleton. apply Hne. unfold named in *. split; [congruence|done].
  - intros (u' & [Hu' Hne]%elem_of_difference & Hn'). split; [eauto|]. intros [-> ->]. apply Hne.
    assert (u' = u) as ->; [|by apply elem_of_singleton]. by eapply U_names; [by eapply HT| |done|].
Qed.

Lemma tracks_elsewhere T r r' n : other n → elsewhere n r r' → tracks T r → tracks T r'.
Proof.
  intros Hn [_ He] [HT Hp]. split; [done|]. intros k m Hk. rewrite <-Hp by done. unfold pooled.
  destruct (He k) as [_ ->]; [by intros ->|done].
Qed.
End serving.

(** ** Writing the configuration *)
Section drains.
Context `{!MapOrder string}.
Variable U : string → Prop.

Lemma write_back_lookup (m : RuleMap) l k o :
  write_back m l !! k = Some o → m !! k = Some o ∨ ∃ rl, (k, rl) ∈ l ∧ o = Some rl.
Proof.
  induction l as [|[k' rl] l IH]; cbn; [by left|].
  intros [[-> <-]|[_ Hk]]%lookup_insert_Some; [right; exists rl; split; [left|done]|].
  destruct (IH Hk) as [?|(rl' & ? & ?)]; [by left|right; exists rl'; split; [by right|done]].
Qed.

Lemma write_back_dom (m : RuleMap) l k :
  (∀ k rl, (k, rl) ∈ l → is_Some (m !! k)) → is_Some (write_back m l !! k) ↔ is_Some (m !! k).
Proof.
  intros Hl. split.
  - intros [o [?|(rl & ? & _)]%write_back_lookup]; eauto.
  - intros Hk. clear Hl. induction l as [|[k' rl] l IH]; cbn; [done|].
    destruct (decide (k = k')) as [->|]; [by rewrite lookup_insert_eq|by rewrite lookup_insert_ne].
Qed.

Lemma unnumbered_set o rl : unnumbered (set_Ordinal o rl) = unnumbered rl.
Proof. by destruct rl. Qed.

(** The rules of a map, with their numbers. *)
Lemma sorted_rules (m : RuleMap) o :
  (∀ k x, m !! k = Some x → is_Some x) →
  ∃ l, sortRules m o = Ok l ∧
    (∀ k rl, (k, rl) ∈ l → ∃ rl0, m !! k = Some (Some rl0) ∧ unnumbered rl = unnumbered rl0) ∧
    (∀ k rl0, m !! k = Some (Some rl0) → ∃ rl, (k, rl) ∈ l ∧ unnumbered rl = unnumbered rl0).
Proof.
  intros Hm. destruct (proj2 (sortRules_Ok m o) Hm) as [l Hl]. exists l. split; [done|].
  destruct (sortRules_spec m o l Hl) as (_ & _ & _ & Hin & Hout). split.
  - intros k rl [i Hi]%list_elem_of_lookup. destruct (Hout i k rl Hi) as (rl0 & Hk & ->).
    exists rl0. split; [done|]. apply unnumbered_set.
  - intros k rl0 Hk. destruct (Hin k rl0 Hk) as [i Hi]. eexists. split; [by eapply list_elem_of_lookup_2|].
    apply unnumbered_set.
Qed.

Lemma entry_renumbered b u rl rl0 :
  unnumbered rl = unnumbered rl0 → entry_ok U b u (Some rl0) → entry_ok U b u (Some rl).
Proof.
  intros E (HU & Hc & n & x & [= <-] & Hn & ru & rl1 & H1 & H2 & H3 & H4). split_and!; [done..|].
  exists n, rl. split_and!; [done|done|]. exists ru, rl1. split_and!; [done..|]. by rewrite E.
Qed.

Lemma write_back_ok b (m : RuleMap) l :
  (∀ k rl, (k, rl) ∈ l → ∃ rl0, m !! k = Some (Some rl0) ∧ unnumbered rl = unnumbered rl0) →
  map_Forall (entry_ok U b) m →
  map_Forall (entry_ok U b) (write_back m l) ∧ ∀ k, is_Some (write_back m l !! k) ↔ is_Some (m !! k).
Proof.
  intros Hl Hm. split.
  - intros k o [Ho|(rl & Hin & ->)]%write_back_lookup; [by apply Hm|].
    destruct (Hl k rl Hin) as (rl0 & Hk & E). by eapply entry_renumbered, Hm.
  - intros k. apply write_back_dom. intros k' rl Hin. destruct (Hl k' rl Hin) as (rl0 & -> & _). by eexists.
Qed.

(** The rules of the policies are those of the two maps. *)
Definition policies_list (r : F5Router) (ps : list Policy) : Prop :=
  (∀ u rl0, rule_at r u = Some (Some rl0) → ∃ pol rl, pol ∈ ps ∧ rl ∈ PolRules pol ∧ unnumbered rl = unnumbered rl0) ∧
  (∀ pol rl, pol ∈ ps → rl ∈ PolRules pol → ∃ u rl0, rule_at r u = Some (Some rl0) ∧ unnumbered rl = unnumbered rl0).

Lemma entries_somes b (m : RuleMap) : map_Forall (entry_ok U b) m → ∀ k x, m !! k = Some x → is_Some x.
Proof. intros Hm k x Hk. destruct (Hm k x Hk) as (_ & _ & n & rl & -> & _). by eexists. Qed.

Lemma createPolicies_good r :
  map_Forall (entry_ok U false) (r_rules r) → map_Forall (entry_ok U true) (r_wildcards r) →
  ∃ ps rs ws, createPolicies r = Ok (ps, set_rules rs ws r) ∧ policies_list r ps ∧
    map_Forall (entry_ok U false) rs ∧ map_Forall (entry_ok U true) ws ∧
    (∀ k, is_Some (rs !! k) ↔ is_Some (r_rules r !! k)) ∧ (∀ k, is_Some (ws !! k) ↔ is_Some (r_wildcards r !! k)).
Proof.
  intros Hr Hw. unfold createPolicies. destruct (_ && _) eqn:E.
  { apply andb_true_iff in E as [E1 E2]. apply bool_decide_eq_true in E1, E2.
    exists [], (r_rules r), (r_wildcards r). split; [by destruct r|]. split_and!; try done.
    split; [|set_solver]. intros u rl0. unfold rule_at. rewrite E1, E2. by case_match. }
  unfold makeRoutePolicy. destruct (sorted_rules (r_rules r) 0) as (l1 & -> & Hi1 & Ho1); [by eapply entries_somes|].
  destruct (sorted_rules (r_wildcards r) (Z.of_nat (size (r_rules r)))) as (l2 & -> & Hi2 & Ho2); [by eapply entries_somes|].
  cbn [rbind]. destruct (write_back_ok false _ l1 Hi1 Hr) as [? ?], (write_back_ok true _ l2 Hi2 Hw) as [? ?].
  eexists _, _, _. split; [done|]. split_and!; try done. split.
  - intros u rl0 Hu. eexists. unfold rule_at in Hu.
    destruct (contains_char "*" (Uri_String u)); [destruct (Ho2 u rl0 Hu) as (rl & Hin & Hun)|destruct (Ho1 u rl0 Hu) as (rl & Hin & Hun)];
      exists rl; (split; [by left|]); (split; [|done]); apply elem_of_app; [right|left]; apply list_elem_of_fmap; by exists (u, rl).
  - intros pol rl ->%list_elem_of_singleton. cbn. intros [Hin|Hin]%elem_of_app; apply list_elem_of_fmap in Hin as ([u rl'] & -> & Hin).
    + destruct (Hi1 u rl' Hin) as (rl0 & Hu & Hun). exists u, rl0. split; [|done]. unfold rule_at.
      destruct (Hr u _ Hu) as (_ & -> & _). done.
    + destruct (Hi2 u rl' Hin) as (rl0 & Hu & Hun). exists u, rl0. split; [|done]. unfold rule_at.
      destruct (Hw u _ Hu) as (_ & -> & _). done.
Qed.

(** A configuration that shows the state of the router. *)
Definition shows (r : F5Router) (w : Sections) : Prop :=
  ∃ part res, s_resources w = Some (part, res) ∧ Pools res = createPools r ∧ Virtuals res = createVirtuals r ∧
    policies_list r (RPolicies res).

Lemma drain_good r :
  router_good U r →
  ∃ r' w, drain r = Ok (r', w) ∧ router_good U r' ∧ RouterFacts.abs r' = RouterFacts.abs r ∧ shows r w ∧
    ∀ n, elsewhere n r r'.
Proof.
  intros Hg. unfold drain.
  assert (∃ t dg f, (if firstSyncDone r then Ok r else
      rbind (truncateInternalDataGroup (virtualResources r) (internalDataGroup r) (tier2 r)) (λ '(t, dg),
        Ok (set_firstSyncDone true (set_tier2 t dg r)))) = Ok (set_firstSyncDone f (set_tier2 t dg r)) ∧
      alloc_live t dg ∧ (∀ n va, dg_addr dg n va → dg_addr (internalDataGroup r) n va) ∧
      ∀ n, internalDataGroup r !! n = None → dg !! n = None) as (t & dg & f & -> & Hal & Hsub & Hnone).
  { pose proof (ro_alloc _ (rg_inv _ _ Hg)) as Hl. destruct (firstSyncDone r) eqn:Ef.
    - exists (tier2 r), (internalDataGroup r), true. split; [|done]. rewrite <-Ef. by destruct r.
    - destruct (live_truncate (virtualResources r) _ _ Hl) as (t & dg & -> & Hal & Hdg). cbn [rbind].
      exists t, dg, true. split_and!; [done|done| |intros n Hn; rewrite Hdg; by case_decide]. intros n va (rec & Hrec & Hdec). exists rec. split; [|done].
      rewrite Hdg in Hrec. by case_decide. }
  cbn [rbind]. set (r1 := set_firstSyncDone f (set_tier2 t dg r)). unfold router_createResources.
  destruct (ro_part _ (rg_inv _ _ Hg)) as [p Hp]. change (partition0 (rc r1)) with (partition0 (rc r)). rewrite Hp. cbn [rbind].
  destruct (createPolicies_good r1) as (ps & rs & ws & -> & Hps & Hrs & Hws & Hdr & Hdw); [apply Hg..|].
  cbn [rbind]. eexists _, _. split; [done|]. split_and!; [|done|by eexists _, _|intros n; split; [split; [done|]|done]; intros k _; apply Hnone].
  destruct Hg as [Hinv Hr Hw Hv Hru]. constructor; try done.
  - apply router_ok_rules. destruct Hinv as [Hpo _ Hpa Hvi Hde].
    constructor; [by eapply pools_ok_ext; [..|exact Hpo]|done|done|done|].
    intros n v va q Hv' Ha. by eapply Hde; [|apply Hsub].
  - intros u n HU Hn. specialize (Hru u n HU Hn). change (RouterFacts.abs (set_rules rs ws r1)) with (RouterFacts.abs r).
    rewrite <-Hru. unfold rule_at. cbn. case_match; [by rewrite Hdw|by rewrite Hdr].
Qed.
End drains.
