(* ===== verification/TcpRoutes.v ===== *)
(** TCP routes in the router: [processTCPRouteAdd] and [processTCPRouteRemove]
    of f5router/f5router.go on the updates of the routing table
    ([routingtable/routingtable.go]).

    A TCP route is a port of the external address.  Its objects are a pool
    with the backends of the port and a virtual server that listens on the
    port; they come and go together ([tcp_good]), and the handlers refine the
    same abstract operations on pools as those for HTTP routes. *)
From Stdlib Require Import Ascii ZArith Lia.
From stdpp Require Import sorting countable base list gmap strings relations.
From S2P Require Import Prelude GoStrings GoNet Uri Pool Config Resources Updates Tier2 Alloc Policy RoutingTable F5Router RouterFacts RouterRun Announce Serving.
Import bigipResources routeUpdate.
Local Open Scope Z_scope.

(** The pool member of a backend. *)
Definition backend_member (b : BackendServerKey) : Member := mkMember (bk_Address b) (bk_Port b) "user-enabled".

#[global] Instance backend_member_inj : Inj (=) (=) backend_member.
Proof. intros [] [] [= -> ->]. done. Qed.

Lemma createTCPObjectName_inj c p1 p2 : createTCPObjectName c p1 = createTCPObjectName c p2 → p1 = p2.
Proof.
  unfold createTCPObjectName. intros E. apply (inj (String.append _)) in E. apply (inj (String.append _)) in E.
  apply (inj (String.append _)) in E. by apply (inj Itoa) in E.
Qed.

(** ** What the table sends *)
Section tcp.
Variable c : Config.

(** The updates a table with configuration [c] makes. *)
Definition tcp_update (u : updateTCP) : Prop :=
  ∃ op port b, (op = Add ∨ op = Remove) ∧ u = NewTCPUpdate c op port (backend_member b).

(** Names of TCP objects. *)
Definition tcp_name (n : string) : Prop := ∃ port, n = createTCPObjectName c port.

(** The virtual server of a port: it listens there and sends to the pool of
    its own name. *)
Definition tcp_server (port : Z) (v : Virtual) : Prop :=
  ∃ p d path, partition0 c = Ok p ∧ verifyDestAddress (mkVA (ExternalAddr (BigIP c)) port) p = Ok d ∧
    joinBigipPath p (createTCPObjectName c port) = Ok path ∧
    v = mkVirtual (createTCPObjectName c port) path "tcp" true d EmptyString []
          [mkProfileRef "tcp" "Common" "all"] [] "automap".

Hypothesis external_ok : is_Some (ParseIP (ExternalAddr (BigIP c))).

Lemma TCP_resources op port m p :
  partition0 c = Ok p →
  ∃ vs pool, CreateResources (NewTCPUpdate c op port m) c = Ok (mkResources [vs] [pool] [] [] [] []) ∧
    tcp_server port vs ∧ Name pool = createTCPObjectName c port ∧ Members pool = [m].
Proof.
  intros Hp. cbn. unfold TCP_CreateResources. cbn. rewrite Hp. cbn.
  destruct (verifyDestAddress_Ok (mkVA (ExternalAddr (BigIP c)) port) p external_ok) as [d Hd].
  destruct (joinBigipPath_Ok p (createTCPObjectName c port)) as [q Hq]; [done|].
  rewrite Hd. cbn. rewrite Hq. cbn. eexists _, _. split; [done|]. split; [|done]. by exists p, d, q.
Qed.

(** ** What the router keeps for TCP routes *)
Record tcp_good (r : F5Router) : Prop := {
  tg_config : rc r = c;
  tg_records : ∀ port, internalDataGroup r !! createTCPObjectName c port = None;
  tg_virtual : ∀ port, is_Some (virtualResources r !! createTCPObjectName c port) ↔
                       is_Some (RouterFacts.abs r !! createTCPObjectName c port);
  tg_server : ∀ port v, virtualResources r !! createTCPObjectName c port = Some v → tcp_server port v
}.

(** The pools of ports hold the backends of a set. *)
Definition tcp_tracks (P : gset (Z * BackendServerKey)) (r : F5Router) : Prop :=
  ∀ port m, pooled r (createTCPObjectName c port) m ↔ ∃ b, (port, b) ∈ P ∧ m = backend_member b.

(** The outcome of a handler for the route of [port]. *)
Definition tcp_outcome (port : Z) (a : gmap string (gset Member)) (r r' : F5Router) : Prop :=
  router_inv alloc_live r' ∧ tcp_good r' ∧ RouterFacts.abs r' = a ∧ elsewhere (createTCPObjectName c port) r r' ∧
  r_rules r' = r_rules r ∧ r_wildcards r' = r_wildcards r.

Lemma tcp_server_name port v : tcp_server port v → VirtualServerName v = createTCPObjectName c port.
Proof. by intros (? & ? & ? & _ & _ & _ & ->). Qed.

(** The objects of one port change: a pool operation that keeps the rest, and
    the virtual server [v] of the port. *)
Lemma tcp_step port r r1 vs :
  let n := createTCPObjectName c port in
  router_inv alloc_live r → tcp_good r → pools_step r r1 →
  (∀ k, k ≠ n → RouterFacts.abs r1 !! k = RouterFacts.abs r !! k) →
  (∀ k, k ≠ n → vs !! k = virtualResources r !! k) →
  (is_Some (vs !! n) ↔ is_Some (RouterFacts.abs r1 !! n)) → (∀ v, vs !! n = Some v → tcp_server port v) →
  tcp_outcome port (RouterFacts.abs r1) r (upd_virtuals (λ _, vs) r1).
Proof.
  intros n Hinv Hg [Hpo (ps & np & pr & ->)] Habs Hvs Hdom Hserv.
  split_and!; [| |done|split; [by split|]; intros k Hk; split; [by apply Hvs|by apply Habs]|done|done].
  - destruct Hinv as [_ Hal Hpart Hvirt Hdest].
    constructor; cbn; [by eapply pools_ok_ext; [..|exact Hpo]|done|done|..]; intros k v.
    + destruct (decide (k = n)) as [->|Hk]; [by intros ?%Hserv%tcp_server_name|]. rewrite Hvs by done. apply Hvirt.
    + destruct (decide (k = n)) as [->|Hk].
      * intros va p _ (rec & Hrec & _). pose proof (tg_records _ Hg port) as Hno. unfold n in Hrec. by rewrite Hno in Hrec.
      * rewrite Hvs by done. apply Hdest.
  - destruct Hg as [Hc Hrec Hv Hs].
    assert (∀ port', port' = port ∨ createTCPObjectName c port' ≠ n) as Hport.
    { intros port'. destruct (decide (port' = port)) as [->|Hne]; [by left|right].
      by intros ?%createTCPObjectName_inj. }
    constructor; [done|done|..]; intros port'; cbn; destruct (Hport port') as [->|Hne]; try done.
    + rewrite Hvs by done. specialize (Hv port'). by rewrite <-(Habs _ Hne) in Hv.
    + rewrite Hvs by done. apply Hs.
Qed.

Lemma tcp_add_ok port m r :
  router_inv alloc_live r → tcp_good r → m ≠ zeroMember →
  ∃ r', handle (ItemTCP (NewTCPUpdate c Add port m)) r = Ok r' ∧
    tcp_outcome port (spec_add (createTCPObjectName c port) m (RouterFacts.abs r)) r r'.
Proof.
  intros Hinv Hg Hm. destruct (ro_part _ Hinv) as [p Hp]. rewrite (tg_config _ Hg) in Hp.
  destruct (TCP_resources Add port m p Hp) as (vs & pool & Hcr & Hvs & Hn & Hmem).
  cbn [handle Op updateTCP_RouteUpdate NewTCPUpdate tu_op]. unfold processTCPRouteAdd.
  rewrite (tg_config _ Hg), Hcr. cbn [or_log rbind head_or_panic Pools Virtuals].
  destruct (addPool_spec r pool m (ro_pools _ Hinv) Hmem Hm) as (r1 & Hadd & Hstep & Hview).
  cbn [alloc_pool fst] in Hadd |- *. rewrite Hadd. cbn [rbind]. eexists. split; [done|].
  pose proof (addPool_abs r r1 pool m Hmem Hview) as Habs. rewrite Hn in Habs. rewrite <-Habs.
  assert (is_Some (RouterFacts.abs r1 !! createTCPObjectName c port)) as Hsome.
  { rewrite Habs. unfold spec_add. by rewrite lookup_insert_eq. }
  assert (virtualResources r1 = virtualResources r) as Hv1 by (by destruct Hstep as [_ (? & ? & ? & ->)]).
  unfold addVirtual. rewrite (tcp_server_name _ _ Hvs), Hv1.
  destruct (virtualResources r !! createTCPObjectName c port) as [v|] eqn:Hv.
  - replace r1 with (upd_virtuals (λ _, virtualResources r) r1) at 2 by (rewrite <-Hv1; by destruct r1).
    apply tcp_step; try done.
    + intros k Hk. rewrite Habs. unfold spec_add. by rewrite lookup_insert_ne.
    + apply (tg_server _ Hg).
  - replace (upd_virtuals _ r1) with (upd_virtuals (λ _, <[createTCPObjectName c port := vs]> (virtualResources r)) r1)
      by (rewrite <-Hv1; by destruct r1).
    apply tcp_step; try done.
    + intros k Hk. rewrite Habs. unfold spec_add. by rewrite lookup_insert_ne.
    + intros k Hk. by rewrite lookup_insert_ne.
    + split; [done|]. intros _. rewrite lookup_insert_eq. by eexists.
    + rewrite lookup_insert_eq. by intros v [= <-].
Qed.

Lemma tcp_remove_ok port m r :
  router_inv alloc_live r → tcp_good r →
  ∃ r', handle (ItemTCP (NewTCPUpdate c Remove port m)) r = Ok r' ∧
    tcp_outcome port (spec_remove (createTCPObjectName c port) m (RouterFacts.abs r)) r r'.
Proof.
  intros Hinv Hg. destruct (ro_part _ Hinv) as [p Hp]. rewrite (tg_config _ Hg) in Hp.
  destruct (TCP_resources Remove port m p Hp) as (vs & pool & Hcr & Hvs & Hn & Hmem).
  cbn [handle Op updateTCP_RouteUpdate NewTCPUpdate tu_op]. unfold processTCPRouteRemove.
  rewrite (tg_config _ Hg), Hcr. cbn [or_log rbind head_or_panic Pools Virtuals].
  destruct (removePool_spec r pool m (ro_pools _ Hinv) Hmem) as (r1 & b & Hrem & Hstep & Hview & Hb).
  cbn [alloc_pool fst] in Hrem |- *. rewrite Hrem. cbn [rbind].
  pose proof (removePool_abs r r1 pool m (ro_pools _ Hinv) Hview) as Habs. rewrite Hn in Habs, Hb. rewrite <-Habs.
  assert (virtualResources r1 = virtualResources r) as Hv1 by (by destruct Hstep as [_ (? & ? & ? & ->)]).
  assert (∀ k, k ≠ createTCPObjectName c port → RouterFacts.abs r1 !! k = RouterFacts.abs r !! k) as Hoth.
  { intros k Hk. rewrite Habs, spec_remove_lookup. by rewrite decide_False. }
  assert (∀ r0 k, is_Some (pool_view r0 !! k) ↔ is_Some (RouterFacts.abs r0 !! k)) as Hpv.
  { intros r0 k. rewrite router_abs_lookup. by rewrite fmap_is_Some. }
  destruct b; eexists; (split; [done|]).
  - destruct (proj1 Hb eq_refl) as [_ Hnone]. unfold removeVirtual. rewrite (tcp_server_name _ _ Hvs).
    replace (upd_virtuals _ r1) with (upd_virtuals (λ _, delete (createTCPObjectName c port) (virtualResources r)) r1)
      by (rewrite <-Hv1; by destruct r1).
    apply tcp_step; try done.
    + intros k Hk. by rewrite lookup_delete_ne.
    + rewrite <-Hpv, Hnone, lookup_delete_eq. done.
    + rewrite lookup_delete_eq. done.
  - replace r1 with (upd_virtuals (λ _, virtualResources r) r1) at 2 by (rewrite <-Hv1; by destruct r1).
    apply tcp_step; try done; [|apply (tg_server _ Hg)]. rewrite (tg_virtual _ Hg), <-!Hpv. split.
    + intros Hs. destruct (pool_view r1 !! createTCPObjectName c port) eqn:E; [done|]. by discriminate (proj2 Hb).
    + rewrite Hview, Hn, lookup_partial_alter_eq. by destruct (pool_view r !! createTCPObjectName c port).
Qed.

(** ** Beside the HTTP routes *)
Lemma tcp_good_elsewhere n r r' : ¬ tcp_name n → elsewhere n r r' → tcp_good r → tcp_good r'.
Proof.
  intros Hn [[Hrc Hdg] He] [Hc Hrec Hv Hs].
  assert (∀ port, createTCPObjectName c port ≠ n) as Hne by (intros port <-; apply Hn; by exists port).
  constructor; [congruence|intros port; by apply Hdg|..]; intros port; destruct (He _ (Hne port)) as [-> Habs].
  - by rewrite Habs.
  - apply Hs.
Qed.

Lemma tcp_tracks_elsewhere P n r r' : ¬ tcp_name n → elsewhere n r r' → tcp_tracks P r → tcp_tracks P r'.
Proof.
  intros Hn [_ He] Ht port m. rewrite <-(Ht port m). unfold pooled.
  destruct (He (createTCPObjectName c port)) as [_ ->]; [|done]. intros <-. apply Hn. by exists port.
Qed.

(** The objects of HTTP routes are left alone. *)
Lemma tcp_keeps_routes (U : string → Prop) port a r r' :
  (∀ u n, U u → named u n → ¬ tcp_name n) → tcp_outcome port a r r' → router_good U r → router_good U r'.
Proof.
  intros HU (Hinv & _ & _ & [_ He] & Hr & Hw) [_ Hru Hwi Hv Hrule].
  assert (∀ u n, U u → named u n → n ≠ createTCPObjectName c port) as Hne.
  { intros u n Hu Hn ->. eapply HU; [done..|]. by exists port. }
  constructor; rewrite ?Hr, ?Hw; try done; intros u n Hu Hn; destruct (He n (Hne u n Hu Hn)) as [Hvn ->].
  - rewrite Hvn. by eapply Hv.
  - unfold rule_at. rewrite Hr, Hw. by eapply Hrule.
Qed.

(** ** Updates *)
Lemma tcp_update_ok u r :
  tcp_update u → router_inv alloc_live r → tcp_good r →
  ∃ r' port a, handle (ItemTCP u) r = Ok r' ∧ tcp_outcome port a r r' ∧
    ∀ P, tcp_tracks P r → tcp_tracks (apply_tcp P (tcp_event_of u)) r'.
Proof.
  intros (op & port & b & Hop & ->) Hinv Hg.
  assert (mkBackendKey (bk_Address b) (bk_Port b) = b) as Hb by by destruct b.
  destruct Hop as [-> | ->];
    [destruct (tcp_add_ok port (backend_member b) r Hinv Hg) as (r' & E & Hout); [done|]
    |destruct (tcp_remove_ok port (backend_member b) r Hinv Hg) as (r' & E & Hout)];
    exists r', port; eexists; (split; [done|]); (split; [done|]); destruct Hout as (_ & _ & Habs & _);
    intros P HP port' m; unfold pooled; rewrite Habs; unfold apply_tcp, tcp_event_of; cbn; rewrite Hb.
  - rewrite spec_add_member. change (∃ s, _ !! _ = Some s ∧ m ∈ s) with (pooled r (createTCPObjectName c port') m).
    rewrite (HP port' m). split.
    + intros [[->%createTCPObjectName_inj ->]|(b' & Hin & ->)]; eexists; (split; [|done]); set_solver.
    + intros (b' & [[= -> ->]%elem_of_singleton|Hin]%elem_of_union & ->); [by left|right; eauto].
  - rewrite spec_remove_member. change (∃ s, _ !! _ = Some s ∧ m ∈ s) with (pooled r (createTCPObjectName c port') m).
    rewrite (HP port' m). split.
    + intros [(b' & Hin & ->) Hne]. exists b'. split; [|done]. apply elem_of_difference. split; [done|].
      intros [= -> ->]%elem_of_singleton. by apply Hne.
    + intros (b' & [Hin Hne]%elem_of_difference & ->). split; [eauto|].
      intros [->%createTCPObjectName_inj ->%(inj backend_member)]. by apply Hne, elem_of_singleton.
Qed.
End tcp.

(** ** Names *)

(** A wildcard route can have the name of a TCP object. *)
Theorem wildcard_takes_tcp_name c port :
  makeObjectName ("*.tcp-route-" +:+ TCPRouterGroupName c +:+ "-" +:+ Itoa port) = Ok (createTCPObjectName c port).
Proof. reflexivity. Qed.

(** ** The operations of the table *)
Section table.
Context `{!MapOrder RoutingKey} `{!MapOrder BackendServerKey}.

Inductive table_op : RoutingTable → RoutingTable → Prop :=
| to_upsert now key info t : table_op t (UpsertBackendServerKey now key info t).1
| to_delete now key info t : table_op t (DeleteBackendServerKey now key info t).1
| to_tick now t : table_op t (tick now t)
| to_start t : table_op t (StartPruningCycle t)
| to_stop t : table_op t (StopPruningCycle t).

Lemma table_op_reach c t t' : tbl_reach c t → table_op t t' → tbl_reach c t'.
Proof. intros Hr Hop. revert Hr. destruct Hop; intros Hr; by constructor. Qed.

(** The listener has got some updates more. *)
Definition grown (t t' : RoutingTable) : Prop :=
  rt_c t' = rt_c t ∧
  ∀ us, rt_listener t = Some us → ∃ new, rt_listener t' = Some (us ++ new) ∧ Forall (tcp_update (rt_c t)) new.

#[local] Instance grown_refl : Reflexive grown.
Proof. intros t. split; [done|]. intros us Hus. exists []. by rewrite app_nil_r. Qed.

#[local] Instance grown_trans : Transitive grown.
Proof.
  intros t1 t2 t3 [H1 H2] [H3 H4]. split; [congruence|]. intros us Hus.
  destruct (H2 us Hus) as (n1 & Hn1 & HF1), (H4 _ Hn1) as (n2 & Hn2 & HF2). exists (n1 ++ n2).
  rewrite app_assoc. rewrite H1 in HF2. split; [done|by apply Forall_app].
Qed.

Lemma updateRouter_grown op port a p t : op = Add ∨ op = Remove → grown t (updateRouter op port a p t).
Proof.
  intros Hop. unfold updateRouter. destruct (rt_listener t) as [us|] eqn:E; [|done]. split; [done|].
  intros us' Hus. rewrite E in Hus. injection Hus as <-. eexists. split; [done|].
  apply Forall_singleton. by exists op, port, (mkBackendKey a p).
Qed.

Lemma upd_entries_grown f t : grown t (upd_entries f t).
Proof. split; [done|]. intros us Hus. exists []. by rewrite app_nil_r. Qed.

Lemma pruneEntry_grown now ttl t kv : grown t (pruneEntry now ttl t kv).
Proof.
  unfold pruneEntry. destruct (pruneBackends now ttl kv.2) as [removed e']. etrans; [|apply upd_entries_grown].
  unfold announce_removed. revert t. induction removed as [|b removed IH]; intros t; cbn; [done|].
  etrans; [apply updateRouter_grown; by right|apply IH].
Qed.

Lemma table_op_grown t t' : table_op t t' → grown t t'.
Proof.
  intros [now key info u|now key info u|now u|u|u].
  - unfold UpsertBackendServerKey. repeat case_match; cbn; try apply upd_entries_grown;
      (etrans; [apply upd_entries_grown|apply updateRouter_grown; by left]).
  - unfold DeleteBackendServerKey. repeat case_match; cbn; simplify_eq/=; try done;
      (etrans; [apply upd_entries_grown|apply updateRouter_grown; by right]).
  - unfold tick. repeat case_match; try done. unfold pruneEntries. generalize (go_range (entries u)).
    intros l. generalize (rt_pruneInterval u). intros ttl. revert u H H0. clear. intros u _ _. revert u.
    induction l as [|kv l IH]; intros u; cbn; [done|]. etrans; [apply pruneEntry_grown|apply IH].
  - unfold StartPruningCycle. case_match; [|done]. split; [done|]. intros us Hus. exists []. by rewrite app_nil_r.
  - unfold StopPruningCycle. case_match; [|done]. split; [done|]. intros us Hus. exists []. by rewrite app_nil_r.
Qed.

(** Every table that runs has the updates of its configuration only. *)
Lemma table_run c t : rtc table_op (NewRoutingTable c true) t →
  tbl_reach c t ∧ rt_c t = c ∧ ∃ us, rt_listener t = Some us ∧ Forall (tcp_update c) us.
Proof.
  revert t. apply rtc_preserves.
  - intros t t' Hop (Hr & Hc & us & Hus & HF). split; [by eapply table_op_reach|].
    destruct (table_op_grown t t' Hop) as [Hc' Hl]. split; [congruence|].
    destruct (Hl us Hus) as (new & Hnew & HF'). exists (us ++ new). rewrite Hc in HF'. by rewrite Forall_app.
  - split; [apply tbl_new|]. split; [done|]. by exists [].
Qed.

(** The update of an operation that announces one event. *)
Lemma op_listener t t' us op port b :
  table_op t t' → rt_listener t = Some us → table_sent t' = table_sent t ++ table_tell t [(op, (port, b))] →
  rt_c t' = rt_c t ∧ rt_listener t' = Some (us ++ [NewTCPUpdate (rt_c t) op port (backend_member b)]).
Proof.
  intros [Hc Hg]%table_op_grown Hus HS. split; [done|]. destruct (Hg us Hus) as (new & Hnew & HF).
  rewrite Hnew. do 2 f_equal. unfold table_sent, table_tell in HS. rewrite Hnew, Hus, fmap_app in HS. apply app_inv_head in HS.
  destruct new as [|u [|? ?]]; simplify_eq/=. apply Forall_singleton in HF as (op' & port' & b' & _ & ->).
  by destruct b'.
Qed.

Lemma upsert_new now key info t us :
  BackendExists key (info_key info) t = false → rt_listener t = Some us →
  let t' := (UpsertBackendServerKey now key info t).1 in
  entries t' !! key ≫= (.!! info_key info) = Some (info_details now info) ∧ rt_c t' = rt_c t ∧
  rt_listener t' = Some (us ++ [NewTCPUpdate (rt_c t) Add (rk_Port key) (backend_member (info_key info))]).
Proof.
  intros Hb Hus t'. destruct (Upsert_spec now key info t) as (HE & HB & _ & HS). rewrite HB, Hb in HS.
  split; [|by apply op_listener; [apply to_upsert|..]].
  unfold t'. rewrite HE, lookup_insert_eq. cbn. unfold upsert_entry.
  assert (default ∅ (entries t !! key) !! info_key info = None) as ->; [|by rewrite lookup_insert_eq].
  unfold BackendExists in Hb. destruct (entries t !! key) as [e|]; [|done]. cbn. by destruct (e !! info_key info).
Qed.

Lemma delete_known now key info t us :
  deletable now key info (entries t) = true → rt_listener t = Some us →
  let t' := (DeleteBackendServerKey now key info t).1 in
  BackendExists key (info_key info) t' = false ∧ rt_c t' = rt_c t ∧
  rt_listener t' = Some (us ++ [NewTCPUpdate (rt_c t) Remove (rk_Port key) (backend_member (info_key info))]).
Proof.
  intros Hd Hus t'. destruct (Delete_backend_spec now key info t) as (HB & HE & _ & HS). rewrite HB, Hd in HS, HE.
  split; [|by apply op_listener; [apply to_delete|..]].
  assert (entries t' !! key ≫= (.!! info_key info) = None) as Hn.
  { unfold t'. rewrite HE, put_entry_lookup, decide_True by done. by rewrite live_entry_bind, lookup_delete_eq. }
  unfold BackendExists. destruct (entries t' !! key) as [e|]; [|done]. cbn in Hn. by rewrite Hn.
Qed.
End table.
