(* ===== verification/System.v ===== *)
(** The controller as a whole: the registry ([registry/registry.go]), the TCP
    routing table ([routingtable/routingtable.go]), the queue and its worker,
    and the router ([f5router/f5router.go]), composed.

    An operation of the registry or of the table runs under its lock and calls
    [UpdateRoute] for each of its updates before it returns; the worker runs
    beside them.  A state of the system is therefore the registry, the updates
    of its operation in progress that are not yet handed over, the same for
    the table, and the queue with worker and router.  The updates of TCP
    routes are equal values when a backend comes back; one is handed over when
    no equal one is waiting or being processed ([st_tcp]; otherwise the queue
    may drop it, [tcp_update_lost]). *)
From Stdlib Require Import Ascii ZArith Lia.
From stdpp Require Import sorting countable base list gmap strings relations.
From S2P Require Import Prelude GoStrings GoNet Uri Pool Config Resources Updates Tier2 Alloc Policy Registry RoutingTable F5Router RouterFacts RouterRun WorkQueue Announce Serving TcpRoutes.
Import bigipResources routeUpdate.
Local Open Scope nat_scope.

(** ** The table the updates describe *)
Definition apply_entry (T : Table) (ev : Registry.event) : Table :=
  match ev with
  | (Add, u, Some ep) => {[ (u, member_of ep) ]} ∪ T
  | (Remove, u, Some ep) => T ∖ {[ (u, member_of ep) ]}
  | _ => T
  end.

Definition table (evs : list Registry.event) : Table := fold_left apply_entry evs ∅.

Lemma table_snoc evs ev : table (evs ++ [ev]) = apply_entry (table evs) ev.
Proof. unfold table. by rewrite fold_left_app. Qed.

Definition member_addr (m : Member) : string := MAddress m +:+ String ":" (Itoa (MPort m)).

Definition plain_member (m : Member) : Prop := Session m = "user-enabled" ∧ count_char ":" (MAddress m) = 0.

Lemma member_addr_of ep m : plain_host ep → plain_member m → member_addr m = CanonicalAddr ep → m = member_of ep.
Proof.
  intros [_ Hc] [Hs Hm] E. unfold member_addr, CanonicalAddr in E.
  apply sapp_sep_inj in E as [Ha Hp]; [|done..]. apply (inj Itoa) in Hp.
  destruct m as [a p s]. cbn in *. unfold member_of. by subst.
Qed.

Lemma member_of_plain ep : plain_host ep → plain_member (member_of ep) ∧ member_addr (member_of ep) = CanonicalAddr ep.
Proof. by intros [_ Hc]. Qed.

(** Members and addresses say the same. *)
Lemma table_view U evs u m :
  Forall (good_event U) evs → (u, m) ∈ table evs ↔ plain_member m ∧ (u, member_addr m) ∈ Registry.replay evs.
Proof.
  induction evs as [|ev evs IH] using rev_ind; intros HF.
  { split; [by intros ?%elem_of_empty|]. by intros [_ ?%elem_of_empty]. }
  apply Forall_app in HF as [HF Hev]. apply Forall_singleton in Hev as (op & u0 & ep & -> & Hop & _ & Hp).
  rewrite table_snoc, replay_app. cbn [fold_left]. specialize (IH HF).
  pose proof (member_of_plain ep Hp) as [Hpl Haddr].
  assert ((u, m) = (u0, member_of ep) ↔ plain_member m ∧ (u, member_addr m) = (u0, CanonicalAddr ep)) as Heq.
  { split; [intros [= -> ->]; split; [done|by rewrite Haddr]|].
    intros [Hm [= -> Ha]]. by rewrite (member_addr_of ep m). }
  destruct Hop as [-> | ->]; cbn.
  - rewrite !elem_of_union, !elem_of_singleton, IH, Heq. clear. tauto.
  - rewrite !elem_of_difference, !elem_of_singleton, IH, Heq. clear. tauto.
Qed.

(** ** Traces of the worker *)
Section composed.
Context `{!VisitOrder} `{!MapOrder string} `{!MapOrder RoutingKey} `{!MapOrder BackendServerKey}.
Variable U : string → Prop.
Variable tc : Config.
Hypothesis U_servable : ∀ u, U u → servable u.
Hypothesis U_names : ∀ u1 u2 n, U u1 → U u2 → named u1 n → named u2 n → u1 = u2.

Hypothesis U_tcp : ∀ u n, U u → named u n → ¬ tcp_name tc n.
Hypothesis tc_external : is_Some (ParseIP (ExternalAddr (BigIP tc))).

#[local] Abbreviation tracks := (tracks U (tcp_name tc)).

Definition good_item (u : updateHTTP) : Prop :=
  ∃ op uri ep, (op = Add ∨ op = Remove) ∧ update_for U op uri ep u.

(** At some point of the trace a new route found no address. *)
Definition exhausted (s0 : F5Router) (tr : list (@event workItem)) : Prop :=
  ∃ tr1 u tr2 r1 ws1, tr = tr1 ++ EHandle (ItemHTTP u) :: tr2 ∧
    WorkQueue.replay handle drain s0 tr1 = Ok (r1, ws1) ∧ hu_op u = Add ∧
    virtualResources r1 !! hu_name u = None ∧ no_address r1 (hu_name u).

Lemma exhausted_snoc s0 tr e : exhausted s0 tr → exhausted s0 (tr ++ [e]).
Proof.
  intros (tr1 & u & tr2 & r1 & ws1 & -> & Hx). exists tr1, u, (tr2 ++ [e]), r1, ws1. by rewrite <-app_assoc.
Qed.

(** The items of either kind, in their order. *)
Definition https (l : list workItem) : list updateHTTP := omap (λ i, match i with ItemHTTP u => Some u | ItemTCP _ => None end) l.
Definition tcps (l : list workItem) : list updateTCP := omap (λ i, match i with ItemTCP u => Some u | ItemHTTP _ => None end) l.

Definition good_work (i : workItem) : Prop :=
  match i with ItemHTTP u => good_item u | ItemTCP u => tcp_update tc u end.

Definition all_good (r : F5Router) : Prop := router_good U r ∧ tcp_good tc r.

(** The pools after the items [l], from none. *)
Definition follows (l : list workItem) (r : F5Router) : Prop := tracks (table (event_of <$> https l)) r.
Definition tcp_follows (l : list workItem) (r : F5Router) : Prop := tcp_tracks tc (replay_tcp (tcp_event_of <$> tcps l)) r.

Lemma https_snoc l u : https (l ++ [ItemHTTP u]) = https l ++ [u] ∧ tcps (l ++ [ItemHTTP u]) = tcps l.
Proof. unfold https, tcps. by rewrite !omap_app, app_nil_r. Qed.

Lemma tcps_snoc l u : tcps (l ++ [ItemTCP u]) = tcps l ++ [u] ∧ https (l ++ [ItemTCP u]) = https l.
Proof. unfold https, tcps. by rewrite !omap_app, app_nil_r. Qed.

Lemma handle_good u r :
  all_good r → good_item u →
  ∃ r', handle (ItemHTTP u) r = Ok r' ∧ all_good r' ∧ (∀ P, tcp_tracks tc P r → tcp_tracks tc P r') ∧
    ((hu_op u = Add ∧ virtualResources r !! hu_name u = None ∧ no_address r (hu_name u)) ∨
     ∀ T, tracks T r → tracks (apply_entry T (event_of u)) r').
Proof.
  intros [Hg Htg] (op & uri & ep & Hop & Hu).
  destruct (update_good U U_servable op uri ep u Hu Hop) as (H1 & H2 & Hn & Hgu & _). pose proof Hu as [HU _].
  pose proof (gu_endpoint _ _ Hgu) as H3. pose proof (U_tcp _ _ HU Hn) as Hnt.
  unfold event_of. rewrite H1, H2, H3. cbn [handle Op updateHTTP_RouteUpdate].
  rewrite H1. destruct Hop as [-> | ->].
  - destruct (add_good U U_servable U_names uri ep u r Hg Hu) as (r' & -> & Hg' & He & Hc). exists r'.
    split; [done|]. split; [split; [done|by eapply tcp_good_elsewhere]|].
    split; [intros P; by apply (tcp_tracks_elsewhere tc P (hu_name u))|].
    destruct Hc as [?|Habs]; [by left|right]. intros T. by apply tracks_add with (n := hu_name u).
  - destruct (remove_good U U_servable U_names uri ep u r Hg Hu) as (r' & -> & Hg' & He & Habs). exists r'.
    split; [done|]. split; [split; [done|by eapply tcp_good_elsewhere]|].
    split; [intros P; by apply (tcp_tracks_elsewhere tc P (hu_name u))|].
    right. intros T. by apply tracks_remove with (n := hu_name u).
Qed.

Lemma handle_tcp u r :
  all_good r → tcp_update tc u →
  ∃ r', handle (ItemTCP u) r = Ok r' ∧ all_good r' ∧ (∀ T, tracks T r → tracks T r') ∧
    ∀ P, tcp_tracks tc P r → tcp_tracks tc (apply_tcp P (tcp_event_of u)) r'.
Proof.
  intros [Hg Htg] Hu. destruct (tcp_update_ok tc tc_external u r Hu (rg_inv _ _ Hg) Htg) as (r' & port & a & E & Hout & HP).
  exists r'. split; [done|]. pose proof Hout as (_ & Htg' & _ & He & _).
  split; [split; [by eapply tcp_keeps_routes|done]|]. split; [|done].
  intros T. apply (tracks_elsewhere U (tcp_name tc) T r r' (createTCPObjectName tc port)); [by exists port|done].
Qed.

(** A good item is handled, and the pools follow it. *)
Lemma work_good i l s0 tr r ws :
  all_good r → good_work i → WorkQueue.replay handle drain s0 tr = Ok (r, ws) → (exhausted s0 tr ∨ follows l r) → tcp_follows l r →
  ∃ r', handle i r = Ok r' ∧ all_good r' ∧
    (exhausted s0 (tr ++ [EHandle i]) ∨ follows (l ++ [i]) r') ∧ tcp_follows (l ++ [i]) r'.
Proof.
  intros Hg Hi Hrep Hf Ht. unfold follows, tcp_follows in *. destruct i as [u|u].
  - destruct (handle_good u r Hg Hi) as (r' & E & Hg' & HP & Hcase). exists r'. split_and!; [done|done| |].
    + destruct Hf as [Hf|Hf]; [left; by apply exhausted_snoc|].
      destruct Hcase as [(Ho & Hv & Hna)|Hcase]; [left; by exists tr, u, [], r, ws|right].
      rewrite (proj1 (https_snoc l u)), fmap_app. cbn. rewrite table_snoc. by apply Hcase.
    + rewrite (proj2 (https_snoc l u)). by apply HP.
  - destruct (handle_tcp u r Hg Hi) as (r' & E & Hg' & HT & HP). exists r'. split_and!; [done|done| |].
    + destruct Hf as [Hf|Hf]; [left; by apply exhausted_snoc|right]. rewrite (proj2 (tcps_snoc l u)). by apply HT.
    + rewrite (proj1 (tcps_snoc l u)), fmap_app. unfold replay_tcp. rewrite fold_left_app. by apply HP.
Qed.

(** What a trace of good updates leaves behind. *)
Lemma trace_good s0 tr : ∀ l r ws,
  all_good s0 → follows [] s0 → tcp_follows [] s0 → handled tr = l → Forall good_work l →
  WorkQueue.replay handle drain s0 tr = Ok (r, ws) →
  all_good r ∧ (exhausted s0 tr ∨ follows l r) ∧ tcp_follows l r ∧
  (last tr = Some EDrain → ∃ w r1, last ws = Some w ∧ shows r1 w ∧ all_good r1 ∧ RouterFacts.abs r1 = RouterFacts.abs r).
Proof.
  induction tr as [|e tr IH] using rev_ind; intros l r ws Hg0 Hf0 Ht0 Hh HF Hr.
  { subst l. injection Hr as <- <-. split_and!; [done|by right|done|done]. }
  rewrite replay_snoc in Hr. destruct (WorkQueue.replay handle drain s0 tr) as [[r0 ws0]| |] eqn:E0; [|done..].
  rewrite handled_snoc in Hh. subst l. apply Forall_app in HF as [HF He].
  destruct (IH _ r0 ws0 Hg0 Hf0 Ht0 eq_refl HF eq_refl) as (Hg & Hf & Ht & _).
  destruct e as [i|]; cbn [replay_step rbind] in Hr.
  - apply Forall_cons in He as [He _]. destruct (work_good i _ s0 tr r0 ws0 Hg He E0 Hf Ht) as (r' & E & Hg' & Hf' & Ht').
    rewrite E in Hr. injection Hr as <- <-. split_and!; [done|done|done|by rewrite last_snoc].
  - rewrite app_nil_r. destruct Hg as [Hg Htg]. destruct (drain_good U r0 Hg) as (r' & w & E & Hg' & Habs & Hs & Hel).
    rewrite E in Hr. injection Hr as <- <-.
    assert (all_good r') as Hall.
    { split; [done|]. apply (tcp_good_elsewhere tc EmptyString r0); [by intros [? ?]|done|done]. }
    split_and!; [done| | |].
    + destruct Hf as [Hf|[HT Hp]]; [left; by apply exhausted_snoc|right]. split; [done|].
      intros n m. unfold pooled. rewrite Habs. apply Hp.
    + intros port m. unfold pooled. rewrite Habs. apply Ht.
    + intros _. exists w, r0. rewrite last_snoc. by rewrite Habs.
Qed.

(** ** The system *)
Record system := mkSystem {
  reg : RouteRegistry; outbox : list updateHTTP;
  tbl : RoutingTable; tcp_outbox : list updateTCP;
  sx : router_sys
}.

(** The updates of an operation. *)
Definition sent_since (r r' : RouteRegistry) : list updateHTTP :=
  drop (length (default [] (listener r))) (default [] (listener r')).
Definition tcp_since (t t' : RoutingTable) : list updateTCP :=
  drop (length (default [] (rt_listener t))) (default [] (rt_listener t')).

Inductive step : system → system → Prop :=
| st_registry r r' t tout x :
    reg_op U r r' → step (mkSystem r [] t tout x) (mkSystem r' (sent_since r r') t tout x)
| st_deliver r u rest t tout x :
    step (mkSystem r (u :: rest) t tout x) (mkSystem r rest t tout (UpdateRoute (ItemHTTP u) x))
| st_table r out t t' x :
    table_op t t' → step (mkSystem r out t [] x) (mkSystem r out t' (tcp_since t t') x)
| st_tcp r out t u rest x :
    unqueued (ItemTCP u) x →
    step (mkSystem r out t (u :: rest) x) (mkSystem r out t rest (UpdateRoute (ItemTCP u) x))
| st_worker r out t tout x x' :
    worker_step handle drain x = Some x' → step (mkSystem r out t tout x) (mkSystem r out t tout x').

(** Registry, table and router share one configuration object; the table
    reads the fields the router has completed. *)
Definition init (c : Config) (s0 : F5Router) : system :=
  mkSystem (NewRouteRegistry c true) [] (NewRoutingTable (rc s0) true) [] (start s0).

(** What has been handed over is what registry and table sent, each in order. *)
Record system_inv (c : Config) (s0 : F5Router) (σ : system) : Prop := {
  si_registry : rtc (reg_op U) (NewRouteRegistry c true) (reg σ);
  si_table : rtc table_op (NewRoutingTable tc true) (tbl σ);
  si_listener : listener (reg σ) = Some (https (added (sx σ)) ++ outbox σ);
  si_tcp : rt_listener (tbl σ) = Some (tcps (added (sx σ)) ++ tcp_outbox σ);
  si_worker : sys_inv handle drain s0 (sx σ);
  si_running : shuttingDown (q (sx σ)) = false;
  si_alive : wk (sx σ) ≠ Crashed
}.

(** The updates handed over are good ones. *)
Lemma delivered_good c r dl out :
  rtc (reg_op U) (NewRouteRegistry c true) r → listener r = Some (dl ++ out) →
  Forall good_item dl ∧ numbered (dl ++ out) ∧ Forall (good_event U) (event_of <$> dl ++ out).
Proof.
  intros Hr HL. destruct (platform_reach U c r Hr) as (_ & [_ HE] & us & E & Hn). rewrite HL in E. injection E as <-.
  unfold sent in HE. rewrite HL in HE. split; [|done].
  apply Forall_forall. intros u Hu. assert (u ∈ dl ++ out) as Hin by set_solver.
  rewrite Forall_forall in HE. destruct (HE (event_of u)) as (op & uri & ep & Hev & Hop & HU & Hp); [by apply list_elem_of_fmap_2|].
  apply list_elem_of_lookup in Hin as [i Hi]. destruct (Hn i u Hi) as (op' & uri' & ep' & Hm).
  assert (op' = op ∧ uri' = uri ∧ ep' = ep) as (-> & -> & ->).
  { unfold NewUpdate in Hm. case_bool_decide; [done|]. unfold event_of in Hev. injection Hev as H1 H2 H3.
    destruct op'; try done; apply rbind_Ok in Hm as (name & _ & Hm); injection Hm as <-; cbn in *; try done;
      [by simplify_eq..]. }
  exists op, uri, ep. split; [done|]. split_and!; [done|done|by exists i].
Qed.

Lemma good_split l : Forall good_item (https l) → Forall (tcp_update tc) (tcps l) → Forall good_work l.
Proof.
  induction l as [|[u|u] l IH]; cbn; [done|..].
  - intros [Hu HF]%Forall_cons HF'. constructor; [done|by apply IH].
  - intros HF [Hu HF']%Forall_cons. constructor; [done|by apply IH].
Qed.

Lemma added_good c s0 σ : system_inv c s0 σ → Forall good_work (added (sx σ)).
Proof.
  intros [Hr Ht HL HT _ _ _]. apply good_split; [by destruct (delivered_good c _ _ _ Hr HL)|].
  destruct (table_run tc _ Ht) as (_ & _ & us & Hus & HF). rewrite HT in Hus. injection Hus as <-.
  by apply Forall_app in HF as [? _].
Qed.

(** The router has handled good updates only, so its state is good. *)
Lemma router_state c s0 σ :
  all_good s0 → follows [] s0 → tcp_follows [] s0 → system_inv c s0 σ → all_good (router (sx σ)).
Proof.
  intros Hg0 Hf0 Ht0 Hinv. pose proof (added_good c s0 σ Hinv) as HF. destruct Hinv as [_ _ _ _ (Hm & Hrep & _) _ Hc].
  destruct (Hm Hc) as (Hadd & _). rewrite Hadd in HF. apply Forall_app in HF as [HF _].
  by destruct (trace_good s0 (trace (sx σ)) _ _ _ Hg0 Hf0 Ht0 eq_refl HF Hrep) as (? & _).
Qed.

Lemma worker_alive c s0 σ x' :
  all_good s0 → follows [] s0 → tcp_follows [] s0 → system_inv c s0 σ → worker_step handle drain (sx σ) = Some x' →
  wk x' ≠ Crashed.
Proof.
  intros Hg0 Hf0 Ht0 Hinv. pose proof (router_state c s0 σ Hg0 Hf0 Ht0 Hinv) as Hg.
  pose proof (added_good c s0 σ Hinv) as HF. destruct Hinv as [_ _ _ _ (Hm & _) _ Hc]. destruct (Hm Hc) as (Hadd & _).
  unfold worker_step. destruct (wk (sx σ)) as [|i|i|i| |] eqn:Hw; try done.
  - intros Hs. repeat case_match; by simplify_eq/=.
  - assert (good_work i) as Hi.
    { rewrite Forall_forall in HF. apply HF. rewrite Hadd. unfold pending. rewrite Hw. set_solver. }
    destruct i as [u|u]; [destruct (handle_good u _ Hg Hi) as (r' & -> & _)|destruct (handle_tcp u _ Hg Hi) as (r' & -> & _)];
      by intros [= <-].
  - destruct (drain_good U _ (proj1 Hg)) as (r' & w & -> & _). intros Hs. case_match; by simplify_eq/=.
  - by intros [= <-].
Qed.

Lemma running_Add i (x : router_sys) : shuttingDown (q x) = false → shuttingDown (q_Add i (q x)) = false.
Proof. intros Hs. unfold q_Add. rewrite Hs. by repeat case_decide. Qed.

Lemma running_worker (x x' : router_sys) :
  worker_step handle drain x = Some x' → shuttingDown (q x') = shuttingDown (q x).
Proof. unfold worker_step, with_worker, q_Get, q_Done. intros Hw. repeat case_match; by simplify_eq/=. Qed.

Lemma system_inv_step c s0 σ σ' :
  all_good s0 → follows [] s0 → tcp_follows [] s0 → step σ σ' → system_inv c s0 σ → system_inv c s0 σ'.
Proof.
  intros Hg0 Hf0 Ht0 Hst Hinv.
  destruct Hst as [r r' t tout x Hop|r u rest t tout x|r out t t' x Hop|r out t u rest x Hun|r out t tout x x' Hw].
  - destruct Hinv as [Hr Ht HL HT Hsys Hsd Hc]. cbn in *. rewrite app_nil_r in HL.
    destruct (reg_op_grows U r r' Hop _ HL) as (new & HL' & _).
    constructor; cbn; try done; [by eapply rtc_r|]. unfold sent_since. rewrite HL, HL'. cbn. by rewrite drop_app_length.
  - destruct Hinv as [Hr Ht HL HT Hsys Hsd Hc]. cbn in *.
    destruct (delivered_good c r _ _ Hr HL) as (_ & Hn & _).
    assert (new_item (ItemHTTP u) x) as Hnew.
    { intros Hin. apply numbered_NoDup, NoDup_app in Hn as (_ & Hdis & _). eapply Hdis; [|left].
      apply list_elem_of_omap. by eexists. }
    constructor; cbn; try done; [| |by eapply inv_update, new_unqueued|by apply running_Add]; rewrite Hsd.
    + by rewrite (proj1 (https_snoc _ u)), <-app_assoc.
    + by rewrite (proj2 (https_snoc _ u)).
  - destruct Hinv as [Hr Ht HL HT Hsys Hsd Hc]. cbn in *. rewrite app_nil_r in HT.
    destruct (table_op_grown t t' Hop) as [_ Hgr]. destruct (Hgr _ HT) as (new & HT' & _).
    constructor; cbn; try done; [by eapply rtc_r|]. unfold tcp_since. rewrite HT, HT'. cbn. by rewrite drop_app_length.
  - destruct Hinv as [Hr Ht HL HT Hsys Hsd Hc]. cbn in *.
    constructor; cbn; try done; [| |by apply inv_update|by apply running_Add]; rewrite Hsd.
    + by rewrite (proj2 (tcps_snoc _ u)).
    + by rewrite (proj1 (tcps_snoc _ u)), <-app_assoc.
  - pose proof (worker_alive c s0 _ x' Hg0 Hf0 Ht0 Hinv Hw) as Halive.
    destruct Hinv as [Hr Ht HL HT Hsys Hsd Hc]. cbn in *. pose proof (worker_added _ _ _ _ Hw) as Hadd.
    constructor; cbn; rewrite ?Hadd; try done; [by eapply inv_worker|by rewrite (running_worker x x')].
Qed.

Lemma system_inv_init c s0 : rc s0 = tc → system_inv c s0 (init c s0).
Proof.
  intros Hrc. constructor; cbn; [apply rtc_refl|rewrite Hrc; apply rtc_refl|done|done|apply (inv_reachable handle drain), rtc_refl|done|done].
Qed.

(** ** The configuration against the registry and the table *)

(** The pool of object [n] should hold member [m]. *)
Definition serves (R : Routes) (n : string) (m : Member) : Prop :=
  ∃ p mm ep t, R !! p = Some mm ∧ mm !! CanonicalAddr ep = Some (ep, t) ∧ named (Join "/" p) n ∧ m = member_of ep.

(** The configuration [w] says what the routes [R] are: a pool for each
    object that is not of a TCP route, with exactly the members of its route;
    for each route a virtual server, and a rule that sends its requests there;
    and neither for any other announced route. *)
Record config_serves (R : Routes) (w : Sections) : Prop := {
  cs_resources : is_Some (s_resources w);
  cs_names : ∀ part res, s_resources w = Some (part, res) → NoDup (bigipResources.Name <$> Pools res);
  cs_members : ∀ part res, s_resources w = Some (part, res) → ∀ n m, ¬ tcp_name tc n →
    (∃ pl, pl ∈ Pools res ∧ bigipResources.Name pl = n ∧ m ∈ Members pl) ↔ serves R n m;
  cs_virtuals : ∀ part res, s_resources w = Some (part, res) → ∀ u n, U u → named u n →
    (∃ v, v ∈ Virtuals res ∧ VirtualServerName v = n) ↔ ∃ p, is_Some (R !! p) ∧ u = Join "/" p;
  cs_rules : ∀ part res, s_resources w = Some (part, res) → ∀ u n, U u → named u n →
    (∃ pol rl, pol ∈ RPolicies res ∧ rl ∈ PolRules pol ∧ rule_of u n rl) ↔ ∃ p, is_Some (R !! p) ∧ u = Join "/" p
}.

(** The configuration [w] says what the entries [B] of the table are: for each
    port a pool with exactly its backends, and exactly for the ports with a
    backend the virtual server that listens there. *)
Record config_tcp (B : gmap RoutingKey (gmap BackendServerKey BackendServerDetails)) (w : Sections) : Prop := {
  ct_resources : is_Some (s_resources w);
  ct_members : ∀ part res, s_resources w = Some (part, res) → ∀ port m,
    (∃ pl, pl ∈ Pools res ∧ bigipResources.Name pl = createTCPObjectName tc port ∧ m ∈ Members pl) ↔
    ∃ b, in_table B (port, b) ∧ m = backend_member b;
  ct_servers : ∀ part res, s_resources w = Some (part, res) → ∀ port v,
    (v ∈ Virtuals res ∧ VirtualServerName v = createTCPObjectName tc port) ↔
    tcp_server tc port v ∧ ∃ b, in_table B (port, b)
}.

Lemma elem_of_createPools r pl : pl ∈ createPools r ↔ ∃ n, pool_view r !! n = Some pl.
Proof.
  unfold createPools. rewrite list_elem_of_omap. setoid_rewrite view_lookup. split.
  - intros ([n l] & Hl%elem_of_go_range & Hp). exists n. by rewrite Hl.
  - intros [n (l & Hl & Hp)%bind_Some]. exists (n, l). by rewrite elem_of_go_range.
Qed.

Lemma createPools_names r : pools_ok r → NoDup (bigipResources.Name <$> createPools r).
Proof.
  intros Hok. unfold createPools. pose proof (go_range_NoDup_fst (poolResources r)) as Hnd.
  assert (∀ kl, kl ∈ go_range (poolResources r) → poolResources r !! kl.1 = Some kl.2) as Hin.
  { intros [k l] Hkl%elem_of_go_range. done. }
  induction (go_range (poolResources r)) as [|[n l] ls IH]; [constructor|]. cbn in Hnd |- *.
  apply NoDup_cons in Hnd as [Hn Hnd].
  assert (NoDup (bigipResources.Name <$> omap (λ kl, F5Router.pools r !! kl.2) ls)) as Hrest by (apply IH; set_solver).
  destruct (F5Router.pools r !! l) as [pl|] eqn:Hl; [|done]. cbn. constructor; [|done].
  intros (pl' & E & ([n' l'] & Hin' & Hl')%list_elem_of_omap)%list_elem_of_fmap. apply Hn. cbn in Hl'.
  destruct (po_valid _ Hok n l (Hin (n, l) ltac:(left))) as (p1 & Hp1 & Hn1 & _).
  destruct (po_valid _ Hok n' l' (Hin (n', l') ltac:(by right))) as (p2 & Hp2 & Hn2 & _).
  rewrite Hl in Hp1. rewrite Hl' in Hp2. injection Hp1 as <-. injection Hp2 as <-.
  apply list_elem_of_fmap. exists (n', l'). cbn. split; [congruence|done].
Qed.

(** A route of the table has a pool, and a pool a route. *)
Lemma tracks_dom T r u n :
  router_good U r → tracks T r → U u → named u n →
  is_Some (RouterFacts.abs r !! n) ↔ ∃ m, (u, m) ∈ T.
Proof.
  intros Hg [HT Hp] HU Hn. pose proof (U_tcp u n HU Hn) as Ho. split.
  - intros [s Hs]. rewrite router_abs_lookup in Hs. apply fmap_Some in Hs as (pl & Hpl & ->).
    destruct (view_ok r n pl (ro_pools _ (rg_inv _ _ Hg)) Hpl) as (_ & Hne & _).
    destruct (Members pl) as [|m ms] eqn:Em; [done|].
    destruct (proj1 (Hp n m Ho)) as (u' & Hu' & Hn').
    { eexists. rewrite router_abs_lookup, Hpl. split; [done|]. cbn. rewrite Em. set_solver. }
    exists m. by rewrite (U_names u u' n HU (HT u' m Hu') Hn Hn').
  - intros [m Hm]. destruct (proj2 (Hp n m Ho)) as (s & -> & _); [by exists u|]. done.
Qed.

Lemma rule_of_name u n rl : rule_of u n rl → RuleName rl = n.
Proof.
  intros (ru & rl0 & _ & <- & Hm & E). unfold makeRouteRule in Hm.
  apply rbind_Ok in Hm as (? & _ & Hm). apply rbind_Ok in Hm as (? & _ & Hm). apply rbind_Ok in Hm as (? & _ & [= <-]).
  apply (f_equal RuleName) in E. by destruct rl.
Qed.

Lemma rule_of_renumbered u n rl rl0 : unnumbered rl = unnumbered rl0 → rule_of u n rl0 → rule_of u n rl.
Proof. intros E (ru & rl1 & H1 & H2 & H3 & H4). exists ru, rl1. split_and!; [done..|]. by rewrite E. Qed.

Lemma rule_entry r u o : router_good U r → rule_at r u = Some o → ∃ n rl, o = Some rl ∧ U u ∧ named u n ∧ rule_of u n rl.
Proof.
  intros Hg. unfold rule_at. case_match; intros Ho;
    [destruct (rg_wild _ _ Hg u o Ho) as (? & _ & n & rl & ? & ? & ?)|destruct (rg_rules _ _ Hg u o Ho) as (? & _ & n & rl & ? & ? & ?)];
    by exists n, rl.
Qed.

Lemma policies_serve r ps u n :
  router_good U r → policies_list r ps → U u → named u n →
  (∃ pol rl, pol ∈ ps ∧ rl ∈ PolRules pol ∧ rule_of u n rl) ↔ is_Some (rule_at r u).
Proof.
  intros Hg [Hin Hout] HU Hn. split.
  - intros (pol & rl & Hpol & Hrl & Hro). destruct (Hout pol rl Hpol Hrl) as (u' & rl0 & Hu' & E).
    destruct (rule_entry r u' _ Hg Hu') as (n' & ? & [= <-] & HU' & Hn' & Hro').
    assert (n' = n) as ->.
    { rewrite <-(rule_of_name _ _ _ Hro), <-(rule_of_name _ _ _ Hro'). apply (f_equal RuleName) in E. by destruct rl, rl0. }
    rewrite (U_names u u' n) by done. by rewrite Hu'.
  - intros [o Ho]. destruct (rule_entry r u o Hg Ho) as (n' & rl0 & -> & _ & Hn' & Hro).
    assert (n' = n) as -> by (unfold named in *; congruence).
    destruct (Hin u rl0 Ho) as (pol & rl & Hpol & Hrl & E). exists pol, rl. split_and!; [done..|]. by eapply rule_of_renumbered.
Qed.

(** The pools and virtual servers that are written are those of the router. *)
Lemma pooled_listed r n m :
  pools_ok r → pooled r n m ↔ ∃ pl, pl ∈ createPools r ∧ bigipResources.Name pl = n ∧ m ∈ Members pl.
Proof.
  intros Hpo. setoid_rewrite elem_of_createPools. unfold pooled. setoid_rewrite router_abs_lookup. split.
  - intros (s & (pl & Hpl & ->)%fmap_Some & Hm). exists pl. destruct (view_ok r n pl Hpo Hpl) as (Hn & _). set_solver.
  - intros (pl & [n' Hn'] & <- & Hm). destruct (view_ok r n' pl Hpo Hn') as (-> & _). rewrite Hn'. eexists. split; [done|]. set_solver.
Qed.

Lemma virtual_listed r n v :
  router_inv alloc_live r → v ∈ createVirtuals r ∧ VirtualServerName v = n ↔ virtualResources r !! n = Some v.
Proof.
  intros Hinv. unfold createVirtuals. split.
  - intros [([n' v'] & -> & Hv%elem_of_go_range)%list_elem_of_fmap Hnv]. cbn in *.
    rewrite (ro_virt _ Hinv n' v' Hv) in Hnv. by subst.
  - intros Hv. split; [|by apply (ro_virt _ Hinv)]. apply list_elem_of_fmap. exists (n, v). by rewrite elem_of_go_range.
Qed.

Lemma shows_serves R T r w :
  router_good U r → tracks T r → shows r w →
  (∀ u m, (u, m) ∈ T ↔ ∃ p mm ep t, R !! p = Some mm ∧ mm !! CanonicalAddr ep = Some (ep, t) ∧ u = Join "/" p ∧ m = member_of ep) →
  (∀ p, is_Some (R !! p) → ∃ m, (Join "/" p, m) ∈ T) → config_serves R w.
Proof.
  intros Hg Ht (part & res & Hres & HP & HV & HPol) HTR Hdom. pose proof (ro_pools _ (rg_inv _ _ Hg)) as Hpo.
  assert (∀ u, (∃ m, (u, m) ∈ T) ↔ ∃ p, is_Some (R !! p) ∧ u = Join "/" p) as Hroute.
  { intros u. split; [|by intros (p & Hp%Hdom & ->)]. intros [m Hm]. pose proof Hm as (p & mm & ep & t & Hp & _ & -> & _)%HTR.
    exists p. by rewrite Hp. }
  constructor; rewrite Hres; [done|..]; intros part' res' [= <- <-].
  - rewrite HP. by apply createPools_names.
  - intros n m Ho. rewrite HP, <-(pooled_listed r n m Hpo), (proj2 Ht n m Ho). unfold serves. setoid_rewrite HTR. naive_solver.
  - intros u n HU Hn. rewrite HV, <-Hroute, <-(tracks_dom T r u n) by done. rewrite <-(rg_virtual _ _ Hg u n) by done.
    split; [intros (v & Hv)|intros [v Hv]; exists v]; [exists v|]; by apply (virtual_listed r n v (rg_inv _ _ Hg)).
  - intros u n HU Hn. rewrite <-Hroute, <-(tracks_dom T r u n) by done. rewrite <-(rg_rule _ _ Hg u n) by done.
    by apply policies_serve.
Qed.

Lemma tcp_server_unique port v v' : tcp_server tc port v → tcp_server tc port v' → v = v'.
Proof. intros (p & d & q & H1 & H2 & H3 & ->) (p' & d' & q' & H1' & H2' & H3' & ->). congruence. Qed.

Lemma shows_tcp B P r w :
  all_good r → tcp_tracks tc P r → shows r w → (∀ x, x ∈ P ↔ in_table B x) → config_tcp B w.
Proof.
  intros [Hg Htg] Ht (part & res & Hres & HP & HV & _) HB. pose proof (ro_pools _ (rg_inv _ _ Hg)) as Hpo.
  constructor; rewrite Hres; [done|..]; intros part' res' [= <- <-] port.
  - intros m. rewrite HP, <-(pooled_listed r _ m Hpo), (Ht port m). by setoid_rewrite HB.
  - assert (is_Some (virtualResources r !! createTCPObjectName tc port) ↔ ∃ b, in_table B (port, b)) as Hdom.
    { rewrite (tg_virtual _ _ Htg). setoid_rewrite <-HB. split.
      - intros [s Hs]. rewrite router_abs_lookup in Hs. apply fmap_Some in Hs as (pl & Hpl & ->).
        destruct (view_ok r _ pl Hpo Hpl) as (_ & Hne & _). destruct (Members pl) as [|m ms] eqn:Em; [done|].
        destruct (proj1 (Ht port m)) as (b & Hb & _); [|by exists b].
        eexists. rewrite router_abs_lookup, Hpl. split; [done|]. cbn. rewrite Em. set_solver.
      - intros [b Hb]. destruct (proj2 (Ht port (backend_member b))) as (s & -> & _); [by exists b|done]. }
    intros v. rewrite HV, (virtual_listed r _ v (rg_inv _ _ Hg)). split.
    + intros Hv. split; [by apply (tg_server _ _ Htg)|]. apply Hdom. by eexists.
    + intros [Hs [v' Hv']%Hdom]. rewrite Hv'. f_equal. by apply (tcp_server_unique port); [apply (tg_server _ _ Htg)|].
Qed.

(** The table of the updates sent so far is the registry's own. *)
Lemma registry_table c r :
  rtc (reg_op U) (NewRouteRegistry c true) r →
  (∀ u m, (u, m) ∈ table (sent r) ↔
     ∃ p mm ep t, routes r !! p = Some mm ∧ mm !! CanonicalAddr ep = Some (ep, t) ∧ u = Join "/" p ∧ m = member_of ep) ∧
  (∀ p, is_Some (routes r !! p) → ∃ m, (Join "/" p, m) ∈ table (sent r)).
Proof.
  intros Hr. destruct (platform_reach U c r Hr) as ((Hok & _ & Hview) & [HR HE] & _).
  pose proof (reg_routes_ok r Hok) as Hrt.
  assert (∀ u m, (u, m) ∈ table (sent r) ↔
     ∃ p mm ep t, routes r !! p = Some mm ∧ mm !! CanonicalAddr ep = Some (ep, t) ∧ u = Join "/" p ∧ m = member_of ep) as Htab.
  { intros u m. rewrite (table_view U) by done. rewrite (Hview (u, member_addr m)). unfold listed. cbn. split.
    - intros (Hm & p & mm & Hp & -> & [[ep t] Ha]). pose proof (rt_addr _ Hrt p mm _ ep t Hp Ha) as Haddr.
      destruct (HR p mm _ ep t Hp Ha) as [_ Hep]. exists p, mm, ep, t. rewrite <-Haddr.
      split_and!; [done|done|done|by apply member_addr_of].
    - intros (p & mm & ep & t & Hp & Ha & -> & ->). destruct (HR p mm _ ep t Hp Ha) as [_ Hep].
      destruct (member_of_plain ep Hep) as [Hpl Haddr]. split; [done|]. exists p, mm. rewrite Haddr, Ha. by split_and!. }
  split; [done|]. intros p [mm Hp]. pose proof Hp as Hp'. unfold routes in Hp. rewrite routes_of_lookup in Hp.
  apply fmap_Some in Hp as (l & Hl & ->). destruct (so_pool _ _ _ Hok p l Hl) as (pl & Hpl & Hplok & Hne).
  unfold held in Hp'. rewrite Hpl in Hp'.
  destruct (map_choose (Pool.abs pl)) as (a & [ep t] & Ha); [by intros He%abs_empty; rewrite ?He in Hne|].
  pose proof (rt_addr _ Hrt p _ a ep t Hp' Ha) as ->. exists (member_of ep). apply Htab. by exists p, (Pool.abs pl), ep, t.
Qed.

(** A table that has sent nothing is empty. *)
Lemma silent_table t : rtc table_op (NewRoutingTable tc true) t → rt_listener t = Some [] → entries t = ∅.
Proof.
  intros Ht HL. destruct (table_run tc t Ht) as (Hreach & _). destruct (tbl_reach_inv tc t Hreach) as [Hlive _ Hview].
  apply map_empty. intros key. destruct (entries t !! key) as [e|] eqn:E; [|done]. exfalso.
  destruct (map_choose e) as (b & d & Hb); [by eapply Hlive|]. destruct key as [port].
  assert ((port, b) ∈ replay_tcp (table_sent t)) as Hin.
  { apply Hview. unfold in_table. cbn. rewrite E. cbn. by rewrite Hb. }
  unfold table_sent in Hin. rewrite HL in Hin. by apply elem_of_empty in Hin.
Qed.

(** Steps of the worker are steps of the system. *)
Lemma worker_steps c s0 σ n x' :
  all_good s0 → follows [] s0 → tcp_follows [] s0 → system_inv c s0 σ →
  nsteps (λ a b, worker_step handle drain a = Some b) n (sx σ) x' →
  system_inv c s0 (mkSystem (reg σ) (outbox σ) (tbl σ) (tcp_outbox σ) x').
Proof.
  intros Hg0 Hf0 Ht0 Hinv Hrun. remember (sx σ) as x eqn:Hx. revert σ Hx Hinv.
  induction Hrun as [x|n x y z Hst _ IH]; intros σ -> Hinv; [by destruct σ|].
  apply (IH (mkSystem (reg σ) (outbox σ) (tbl σ) (tcp_outbox σ) y)); [done|].
  apply (system_inv_step c s0 σ _ Hg0 Hf0 Ht0); [|done]. destruct σ. by apply st_worker.
Qed.

Lemma worker_run r out t tout n x x' :
  nsteps (λ a b, worker_step handle drain a = Some b) n x x' →
  rtc step (mkSystem r out t tout x) (mkSystem r out t tout x').
Proof. induction 1 as [|n x y z Hst _ IH]; [done|]. eapply rtc_l; [by apply st_worker|exact IH]. Qed.

(** The table's updates can always be handed over, one each time the worker
    rests. *)
Lemma tcp_handed_over c s0 σ :
  all_good s0 → follows [] s0 → tcp_follows [] s0 → system_inv c s0 σ →
  ∃ x', rtc step σ (mkSystem (reg σ) (outbox σ) (tbl σ) [] x').
Proof.
  intros Hg0 Hf0 Ht0. remember (tcp_outbox σ) as tout eqn:Hto. revert σ Hto.
  induction tout as [|u tout IH]; intros [r out t tout' x] Hto Hinv; cbn in Hto; subst tout'; [by eexists|].
  destruct (worker_rests handle drain s0 x (si_worker _ _ _ Hinv)) as (n & y & Hn & Hrest).
  pose proof (worker_steps c s0 _ n y Hg0 Hf0 Ht0 Hinv Hn) as Hinv1. cbn in Hinv1.
  pose proof (worker_run r out t (u :: tout) n x y Hn) as Hrun1.
  assert (unqueued (ItemTCP u) y) as Hun
    by exact (rest_unqueued handle drain s0 _ y (si_worker _ _ _ Hinv1) Hrest (si_alive _ _ _ Hinv1)).
  destruct (IH (mkSystem r out t tout (UpdateRoute (ItemTCP u) y))) as [x' Hx']; [done| |].
  { by apply (system_inv_step c s0 _ _ Hg0 Hf0 Ht0 (st_tcp r out t u tout y Hun)). }
  exists x'. etrans; [exact Hrun1|]. eapply rtc_l; [by apply st_tcp|exact Hx'].
Qed.

(** At rest, with everything handed over. *)
Lemma rest_serves c s0 σ n x' :
  all_good s0 → follows [] s0 → tcp_follows [] s0 → system_inv c s0 σ → outbox σ = [] → tcp_outbox σ = [] →
  nsteps (λ a b, worker_step handle drain a = Some b) n (sx σ) x' → worker_step handle drain x' = None →
  n ≤ 4 * length (q_items (q (sx σ))) + 4 ∧ wk x' = Idle ∧ handled (trace x') = added (sx σ) ∧
  ((added (sx σ) = [] ∧ sent (reg σ) = [] ∧ routes (reg σ) = ∅ ∧ entries (tbl σ) = ∅) ∨
   ∃ w, last (written x') = Some w ∧ config_tcp (entries (tbl σ)) w ∧
     (exhausted s0 (trace x') ∨ config_serves (routes (reg σ)) w)).
Proof.
  intros Hg0 Hf0 Ht0 Hinv Hout Htout Hrun Hrest.
  pose proof (worker_steps c s0 σ n x' Hg0 Hf0 Ht0 Hinv Hrun) as Hinv'.
  destruct (worker_alone handle drain s0 (sx σ) n x' (si_worker _ _ _ Hinv) Hrun) as (_ & Hadd & Hn).
  split; [unfold work_left in Hn; destruct (wk (sx σ)), (wk x'); lia|].
  pose proof (added_good c s0 _ Hinv') as HF. destruct Hinv' as [Hr Htb HL HT Hsys Hsd Hc]. cbn in *.
  rewrite Hout, app_nil_r in HL. rewrite Htout, app_nil_r in HT.
  destruct (worker_at_rest handle drain s0 x' Hsys Hrest Hc) as (Hw & Hh & Hlast).
  split; [destruct Hw as [?|Hst]; [done|]; destruct Hsys as (_ & _ & _ & Hs); destruct (Hs Hst); congruence|].
  split; [congruence|].
  pose proof Hsys as (_ & Hrep & _).
  destruct (trace_good s0 (trace x') _ _ _ Hg0 Hf0 Ht0 Hh HF Hrep) as (Hg & Hf & Ht & Hd).
  destruct (registry_table c (reg σ) Hr) as [Htab Hdom]. unfold sent in Htab, Hdom |- *. rewrite HL in Htab, Hdom |- *.
  destruct Hlast as [Hnil|Hlast].
  - left. split; [congruence|]. rewrite Hnil in *. split; [done|]. split; [|by apply silent_table].
    apply map_empty. intros p. apply eq_None_not_Some. intros (m & Hm)%Hdom. by apply elem_of_empty in Hm.
  - right. destruct (Hd Hlast) as (w & r1 & Hw1 & Hsh & Hg1 & Habs). exists w. split; [done|]. split.
    + apply (shows_tcp _ (replay_tcp (tcp_event_of <$> tcps (added x'))) r1); [done| |done|].
      * intros port m. unfold pooled. rewrite Habs. apply Ht.
      * intros y. destruct (table_run tc _ Htb) as (Hreach & _).
        rewrite <-(ti_view _ (tbl_reach_inv tc _ Hreach)). unfold table_sent. by rewrite HT.
    + destruct Hf as [?|[HT' Hp]]; [by left|right].
      apply (shows_serves _ (table (event_of <$> https (added x'))) r1); try done; [apply Hg1|].
      split; [done|]. intros n' m. unfold pooled. rewrite Habs. apply Hp.
Qed.
End composed.

(** ** The start *)
Section starts.
Context `{!MapOrder string}.
Variable U : string → Prop.

(** The router at the start: constructed for a range of IPv4 addresses, with
    the records that were found on the BIG-IP ([dg]), in a controller without
    the service broker.  No record is named like one of the two routing
    virtual servers or like the object of a TCP route. *)
Definition started (c : Config) (dg : result (option InternalDataGroup)) (s0 : F5Router) : Prop :=
  ∃ w r l broker us, NewF5Router (Some c) (Some w) = Ok r ∧ v4_range (Tier2IPRange (BigIP (rc r))) ∧
    BrokerMode (rc r) = false ∧ startup l dg broker r = Ok (s0, us) ∧
    ∀ n, is_Some (internalDataGroup s0 !! n) → virtualResources s0 !! n = None ∧ ¬ tcp_name (rc s0) n.

Lemma started_state c dg s0 :
  started c dg s0 →
  ∃ w r t g, NewF5Router (Some c) (Some w) = Ok r ∧ s0 = set_tier2 t g r ∧ alloc_live t g ∧
    ∀ n, is_Some (g !! n) → virtualResources r !! n = None ∧ ¬ tcp_name (rc r) n.
Proof.
  intros (w & r & l & broker & us & Hn & Hv & Hb & Hs & Hdis). exists w, r.
  pose proof (NewF5Router_fields c w r Hn) as (_ & _ & _ & _ & _ & _ & ip & net & Ht & Hr).
  apply validateTier2Range_v4 in Hr as [Hip Hnet]; [|done]. pose proof (live_empty ip net Hip Hnet) as Hl. rewrite <-Ht in Hl.
  unfold startup in Hs. apply rbind_Ok in Hs as (r1 & Hr1 & Hs).
  assert (∃ t g, r1 = set_tier2 t g r ∧ alloc_live t g) as (t & g & -> & Hal).
  { destruct dg as [[dg|]| |]; [|done| |done]; [|injection Hr1 as <-; eauto].
    apply rbind_Ok in Hr1 as ([t g] & Hc & [= <-]). exists t, g. split; [done|]. by eapply live_cached. }
  change (BrokerMode (rc (set_tier2 t g r))) with (BrokerMode (rc r)) in Hs. rewrite Hb in Hs. injection Hs as <- _.
  exists t, g. split_and!; [done|done|done|]. exact Hdis.
Qed.

Lemma new_router_names c w r k : NewF5Router (Some c) (Some w) = Ok r → virtualResources r !! ("cf-" +:+ k) = None.
Proof.
  unfold NewF5Router. intros ([[c' ip] net] & _ & Hn)%rbind_Ok. apply rbind_Ok in Hn as (_ & _ & Hn).
  case_bool_decide; [by injection Hn as <-|]. apply rbind_Ok in Hn as (r1 & Hr1 & [= <-]). cbn.
  unfold createHTTPVirtuals in Hr1. apply rbind_Ok in Hr1 as (p & _ & Hr1). apply rbind_Ok in Hr1 as (ip' & _ & Hr1).
  apply rbind_Ok in Hr1 as (d & _ & Hr1).
  assert (∀ b f, virtualResources (when b (initiRule JsessionidIRuleName f) (emptyRouter c' ip net)) = ∅) as Hem by by intros [] f.
  destruct (nonempty _); [apply rbind_Ok in Hr1 as (d' & _ & Hr1)|]; injection Hr1 as <-; cbn;
    rewrite ?Hem, !lookup_insert_ne by done; done.
Qed.

Lemma new_router_rules c w r : NewF5Router (Some c) (Some w) = Ok r → r_rules r = ∅ ∧ r_wildcards r = ∅.
Proof.
  unfold NewF5Router. intros ([[c' ip] net] & _ & Hn)%rbind_Ok. apply rbind_Ok in Hn as (_ & _ & Hn).
  case_bool_decide; [by injection Hn as <-|]. apply rbind_Ok in Hn as (r1 & Hr1 & [= <-]). cbn.
  apply createHTTPVirtuals_frame in Hr1 as [_ (vs & irs & ->)]; [done|]. by intros ???.
Qed.

(** The external address has been checked. *)
Lemma new_router_external c w r :
  NewF5Router (Some c) (Some w) = Ok r → is_Some (ParseIP (ExternalAddr (BigIP (rc r)))).
Proof.
  unfold NewF5Router. intros ([[c' ip] net] & Hc & Hn)%rbind_Ok. apply rbind_Ok in Hn as (_ & _ & Hn).
  assert (is_Some (ParseIP (ExternalAddr (BigIP c')))) as Hext.
  { unfold validateConfig in Hc. destruct (_ || _) in Hc; [done|]. apply rbind_Ok in Hc as (p & _ & Hc).
    apply rbind_Ok in Hc as (d & Hd & Hc). apply rbind_Ok in Hc as ([ip' net'] & _ & [= <- _ _]). cbn.
    unfold verifyDestAddress in Hd. destruct (splitIPWithRouteDomain _). cbn in Hd.
    by destruct (ParseIP (ExternalAddr (BigIP c))). }
  case_bool_decide; [by injection Hn as <-|]. apply rbind_Ok in Hn as (r1 & Hr1 & [= <-]). cbn.
  apply createHTTPVirtuals_frame in Hr1 as [_ (vs & irs & ->)]; [done|]. by intros ???.
Qed.

Lemma started_good c dg s0 :
  started c dg s0 →
  is_Some (ParseIP (ExternalAddr (BigIP (rc s0)))) ∧ all_good U (rc s0) s0 ∧ follows U (rc s0) [] s0 ∧ tcp_follows (rc s0) [] s0.
Proof.
  intros (w & r & t & g & Hn & -> & Hal & Hdis)%started_state.
  pose proof (NewF5Router_fields c w r Hn) as (Hnam & Hp & Hpo & _ & _ & Habs & _).
  destruct (new_router_rules c w r Hn) as [Hr Hw].
  assert (RouterFacts.abs (set_tier2 t g r) = ∅) as Habs' by done.
  assert (∀ n m, ¬ pooled (set_tier2 t g r) n m) as Hnone by (intros n m (? & E & _); by rewrite Habs' in E).
  split; [exact (new_router_external c w r Hn)|]. split; [split|split].
  - constructor; rewrite ?Habs'; cbn; rewrite ?Hr, ?Hw; [|apply map_Forall_empty..| |].
    + constructor; try done; [by eapply pools_ok_ext; [..|exact Hpo]|].
      intros n v va p Hv (rec & Hrec & _). cbn in *. destruct (Hdis n (mk_is_Some _ _ Hrec)) as [E _]. by rewrite E in Hv.
    + intros u n _ (k & ->)%makeObjectName_prefix. by rewrite (new_router_names c w r k Hn), lookup_empty.
    + intros u n _ _. unfold rule_at. cbn. rewrite Hr, Hw. case_match; by rewrite !lookup_empty.
  - assert (∀ port, virtualResources r !! createTCPObjectName (rc r) port = None) as Hv.
    { intros port. apply (new_router_names c w r ("tcp-route-" +:+ _) Hn). }
    constructor; [done|..]; intros port; change (rc (set_tier2 t g r)) with (rc r).
    + cbn. apply eq_None_not_Some. intros [_ Ht]%Hdis. apply Ht. by exists port.
    + rewrite Habs', lookup_empty. cbn. by rewrite Hv.
    + cbn. by rewrite Hv.
  - split; [set_solver|]. intros n m _. split; [by intros ?%Hnone|by intros (? & ?%elem_of_empty & _)].
  - intros port m. split; [by intros ?%Hnone|by intros (? & ?%elem_of_empty & _)].
Qed.
End starts.

Lemma system_reachable `{!VisitOrder} `{!MapOrder string} `{!MapOrder RoutingKey} `{!MapOrder BackendServerKey}
  (U : string → Prop) c dg s0 σ :
  (∀ u, U u → servable u) →
  (∀ u1 u2 n, U u1 → U u2 → named u1 n → named u2 n → u1 = u2) →
  (∀ u n, U u → named u n → ¬ tcp_name (rc s0) n) →
  started c dg s0 → rtc (step U) (init c s0) σ → system_inv U (rc s0) c s0 σ.
Proof.
  intros HU HN HC Hst. destruct (started_good U c dg s0 Hst) as (He & Hg0 & Hf0 & Ht0). revert σ.
  apply rtc_preserves; [|by apply system_inv_init]. intros a b. by apply system_inv_step.
Qed.

(** The worker is never stuck but at rest, comes there, and then the
    configuration written last says what registry and table hold. *)
Lemma system_rests `{!VisitOrder} `{!MapOrder string} `{!MapOrder RoutingKey} `{!MapOrder BackendServerKey}
  (U : string → Prop) c dg s0 σ :
  (∀ u, U u → servable u) →
  (∀ u1 u2 n, U u1 → U u2 → named u1 n → named u2 n → u1 = u2) →
  (∀ u n, U u → named u n → ¬ tcp_name (rc s0) n) →
  started c dg s0 → rtc (step U) (init c s0) σ → outbox σ = [] → tcp_outbox σ = [] →
  ∃ n x', nsteps (λ a b, worker_step handle drain a = Some b) n (sx σ) x' ∧ worker_step handle drain x' = None ∧
    n ≤ 4 * length (q_items (q (sx σ))) + 4 ∧ wk x' = Idle ∧
    ((sent (reg σ) = [] ∧ routes (reg σ) = ∅ ∧ entries (tbl σ) = ∅) ∨
     ∃ w, last (written x') = Some w ∧ config_tcp (rc s0) (entries (tbl σ)) w ∧
       (exhausted s0 (trace x') ∨ config_serves U (rc s0) (routes (reg σ)) w)).
Proof.
  intros HU HN HC Hst Hrun Hout Htout. destruct (started_good U c dg s0 Hst) as (He & Hg0 & Hf0 & Ht0).
  pose proof (system_reachable U c dg s0 σ HU HN HC Hst Hrun) as Hinv.
  destruct (worker_rests handle drain s0 (sx σ) (si_worker _ _ _ _ _ Hinv)) as (n & x' & Hn & Hr).
  exists n, x'. split; [done|]. split; [done|].
  destruct (rest_serves U (rc s0) HU HN HC He c s0 σ n x' Hg0 Hf0 Ht0 Hinv Hout Htout Hn Hr) as (H1 & H2 & _ & H3).
  split_and!; [done|done|]. destruct H3 as [(_ & ?)|?]; [by left|by right].
Qed.

(** In every reachable state the updates of the table can be handed over. *)
Lemma system_hands_over `{!VisitOrder} `{!MapOrder string} `{!MapOrder RoutingKey} `{!MapOrder BackendServerKey}
  (U : string → Prop) c dg s0 σ :
  (∀ u, U u → servable u) →
  (∀ u1 u2 n, U u1 → U u2 → named u1 n → named u2 n → u1 = u2) →
  (∀ u n, U u → named u n → ¬ tcp_name (rc s0) n) →
  started c dg s0 → rtc (step U) (init c s0) σ →
  ∃ x', rtc (step U) σ (mkSystem (reg σ) (outbox σ) (tbl σ) [] x').
Proof.
  intros HU HN HC Hst Hrun. destruct (started_good U c dg s0 Hst) as (He & Hg0 & Hf0 & Ht0).
  apply (tcp_handed_over U (rc s0) HU HN HC He c s0 σ Hg0 Hf0 Ht0). by apply (system_reachable U c dg).
Qed.

(** The router of the examples, at its start. *)
Lemma demo_started : started demo_config (Err "none") demo_router.
Proof.
  exists (λ _, Ok tt), demo_router, 0, (Err "none"), []. split; [exact demo_router_new|]. split; [exact demo_v4|].
  split; [vm_compute; reflexivity|]. split; [reflexivity|]. by intros n [? ?].
Qed.

(** C4. The handlers for TCP routes refine the abstract table of members.  In
    a router whose TCP objects are in order, an update of the table is
    processed without error; the member joins or leaves the pool of its port,
    the pool and the virtual server that listens on the port appear with the
    first member and go with the last; pools and virtual servers of other
    names and the rules stay as they were, and no tier-2 record appears. *)
Theorem tcp_route_refines c op port b r :
  is_Some (ParseIP (ExternalAddr (BigIP c))) → router_inv alloc_live r → tcp_good c r → op = Add ∨ op = Remove →
  let n := createTCPObjectName c port in
  ∃ r', handle (ItemTCP (NewTCPUpdate c op port (backend_member b))) r = Ok r' ∧ router_inv alloc_live r' ∧ tcp_good c r' ∧
    RouterFacts.abs r' = (if bool_decide (op = Add) then spec_add else spec_remove) n (backend_member b) (RouterFacts.abs r) ∧
    elsewhere n r r' ∧ r_rules r' = r_rules r ∧ r_wildcards r' = r_wildcards r.
Proof.
  intros He Hinv Hg Hop n. destruct Hop as [-> | ->].
  - by destruct (tcp_add_ok c He port (backend_member b) r Hinv Hg) as (r' & E & Hout); [|exists r'].
  - by destruct (tcp_remove_ok c He port (backend_member b) r Hinv Hg) as (r' & E & Hout); exists r'.
Qed.

Lemma tcp_route_refines_witness :
  ∃ r', handle (ItemTCP (NewTCPUpdate (rc demo_router) Add 6000 (backend_member (mkBackendKey "10.0.0.9" 61000)))) demo_router = Ok r' ∧
    RouterFacts.abs r' !! createTCPObjectName (rc demo_router) 6000 = Some {[ mkMember "10.0.0.9" 61000 "user-enabled" ]}.
Proof.
  destruct (started_good (λ _, False) demo_config (Err "none") demo_router demo_started) as (He & [Hg Htg] & _).
  destruct (tcp_route_refines (rc demo_router) Add 6000 (mkBackendKey "10.0.0.9" 61000) demo_router He (rg_inv _ _ Hg) Htg (or_introl eq_refl))
    as (r' & E & _ & _ & Habs & _).
  exists r'. split; [exact E|]. rewrite Habs. unfold spec_add. rewrite bool_decide_eq_true_2 by done.
  rewrite lookup_insert_eq. f_equal.
Defined.

(** ** Updates that are equal values *)

(** A backend that appears, goes and comes back: the updates of the table. *)
Lemma flap_updates `{!MapOrder RoutingKey} `{!MapOrder BackendServerKey} tc port b now1 now2 now3 i1 i2 i3 t :
  rtc table_op (NewRoutingTable tc true) t →
  info_key i1 = b → info_key i2 = b → info_key i3 = b →
  deleteSucceededBy (info_details now1 i1) (info_details now2 i2) = true → BackendExists (mkRoutingKey port) b t = false →
  let a := NewTCPUpdate tc Add port (backend_member b) in
  let d := NewTCPUpdate tc Remove port (backend_member b) in
  let t1 := (UpsertBackendServerKey now1 (mkRoutingKey port) i1 t).1 in
  let t2 := (DeleteBackendServerKey now2 (mkRoutingKey port) i2 t1).1 in
  let t3 := (UpsertBackendServerKey now3 (mkRoutingKey port) i3 t2).1 in
  ∃ us, rt_listener t = Some us ∧ rt_listener t1 = Some (us ++ [a]) ∧ rt_listener t2 = Some ((us ++ [a]) ++ [d]) ∧
    rt_listener t3 = Some (us ++ [a; d; a]) ∧ ¬ in_table (entries t2) (port, b) ∧ in_table (entries t3) (port, b).
Proof.
  intros Ht Hi1 Hi2 Hi3 Hdel Hb a d t1 t2 t3. destruct (table_run tc t Ht) as (_ & Hc & us & Hus & _).
  exists us. split; [done|]. rewrite <-Hi1 in Hb.
  destruct (upsert_new now1 (mkRoutingKey port) i1 t us Hb Hus) as (E1 & C1 & L1). fold t1 in E1, C1, L1.
  rewrite Hc, Hi1 in L1. fold a in L1.
  assert (deletable now2 (mkRoutingKey port) i2 (entries t1) = true) as Hd.
  { unfold deletable. by rewrite Hi2, <-Hi1, E1. }
  destruct (delete_known now2 (mkRoutingKey port) i2 t1 _ Hd L1) as (B2 & C2 & L2). fold t2 in B2, C2, L2.
  rewrite C1, Hc, Hi2 in L2. fold d in L2. rewrite Hi2 in B2. pose proof B2 as B2'. rewrite <-Hi3 in B2.
  destruct (upsert_new now3 (mkRoutingKey port) i3 t2 _ B2 L2) as (E3 & _ & L3). fold t3 in E3, L3.
  rewrite C2, C1, Hc, Hi3 in L3. fold a in L3. rewrite <-!app_assoc in L3. rewrite Hi3 in E3.
  split_and!; [done|done|done| |].
  - intros [y Hy]. cbn in Hy. unfold BackendExists in B2'. destruct (entries t2 !! mkRoutingKey port); [|done].
    cbn in Hy. by rewrite Hy in B2'.
  - unfold in_table. cbn. by rewrite E3.
Qed.

(** An update that was just handed over waits in the queue. *)
Lemma unqueued_after `{!MapOrder string} s0 (x : router_sys) i j :
  sys_inv handle drain s0 x → shuttingDown (q x) = false → wk x ≠ Crashed → i ≠ j →
  unqueued i x → unqueued j x → unqueued j (UpdateRoute i x).
Proof.
  intros Hinv Hs Hc Hne Hi Hj. unfold unqueued in *. unfold UpdateRoute, in_hand in *. cbn.
  rewrite (Add_new handle drain s0) by done. cbn. set_solver.
Qed.

Lemma waiting_after (x : router_sys) i j :
  shuttingDown (q x) = false → i ∈ dirty (q (UpdateRoute j (UpdateRoute i x))).
Proof.
  intros Hs. unfold UpdateRoute. cbn.
  assert (i ∈ dirty (q_Add i (q x))) as Hi by (unfold q_Add; rewrite Hs; repeat case_decide; cbn; set_solver).
  unfold q_Add at 1. repeat case_match; cbn; set_solver.
Qed.

(** C40. A lost update.  Take any state of the composed controller with nothing
    left to hand over, and a TCP backend that is not in the table and of
    which no update is queued or in hand.  Let the backend be added, removed
    and added again, and its three updates be handed over before the worker
    takes the next item.  The third update is equal to the first and the queue
    drops it: the table holds the backend, but the worker comes to rest with
    the removal as the last update handled, and the configuration it has
    written last lists the backend in no pool of its port. *)
Theorem tcp_update_lost `{!VisitOrder} `{!MapOrder string} `{!MapOrder RoutingKey} `{!MapOrder BackendServerKey}
  (U : string → Prop) c dg s0 σ port b now1 now2 now3 i1 i2 i3 :
  (∀ u, U u → servable u) →
  (∀ u1 u2 n, U u1 → U u2 → named u1 n → named u2 n → u1 = u2) →
  (∀ u n, U u → named u n → ¬ tcp_name (rc s0) n) →
  started c dg s0 → rtc (step U) (init c s0) σ → outbox σ = [] → tcp_outbox σ = [] →
  info_key i1 = b → info_key i2 = b → info_key i3 = b →
  deleteSucceededBy (info_details now1 i1) (info_details now2 i2) = true →
  BackendExists (mkRoutingKey port) b (tbl σ) = false →
  let a := NewTCPUpdate (rc s0) Add port (backend_member b) in
  let d := NewTCPUpdate (rc s0) Remove port (backend_member b) in
  unqueued (ItemTCP a) (sx σ) → unqueued (ItemTCP d) (sx σ) →
  let t1 := (UpsertBackendServerKey now1 (mkRoutingKey port) i1 (tbl σ)).1 in
  let t2 := (DeleteBackendServerKey now2 (mkRoutingKey port) i2 t1).1 in
  let t3 := (UpsertBackendServerKey now3 (mkRoutingKey port) i3 t2).1 in
  let x := foldl (λ x u, UpdateRoute (ItemTCP u) x) (sx σ) (tcp_since (tbl σ) t3) in
  tcp_since (tbl σ) t3 = [a; d; a] ∧ in_table (entries t3) (port, b) ∧
  ∃ n x' w part res,
    nsteps (λ a b, worker_step handle drain a = Some b) n x x' ∧ worker_step handle drain x' = None ∧ wk x' = Idle ∧
    handled (trace x') = added (sx σ) ++ [ItemTCP a; ItemTCP d] ∧
    last (written x') = Some w ∧ s_resources w = Some (part, res) ∧
    ∀ pl, pl ∈ Pools res → bigipResources.Name pl = createTCPObjectName (rc s0) port → backend_member b ∉ Members pl.
Proof.
  intros HU HN HC Hst Hrun Hout Htout Hi1 Hi2 Hi3 Hdel Hb a d Hua Hud t1 t2 t3.
  destruct (started_good U c dg s0 Hst) as (He & Hg0 & Hf0 & Ht0).
  pose proof (system_reachable U c dg s0 σ HU HN HC Hst Hrun) as Hinv.
  destruct (flap_updates (rc s0) port b now1 now2 now3 i1 i2 i3 (tbl σ)) as (us & L0 & L1 & L2 & L3 & Hno & Hin);
    [exact (si_table _ _ _ _ _ Hinv)|done..|]. fold t1 t2 t3 a d in L1, L2, L3, Hno, Hin.
  assert (tcp_since (tbl σ) t3 = [a; d; a]) as Hsince
    by (unfold tcp_since; rewrite L0, L3; cbn; by rewrite drop_app_length).
  split; [done|]. split; [done|]. rewrite Hsince. cbn [foldl].
  destruct σ as [r out t tout x]. cbn in *. subst out tout.
  assert (rtc (step U) (init c s0) (mkSystem r [] t2 [] (UpdateRoute (ItemTCP d) (UpdateRoute (ItemTCP a) x)))) as Hrun2.
  { pose proof (st_table U r [] t t1 x (to_upsert now1 (mkRoutingKey port) i1 t)) as S1.
    pose proof (st_table U r [] t1 t2 (UpdateRoute (ItemTCP a) x) (to_delete now2 (mkRoutingKey port) i2 t1)) as S2.
    unfold tcp_since in S1, S2. rewrite L0, L1 in S1. rewrite L1, L2 in S2. cbn in S1, S2. rewrite drop_app_length in S1, S2.
    etrans; [exact Hrun|]. eapply rtc_l; [exact S1|]. eapply rtc_l; [by apply st_tcp|]. eapply rtc_l; [exact S2|].
    apply rtc_once, st_tcp. destruct Hinv. apply (unqueued_after s0); try done. }
  set (x2 := UpdateRoute (ItemTCP d) (UpdateRoute (ItemTCP a) x)) in *.
  pose proof (system_reachable U c dg s0 _ HU HN HC Hst Hrun2) as Hinv2.
  assert (added x2 = added x ++ [ItemTCP a; ItemTCP d]) as Hadd.
  { pose proof (si_running _ _ _ _ _ Hinv) as Hs. cbn in Hs.
    unfold x2, UpdateRoute. cbn. rewrite running_Add, Hs by done. by rewrite <-app_assoc. }
  destruct (worker_rests handle drain s0 x2 (si_worker _ _ _ _ _ Hinv2)) as (n & x' & Hn & Hrest).
  destruct (rest_serves U (rc s0) HU HN HC He c s0 _ n x' Hg0 Hf0 Ht0 Hinv2 eq_refl eq_refl Hn Hrest)
    as (_ & Hidle & Hh & [(Hnil & _)|(w & Hw & [[[part res] Hres] Hm _] & _)]).
  { change (added x2 = []) in Hnil. rewrite Hadd in Hnil. by destruct (added x). }
  rewrite (UpdateRoute_dropped (ItemTCP a) x2); [|exact (waiting_after _ _ _ (si_running _ _ _ _ _ Hinv))|exact (si_running _ _ _ _ _ Hinv2)].
  exists n, (with_added (added x2 ++ [ItemTCP a]) x'), w, part, res.
  split; [by apply worker_alone_added|]. split; [by rewrite worker_step_added, Hrest|].
  split_and!; [done|by rewrite <-Hadd|done|done|]. intros pl Hpl Hname Hmem.
  destruct (proj1 (Hm part res Hres port (backend_member b))) as (b' & Hb' & E); [by exists pl|].
  apply Hno. destruct b, b'. unfold backend_member in E. by simplify_eq/=.
Qed.

(** At the start of the demo router. *)
Lemma tcp_update_lost_witness :
  let info tag := mkInfo "10.0.0.9" 61000 (mkTag "g" tag) 60 in
  let key := mkRoutingKey 6000 in
  let t1 := (UpsertBackendServerKey 0 key (info 1%Z) (NewRoutingTable (rc demo_router) true)).1 in
  let t2 := (DeleteBackendServerKey 1 key (info 2%Z) t1).1 in
  let t3 := (UpsertBackendServerKey 2 key (info 3%Z) t2).1 in
  ∃ n x' w part res,
    nsteps (λ a b, worker_step handle drain a = Some b) n
      (foldl (λ x u, UpdateRoute (ItemTCP u) x) (start demo_router) (tcp_since (NewRoutingTable (rc demo_router) true) t3)) x' ∧
    worker_step handle drain x' = None ∧ last (written x') = Some w ∧ s_resources w = Some (part, res) ∧
    in_table (entries t3) (6000%Z, mkBackendKey "10.0.0.9" 61000) ∧
    ∀ pl, pl ∈ Pools res → bigipResources.Name pl = createTCPObjectName (rc demo_router) 6000 →
      mkMember "10.0.0.9" 61000 "user-enabled" ∉ Members pl.
Proof.
  intros info key t1 t2 t3.
  destruct (tcp_update_lost (λ _, False) demo_config (Err "none") demo_router (init demo_config demo_router) 6000
    (mkBackendKey "10.0.0.9" 61000) 0 1 2 (info 1%Z) (info 2%Z) (info 3%Z))
    as (_ & Hin & n & x' & w & part & res & H1 & H2 & _ & _ & H3 & H4 & H5).
  - by intros u [].
  - by intros u1 u2 n [].
  - by intros u n [].
  - exact demo_started.
  - apply rtc_refl.
  - reflexivity.
  - reflexivity.
  - reflexivity.
  - reflexivity.
  - reflexivity.
  - vm_compute. reflexivity.
  - reflexivity.
  - by intros ?%elem_of_nil.
  - by intros ?%elem_of_nil.
  - exists n, x', w, part, res. split; [exact H1|]. split; [exact H2|]. split; [exact H3|]. split; [exact H4|].
    split; [exact Hin|exact H5].
Defined.
