(* ===== verification/Messages.v ===== *)
(** The controller driven by messages: [mbus/subscriber.go] in front of the
    registry, the TCP routing table, the work queue and the router ([System]).

    The callback of [subscribeRoutes] decodes a message and calls the registry
    once per URI, so the worker of the router, the pruning cycles and the
    route fetchers can run between two of these calls.  [job] is what is left of the
    callback; running a job to its end is [subscribeRoutes] ([job_runs]), and
    every step of the composed system is a step of [System.step]
    ([front_step_system]). *)
From Stdlib Require Import Ascii ZArith Lia.
From stdpp Require Import sorting countable base list gmap strings relations.
From S2P Require Import Prelude GoStrings GoNet Uri Trie Pool Config Resources Codec Updates Registry RoutingTable Fetcher Subscriber Tier2 Alloc Policy F5Router RouterFacts RouterRun WorkQueue Announce Serving TcpRoutes System.
Import bigipResources routeUpdate.
Local Open Scope nat_scope.

(** ** The callback, call by call *)
Inductive job := Registering (ep : Endpoint) (uris : list Uri) | Unregistering (ep : Endpoint) (uris : list Uri).

(** What the callback does with a message; [l] is the endpoint object that
    [makeEndpoint] allocates. *)
Definition job_of (guid subject data : string) (l : nat) : option job :=
  match createRegistryMessage data with
  | Ok msg =>
      if bool_decide (RouterGroupGuid msg = guid) then
        if bool_decide (subject = "router.register") then Some (Registering (makeEndpoint l msg) (Uris msg))
        else if bool_decide (subject = "router.unregister") then Some (Unregistering (makeEndpoint l msg) (Uris msg))
        else None
      else None
  | _ => None
  end.

Definition run_job (now : Z) (j : option job) (s : HTTPStore) : result HTTPStore :=
  match j with
  | None => Ok s
  | Some (Registering ep uris) => rbind (register_uris now ep uris (hs_registry s)) (λ g, Ok (mkHTTPStore g (S (hs_next s))))
  | Some (Unregistering ep uris) => rbind (unregister_uris ep uris (hs_registry s)) (λ g, Ok (mkHTTPStore g (S (hs_next s))))
  end.

Lemma createRegistryMessage_total data w : createRegistryMessage data ≠ Panic w.
Proof. unfold createRegistryMessage. repeat (case_match; simplify_eq/=; try done). Qed.

Lemma job_runs guid now subject data s :
  subscribeRoutes guid now subject data s = run_job now (job_of guid subject data (hs_next s)) s.
Proof.
  unfold subscribeRoutes, job_of. pose proof (createRegistryMessage_total data) as Ht.
  destruct (createRegistryMessage data) as [msg|e|w]; [|done|by destruct (Ht w)].
  unfold handleRouteRegister, handleRouteUnregsiter, registerWithRouterGroup, registerRoute,
    unregisterWithRouterGroup, unregisterRoute, registerEndpoint, unregisterEndpoint.
  repeat case_bool_decide; simplify_eq/=; try done; congruence.
Qed.

(** ** The composed system *)
Record front := mkFront { fr_job : option job; fr_next : nat; fr_sys : system }.

Section messages.
Context `{!VisitOrder} `{!MapOrder string} `{!MapOrder RoutingKey} `{!MapOrder BackendServerKey}.
Variable U : string → Prop.
Variable guid : string.

(** A message that is fit to be served: if it is well formed and for this
    router group, it names routes of [U] and an endpoint with a plain host.
    Any other text is fine too. *)
Definition fit_message (data : string) : Prop :=
  ∀ msg, createRegistryMessage data = Ok msg → RouterGroupGuid msg = guid →
    Forall (λ uri, announced U uri (makeEndpoint 0 msg)) (Uris msg) ∧ ep_valid (makeEndpoint 0 msg).

(** A step of the callback: a call of the registry, which holds its lock until
    the updates are handed over, or the return. *)
Inductive callback : front → front → Prop :=
| cb_register now ep uri uris l r r' t tout x :
    Register now uri ep r = Ok r' →
    callback (mkFront (Some (Registering ep (uri :: uris))) l (mkSystem r [] t tout x))
             (mkFront (Some (Registering ep uris)) l (mkSystem r' (sent_since r r') t tout x))
| cb_unregister ep uri uris l r r' t tout x :
    Unregister uri ep r = Ok r' →
    callback (mkFront (Some (Unregistering ep (uri :: uris))) l (mkSystem r [] t tout x))
             (mkFront (Some (Unregistering ep uris)) l (mkSystem r' (sent_since r r') t tout x))
| cb_deliver j l r u rest t tout x :
    callback (mkFront j l (mkSystem r (u :: rest) t tout x)) (mkFront j l (mkSystem r rest t tout (UpdateRoute (ItemHTTP u) x)))
| cb_return j l σ :
    (∃ ep, j = Registering ep [] ∨ j = Unregistering ep []) → callback (mkFront (Some j) l σ) (mkFront None l σ).

Inductive front_step : front → front → Prop :=
| fs_message subject data l σ :
    fit_message data → front_step (mkFront None l σ) (mkFront (job_of guid subject data l) (S l) σ)
| fs_callback f f' : callback f f' → front_step f f'
| fs_system j l σ σ' : step U σ σ' → front_step (mkFront j l σ) (mkFront j l σ').

(** What is left of a callback is fit as well. *)
Definition fit_job (j : job) : Prop :=
  match j with
  | Registering ep uris => Forall (λ uri, announced U uri ep) uris ∧ ep_valid ep
  | Unregistering ep uris => Forall (λ uri, announced U uri ep) uris
  end.

Lemma job_of_fit subject data l j : fit_message data → job_of guid subject data l = Some j → fit_job j.
Proof.
  intros Hf. unfold job_of. destruct (createRegistryMessage data) as [msg| |] eqn:E; try done.
  case_bool_decide as Hg; [|done]. destruct (Hf msg E Hg) as [HF Hv].
  repeat case_bool_decide; intros [= <-]; [split|]; try done; by eapply Forall_impl.
Qed.

Lemma callback_system f f' :
  callback f f' → (∀ j, fr_job f = Some j → fit_job j) →
  rtc (step U) (fr_sys f) (fr_sys f') ∧ (∀ j, fr_job f' = Some j → fit_job j).
Proof.
  intros Hst Hf. destruct Hst as [now ep uri uris l r r' t tout x E|ep uri uris l r r' t tout x E|j l r u rest t tout x|j l σ _]; cbn in *.
  - destruct (Hf _ eq_refl) as [[Hu HF]%Forall_cons Hv]. split; [|intros j [= <-]; by split].
    by apply rtc_once, st_registry, (op_register U now uri ep).
  - pose proof (Hf _ eq_refl) as [Hu HF]%Forall_cons. split; [|by intros j [= <-]].
    by apply rtc_once, st_registry, (op_unregister U uri ep).
  - split; [apply rtc_once, st_deliver|done].
  - by split.
Qed.

(** Every step of the composed system is one of [System.step], or none. *)
Lemma front_step_system f f' :
  front_step f f' → (∀ j, fr_job f = Some j → fit_job j) →
  rtc (step U) (fr_sys f) (fr_sys f') ∧ (∀ j, fr_job f' = Some j → fit_job j).
Proof.
  intros [subject data l σ Hm|? ? Hcb|j l σ σ' Hs] Hf; cbn.
  - split; [done|]. intros j. by apply job_of_fit.
  - by apply callback_system.
  - split; [by apply rtc_once|done].
Qed.

Definition front_inv (c : Config) (f : front) : Prop :=
  rtc (reg_op U) (NewRouteRegistry c true) (reg (fr_sys f)) ∧ ∀ j, fr_job f = Some j → fit_job j.

Lemma step_registry σ σ' : rtc (step U) σ σ' → rtc (reg_op U) (reg σ) (reg σ').
Proof.
  induction 1 as [σ|σ σ1 σ' Hst _ IH]; [done|]. etrans; [|exact IH]. destruct Hst; [by apply rtc_once|done..].
Qed.

Lemma front_inv_step c f f' : front_step f f' → front_inv c f → front_inv c f'.
Proof.
  intros Hst [Hr Hf]. destruct (front_step_system f f' Hst Hf) as [Hs Hf']. split; [|done].
  etrans; [exact Hr|by apply step_registry].
Qed.

Lemma front_run f f' :
  rtc front_step f f' → (∀ j, fr_job f = Some j → fit_job j) → rtc (step U) (fr_sys f) (fr_sys f').
Proof.
  induction 1 as [f|f f1 f' Hst _ IH]; intros Hf; [done|].
  destruct (front_step_system f f1 Hst Hf) as [H1 Hf1]. etrans; [done|by apply IH].
Qed.

Lemma front_of_system j l σ σ' : rtc (step U) σ σ' → rtc front_step (mkFront j l σ) (mkFront j l σ').
Proof. induction 1; [done|]. eapply rtc_l; [by apply fs_system|done]. Qed.

(** ** The callback returns *)
Definition quiet (f : front) : Prop := fr_job f = None ∧ outbox (fr_sys f) = [].

Lemma hand_over j l r out t tout x : ∃ x', rtc callback (mkFront j l (mkSystem r out t tout x)) (mkFront j l (mkSystem r [] t tout x')).
Proof.
  revert x. induction out as [|u out IH]; intros x; [by exists x|].
  destruct (IH (UpdateRoute (ItemHTTP u) x)) as [x' Hx]. exists x'. eapply rtc_l; [apply cb_deliver|done].
Qed.

(** With the updates handed over, the next call of the registry succeeds. *)
Lemma callback_progress c j l r t tout x :
  front_inv c (mkFront (Some j) l (mkSystem r [] t tout x)) →
  (∃ ep, j = Registering ep [] ∨ j = Unregistering ep []) ∨
  ∃ j' r', callback (mkFront (Some j) l (mkSystem r [] t tout x)) (mkFront (Some j') l (mkSystem r' (sent_since r r') t tout x)) ∧
    match j, j' with
    | Registering _ us, Registering _ us' | Unregistering _ us, Unregistering _ us' => length us = S (length us')
    | _, _ => False
    end.
Proof.
  intros [Hr Hf]. destruct (platform_reach U c r Hr) as ((Hok & _) & _). specialize (Hf j eq_refl).
  destruct j as [ep [|uri uris]|ep [|uri uris]]; [left; by exists ep; left| |left; by exists ep; right|]; right; cbn in Hf.
  - destruct Hf as [[(Hu & _) _]%Forall_cons Hv]. destruct (Register_spec 0 uri ep r Hok Hu Hv) as (r' & E & _).
    exists (Registering ep uris), r'. split; [by eapply cb_register|done].
  - apply Forall_cons in Hf as [(Hu & _) _]. destruct (Unregister_spec uri ep r Hok Hu) as (r' & E & _).
    exists (Unregistering ep uris), r'. split; [by eapply cb_unregister|done].
Qed.

Lemma callbacks_inv c f f' : rtc callback f f' → front_inv c f → front_inv c f'.
Proof. induction 1; [done|]. intros Hi. apply IHrtc. eapply front_inv_step; [by apply fs_callback|done]. Qed.

Lemma callback_returns c f : front_inv c f → ∃ f', rtc callback f f' ∧ quiet f'.
Proof.
  destruct f as [[j|] l [r out t tout x]]; intros Hinv; destruct (hand_over None l r out t tout x) as [x0 Hx0]; [|by eexists].
  clear Hx0 x0. remember (match j with Registering _ us | Unregistering _ us => length us end) as k eqn:Hk.
  revert j r out x Hk Hinv. induction k as [|k IH]; intros j r out x Hk Hinv;
    destruct (hand_over (Some j) l r out t tout x) as [x1 Hx1]; pose proof (callbacks_inv c _ _ Hx1 Hinv) as Hinv1;
    destruct (callback_progress c j l r t tout x1 Hinv1) as [Hend|(j' & r' & Hst & Hlen)].
  1, 3: eexists; split; [etrans; [exact Hx1|apply rtc_once; by apply cb_return]|done].
  - destruct j, j'; cbn in *; try done; lia.
  - destruct (IH j' r' (sent_since r r') x1) as (f' & Hf' & Hq).
    + destruct j, j'; cbn in *; try done; lia.
    + eapply front_inv_step; [by apply fs_callback|exact Hinv1].
    + exists f'. split; [|done]. etrans; [exact Hx1|]. by eapply rtc_l.
Qed.
End messages.

(** C1. The whole controller, under these conditions.  It was started on a
    range of IPv4 addresses, without the service broker, and no cached record
    has the name of a routing virtual server or of a TCP object ([started]).
    There is a set [U] of routes that can be served (a wildcard in the path, at
    which the router panics, is not one), with distinct object names that are
    no names of TCP objects.  Texts of any kind arrive as messages, but one
    that decodes to a message for this router group names only routes of [U]
    and an endpoint with a plain host ([fit_message]); the other callers of the
    registry respect the same.  The pruning cycles, those callers, the callers
    of the TCP routing table and the worker of the router run beside the
    callback in any interleaving, but that no update of a TCP route is handed
    over while an equal one is waiting or being processed ([tcp_update_lost]
    shows what happens then).  Then the callback of a message
    always returns, with its updates handed over, and those of the table can
    be handed over too.  Between messages, with nothing left to hand over, the
    worker, left alone, comes to rest within four steps per waiting update,
    without a crash; and then the configuration written last says exactly what
    registry and table hold: for each HTTP route a pool with its endpoints, a
    virtual server and a rule, for each TCP port with backends a pool with
    exactly these and the virtual server that listens on the port, and nothing
    for announced routes and for ports without backends.
    The exceptions: nothing was ever announced, or - for HTTP routes only - at
    some point a new route found the range of addresses exhausted. *)
Theorem controller_converges `{!VisitOrder} `{!MapOrder string} `{!MapOrder RoutingKey} `{!MapOrder BackendServerKey}
  (U : string → Prop) guid c dg s0 f :
  (∀ u, U u → servable u) →
  (∀ u1 u2 n, U u1 → U u2 → named u1 n → named u2 n → u1 = u2) →
  (∀ u n, U u → named u n → ¬ tcp_name (rc s0) n) →
  started c dg s0 → rtc (front_step U guid) (mkFront None 0 (init c s0)) f →
  (∃ f', rtc callback f f' ∧ quiet f') ∧
  (∃ f', rtc (front_step U guid) f f' ∧ fr_job f' = fr_job f ∧ tcp_outbox (fr_sys f') = []) ∧
  (quiet f → tcp_outbox (fr_sys f) = [] → ∃ n x',
    nsteps (λ a b, worker_step handle drain a = Some b) n (sx (fr_sys f)) x' ∧ worker_step handle drain x' = None ∧
    n ≤ 4 * length (q_items (q (sx (fr_sys f)))) + 4 ∧ wk x' = Idle ∧
    ((sent (reg (fr_sys f)) = [] ∧ routes (reg (fr_sys f)) = ∅ ∧ entries (tbl (fr_sys f)) = ∅) ∨
     ∃ w, last (written x') = Some w ∧ config_tcp (rc s0) (entries (tbl (fr_sys f))) w ∧
       (exhausted s0 (trace x') ∨ config_serves U (rc s0) (routes (reg (fr_sys f))) w))).
Proof.
  intros HU HN HC Hst Hrun. pose proof (front_run U guid _ _ Hrun) as Hsys. cbn in Hsys.
  specialize (Hsys ltac:(done)). split; [|split].
  - apply (callback_returns U guid c). revert f Hrun Hsys. intros f Hrun _. revert f Hrun.
    apply rtc_preserves; [intros a b; apply front_inv_step|]. by split; [apply rtc_refl|].
  - destruct (system_hands_over U c dg s0 _ HU HN HC Hst Hsys) as [x' Hx'].
    exists (mkFront (fr_job f) (fr_next f) (mkSystem (reg (fr_sys f)) (outbox (fr_sys f)) (tbl (fr_sys f)) [] x')).
    split; [|done]. apply (front_of_system U guid (fr_job f) (fr_next f)) in Hx'. by destruct f.
  - intros [_ Hout] Htout. by apply (system_rests U c dg).
Qed.

(** A run: a message announces a route, a backend is added to a TCP port,
    and the worker handles both. *)
Definition demo_reg : RouteRegistry :=
  from_Ok (NewRouteRegistry demo_config true)
    (Register 7 "foo.cf.com/a" (makeEndpoint 0 demo_message) (NewRouteRegistry demo_config true)).

Definition demo_out : list updateHTTP := sent_since (NewRouteRegistry demo_config true) demo_reg.

Definition demo_table : RoutingTable :=
  (UpsertBackendServerKey 7 (toRoutingTableEntry demo_mapping).1 (toRoutingTableEntry demo_mapping).2
     (NewRoutingTable (rc demo_router) true)).1.

Definition demo_tcp : list updateTCP := tcp_since (NewRoutingTable (rc demo_router) true) demo_table.

Definition demo_work : list workItem := (ItemHTTP <$> demo_out) ++ (ItemTCP <$> demo_tcp).

Definition demo_sys : router_sys := foldl (λ x i, UpdateRoute i x) (start demo_router) demo_work.

Definition demo_front : front := mkFront None 1 (mkSystem demo_reg [] demo_table [] demo_sys).

Definition demo_end : router_sys := drive handle drain (replicate 8 None) demo_sys.

Lemma demo_servable u : u = "foo.cf.com/a" → servable u.
Proof.
  intros ->. split; [vm_compute; lia|]. intros [l op uri ep name proto plan] Hu [e He]. cbn in *. subst.
  eexists. vm_compute. reflexivity.
Qed.

Lemma demo_fit : fit_message (λ u, u = "foo.cf.com/a") EmptyString demo_text.
Proof.
  intros msg E _. rewrite demo_decodes in E. injection E as <-. split; [|reflexivity].
  apply Forall_singleton. split; [exact demo_uri_good|]. split; [reflexivity|]. split; [discriminate|reflexivity].
Qed.

Lemma demo_disjoint u n : u = "foo.cf.com/a" → named u n → ¬ tcp_name (rc demo_router) n.
Proof.
  intros -> Hn [port ->].
  assert (match makeObjectName (Uri_String "foo.cf.com/a") with Ok s => HasPrefix s "cf-f" | _ => false end = true) as Hf
    by (vm_compute; reflexivity).
  unfold named in Hn. rewrite Hn in Hf. discriminate Hf.
Qed.

Lemma demo_run : rtc (front_step (λ u, u = "foo.cf.com/a") EmptyString) (mkFront None 0 (init demo_config demo_router)) demo_front.
Proof.
  assert (∃ u, demo_out = [u]) as [u Hu] by (eexists; vm_compute; reflexivity).
  assert (∃ v, demo_tcp = [v]) as [v Hv] by (eexists; vm_compute; reflexivity).
  eapply rtc_l; [apply (fs_message _ _ "router.register" demo_text), demo_fit|].
  replace (job_of EmptyString "router.register" demo_text 0)
    with (Some (Registering (makeEndpoint 0 demo_message) ["foo.cf.com/a"])) by (vm_compute; reflexivity).
  eapply rtc_l; [apply fs_callback, (cb_register 7 _ _ _ _ _ demo_reg); vm_compute; reflexivity|].
  change (sent_since (NewRouteRegistry demo_config true) demo_reg) with demo_out.
  unfold demo_front, demo_sys, demo_work. rewrite Hu.
  eapply rtc_l; [apply fs_callback, cb_deliver|].
  eapply rtc_l; [apply fs_callback, cb_return; by eexists; left|].
  eapply rtc_l; [apply fs_system, st_table, (to_upsert 7 (toRoutingTableEntry demo_mapping).1 (toRoutingTableEntry demo_mapping).2)|].
  change (tcp_since _ _) with demo_tcp. rewrite Hv.
  eapply rtc_l; [apply fs_system, st_tcp|apply rtc_refl]. cbn. by intros ?%list_elem_of_singleton.
Qed.

Lemma controller_converges_witness :
  wk demo_end = Idle ∧
  ∃ w, last (written demo_end) = Some w ∧ config_tcp (rc demo_router) (entries demo_table) w ∧
    config_serves (λ u, u = "foo.cf.com/a") (rc demo_router) (routes demo_reg) w.
Proof.
  assert (nsteps (λ a b, worker_step handle drain a = Some b) 8 demo_sys demo_end) as Hn.
  { apply alive_nsteps. vm_compute. reflexivity. }
  assert (worker_step handle drain demo_end = None) as Hrest by (vm_compute; reflexivity).
  destruct (controller_converges (λ u, u = "foo.cf.com/a") EmptyString demo_config (Err "none") demo_router demo_front)
    as (_ & _ & Hq).
  - exact demo_servable.
  - intros u1 u2 n Hu1 Hu2 _ _. by rewrite Hu1, Hu2.
  - exact demo_disjoint.
  - exact demo_started.
  - exact demo_run.
  - destruct Hq as (n & x' & Hn' & Hrest' & _ & Hw & Hcase); [split; reflexivity|reflexivity|].
    pose proof (worker_rest_unique handle drain _ _ _ _ _ Hn' Hn Hrest' Hrest) as ->.
    split; [exact Hw|]. destruct Hcase as [[Hs _]|(w & Hwr & Htcp & [Hex|Hserves])]; [exfalso|exfalso|exact (ex_intro _ w (conj Hwr (conj Htcp Hserves)))].
    + assert (length (sent demo_reg) = 1) as Hl by (vm_compute; reflexivity).
      change (reg (fr_sys demo_front)) with demo_reg in Hs. rewrite Hs in Hl. discriminate Hl.
    + destruct Hex as (tr1 & u & tr2 & r1 & ws1 & Htr & Hrep & _ & _ & [e He]).
      assert (∃ i v, trace demo_end = [EHandle i; EHandle (ItemTCP v); EDrain] ∧
        match i with
        | ItemHTTP v => match (assignAddress (tier2 demo_router) (internalDataGroup demo_router) (hu_name v)).2 with Err _ => true | _ => false end
        | _ => false end = false)
        as (i & v & Ht & Hi) by (eexists _, _; split; vm_compute; reflexivity).
      rewrite Ht in Htr. destruct tr1 as [|a [|b [|d tr1]]]; [|discriminate Htr|discriminate Htr|destruct tr1; discriminate Htr].
      injection Htr as Hui _. injection Hrep as Hr1 _. rewrite Hui in Hi. rewrite <-Hr1 in He. rewrite He in Hi. discriminate Hi.
Defined.
