(* ===== verification/ApiSync.v ===== *)
(** From the routing API to the configuration: the TCP side of
    [routefetcher/route_fetcher.go] and [tcp_fetcher.go] in front of the
    composed controller ([Messages]).

    A synchronisation is a run of operations of the routing table, so its
    calls are steps of the composed system ([tcp_fetch_run]); and what it
    announced is what the configuration serves. *)
From Stdlib Require Import Ascii ZArith Lia.
From stdpp Require Import sorting countable base list gmap strings relations.
From S2P Require Import Prelude GoStrings GoNet Uri Trie Pool Config Resources Codec Updates Registry RoutingTable Fetcher Subscriber Tier2 Alloc Policy F5Router RouterFacts RouterRun WorkQueue Announce Serving TcpRoutes System Messages.
Import bigipResources routeUpdate.
Local Open Scope nat_scope.

Section runs.
Context `{!MapOrder RoutingKey} `{!MapOrder BackendServerKey}.

Lemma remove_all_run now l t t' : remove_all now l t = Ok t' → rtc table_op t t'.
Proof.
  revert t. induction l as [|mp l IH]; intros t; [by intros [= ->]|]. intros (t1 & [= <-] & Hr)%rbind_Ok.
  eapply rtc_l; [by eapply to_delete|by apply IH].
Qed.

Lemma add_all_run now l t t' : add_all now l t = Ok t' → rtc table_op t t'.
Proof.
  revert t. induction l as [|mp l IH]; intros t; [by intros [= ->]|]. intros (t1 & [= <-] & Hr)%rbind_Ok.
  eapply rtc_l; [by eapply to_upsert|by apply IH].
Qed.

(** A synchronisation is a run of the table. *)
Lemma tcp_fetch_run now FetchToken Routes old new t t' :
  tcp_FetchRoutes now FetchToken Routes old t = Ok (new, t') → rtc table_op t t'.
Proof.
  unfold tcp_FetchRoutes, fetchRoutes, refresh. intros (valid & _ & Hf)%rbind_Ok. apply rbind_Ok in Hf as (t1 & Hr & [= _ <-]).
  apply rbind_Ok in Hr as (t2 & Hrem & Hadd). etrans; [by eapply remove_all_run|by eapply add_all_run].
Qed.

(** So is an event of the subscription. *)
Lemma tcp_event_run now e t t' : tcp_HandleEvent now e t = Ok t' → rtc table_op t t'.
Proof.
  unfold tcp_HandleEvent, tcp_add, tcp_remove. intros He. repeat case_match; simplify_eq/=; try done; apply rtc_once;
    [apply (to_upsert now)|apply (to_delete now)].
Qed.
End runs.

(** What a synchronisation that returns has achieved. *)
Lemma fetched_synced now FetchToken Routes old new t t' :
  tcp_FetchRoutes now FetchToken Routes old t = Ok (new, t') → NoDup (mapping_key <$> new) →
  synced (K := RoutingKey * BackendServerKey) routeEqualsTCP old new t t'.
Proof.
  intros Hf Hnd. pose proof Hf as (valid & Hv & Hr)%rbind_Ok. apply rbind_Ok in Hr as (? & _ & [= -> _]).
  destruct (fetchRoutes_spec routeEqualsTCP now FetchToken Routes new old t) as (t1 & E & _ & Hs);
    [done|apply routeEqualsTCP_key|done|by apply Forall_true|by apply Forall_true|done|].
  unfold tcp_FetchRoutes in Hf. rewrite Hf in E. by injection E as <-.
Qed.

(** Every announced backend is in the table. *)
Lemma fetched_in_table now FetchToken Routes old new t t' mp :
  tcp_FetchRoutes now FetchToken Routes old t = Ok (new, t') → NoDup (mapping_key <$> new) → mp ∈ new →
  in_table (entries t') (tm_ExternalPort mp, mkBackendKey (tm_HostIP mp) (tm_HostPort mp)).
Proof.
  intros Hf Hnd Hmp. pose proof (sy_announced _ _ _ _ _ (fetched_synced _ _ _ _ _ _ _ Hf Hnd)) as Hs.
  assert (is_Some (backend_tag (mapping_key mp) t')) as [tag Ht].
  { destruct (Hs mp Hmp) as [E|E]; exact (mk_is_Some _ _ E). }
  unfold backend_tag in Ht. apply fmap_Some in Ht as (d & Hd & _). unfold in_table. cbn in Hd |- *. rewrite Hd. by eexists.
Qed.

(** A backend that was in the table with a tag which none of the mappings of
    the last synchronisation may remove. *)
Definition kept_backend (old : list TcpRouteMapping) (t : RoutingTable) (k : RoutingKey * BackendServerKey) : Prop :=
  ∃ tag, backend_tag k t = Some tag ∧
    ∀ mp, mp ∈ old → mapping_key mp = k → tag_removable tag (tm_ModificationTag mp) = false.

(** And a backend in the table was there before, and not outdated, or has been
    announced. *)
Lemma in_table_from now FetchToken Routes old new t t' port b :
  tcp_FetchRoutes now FetchToken Routes old t = Ok (new, t') → NoDup (mapping_key <$> new) → in_table (entries t') (port, b) →
  kept_backend old t (mkRoutingKey port, b) ∨ ∃ mp, mp ∈ new ∧ mapping_key mp = (mkRoutingKey port, b).
Proof.
  intros Hf Hnd [d Hd]. destruct (fetched_synced _ _ _ _ _ _ _ Hf Hnd) as [_ _ Hold Hoth].
  set (k := (mkRoutingKey port, b)).
  destruct (decide (Exists (λ mp, mapping_key mp = k) new)) as [(mp & ? & ?)%Exists_exists|Hnew]; [right; by exists mp|left].
  assert (∀ mp, mp ∈ new → mapping_key mp ≠ k) as Hn by (intros mp Hmp E; apply Hnew, Exists_exists; by exists mp).
  assert (backend_tag k t' = Some (ModificationTagOf d)) as Htag by (unfold backend_tag; cbn in Hd |- *; by rewrite Hd).
  exists (ModificationTagOf d).
  assert (∀ mp, mp ∈ old → mapping_key mp = k → backend_tag k t = Some (ModificationTagOf d) ∧
    tag_removable (ModificationTagOf d) (tm_ModificationTag mp) = false) as Hmp.
  { intros mp Hmp Hk. rewrite <-Hk in Htag, Hn |- *. exact (Hold mp _ Hmp Hn Htag). }
  split; [|intros mp ??; by apply Hmp].
  destruct (decide (Exists (λ mp, mapping_key mp = k) old)) as [(mp & ? & ?)%Exists_exists|Ho]; [by eapply Hmp|].
  destruct (Hoth k) as [E _]; [|exact Hn|cbn in E; by rewrite <-E].
  intros mp ? E. apply Ho, Exists_exists. by exists mp.
Qed.

(** C32. From the routing API to the configuration.  Take the composed
    controller, started on an IPv4 range with neither broker nor clashing
    cached records, in any state it reaches by messages and API events that
    only name routes of a set of servable routes with distinct object names
    which are no names of TCP objects, and in which no TCP update is handed
    over while an equal one is queued or in hand ([tcp_update_lost] shows what
    happens then).  Let nothing be left to hand over, and let the routing table
    be as a synchronisation of the TCP fetcher left it that announced at least
    one mapping, all of distinct keys ([old] is what the synchronisation before
    announced, [t] the table it started from).  When the worker, left alone,
    has come to rest, then every announced mapping is served: the configuration
    written last has a pool for its external port that lists its backend, and
    the virtual server that listens on the port and sends to this pool.  And
    every member of the pool of a TCP port has been announced, or was in the
    table before with a tag that no mapping of [old] for it may remove: the
    mappings that are outdated are not served any more. *)
Theorem tcp_sync_served `{!VisitOrder} `{!MapOrder string} `{!MapOrder RoutingKey} `{!MapOrder BackendServerKey}
  (U : string → Prop) guid c dg s0 f now FetchToken Routes old new t n x' :
  (∀ u, U u → servable u) →
  (∀ u1 u2 n, U u1 → U u2 → named u1 n → named u2 n → u1 = u2) →
  (∀ u n, U u → named u n → ¬ tcp_name (rc s0) n) →
  started c dg s0 → rtc (front_step U guid) (mkFront None 0 (init c s0)) f → quiet f → tcp_outbox (fr_sys f) = [] →
  tcp_FetchRoutes now FetchToken Routes old t = Ok (new, tbl (fr_sys f)) → NoDup (mapping_key <$> new) → new ≠ [] →
  nsteps (λ a b, worker_step handle drain a = Some b) n (sx (fr_sys f)) x' → worker_step handle drain x' = None →
  ∃ w part res, last (written x') = Some w ∧ s_resources w = Some (part, res) ∧
    (∀ mp, mp ∈ new →
      (∃ pl, pl ∈ Pools res ∧ bigipResources.Name pl = createTCPObjectName (rc s0) (tm_ExternalPort mp) ∧
         mkMember (tm_HostIP mp) (tm_HostPort mp) "user-enabled" ∈ Members pl) ∧
      ∃ v, v ∈ Virtuals res ∧ tcp_server (rc s0) (tm_ExternalPort mp) v) ∧
    (∀ port m pl, pl ∈ Pools res → bigipResources.Name pl = createTCPObjectName (rc s0) port → m ∈ Members pl →
      ∃ b, m = backend_member b ∧
        (kept_backend old t (mkRoutingKey port, b) ∨ ∃ mp, mp ∈ new ∧ mapping_key mp = (mkRoutingKey port, b))).
Proof.
  intros HU HN HC Hst Hrun [Hj Hout] Htout Hf Hnd Hne Hn Hrest.
  destruct (system_rests U c dg s0 (fr_sys f) HU HN HC Hst (front_run U guid _ _ Hrun ltac:(done)) Hout Htout)
    as (n' & y & Hn' & Hrest' & _ & _ & Hcase).
  pose proof (worker_rest_unique handle drain _ _ _ _ _ Hn Hn' Hrest Hrest') as <-.
  assert (∀ mp, mp ∈ new → in_table (entries (tbl (fr_sys f))) (tm_ExternalPort mp, mkBackendKey (tm_HostIP mp) (tm_HostPort mp)))
    as Hin by (intros mp; by eapply fetched_in_table).
  destruct Hcase as [(_ & _ & He)|(w & Hw & [[res Hres] Hm Hs] & _)].
  { exfalso. destruct new as [|mp new]; [done|]. destruct (Hin mp) as [d Hd]; [by left|]. by rewrite He in Hd. }
  destruct res as [part res]. exists w, part, res. split; [done|]. split; [done|].
  specialize (Hm part res Hres). specialize (Hs part res Hres). split.
  - intros mp Hmp. pose proof (Hin mp Hmp) as Hb. split; [apply Hm; by eexists|].
    destruct (started_good U c dg s0 Hst) as (He & [Hg _] & _). destruct (ro_part _ (rg_inv _ _ Hg)) as [p Hp].
    destruct (TCP_resources (rc s0) He Add (tm_ExternalPort mp) zeroMember p Hp) as (v & _ & _ & Hv & _).
    exists v. split; [|done]. apply (proj2 (Hs (tm_ExternalPort mp) v)). by split; [|eexists].
  - intros port m pl Hpl Hname Hmem. destruct (proj1 (Hm port m)) as (b & Hb & ->); [by exists pl|]. exists b. split; [done|].
    exact (in_table_from _ _ _ _ _ _ _ _ _ Hf Hnd Hb).
Qed.

(** The first synchronisation announces one mapping. *)
Lemma tcp_sync_served_witness :
  ∃ w part res, last (written demo_end) = Some w ∧ s_resources w = Some (part, res) ∧
    ∃ pl, pl ∈ Pools res ∧ bigipResources.Name pl = createTCPObjectName (rc demo_router) 6000 ∧
      mkMember "10.0.0.9" 61000 "user-enabled" ∈ Members pl.
Proof.
  destruct (tcp_sync_served (λ u, u = "foo.cf.com/a") EmptyString demo_config (Err "none") demo_router demo_front
    7 (λ _ _, Ok "token") (λ _ _, Ok [demo_mapping]) [] [demo_mapping] (NewRoutingTable (rc demo_router) true) 8 demo_end)
    as (w & part & res & Hw & Hres & Hin & _).
  - exact demo_servable.
  - intros u1 u2 n Hu1 Hu2 _ _. by rewrite Hu1, Hu2.
  - exact demo_disjoint.
  - exact demo_started.
  - exact demo_run.
  - split; reflexivity.
  - reflexivity.
  - vm_compute. reflexivity.
  - apply NoDup_singleton.
  - discriminate.
  - apply alive_nsteps. vm_compute. reflexivity.
  - vm_compute. reflexivity.
  - exists w, part, res. split; [exact Hw|]. split; [exact Hres|].
    destruct (Hin demo_mapping) as [Hpl _]; [left|]. exact Hpl.
Defined.
