(* ===== verification/ConfigJson.v ===== *)
(** The file the controller writes for the driver: [json.Marshal] of the
    sections in [process] and [writeInitialConfig] of f5router/f5router.go,
    with the JSON tags of [f5router/bigipResources/bigipResources.go] and
    [config/config.go].

    A field with [omitempty] is left out when it is empty, a field tagged "-"
    always, and the keys of a map are sorted.  [fixupNames] returns a nil
    slice for no names, which is written as null; the other lists without
    [omitempty] are never nil.  The reader is what decoding into the same
    structures gives. *)
From Stdlib Require Import Ascii ZArith Lia.
From stdpp Require Import base list gmap strings.
From S2P Require Import Prelude GoStrings Codec Json Config Resources Updates Tier2 Policy F5Router.
Import bigipResources.
Local Open Scope Z_scope.

Abbreviation members := (list (string * json)) (only parsing).

(** ** The encoder *)
Definition str (k s : string) : members := [(k, JStr s)].
Definition num (k : string) (z : Z) : members := [(k, JNum (Itoa z))].
Definition bool_ (k : string) (b : bool) : members := [(k, JBool b)].
Definition arr {A} (k : string) (f : A → json) (l : list A) : members := [(k, JArr (f <$> l))].

(** [omitempty] *)
Definition str_opt (k s : string) : members := if decide (s = EmptyString) then [] else str k s.
Definition num_opt (k : string) (z : Z) : members := if decide (z = 0) then [] else num k z.
Definition bool_opt (k : string) (b : bool) : members := if b then bool_ k true else [].
Definition arr_opt {A} (k : string) (f : A → json) (l : list A) : members :=
  match l with [] => [] | _ => arr k f l end.

Definition GlobalConfig_json (g : GlobalConfig) : json :=
  JObj (str "log-level" (GLogLevel g) ++ num "verify-interval" (GVerifyInterval g)).

Definition NameRef_json (n : NameRef) : json := JObj (str "name" (RefName n) ++ str "partition" (RefPartition n)).

Definition ProfileRef_json (p : ProfileRef) : json :=
  JObj (str "name" (PrfName p) ++ str "partition" (PrfPartition p) ++ str "context" (PrfContext p)).

Definition Virtual_json (v : Virtual) : json :=
  JObj (str "name" (VirtualServerName v) ++ str_opt "pool" (PoolName v) ++ str_opt "ipProtocol" (Mode v) ++
        bool_opt "enabled" (Enabled v) ++ str_opt "destination" (Destination v) ++ str_opt "source" (SourceAddress v) ++
        arr_opt "policies" NameRef_json (Policies v) ++ arr_opt "profiles" ProfileRef_json (Profiles v) ++
        arr_opt "rules" JStr (IRules v) ++
        [("sourceAddressTranslation", JObj (str "type" (SourceAddrTranslation v)))]).

Definition Member_json (m : Member) : json :=
  JObj (str "address" (MAddress m) ++ num "port" (MPort m) ++ str_opt "session" (Session m)).

Definition BPool_json (p : bigipResources.Pool) : json :=
  JObj (str "name" (Name p) ++ str "loadBalancingMode" (Balance p) ++ arr "members" Member_json (Members p) ++
        match MonitorNames p with [] => [("monitors", JNull)] | ns => arr "monitors" JStr ns end ++
        str "description" (Description p)).

Definition Monitor_json (m : Monitor) : json :=
  JObj (str "name" (MonName m) ++ num_opt "interval" (Interval m) ++ str "type" (Type_ m) ++
        str_opt "send" (Send m) ++ str_opt "recv" (Recv m) ++ num_opt "timeout" (Timeout m)).

Definition Action_json (a : Action) : json :=
  JObj (bool_opt "forward" (Forward a) ++ str "name" (ActName a) ++ str_opt "pool" (ActPool a) ++
        bool_ "request" (ActRequest a) ++ str_opt "expression" (Expression a) ++ str_opt "tmName" (TmName a) ++
        bool_opt "tcl" (Tcl a) ++ bool_opt "setVariable" (SetVariable a)).

Definition Condition_json (c : Condition) : json :=
  JObj (bool_opt "equals" (Equals c) ++ bool_opt "startsWith" (StartsWith c) ++ bool_opt "endsWith" (EndsWith c) ++
        bool_opt "host" (Host c) ++ bool_opt "httpHost" (HTTPHost c) ++ bool_opt "httpUri" (HTTPURI c) ++
        bool_opt "pathSegment" (PathSegment c) ++ str "name" (CondName c) ++ num "index" (Index c) ++
        bool_ "request" (CondRequest c) ++ arr "values" JStr (Values c)).

Definition Rule_json (r : Rule) : json :=
  JObj (arr "actions" Action_json (Actions r) ++ arr "conditions" Condition_json (Conditions r) ++
        str "name" (RuleName r) ++ num "ordinal" (Ordinal r) ++ str "description" (RuleDescription r)).

Definition Policy_json (p : Policy) : json :=
  JObj (arr "controls" JStr (Controls p) ++ str_opt "description" (PolDescription p) ++ bool_ "legacy" (Legacy p) ++
        str "name" (PolName p) ++ arr "requires" JStr (Requires p) ++ arr "rules" Rule_json (PolRules p) ++
        str "strategy" (Strategy p)).

Definition IRule_json (i : IRule) : json := JObj (str "name" (IRuleName i) ++ str "apiAnonymous" (Code i)).

Definition Record_json (r : InternalDataGroupRecord) : json := JObj (str "name" (RecName r) ++ str "data" (Data r)).

Definition InternalDataGroup_json (g : InternalDataGroup) : json :=
  JObj (str "name" (DgName g) ++ arr "records" Record_json (Records g)).

Definition Resources_json (r : Resources) : json :=
  JObj (arr_opt "virtualServers" Virtual_json (Virtuals r) ++ arr_opt "pools" BPool_json (Pools r) ++
        arr_opt "monitors" Monitor_json (Monitors r) ++ arr_opt "l7Policies" Policy_json (RPolicies r) ++
        arr_opt "iRules" IRule_json (RIRules r) ++
        arr_opt "internalDataGroups" InternalDataGroup_json (InternalDataGroups r)).

(** The BIG-IP section shows the connection only. *)
Definition BigIPConfig_json (b : BigIPConfig) : json :=
  JObj (str "url" (URL b) ++ str "username" (User b) ++ str "password" (Pass b) ++ arr "partitions" JStr (Partitions b)).

(** The resources are a map with one partition; the initial configuration has
    none. *)
Definition Sections_json (w : Sections) : json :=
  JObj ([("bigip", BigIPConfig_json (s_bigip w)); ("global", GlobalConfig_json (s_global w))] ++
        match s_resources w with
        | Some (partition, res) => [("resources", JObj [(partition, Resources_json res)])]
        | None => []
        end).

Definition config_text (w : Sections) : string := print_json (Sections_json w).

(** ** The reader *)
Fixpoint get (k : string) (l : members) : option json :=
  match l with [] => None | (k', v) :: l => if String.eqb k k' then Some v else get k l end.

Definition as_str (j : option json) : option string :=
  match j with Some (JStr s) => Some s | None | Some JNull => Some EmptyString | _ => None end.

Definition read_int (s : string) : option Z :=
  match s with
  | String a r => if byte_val a =? 45 then Z.opp <$> digits_val 0 r else digits_val 0 s
  | EmptyString => None
  end.

Definition as_num (j : option json) : option Z :=
  match j with Some (JNum t) => read_int t | None | Some JNull => Some 0 | _ => None end.

Definition as_bool (j : option json) : option bool :=
  match j with Some (JBool b) => Some b | None | Some JNull => Some false | _ => None end.

Definition as_list {A} (f : json → option A) (j : option json) : option (list A) :=
  match j with Some (JArr l) => mapM f l | None | Some JNull => Some [] | _ => None end.

Definition read_string (j : json) : option string := as_str (Some j).

Definition on_object {A} (f : members → option A) (j : json) : option A :=
  match j with JObj l => f l | _ => None end.

Definition read_GlobalConfig : json → option GlobalConfig := on_object (λ l,
  a ← as_str (get "log-level" l); b ← as_num (get "verify-interval" l); Some (mkGlobal a b)).

Definition read_NameRef : json → option NameRef := on_object (λ l,
  a ← as_str (get "name" l); b ← as_str (get "partition" l); Some (mkNameRef a b)).

Definition read_ProfileRef : json → option ProfileRef := on_object (λ l,
  a ← as_str (get "name" l); b ← as_str (get "partition" l); c ← as_str (get "context" l); Some (mkProfileRef a b c)).

Definition read_translation (j : option json) : option string :=
  match j with Some (JObj l) => as_str (get "type" l) | None | Some JNull => Some EmptyString | _ => None end.

Definition read_Virtual : json → option Virtual := on_object (λ l,
  n ← as_str (get "name" l); pl ← as_str (get "pool" l); md ← as_str (get "ipProtocol" l);
  en ← as_bool (get "enabled" l); ds ← as_str (get "destination" l); sr ← as_str (get "source" l);
  ps ← as_list read_NameRef (get "policies" l); pf ← as_list read_ProfileRef (get "profiles" l);
  rs ← as_list read_string (get "rules" l); st ← read_translation (get "sourceAddressTranslation" l);
  Some (mkVirtual n pl md en ds sr ps pf rs st)).

Definition read_Member : json → option Member := on_object (λ l,
  a ← as_str (get "address" l); p ← as_num (get "port" l); s ← as_str (get "session" l); Some (mkMember a p s)).

Definition read_Pool : json → option bigipResources.Pool := on_object (λ l,
  n ← as_str (get "name" l); b ← as_str (get "loadBalancingMode" l); ms ← as_list read_Member (get "members" l);
  hs ← as_list read_string (get "monitors" l); d ← as_str (get "description" l);
  Some (bigipResources.mkPool n b ms hs d)).

Definition read_Monitor : json → option Monitor := on_object (λ l,
  n ← as_str (get "name" l); i ← as_num (get "interval" l); t ← as_str (get "type" l); s ← as_str (get "send" l);
  r ← as_str (get "recv" l); tm ← as_num (get "timeout" l); Some (mkMonitor n i t s r tm)).

Definition read_Action : json → option Action := on_object (λ l,
  f ← as_bool (get "forward" l); n ← as_str (get "name" l); p ← as_str (get "pool" l); r ← as_bool (get "request" l);
  e ← as_str (get "expression" l); t ← as_str (get "tmName" l); c ← as_bool (get "tcl" l); s ← as_bool (get "setVariable" l);
  Some (mkAction f n p r e t c s)).

Definition read_Condition : json → option Condition := on_object (λ l,
  e ← as_bool (get "equals" l); s ← as_bool (get "startsWith" l); w ← as_bool (get "endsWith" l);
  h ← as_bool (get "host" l); hh ← as_bool (get "httpHost" l); hu ← as_bool (get "httpUri" l);
  ps ← as_bool (get "pathSegment" l); n ← as_str (get "name" l); i ← as_num (get "index" l);
  r ← as_bool (get "request" l); vs ← as_list read_string (get "values" l);
  Some (mkCondition e s w h hh hu ps n i r vs)).

(** The URI of a rule is not in the file. *)
Definition read_Rule : json → option Rule := on_object (λ l,
  acts ← as_list read_Action (get "actions" l); cs ← as_list read_Condition (get "conditions" l);
  n ← as_str (get "name" l); o ← as_num (get "ordinal" l); d ← as_str (get "description" l);
  Some (mkRule EmptyString acts cs n o d)).

Definition read_Policy : json → option Policy := on_object (λ l,
  c ← as_list read_string (get "controls" l); d ← as_str (get "description" l); lg ← as_bool (get "legacy" l);
  n ← as_str (get "name" l); r ← as_list read_string (get "requires" l); rs ← as_list read_Rule (get "rules" l);
  s ← as_str (get "strategy" l); Some (mkPolicy c d lg n r rs s)).

Definition read_IRule : json → option IRule := on_object (λ l,
  n ← as_str (get "name" l); c ← as_str (get "apiAnonymous" l); Some (mkIRule n c)).

Definition read_Record : json → option InternalDataGroupRecord := on_object (λ l,
  n ← as_str (get "name" l); d ← as_str (get "data" l); Some (mkRecord n d)).

Definition read_InternalDataGroup : json → option InternalDataGroup := on_object (λ l,
  n ← as_str (get "name" l); rs ← as_list read_Record (get "records" l); Some (mkDataGroup n rs)).

Definition read_Resources : json → option Resources := on_object (λ l,
  vs ← as_list read_Virtual (get "virtualServers" l); ps ← as_list read_Pool (get "pools" l);
  ms ← as_list read_Monitor (get "monitors" l); pol ← as_list read_Policy (get "l7Policies" l);
  irs ← as_list read_IRule (get "iRules" l); dgs ← as_list read_InternalDataGroup (get "internalDataGroups" l);
  Some (mkResources vs ps ms pol irs dgs)).

(** The connection of the BIG-IP section. *)
Definition read_BigIP : json → option (string * string * string * list string) := on_object (λ l,
  u ← as_str (get "url" l); n ← as_str (get "username" l); p ← as_str (get "password" l);
  ps ← as_list read_string (get "partitions" l); Some (u, n, p, ps)).

Record config_file := mkFile {
  f_bigip : string * string * string * list string;
  f_global : GlobalConfig;
  f_resources : option (string * Resources);
}.

Definition read_config : json → option config_file := on_object (λ l,
  b ← get "bigip" l ≫= read_BigIP; g ← get "global" l ≫= read_GlobalConfig;
  match get "resources" l with
  | None => Some (mkFile b g None)
  | Some (JObj [(p, j)]) => r ← read_Resources j; Some (mkFile b g (Some (p, r)))
  | _ => None
  end).

(** What the file shows of the sections. *)
Definition hide_uri (r : Rule) : Rule :=
  mkRule EmptyString (Actions r) (Conditions r) (RuleName r) (Ordinal r) (RuleDescription r).

Definition hide_policy (p : Policy) : Policy :=
  mkPolicy (Controls p) (PolDescription p) (Legacy p) (PolName p) (Requires p) (hide_uri <$> PolRules p) (Strategy p).

Definition hide_uris (r : Resources) : Resources :=
  mkResources (Virtuals r) (Pools r) (Monitors r) (hide_policy <$> RPolicies r) (RIRules r) (InternalDataGroups r).

Definition visible (w : Sections) : config_file :=
  mkFile (URL (s_bigip w), User (s_bigip w), Pass (s_bigip w), Partitions (s_bigip w)) (s_global w)
    (prod_map id hide_uris <$> s_resources w).

(** ** The reader inverts the encoder *)
Lemma read_int_Itoa z : read_int (Itoa z) = Some z.
Proof.
  destruct (Itoa_shape z) as (neg & a & t & -> & Ha & Ht & _ & Hv). destruct neg.
  - change ("-" +:+ String a t) with (String "-" (String a t)). cbn [read_int].
    change (byte_val "-" =? 45) with true. cbv iota. rewrite Hv. cbn. f_equal. lia.
  - change (EmptyString +:+ String a t) with (String a t). cbn [read_int].
    by rewrite (digit_not_minus a Ha).
Qed.

Lemma read_list {A B} (f : A → json) (g : json → option B) (h : A → B) l :
  (∀ x, g (f x) = Some (h x)) → mapM g (f <$> l) = Some (h <$> l).
Proof. intros Hx. induction l as [|x l IH]; [done|]. cbn. by rewrite Hx, IH. Qed.

Lemma read_list_id {A} (f : A → json) (g : json → option A) l :
  (∀ x, g (f x) = Some x) → mapM g (f <$> l) = Some l.
Proof. intros Hx. rewrite (read_list f g id l Hx). by rewrite list_fmap_id. Qed.

Lemma read_strings l : mapM read_string (JStr <$> l) = Some l.
Proof. by apply read_list_id. Qed.

(** The optional fields, case by case. *)
Ltac field_cases :=
  repeat match goal with
  | |- context [str_opt _ ?s] => unfold str_opt at 1; destruct (decide (s = EmptyString)) as [->|]
  | |- context [num_opt _ ?z] => unfold num_opt at 1; destruct (decide (z = 0)) as [->|]
  | |- context [bool_opt _ ?b] => unfold bool_opt at 1; destruct b
  end.

Ltac read_back := rewrite ?read_int_Itoa, ?read_strings; cbn; try reflexivity.

Lemma read_global g : read_GlobalConfig (GlobalConfig_json g) = Some g.
Proof. destruct g. cbn. by rewrite read_int_Itoa. Qed.

Lemma read_nameref n : read_NameRef (NameRef_json n) = Some n.
Proof. by destruct n. Qed.

Lemma read_profileref n : read_ProfileRef (ProfileRef_json n) = Some n.
Proof. by destruct n. Qed.

Lemma read_member m : read_Member (Member_json m) = Some m.
Proof. destruct m. unfold Member_json. cbn [Session MAddress MPort]. field_cases; cbn; read_back. Qed.

Lemma read_record r : read_Record (Record_json r) = Some r.
Proof. by destruct r. Qed.

Lemma read_irule i : read_IRule (IRule_json i) = Some i.
Proof. by destruct i. Qed.

Lemma read_monitor m : read_Monitor (Monitor_json m) = Some m.
Proof.
  destruct m. unfold Monitor_json. cbn [MonName Interval Type_ Send Recv Timeout].
  field_cases; cbn; read_back.
Qed.

Lemma read_action a : read_Action (Action_json a) = Some a.
Proof.
  destruct a. unfold Action_json. cbn [Forward ActName ActPool ActRequest Expression TmName Tcl SetVariable].
  field_cases; reflexivity.
Qed.

Lemma read_condition c : read_Condition (Condition_json c) = Some c.
Proof.
  destruct c as [b1 b2 b3 b4 b5 b6 b7 n i rq vs]. unfold Condition_json.
  cbn [Equals StartsWith EndsWith Host HTTPHost HTTPURI PathSegment CondName Index CondRequest Values].
  field_cases; cbn; read_back.
Qed.

Lemma read_pool p : read_Pool (BPool_json p) = Some p.
Proof.
  destruct p as [n b ms hs d]. cbn. rewrite (read_list_id Member_json read_Member) by apply read_member. cbn.
  destruct hs as [|h hs]; [done|]. cbn. by rewrite read_strings.
Qed.

Lemma read_datagroup g : read_InternalDataGroup (InternalDataGroup_json g) = Some g.
Proof. destruct g. cbn. by rewrite (read_list_id Record_json read_Record) by apply read_record. Qed.

Lemma read_rule r : read_Rule (Rule_json r) = Some (hide_uri r).
Proof.
  destruct r. cbn. rewrite (read_list_id Action_json read_Action) by apply read_action. cbn.
  rewrite (read_list_id Condition_json read_Condition) by apply read_condition. cbn. by rewrite read_int_Itoa.
Qed.

Lemma read_policy p : read_Policy (Policy_json p) = Some (hide_policy p).
Proof.
  destruct p. unfold Policy_json. cbn [Controls PolDescription Legacy PolName Requires PolRules Strategy].
  field_cases; cbn; rewrite !read_strings; cbn; rewrite (read_list Rule_json read_Rule hide_uri) by apply read_rule; done.
Qed.

(** A list that is left out when it is empty. *)
Lemma get_arr_opt_ne {A} k k' (f : A → json) l rest :
  String.eqb k k' = false → get k (arr_opt k' f l ++ rest) = get k rest.
Proof. intros Hk. destruct l; cbn; [done|]. by rewrite Hk. Qed.

Lemma read_arr_opt {A B} k (f : A → json) (g : json → option B) (h : A → B) l rest :
  get k rest = None → (∀ x, g (f x) = Some (h x)) → as_list g (get k (arr_opt k f l ++ rest)) = Some (h <$> l).
Proof.
  intros Hr Hx. destruct l as [|x l]; cbn; [by rewrite Hr|]. rewrite String.eqb_refl. cbn.
  rewrite Hx. cbn. by rewrite (read_list f g h).
Qed.

Ltac skip_lists := repeat (rewrite get_arr_opt_ne by reflexivity).

Lemma read_virtual v : read_Virtual (Virtual_json v) = Some v.
Proof.
  destruct v as [n pl md en ds sr ps pf rs st]. unfold Virtual_json.
  cbn [VirtualServerName PoolName Mode Enabled Destination SourceAddress Policies Profiles IRules SourceAddrTranslation].
  set (lists := arr_opt "policies" _ ps ++ _).
  assert (as_list read_NameRef (get "policies" lists) = Some ps ∧ as_list read_ProfileRef (get "profiles" lists) = Some pf ∧
    as_list read_string (get "rules" lists) = Some rs ∧ read_translation (get "sourceAddressTranslation" lists) = Some st ∧
    get "pool" lists = None ∧ get "ipProtocol" lists = None ∧ get "enabled" lists = None ∧ get "destination" lists = None ∧
    get "source" lists = None) as (H1 & H2 & H3 & H4 & H5 & H6 & H7 & H8 & H9).
  { unfold lists. split_and!; skip_lists; try done.
    - rewrite (read_arr_opt _ _ _ id); [by rewrite list_fmap_id|by skip_lists|apply read_nameref].
    - rewrite (read_arr_opt _ _ _ id); [by rewrite list_fmap_id|by skip_lists|apply read_profileref].
    - rewrite (read_arr_opt _ _ _ id); [by rewrite list_fmap_id|done|done]. }
  clearbody lists. field_cases; cbn; rewrite ?H5, ?H6, ?H7, ?H8, ?H9; cbn; rewrite H1; cbn; rewrite H2; cbn; rewrite H3; cbn; rewrite H4; done.
Qed.

Lemma read_resources r : read_Resources (Resources_json r) = Some (hide_uris r).
Proof.
  destruct r as [vs ps ms pol irs dgs]. unfold Resources_json, read_Resources, hide_uris.
  cbn [Virtuals Pools Monitors RPolicies RIRules InternalDataGroups on_object].
  rewrite <-(app_nil_r (arr_opt "internalDataGroups" InternalDataGroup_json dgs)).
  rewrite (read_arr_opt "virtualServers" _ _ id) by (apply read_virtual || by skip_lists). cbn [mbind option_bind].
  repeat (rewrite (get_arr_opt_ne "pools") by reflexivity). rewrite (read_arr_opt "pools" _ _ id) by (apply read_pool || by skip_lists). cbn [mbind option_bind].
  repeat (rewrite (get_arr_opt_ne "monitors") by reflexivity). rewrite (read_arr_opt "monitors" _ _ id) by (apply read_monitor || by skip_lists). cbn [mbind option_bind].
  repeat (rewrite (get_arr_opt_ne "l7Policies") by reflexivity). rewrite (read_arr_opt "l7Policies" _ _ hide_policy) by (apply read_policy || by skip_lists). cbn [mbind option_bind].
  repeat (rewrite (get_arr_opt_ne "iRules") by reflexivity). rewrite (read_arr_opt "iRules" _ _ id) by (apply read_irule || by skip_lists). cbn [mbind option_bind].
  repeat (rewrite (get_arr_opt_ne "internalDataGroups") by reflexivity). rewrite (read_arr_opt "internalDataGroups" _ _ id) by (apply read_datagroup || done). cbn [mbind option_bind]. by rewrite !list_fmap_id.
Qed.

Lemma read_sections w : read_config (Sections_json w) = Some (visible w).
Proof.
  destruct w as [g b [[p r]|]]; cbn -[read_Resources Resources_json]; rewrite read_strings; cbn -[read_Resources Resources_json];
    rewrite read_int_Itoa; cbn -[read_Resources Resources_json]; [|by destruct g].
  rewrite read_resources. cbn. by destruct g.
Qed.

(** *** Numbers are integers *)
Abbreviation all_integral := (Forall (λ kv : string * json, integral kv.2)).

Lemma int_str k s : all_integral (str k s).
Proof. by repeat constructor. Qed.
Lemma int_num k z : all_integral (num k z).
Proof. constructor; [by exists z|constructor]. Qed.
Lemma int_bool k b : all_integral (bool_ k b).
Proof. by repeat constructor. Qed.
Lemma int_arr {A} k (f : A → json) l : (∀ x, integral (f x)) → all_integral (arr k f l).
Proof. intros Hf. constructor; [|constructor]. cbn. apply integral_arr, Forall_fmap, Forall_true. done. Qed.
Lemma int_str_opt k s : all_integral (str_opt k s).
Proof. unfold str_opt. case_decide; [constructor|apply int_str]. Qed.
Lemma int_num_opt k z : all_integral (num_opt k z).
Proof. unfold num_opt. case_decide; [constructor|apply int_num]. Qed.
Lemma int_bool_opt k b : all_integral (bool_opt k b).
Proof. destruct b; [apply int_bool|constructor]. Qed.
Lemma int_arr_opt {A} k (f : A → json) l : (∀ x, integral (f x)) → all_integral (arr_opt k f l).
Proof. intros Hf. destruct l; [constructor|by apply int_arr]. Qed.

Create HintDb config_json discriminated.
#[local] Hint Resolve int_str int_num int_bool int_arr int_str_opt int_num_opt int_bool_opt int_arr_opt : config_json.

(** An object built from fields. *)
Ltac fields := intros; apply integral_obj; repeat (apply Forall_app; split); auto with config_json.

Lemma int_nameref n : integral (NameRef_json n).
Proof. fields. Qed.
Lemma int_profileref p : integral (ProfileRef_json p).
Proof. fields. Qed.
Lemma int_member m : integral (Member_json m).
Proof. fields. Qed.
Lemma int_jstr s : integral (JStr s).
Proof. done. Qed.
#[local] Hint Resolve int_nameref int_profileref int_member int_jstr : config_json.

Lemma int_virtual v : integral (Virtual_json v).
Proof. fields. by repeat constructor. Qed.
Lemma int_pool p : integral (BPool_json p).
Proof. fields. destruct (MonitorNames p); [by repeat constructor|auto with config_json]. Qed.
Lemma int_monitor m : integral (Monitor_json m).
Proof. fields. Qed.
Lemma int_action a : integral (Action_json a).
Proof. fields. Qed.
Lemma int_condition c : integral (Condition_json c).
Proof. fields. Qed.
#[local] Hint Resolve int_virtual int_pool int_monitor int_action int_condition : config_json.

Lemma int_rule r : integral (Rule_json r).
Proof. fields. Qed.
#[local] Hint Resolve int_rule : config_json.

Lemma int_policy p : integral (Policy_json p).
Proof. fields. Qed.
Lemma int_irule i : integral (IRule_json i).
Proof. fields. Qed.
Lemma int_record r : integral (Record_json r).
Proof. fields. Qed.
#[local] Hint Resolve int_policy int_irule int_record : config_json.

Lemma int_datagroup g : integral (InternalDataGroup_json g).
Proof. fields. Qed.
#[local] Hint Resolve int_datagroup : config_json.

Lemma int_resources r : integral (Resources_json r).
Proof. fields. Qed.

Lemma int_sections w : integral (Sections_json w).
Proof.
  apply integral_obj, Forall_app. split.
  - constructor; [cbn [snd]; unfold BigIPConfig_json; fields|].
    constructor; [cbn [snd]; unfold GlobalConfig_json; fields|constructor].
  - destruct (s_resources w) as [[p r]|]; [|constructor]. constructor; [|constructor]. cbn. split; [apply int_resources|done].
Qed.

(** C36. The file the driver reads.  Whatever configuration the router writes,
    its text is valid JSON from which a reader with the same field names gets
    back everything that is not tagged to be left out: the connection, the
    global settings, and all pools, virtual servers, monitors, policies,
    iRules and data groups of the partition, empty fields included. *)
Theorem config_file_roundtrip w : parse_json (config_text w) ≫= read_config = Some (visible w).
Proof. unfold config_text. rewrite parse_print by apply int_sections. apply read_sections. Qed.
