(* ===== verification/Calendar.v ===== *)
(** Calendar times: [common/schema/duration.go], type [Time].

    A time is an instant (seconds since the Unix epoch and nanoseconds) with
    the offset of its zone.  [absDate] and [Date] are the conversions of
    package time between days and dates of the Gregorian calendar; the layout
    of [MarshalJSON] and [UnmarshalJSON] is ["2006-01-02 15:04:05 -0700"]. *)
From Stdlib Require Import Ascii ZArith Lia.
From stdpp Require Import base list strings.
From S2P Require Import Prelude GoStrings Codec.

Open Scope go_scope.
Open Scope Z_scope.

Record Time := mkTime { unix : Z; nsec : Z; offset : Z }.

(** ** Dates *)
Definition isLeap (year : Z) : bool :=
  (year mod 4 =? 0) && (negb (year mod 100 =? 0) || (year mod 400 =? 0)).

(** The days before a month (counted from 0) in a year that is not leap. *)
Definition daysBefore (m : Z) : Z :=
  nth (Z.to_nat m) [0; 31; 59; 90; 120; 151; 181; 212; 243; 273; 304; 334; 365] 365.

Definition daysIn (m year : Z) : Z :=
  if (m =? 2) && isLeap year then 29 else daysBefore m - daysBefore (m - 1).

(** One step down the cycles of 400, 100, 4 and 1 years: the cycles are cut
    off by [n - n>>2] since the last one is longer by a day. *)
Definition cut (n : Z) : Z := n - Z.shiftr n 2.

(** The year and the day of the year; days are counted from 0001-01-01. *)
Definition year_yday (d : Z) : Z * Z :=
  let n := d / 146097 in
  let y := 400 * n in let d := d - 146097 * n in
  let n := cut (d / 36524) in
  let y := y + 100 * n in let d := d - 36524 * n in
  let n := d / 1461 in
  let y := y + 4 * n in let d := d - 1461 * n in
  let n := cut (d / 365) in
  (y + n + 1, d - 365 * n).

Definition month_day (day : Z) : Z * Z :=
  let month := day / 31 in
  let end_ := daysBefore (month + 1) in
  if end_ <=? day then (month + 2, day - end_ + 1) else (month + 1, day - daysBefore month + 1).

Definition absDate (d : Z) : Z * (Z * Z) :=
  let '(year, yday) := year_yday d in
  if isLeap year then
    if 31 + 29 - 1 <? yday then (year, month_day (yday - 1))
    else if yday =? 31 + 29 - 1 then (year, (2, 29))
    else (year, month_day yday)
  else (year, month_day yday).

(** [Date] of package time, in days. *)
Definition Date (year month day : Z) : Z :=
  let y := year - 1 in
  let n := y / 400 in let y := y - 400 * n in let d := 146097 * n in
  let n := y / 100 in let y := y - 100 * n in let d := d + 36524 * n in
  let n := y / 4 in let y := y - 4 * n in let d := d + 1461 * n in
  let d := d + 365 * y in
  let d := d + daysBefore (month - 1) in
  let d := if isLeap year && (3 <=? month) then d + 1 else d in
  d + day - 1.

(** The days from 0001-01-01 to the Unix epoch. *)
Definition unixDays : Z := 719162.

(** ** Texts *)
Definition dg (n : Z) : ascii := byte_of (48 + n).

Fixpoint dec_loop (fuel : nat) (u : Z) (acc : string) : string :=
  match fuel with
  | O => acc
  | S fuel => if u <? 10 then String (dg u) acc else dec_loop fuel (u / 10) (String (dg (u mod 10)) acc)
  end.

Fixpoint pad (n : nat) (s : string) : string := match n with O => s | S n => String "0" (pad n s) end.

(** [appendInt]: at least [width] digits. *)
Definition appendInt (x : Z) (width : nat) : string :=
  let u := dec_loop 20 (Z.abs x) EmptyString in
  let u := pad (width - String.length u) u in
  if x <? 0 then String "-" u else u.

Definition Format (t : Time) : string :=
  let secs := unix t + offset t in
  let '(year, (month, day)) := absDate (secs / 86400 + unixDays) in
  let sod := secs mod 86400 in
  let zone := offset t ÷ 60 in
  appendInt year 4 +:+ "-" +:+ appendInt month 2 +:+ "-" +:+ appendInt day 2 +:+ " " +:+
  appendInt (sod / 3600) 2 +:+ ":" +:+ appendInt (sod mod 3600 / 60) 2 +:+ ":" +:+ appendInt (sod mod 60) 2 +:+ " " +:+
  (if zone <? 0 then "-" else "+") +:+ appendInt (Z.abs zone / 60) 2 +:+ appendInt (Z.abs zone mod 60) 2.

Definition Time_MarshalJSON (t : Time) : string := String dquote (Format t +:+ String dquote EmptyString).

(** ** Parsing *)
Definition dval (a : ascii) : Z := byte_val a - 48.

(** [getnum] with [fixed]: two digits. *)
Definition getnum2 (s : string) : option (Z * string) :=
  match s with
  | String a (String b r) => if is_digit a && is_digit b then Some (dval a * 10 + dval b, r) else None
  | _ => None
  end.

(** [getnum] without: one digit is enough. *)
Definition getnum1 (s : string) : option (Z * string) :=
  match s with
  | String a r =>
      if is_digit a then
        match r with
        | String b r' => if is_digit b then Some (dval a * 10 + dval b, r') else Some (dval a, r)
        | EmptyString => Some (dval a, r)
        end
      else None
  | EmptyString => None
  end.

(** [atoi] of two characters: a sign counts. *)
Definition atoi2 (a b : ascii) : option Z :=
  if is_digit b then
    if is_digit a then Some (dval a * 10 + dval b)
    else if Ascii.eqb a "-" then Some (- dval b)
    else if Ascii.eqb a "+" then Some (dval b)
    else None
  else None.

Definition year4 (s : string) : option (Z * string) :=
  match s with
  | String a (String b (String c (String d r))) =>
      if is_digit a && is_digit b && is_digit c && is_digit d
      then Some (dval a * 1000 + dval b * 100 + dval c * 10 + dval d, r) else None
  | _ => None
  end.

(** [skip]: one character of the layout; a space stands for any number of
    them, or for the end of the text. *)
Definition skip (c : ascii) (s : string) : option string :=
  match s with String a r => if Ascii.eqb a c then Some r else None | EmptyString => None end.

Fixpoint cutspace (s : string) : string :=
  match s with String a r => if Ascii.eqb a " " then cutspace r else s | EmptyString => s end.

Definition skip_space (s : string) : option string :=
  match s with String a _ => if Ascii.eqb a " " then Some (cutspace s) else None | EmptyString => Some EmptyString end.

(** A fraction after the seconds is taken though the layout has none. *)
Fixpoint drop_digits (s : string) : string :=
  match s with String a r => if is_digit a then drop_digits r else s | EmptyString => s end.

Fixpoint nanos (n : nat) (scale : Z) (s : string) : Z :=
  match n, s with
  | S n, String a r => if is_digit a then dval a * scale + nanos n (scale / 10) r else 0
  | _, _ => 0
  end.

(** More than nine digits are out of range. *)
Definition fractional (s : string) : option (Z * string) :=
  match s with
  | String p (String a r) =>
      if Ascii.eqb p "." && is_digit a then
        let rest := drop_digits r in
        if (String.length r - String.length rest <? 9)%nat then Some (nanos 9 100000000 (String a r), rest) else None
      else Some (0, s)
  | _ => Some (0, s)
  end.

(** [-0700]; no range is tested. *)
Definition numTZ (s : string) : option (Z * string) :=
  match s with
  | String sg (String h1 (String h2 (String m1 (String m2 r)))) =>
      hr ← atoi2 h1 h2; mm ← atoi2 m1 m2;
      if Ascii.eqb sg "+" then Some ((hr * 60 + mm) * 60, r)
      else if Ascii.eqb sg "-" then Some (- ((hr * 60 + mm) * 60), r)
      else None
  | _ => None
  end.

Definition ranged (lo hi : Z) (x : Z) : option Z := if (lo <=? x) && (x <=? hi) then Some x else None.

Definition Parse (s : string) : option Time :=
  s ← skip dquote s;
  '(year, s) ← year4 s; s ← skip "-" s;
  '(month, s) ← getnum2 s; month ← ranged 1 12 month; s ← skip "-" s;
  '(day, s) ← getnum2 s; s ← skip_space s;
  '(hour, s) ← getnum1 s; hour ← ranged 0 23 hour; s ← skip ":" s;
  '(minute, s) ← getnum2 s; minute ← ranged 0 59 minute; s ← skip ":" s;
  '(sec, s) ← getnum2 s; sec ← ranged 0 59 sec;
  '(ns, s) ← fractional s; s ← skip_space s;
  '(zone, s) ← numTZ s; s ← skip dquote s;
  day ← ranged 1 (daysIn month year) day;
  if bool_decide (s = EmptyString)
  then Some (mkTime ((Date year month day - unixDays) * 86400 + hour * 3600 + minute * 60 + sec - zone) ns zone)
  else None.

Definition Time_UnmarshalJSON (b : string) : result Time :=
  match Parse b with Some t => Ok t | None => Err "parsing time: cannot parse" end.

(** [time.Since]: the difference, cut off at the range of a Duration. *)
Definition Elapsed (now t : Time) : Z :=
  let d := (unix now - unix t) * 1000000000 + (nsec now - nsec t) in
  Z.max (- 2 ^ 63) (Z.min (2 ^ 63 - 1) d).

Example time_examples :
  Time_MarshalJSON (mkTime 1500000000 5 (-25200)) = String dquote ("2017-07-13 19:40:00 -0700" +:+ String dquote EmptyString) ∧
  absDate (unixDays - 1) = (1969, (12, 31)) ∧ absDate (unixDays + 11016) = (2000, (2, 29)) ∧
  Date 2000 3 1 = unixDays + 11017.
Proof. by vm_compute. Qed.

(** ** Dates and days *)
(** Four parts of [k] days, the last one a day longer. *)
Lemma cut_rest k r :
  0 < k → 0 ≤ r ≤ 4 * k →
  let e := cut (r / k) in 0 ≤ e ≤ 3 ∧ 0 ≤ r - k * e ∧ r - k * e < k + (if e =? 3 then 1 else 0).
Proof.
  intros Hk Hr. pose proof (Z.div_mod r k ltac:(lia)) as Hd. pose proof (Z.mod_pos_bound r k Hk) as Hm.
  set (q := r / k) in *. clearbody q. assert (0 ≤ q ≤ 4) as Hq by nia.
  assert (q = 0 ∨ q = 1 ∨ q = 2 ∨ q = 3 ∨ q = 4) as Hc by lia.
  destruct Hc as [-> | [-> | [-> | [-> | ->]]]];
    [change (cut 0) with 0|change (cut 1) with 1|change (cut 2) with 2|change (cut 3) with 3|change (cut 4) with 3];
    cbn [Z.eqb Pos.eqb]; lia.
Qed.

(** The years before [year], by cycles. *)
Definition cycles (year a b c e : Z) : Prop :=
  year = 400 * a + 100 * b + 4 * c + e + 1 ∧ 0 ≤ b ≤ 3 ∧ 0 ≤ c ≤ 24 ∧ 0 ≤ e ≤ 3.

Lemma isLeap_cycles year a b c e :
  cycles year a b c e → isLeap year = (e =? 3) && (negb (c =? 24) || (b =? 3)).
Proof.
  intros (-> & Hb & Hc & He). unfold isLeap. apply eq_true_iff_eq.
  rewrite !andb_true_iff, !orb_true_iff, !negb_true_iff, !Z.eqb_eq, !Z.eqb_neq. 
  Z.to_euclidean_division_equations. lia.
Qed.

Lemma Date_cycles year a b c e month day :
  cycles year a b c e →
  Date year month day = 146097 * a + 36524 * b + 1461 * c + 365 * e + daysBefore (month - 1) +
    (if isLeap year && (3 <=? month) then 1 else 0) + day - 1.
Proof.
  intros (E & Hb & Hc & He). unfold Date.
  replace ((year - 1) / 400) with a by (Z.to_euclidean_division_equations; lia).
  replace ((year - 1 - 400 * a) / 100) with b by (Z.to_euclidean_division_equations; lia).
  replace ((year - 1 - 400 * a - 100 * b) / 4) with c by (Z.to_euclidean_division_equations; lia).
  replace (year - 1 - 400 * a - 100 * b - 4 * c) with e by lia.
  destruct (isLeap year && (3 <=? month)); lia.
Qed.

Lemma year_yday_cycles d year yday :
  year_yday d = (year, yday) →
  ∃ a b c e, cycles year a b c e ∧ d = 146097 * a + 36524 * b + 1461 * c + 365 * e + yday ∧
    0 ≤ yday ∧ yday < 365 + (if isLeap year then 1 else 0).
Proof.
  unfold year_yday. set (a := d / 146097). set (r := d - 146097 * a).
  assert (0 ≤ r < 146097) as Hr by (unfold r, a; Z.to_euclidean_division_equations; lia).
  destruct (cut_rest 36524 r) as (Hb & Hr1 & Hr1'); [lia..|].
  set (b := cut (r / 36524)) in *. set (r1 := r - 36524 * b) in *. clearbody b.
  set (c := r1 / 1461). set (r2 := r1 - 1461 * c).
  assert (0 ≤ c ≤ 24 ∧ 0 ≤ r2 < 1461) as (Hc & Hr2).
  { unfold r2, c. clearbody r1. destruct (b =? 3); Z.to_euclidean_division_equations; lia. }
  destruct (cut_rest 365 r2) as (He & Hy & Hy'); [lia..|]. set (e := cut (r2 / 365)) in *. clearbody e.
  intros [= <- <-].
  assert (cycles (400 * a + 100 * b + 4 * c + e + 1) a b c e) as Hcy by (unfold cycles; lia).
  exists a, b, c, e. split; [done|]. split; [unfold r2, r1, r; lia|]. split; [done|].
  rewrite (isLeap_cycles _ a b c e Hcy). unfold r2 in *. clearbody c a. clear Hcy.
  destruct (Z.eqb_spec e 3), (Z.eqb_spec c 24), (Z.eqb_spec b 3); cbn in *; lia.
Qed.

(** Evaluates the table of the months. *)
Ltac months :=
  repeat match goal with
  | |- context [daysBefore ?x] => let v := eval vm_compute in (daysBefore x) in change (daysBefore x) with v
  | H : context [daysBefore ?x] |- _ => let v := eval vm_compute in (daysBefore x) in change (daysBefore x) with v in H
  end.

Lemma month_day_spec day m k :
  0 ≤ day < 365 → month_day day = (m, k) →
  1 ≤ m ≤ 12 ∧ day = daysBefore (m - 1) + k - 1 ∧ 1 ≤ k ≤ daysBefore m - daysBefore (m - 1).
Proof.
  intros Hd. unfold month_day. set (q := day / 31).
  assert (0 ≤ q < 12 ∧ 31 * q ≤ day < 31 * q + 31) as [Hq Hday] by (unfold q; Z.to_euclidean_division_equations; lia).
  clearbody q.
  assert (q = 0 ∨ q = 1 ∨ q = 2 ∨ q = 3 ∨ q = 4 ∨ q = 5 ∨ q = 6 ∨ q = 7 ∨ q = 8 ∨ q = 9 ∨ q = 10 ∨ q = 11) as Hc by lia.
  destruct (Z.leb_spec (daysBefore (q + 1)) day) as [Hle|Hlt]; intros [= <- <-];
    repeat (destruct Hc as [->|Hc]); subst; months; lia.
Qed.

Lemma daysBefore_march m : 1 ≤ m ≤ 12 → (daysBefore m ≤ 59 ↔ m < 3) ∧ (daysBefore (m - 1) < 59 → m < 3).
Proof.
  intros Hm. assert (m = 1 ∨ m = 2 ∨ m = 3 ∨ m = 4 ∨ m = 5 ∨ m = 6 ∨ m = 7 ∨ m = 8 ∨ m = 9 ∨ m = 10 ∨ m = 11 ∨ m = 12) as Hc by lia.
  repeat (destruct Hc as [->|Hc]); subst; months; lia.
Qed.

Lemma daysIn_31 m year : 1 ≤ m ≤ 12 → daysIn m year ≤ 31.
Proof.
  intros Hm. unfold daysIn. destruct ((m =? 2) && isLeap year); [lia|].
  assert (m = 1 ∨ m = 2 ∨ m = 3 ∨ m = 4 ∨ m = 5 ∨ m = 6 ∨ m = 7 ∨ m = 8 ∨ m = 9 ∨ m = 10 ∨ m = 11 ∨ m = 12) as Hc by lia.
  clear Hm. repeat (destruct Hc as [->|Hc]); subst; months; lia.
Qed.

(** A date names its day. *)
Lemma Date_absDate d year month day :
  absDate d = (year, (month, day)) → Date year month day = d ∧ 1 ≤ month ≤ 12 ∧ 1 ≤ day ≤ daysIn month year.
Proof.
  unfold absDate. destruct (year_yday d) as [y yday] eqn:E.
  apply year_yday_cycles in E as (a & b & c & e & Hcy & -> & Hy0 & Hy1).
  destruct (isLeap y) eqn:El; [destruct (Z.ltb_spec (31 + 29 - 1) yday) as [Hlt|Hge]; [|destruct (Z.eqb_spec yday (31 + 29 - 1)) as [->|Hne]]|];
    [intros [= -> Hm]|intros [= -> <- <-]|intros [= -> Hm]..];
    rewrite (Date_cycles _ a b c e _ _ Hcy), El; unfold daysIn; rewrite El.
  - apply month_day_spec in Hm as (H1 & H2 & H3); [|lia]. destruct (daysBefore_march month H1) as [H4 H5].
    destruct (Z.leb_spec 3 month); [|lia]. destruct (Z.eqb_spec month 2); [lia|]. cbn [andb]. lia.
  - cbn [andb Z.leb Z.eqb Z.compare Pos.compare Pos.compare_cont Pos.eqb]. months. lia.
  - apply month_day_spec in Hm as (H1 & H2 & H3); [|lia]. destruct (daysBefore_march month H1) as [H4 H5].
    destruct (Z.leb_spec 3 month); [lia|]. cbn [andb].
    destruct (Z.eqb_spec month 2) as [->|]; cbn [andb]; months; lia.
  - apply month_day_spec in Hm as (H1 & H2 & H3); [|lia]. rewrite andb_false_r. cbn [andb]. lia.
Qed.

(** ** Digits *)
Lemma digit_ok n : 0 ≤ n < 10 → is_digit (dg n) = true ∧ dval (dg n) = n.
Proof.
  intros Hn. assert (n = 0 ∨ n = 1 ∨ n = 2 ∨ n = 3 ∨ n = 4 ∨ n = 5 ∨ n = 6 ∨ n = 7 ∨ n = 8 ∨ n = 9) as Hc by lia.
  repeat (destruct Hc as [->|Hc]; [done|]). by subst.
Qed.

Lemma dg_mod n : is_digit (dg (n mod 10)) = true.
Proof. apply digit_ok. apply Z.mod_pos_bound. lia. Qed.

Lemma dec_last fuel u acc : u < 10 → dec_loop (S fuel) u acc = String (dg u) acc.
Proof. intros Hu. cbn. by destruct (Z.ltb_spec u 10); [|lia]. Qed.

Lemma dec_more fuel u acc : 10 ≤ u → dec_loop (S fuel) u acc = dec_loop fuel (u / 10) (String (dg (u mod 10)) acc).
Proof. intros Hu. cbn [dec_loop]. by destruct (Z.ltb_spec u 10); [lia|]. Qed.

(** Two and four digits in front of [r]. *)
Definition two (n : Z) (r : string) : string := String (dg (n / 10)) (String (dg (n mod 10)) r).
Definition four (n : Z) (r : string) : string := two (n / 100) (two (n mod 100) r).

Lemma appendInt_two n r : 0 ≤ n < 100 → appendInt n 2 +:+ r = two n r.
Proof.
  intros Hn. unfold appendInt, two. rewrite Z.abs_eq by lia. destruct (Z.ltb_spec n 0) as [|_]; [lia|].
  destruct (decide (n < 10)).
  - rewrite dec_last by lia. replace (n / 10) with 0 by (Z.to_euclidean_division_equations; lia).
    by rewrite Z.mod_small by lia.
  - rewrite dec_more, dec_last by (Z.to_euclidean_division_equations; lia). done.
Qed.

Lemma appendInt_four n r : 0 ≤ n < 10000 → appendInt n 4 +:+ r = four n r.
Proof.
  intros Hn. unfold appendInt, four, two. rewrite Z.abs_eq by lia. destruct (Z.ltb_spec n 0) as [|_]; [lia|].
  assert (n mod 100 mod 10 = n mod 10 ∧ n mod 100 / 10 = n / 10 mod 10 ∧ n / 100 = n / 10 / 10) as (-> & -> & ->)
    by (Z.to_euclidean_division_equations; lia).
  assert (∀ m, 0 ≤ m < 10 → m / 10 = 0 ∧ m mod 10 = m) as Hs by (intros; Z.to_euclidean_division_equations; lia).
  destruct (decide (n < 10)); [|destruct (decide (n < 100)); [|destruct (decide (n < 1000))]].
  - rewrite dec_last by lia. destruct (Hs n) as [-> ->]; [lia|done].
  - rewrite dec_more, dec_last by (Z.to_euclidean_division_equations; lia).
    destruct (Hs (n / 10)) as [-> ->]; [Z.to_euclidean_division_equations; lia|done].
  - rewrite !dec_more, dec_last by (Z.to_euclidean_division_equations; lia).
    destruct (Hs (n / 10 / 10)) as [-> ->]; [Z.to_euclidean_division_equations; lia|done].
  - rewrite !dec_more, dec_last by (Z.to_euclidean_division_equations; lia). done.
Qed.

Lemma two_digits n : 0 ≤ n < 100 →
  (is_digit (dg (n / 10)) = true ∧ is_digit (dg (n mod 10)) = true) ∧ dval (dg (n / 10)) * 10 + dval (dg (n mod 10)) = n.
Proof.
  intros Hn. destruct (digit_ok (n / 10)) as [-> ->]; [Z.to_euclidean_division_equations; lia|].
  destruct (digit_ok (n mod 10)) as [-> ->]; Z.to_euclidean_division_equations; lia.
Qed.

Lemma getnum2_two n r : 0 ≤ n < 100 → getnum2 (two n r) = Some (n, r).
Proof. intros Hn. destruct (two_digits n Hn) as [[H1 H2] H3]. unfold getnum2, two. by rewrite H1, H2, H3. Qed.

Lemma getnum1_two n r : 0 ≤ n < 100 → getnum1 (two n r) = Some (n, r).
Proof. intros Hn. destruct (two_digits n Hn) as [[H1 H2] H3]. unfold getnum1, two. by rewrite H1, H2, H3. Qed.

Lemma year4_four n r : 0 ≤ n < 10000 → year4 (four n r) = Some (n, r).
Proof.
  intros Hn. destruct (two_digits (n / 100)) as [[H1 H2] H3]; [Z.to_euclidean_division_equations; lia|].
  destruct (two_digits (n mod 100)) as [[H4 H5] H6]; [Z.to_euclidean_division_equations; lia|].
  unfold year4, four, two. rewrite H1, H2, H4, H5. cbn [andb]. do 2 f_equal. Z.to_euclidean_division_equations; lia.
Qed.

Lemma numTZ_zone sg h m r :
  0 ≤ h < 100 → 0 ≤ m < 100 → sg = "-"%char ∨ sg = "+"%char →
  numTZ (String sg (two h (two m r))) = Some ((if Ascii.eqb sg "-" then - ((h * 60 + m) * 60) else (h * 60 + m) * 60), r).
Proof.
  intros Hh Hm Hs. destruct (two_digits h Hh) as [[H1 H2] H3], (two_digits m Hm) as [[H4 H5] H6].
  unfold numTZ, two, atoi2. rewrite H1, H2, H4, H5. cbn [mbind option_bind]. rewrite H3, H6. by destruct Hs as [-> | ->].
Qed.

Lemma ranged_in lo hi x : lo ≤ x ≤ hi → ranged lo hi x = Some x.
Proof. intros Hx. unfold ranged. by destruct (Z.leb_spec lo x), (Z.leb_spec x hi); try lia. Qed.

(** ** The round trip *)

(** The year a time falls in, where it is. *)
Definition year_of (t : Time) : Z := (absDate ((unix t + offset t) / 86400 + unixDays)).1.

(** The text of a time. *)
Lemma Format_text t r year month day :
  absDate ((unix t + offset t) / 86400 + unixDays) = (year, (month, day)) → 0 ≤ year < 10000 → Z.abs (offset t ÷ 60) < 6000 →
  Format t +:+ r =
    four year (String "-" (two month (String "-" (two day (String " " (
    two ((unix t + offset t) mod 86400 / 3600) (String ":" (two ((unix t + offset t) mod 86400 mod 3600 / 60) (String ":" (
    two ((unix t + offset t) mod 86400 mod 60) (String " " (String (if (offset t ÷ 60 <? 0)%Z then "-"%char else "+"%char) (
    two (Z.abs (offset t ÷ 60) / 60) (two (Z.abs (offset t ÷ 60) mod 60) r)))))))))))))).
Proof.
  intros E Hy Ho. destruct (Date_absDate _ _ _ _ E) as (_ & Hm & Hd).
  assert (daysIn month year ≤ 31) as H31 by by apply daysIn_31.
  unfold Format. rewrite E, !sapp_assoc, appendInt_four by done.
  rewrite !appendInt_two by (Z.to_euclidean_division_equations; lia). by destruct (offset t ÷ 60 <? 0).
Qed.

Lemma skip_same c r : skip c (String c r) = Some r.
Proof. unfold skip. by rewrite Ascii.eqb_refl. Qed.

Lemma space_before_digit a r : is_digit a = true → skip_space (String " " (String a r)) = Some (String a r).
Proof. intros Ha. cbn. by destruct (Ascii.eqb_spec a " ") as [->|]. Qed.

Lemma space_two n r : 0 ≤ n < 100 → skip_space (String " " (two n r)) = Some (two n r).
Proof. intros Hn. apply space_before_digit. by apply two_digits. Qed.

Lemma space_sign (b : bool) r :
  skip_space (String " " (String (if b then "-"%char else "+"%char) r)) = Some (String (if b then "-"%char else "+"%char) r).
Proof. by destruct b. Qed.

Lemma zone_sign (b : bool) h m r :
  0 ≤ h < 100 → 0 ≤ m < 100 →
  numTZ (String (if b then "-"%char else "+"%char) (two h (two m r))) =
    Some ((if b then - ((h * 60 + m) * 60) else (h * 60 + m) * 60), r).
Proof. intros Hh Hm. by rewrite numTZ_zone by (try done; destruct b; auto); destruct b. Qed.

Lemma no_fraction r : fractional (String " " r) = Some (0, String " " r).
Proof. by destruct r. Qed.

#[local] Hint Rewrite skip_same no_fraction space_sign : time_text.
#[local] Hint Rewrite year4_four getnum2_two getnum1_two ranged_in space_two zone_sign using lia : time_text.

(** The seconds of a time from its fields. *)
Lemma seconds_of s :
  let sod := s mod 86400 in
  s / 86400 * 86400 + sod / 3600 * 3600 + sod mod 3600 / 60 * 60 + sod mod 60 = s.
Proof. cbv zeta. pose proof (Z.div_mod s 86400 ltac:(lia)). set (r := s mod 86400) in *. clearbody r.
  assert (r / 3600 * 3600 + r mod 3600 / 60 * 60 + r mod 60 = r) by (Z.to_euclidean_division_equations; lia). lia.
Qed.

Lemma zone_of o : o mod 60 = 0 →
  (if o ÷ 60 <? 0 then - ((Z.abs (o ÷ 60) / 60 * 60 + Z.abs (o ÷ 60) mod 60) * 60)
   else (Z.abs (o ÷ 60) / 60 * 60 + Z.abs (o ÷ 60) mod 60) * 60) = o.
Proof.
  intros Ho. assert (o ÷ 60 = o / 60) as -> by (Z.to_euclidean_division_equations; lia).
  destruct (Z.ltb_spec (o / 60) 0); Z.to_euclidean_division_equations; lia.
Qed.

Lemma time_read_back t :
  0 ≤ year_of t < 10000 → offset t mod 60 = 0 → Z.abs (offset t) < 360000 →
  Parse (Time_MarshalJSON t) = Some (mkTime (unix t) 0 (offset t)).
Proof.
  unfold year_of. destruct (absDate _) as [year [month day]] eqn:E. cbn [fst]. intros Hy Ho Hr.
  unfold Time_MarshalJSON. rewrite (Format_text t _ year month day E Hy) by (Z.to_euclidean_division_equations; lia).
  destruct (Date_absDate _ _ _ _ E) as (HD & Hm & Hd).
  set (s := unix t + offset t) in *. pose proof (seconds_of s) as Hs. cbv zeta in Hs.
  pose proof (Z.mod_pos_bound s 86400 ltac:(lia)) as Hb. set (sod := s mod 86400) in *. clearbody sod.
  pose proof (zone_of (offset t) Ho) as Hz. set (z := offset t ÷ 60) in *.
  assert (Z.abs z < 6000) as Hza by (unfold z; Z.to_euclidean_division_equations; lia). clearbody z.
  assert (0 ≤ sod / 3600 ≤ 23 ∧ 0 ≤ sod mod 3600 / 60 ≤ 59 ∧ 0 ≤ sod mod 60 ≤ 59) as (H1 & H2 & H3)
    by (Z.to_euclidean_division_equations; lia).
  assert (0 ≤ Z.abs z / 60 < 100 ∧ 0 ≤ Z.abs z mod 60 < 100) as [H4 H5] by (Z.to_euclidean_division_equations; lia).
  assert (daysIn month year ≤ 31) as H31 by by apply daysIn_31.
  unfold Parse. repeat (autorewrite with time_text; cbn [mbind option_bind]).
  rewrite bool_decide_eq_true_2 by done. rewrite Hz, HD. unfold s in *. do 2 f_equal. lia.
Qed.

(** Years that have no four digits are not read back. *)
Lemma dec_digits fuel u acc :
  0 ≤ u → string_forallb is_digit acc = true →
  string_forallb is_digit (dec_loop fuel u acc) = true ∧ (String.length acc + Nat.min 1 fuel ≤ String.length (dec_loop fuel u acc))%nat.
Proof.
  revert u acc. induction fuel as [|fuel IH]; intros u acc Hu Ha; [cbn; split; [done|lia]|]. cbn [dec_loop].
  destruct (Z.ltb_spec u 10).
  - cbn. destruct (digit_ok u) as [-> _]; [lia|]. rewrite Ha. split; [done|lia].
  - destruct (IH (u / 10) (String (dg (u mod 10)) acc)) as [H1 H2]; [Z.to_euclidean_division_equations; lia| |].
    + cbn. by rewrite dg_mod.
    + cbn [String.length] in H2. split; [done|lia].
Qed.

Lemma year_too_long year r : 10000 ≤ year → ∃ a b c d e r', appendInt year 4 +:+ r = String a (String b (String c (String d (String e r')))) ∧ is_digit e = true.
Proof.
  intros Hy. unfold appendInt. rewrite Z.abs_eq by lia. destruct (Z.ltb_spec year 0) as [|_]; [lia|].
  destruct (dec_digits 20 year EmptyString) as [Hd _]; [lia|done|].
  assert (5 ≤ String.length (dec_loop 20 year EmptyString))%nat as Hl.
  { do 4 (rewrite dec_more by (Z.to_euclidean_division_equations; lia)).
    eapply Nat.le_trans; [|apply dec_digits]; [cbn; lia|Z.to_euclidean_division_equations; lia|].
    cbn [string_forallb]. by rewrite !dg_mod. }
  destruct (dec_loop 20 year EmptyString) as [|a [|b [|c [|d [|e s]]]]]; cbn in Hl; try lia.
  cbn in Hd. apply andb_true_iff in Hd as [_ Hd]. apply andb_true_iff in Hd as [_ Hd]. apply andb_true_iff in Hd as [_ Hd].
  apply andb_true_iff in Hd as [_ Hd]. apply andb_true_iff in Hd as [He _].
  exists a, b, c, d, e, (s +:+ r). split; [done|done].
Qed.

Lemma time_not_read t : ¬ (0 ≤ year_of t < 10000) → Parse (Time_MarshalJSON t) = None.
Proof.
  unfold year_of, Time_MarshalJSON, Format. destruct (absDate _) as [year [month day]]. cbn [fst]. intros Hy.
  unfold Parse. rewrite skip_same. cbn [mbind option_bind]. rewrite !sapp_assoc. set (rest := "-" +:+ _).
  destruct (decide (year < 0)) as [Hn|Hn].
  - unfold appendInt. destruct (Z.ltb_spec year 0); [|lia].
    set (u := dec_loop 20 (Z.abs year) EmptyString).
    change (String "-" (pad (4 - String.length u) u) +:+ rest) with (String "-" (pad (4 - String.length u) u +:+ rest)).
    by destruct (pad (4 - String.length u) u +:+ rest) as [|b [|c [|d r]]].
  - destruct (year_too_long year rest) as (a & b & c & d & e & r & -> & He); [lia|]. unfold year4.
    destruct (is_digit a && is_digit b && is_digit c && is_digit d); [|done]. cbn [mbind option_bind skip].
    destruct (Ascii.eqb_spec e "-") as [->|]; done.
Qed.

(** C37. A time survives its JSON text to the second, with its offset, exactly
    when its year has four digits: the text of any other is refused.  The
    offset is a whole number of minutes below a hundred hours, as it is for
    every zone in use. *)
Theorem time_roundtrip t :
  offset t mod 60 = 0 → Z.abs (offset t) < 360000 →
  Time_UnmarshalJSON (Time_MarshalJSON t) =
    if decide (0 ≤ year_of t < 10000) then Ok (mkTime (unix t) 0 (offset t)) else Err "parsing time: cannot parse".
Proof.
  intros Ho Hr. unfold Time_UnmarshalJSON. case_decide; [by rewrite time_read_back|by rewrite time_not_read].
Qed.

Lemma time_roundtrip_witness :
  Time_UnmarshalJSON (Time_MarshalJSON (mkTime 1500000000 5 (-25200))) = Ok (mkTime 1500000000 0 (-25200)) ∧
  Time_UnmarshalJSON (Time_MarshalJSON (mkTime 253402300800 0 0)) = Err "parsing time: cannot parse".
Proof.
  split.
  - rewrite (time_roundtrip (mkTime 1500000000 5 (-25200))) by (vm_compute; reflexivity).
    rewrite decide_True by (vm_compute; split; [discriminate|reflexivity]). reflexivity.
  - rewrite (time_roundtrip (mkTime 253402300800 0 0)) by (vm_compute; reflexivity).
    rewrite decide_False; [reflexivity|]. vm_compute. intros [_ H]. discriminate.
Defined.
