(* ===== verification/Boot.v ===== *)
(** main.go from the first line to the exit status, with the reading of the
    configuration (config/config.go: Initialize, InitConfigFromFile,
    DefaultConfig).

    The yaml library is an argument, the function that overlays a text on a
    configuration; so are the environment, the flags and the answers of the
    services.  [Err] is [logger.Fatal], [Panic] a panic; both end the
    process. *)

From Stdlib Require Import Ascii ZArith Lia.
From stdpp Require Import base gmap list strings.
From S2P Require Import Prelude GoStrings Config Registry RoutingTable Component Controller Logger Main.

Open Scope go_scope.
Open Scope Z_scope.

(** ** The parts of the configuration that only main reads *)
Record LoggingConfig := mkLogging { Syslog : string; LoggregatorEnabled : bool; MetronAddress : string }.

Definition defaultLoggingConfig : LoggingConfig := mkLogging EmptyString false "localhost:3457".

Definition defaultNatsConfig : NatsConfig := mkNatsConfig "localhost" 4222 EmptyString EmptyString.

(** [Level] and [JobName] of the logging section and the address of the
    routing API are fields of [Config]. *)
Record Settings := mkSettings {
  core : Config; Nats : list NatsConfig; Logging : LoggingConfig; OAuth : OAuthConfig;
  AuthDisabled : bool; DebugAddr : string; c_Index : Z;
}.

Definition defaultSettings : Settings :=
  mkSettings defaultConfig [defaultNatsConfig] defaultLoggingConfig
    (mkOAuth EmptyString 0 false EmptyString EmptyString EmptyString) false EmptyString 0.

Section boot.
Context (numCPU : Z) (localIP : result string) (loadCert : string → string → result string).
Context (unmarshal : string → Settings → result Settings) (readFile : string → result string).

Definition Settings_Process (s : Settings) : result Settings :=
  let* c := Process numCPU localIP loadCert (core s) in
  Ok (mkSettings c (Nats s) (Logging s) (OAuth s) (AuthDisabled s) (DebugAddr s) (c_Index s)).

Definition Initialize (configYAML : string) (s : Settings) : result Settings :=
  unmarshal configYAML (mkSettings (core s) [] (Logging s) (OAuth s) (AuthDisabled s) (DebugAddr s) (c_Index s)).

Definition InitConfigFromFile (path : string) : result Settings :=
  let* c := Settings_Process defaultSettings in
  let* b := must (readFile path) in
  let* c := must (Initialize b c) in
  Settings_Process c.

(** The environment variable wins over the flag, which is not even parsed
    when the variable is set. *)
Definition load_config (BIGIP_CTLR_CFG : option string) (flag_c : string) : result Settings :=
  let configFile := match BIGIP_CTLR_CFG with Some _ => EmptyString | None => flag_c end in
  let val := default EmptyString BIGIP_CTLR_CFG in
  let* c := Settings_Process defaultSettings in
  if decide (configFile = EmptyString) then
    let* c := must (Initialize val c) in Settings_Process c
  else InitConfigFromFile configFile.

(** ** Logging *)

(** [Level.UnmarshalText]; [createLogger] drops its error, so an unknown text
    leaves the zero level. *)
Definition zap_level (text : string) : Level :=
  if decide (text = "debug") then DebugLevel
  else if decide (text = "info") then InfoLevel
  else if decide (text = "warn") then WarnLevel
  else if decide (text = "error") then ErrorLevel
  else if decide (text = "dpanic") then DPanicLevel
  else if decide (text = "panic") then PanicLevel
  else if decide (text = "fatal") then FatalLevel
  else InfoLevel.

Definition log_prefix (s : Settings) : string :=
  if decide (Syslog (Logging s) = EmptyString) then "cf-bigip-ctlr.stdout" else Syslog (Logging s).

Definition createLogger (component level : string) : logger * Level * LagerLevel :=
  (NewLogger component, zap_level level, minLagerLogLevel level).

(** ** Start-up *)
Record Env := mkEnv {
  args : list string; cfg : option string; flag_c : string; dropsonde : result unit;
  connect : nat → result string; parse_url : string → result string;
}.

Record Booted := mkBooted {
  b_settings : Settings; b_logger : logger; b_level : Level; b_procs : option Z;
  b_debug : option (string * LagerLevel); b_nats : string; b_wiring : Wiring;
}.

(** The version flag is read before [flag.Parse], so it has its default. *)
Definition versionFlag (args : list string) : bool := false.

(** The answers of the UAA and the routing API for this configuration. *)
Definition with_settings (w : World) (s : Settings) : World :=
  mkWorld (AuthDisabled s) (OAuth s) (newClient w) (token w) (Routes w) (groups w) (file_exists w) (guid w)
    (newWriter w) (newRouter w) (newBroker w) (plans w) (newController w).

(** [None]: the version was printed and the process left with status 0. *)
Definition boot (w : World) (e : Env) : result (option Booted) :=
  if versionFlag (args e) then Ok None
  else
    let* s := load_config (cfg e) (flag_c e) in
    let '(lg, level, lager) := createLogger (log_prefix s) (LogLevel (core s)) in
    let* _ := or_fatal (dropsonde e) "dropsonde-initialize-error" in
    let procs := if GoMaxProcs (core s) =? 0 then None else Some (GoMaxProcs (core s)) in
    let debug := if decide (DebugAddr s = EmptyString) then None else Some (DebugAddr s, lager) in
    let* host := (connectToNatsServer (connect e) (parse_url e)).1 in
    let* wr := wire (with_settings w s) (core s) (c_Index s) in
    Ok (Some (mkBooted s lg level procs debug host wr)).

(** The exit status, from what the monitor of the members returns. *)
Definition exit_status (monitor : result unit) : Z := match monitor with Ok _ => 0 | _ => 1 end.

(** ** Processing twice *)

(** main processes the defaults, overlays the text and processes again: a
    configuration that has been processed stays as it is. *)
Lemma Process_again c c' :
  numCPU ≠ -1 → Process numCPU localIP loadCert c = Ok c' → Process numCPU localIP loadCert c' = Ok c'.
Proof.
  intros Hcpu. unfold Process at 1. intros (ip & Hip & ([suites cert] & HS & (mode & HM & Hc)%rbind_Ok)%rbind_Ok)%rbind_Ok.
  assert (processSSL loadCert c' = Ok (suites, cert)) as HS'.
  { injection Hc as <-. unfold processSSL in *. cbn. destruct (EnableSSL c); [exact HS|done]. }
  assert (processMode c' = Ok mode) as HM' by (injection Hc as <-; exact HM).
  unfold Process. rewrite Hip. cbn [rbind]. rewrite HS'. cbn [rbind]. rewrite HM'. cbn [rbind].
  injection Hc as <-. cbn. f_equal. f_equal.
  - destruct (Z.eqb_spec (GoMaxProcs c) (-1)); [by destruct (Z.eqb_spec numCPU (-1))|].
    by destruct (Z.eqb_spec (GoMaxProcs c) (-1)).
  - destruct (Z.ltb_spec (DropletStaleThreshold c) (StartResponseDelayInterval c)) as [H1|H1].
    + by rewrite Z.ltb_irrefl.
    + by destruct (Z.ltb_spec (DropletStaleThreshold c) (StartResponseDelayInterval c)); [lia|].
  - destruct ((DrainTimeout c =? 0) || (DrainTimeout c =? defaultEndpointTimeout)) eqn:E; [|by rewrite E].
    by destruct ((EndpointTimeout c =? 0) || (EndpointTimeout c =? defaultEndpointTimeout)).
  - destruct (bool_decide_reflect (TCPRouterGroupName c = EmptyString)) as [H|H]; [done|by rewrite bool_decide_eq_false_2].
  - by destruct (bool_decide (RouteServiceSecret c = EmptyString)).
Qed.

Lemma Settings_again s s' : numCPU ≠ -1 → Settings_Process s = Ok s' → Settings_Process s' = Ok s'.
Proof.
  intros Hcpu. unfold Settings_Process. intros (c & Hc & [= <-])%rbind_Ok. cbn.
  by rewrite (Process_again _ _ Hcpu Hc).
Qed.

(** The configuration that is loaded is one that Process accepted. *)
Lemma load_config_processed env path s :
  load_config env path = Ok s → ∃ s0, Settings_Process s0 = Ok s.
Proof.
  unfold load_config. intros (d & _ & H)%rbind_Ok. case_decide.
  - apply rbind_Ok in H as (s0 & _ & H). eauto.
  - unfold InitConfigFromFile in H. apply rbind_Ok in H as (? & _ & H). apply rbind_Ok in H as (? & _ & H).
    apply rbind_Ok in H as (s0 & _ & H). eauto.
Qed.

(** Where the text comes from. *)
Lemma load_config_source env path d :
  Settings_Process defaultSettings = Ok d →
  load_config env path =
    let* text := match env with
                 | Some v => Ok v
                 | None => if decide (path = EmptyString) then Ok EmptyString else must (readFile path)
                 end in
    let* s := must (Initialize text d) in Settings_Process s.
Proof.
  intros Hd. unfold load_config, InitConfigFromFile. rewrite Hd. cbn [rbind].
  destruct env as [v|]; cbn; [done|]. by case_decide.
Qed.
End boot.

(** C22. The start of the controller.  When main gets to start its members, the
    configuration is the text of the environment variable, or where that is
    not set the file named by the flag, or nothing, laid over the processed
    defaults without their message-bus server and processed again (a second
    time changes nothing by itself); the message bus was reached in one of
    three attempts; and the members are those of the mode, in order, with the
    tables that the controller prunes, and fetchers only beside a client of
    the routing API. *)
Theorem main_boots numCPU localIP loadCert unmarshal readFile w e b :
  numCPU ≠ -1 → boot numCPU localIP loadCert unmarshal readFile w e = Ok (Some b) →
  (∃ d text s, Settings_Process numCPU localIP loadCert defaultSettings = Ok d ∧
     Settings_Process numCPU localIP loadCert d = Ok d ∧
     match cfg e with
     | Some v => text = v
     | None => if decide (flag_c e = EmptyString) then text = EmptyString else readFile (flag_c e) = Ok text
     end ∧
     unmarshal text (mkSettings (core d) [] (Logging d) (OAuth d) (AuthDisabled d) (DebugAddr d) (c_Index d)) = Ok s ∧
     Settings_Process numCPU localIP loadCert s = Ok (b_settings b)) ∧
  (∃ i url, (i < 3)%nat ∧ connect e i = Ok url) ∧
  members (b_wiring b) = expected_members (core (b_settings b)) ∧
  (∀ component hb, wired (mkController (core (b_settings b)) component (w_registry (b_wiring b)) (w_table (b_wiring b)) hb)) ∧
  ("http-route-fetcher" ∈ members (b_wiring b) ∨ "tcp-route-fetcher" ∈ members (b_wiring b) → is_Some (w_api (b_wiring b))).
Proof.
  intros Hcpu Hb. unfold boot in Hb. cbn [versionFlag] in Hb. apply rbind_Ok in Hb as (s & Hs & Hb).
  apply rbind_Ok in Hb as (_ & _ & Hb). apply rbind_Ok in Hb as (host & Hhost & Hb). apply rbind_Ok in Hb as (wr & Hwr & [= <-]).
  cbn [b_settings b_wiring].
  split; [|split].
  - destruct (Settings_Process numCPU localIP loadCert defaultSettings) as [d| |] eqn:Hd;
      [|by unfold load_config in Hs; rewrite Hd in Hs..].
    rewrite (load_config_source _ _ _ _ _ _ _ d Hd) in Hs. apply rbind_Ok in Hs as (text & Ht & Hs).
    apply rbind_Ok in Hs as (s1 & Hi & Hs). exists d, text, s1. split; [done|].
    split; [by eapply Settings_again|]. split_and!; [| |done].
    + destruct (cfg e); [by injection Ht|]. case_decide; [by injection Ht|]. by destruct (readFile (flag_c e)).
    + unfold Initialize in Hi. by destruct (unmarshal _ _).
  - unfold connectToNatsServer in Hhost. pose proof (connect_loop_spec (connect e) 0 3 EmptyString) as Hc.
    destruct (connect_loop _ _ _ _) as [[url| |] n]; try done. destruct Hc as (Hn & Hok & _).
    destruct (Hok url eq_refl) as (i & -> & _ & Hci & _). exists i, url. split; [lia|done].
  - destruct (load_config_processed _ _ _ _ _ _ _ _ Hs) as (s0 & Hp). unfold Settings_Process in Hp.
    apply rbind_Ok in Hp as (c & Hp & [= <-]). exact (main_wiring numCPU localIP loadCert (core s0) c _ _ wr Hp Hwr).
Qed.

(** A start with the configuration in the environment; the overlay turns the
    routing API on and sets the mode. *)
Definition example_overlay (text : string) (s : Settings) : result Settings :=
  if decide (text = "route_mode: http") then Ok s else Err "yaml: unmarshal errors".

Definition example_start : Env :=
  mkEnv [] (Some "route_mode: http") "ignored.yml" (Ok tt)
    (λ i, if decide (i = 1%nat) then Ok "nats://bus:4222" else Err "refused") (λ _, Ok "bus:4222").

Definition example_boot : result (option Booted) :=
  boot 4 (Ok "10.0.0.5") (λ _ _, Err "no file") example_overlay (λ _, Err "no file") example_world example_start.

Lemma main_boots_witness :
  ∃ b, example_boot = Ok (Some b) ∧ members (b_wiring b) = expected_members (core (b_settings b)) ∧
    members (b_wiring b) = ["subscriber"; "controller"; "f5router"; "f5driver"] ∧ Nats (b_settings b) = [].
Proof.
  destruct example_boot as [[b|]|e|p] eqn:Hb; [|exfalso; vm_compute in Hb; discriminate Hb..].
  exists b. split; [reflexivity|].
  destruct (main_boots 4 (Ok "10.0.0.5") (λ _ _, Err "no file") example_overlay (λ _, Err "no file") example_world example_start b)
    as (_ & _ & Hm & _); [discriminate|exact Hb|]. split; [exact Hm|].
  vm_compute in Hb. injection Hb as <-. split; reflexivity.
Defined.
