(* ===== verification/VarzJson.v ===== *)
(** varz/varz.go: the document under /varz ([MarshalJSON] of HttpMetric and
    RealVarz, [transform]).

    The fields of the metric for all traffic are merged with those of the
    other metrics by encoding and decoding; a document is the decoded map, so
    every number is a float64.  What go-metrics computes from a meter or a
    histogram is a parameter. *)

From Stdlib Require Import ZArith Lia SpecFloat.
From stdpp Require Import base list gmap strings pretty.
From S2P Require Import Prelude GoStrings Trie Pool Registry Heap HeapPair ActiveApps TopApps Varz Duration.

Open Scope go_scope.
Open Scope Z_scope.

(** [Rate1], [Rate5] and [Rate15] of a meter and [Percentiles] of a histogram. *)
Class MetricReads {GM : GoMetrics} := {
  Rate1 : Meter → spec_float;
  Rate5 : Meter → spec_float;
  Rate15 : Meter → spec_float;
  Percentiles : Histogram → list spec_float → list spec_float
}.

Definition finite (f : spec_float) : bool := match f with S754_nan | S754_infinity _ => false | _ => true end.

(** Documented behaviour: rates and percentiles are numbers (the latter in
    nanoseconds, far from the smallest ones), one percentile for each point. *)
Class MetricLaws {GM : GoMetrics} (MR : MetricReads) := {
  Rates_finite m : finite (Rate1 m) = true ∧ finite (Rate5 m) = true ∧ finite (Rate15 m) = true;
  Percentiles_length h ps : length (Percentiles h ps) = length ps;
  Percentiles_finite h ps : Forall (λ f, finite (f_div f (f_of_int Second)) = true) (Percentiles h ps)
}.

(** JSON values; an integer of the struct is a float64 once it is decoded. *)
Inductive jval :=
| VInt (n : Z) | VNum (f : spec_float) | VStr (s : string) | VArr (l : list jval) | VObj (l : list (string * jval)).

(** [json.Marshal] refuses a float that is not a number. *)
Fixpoint encodable (v : jval) : bool :=
  match v with
  | VNum f => finite f
  | VInt _ | VStr _ => true
  | VArr l => forallb encodable l
  | VObj l => forallb (λ kv, encodable kv.2) l
  end.

(** [json.Unmarshal] into an interface. *)
Fixpoint decoded (v : jval) : jval :=
  match v with
  | VInt n => VNum (f_of_int n)
  | VNum _ | VStr _ => v
  | VArr l => VArr (map decoded l)
  | VObj l => VObj (map (λ kv, (kv.1, decoded kv.2)) l)
  end.

Section varz_json.
Context {GM : GoMetrics} {MR : MetricReads}.

(** The points 0.50, 0.75, 0.90, 0.95 and 0.99. *)
Definition points : list spec_float := (λ k, f_div (f_of_int k) (f_of_int 100)) <$> [50; 75; 90; 95; 99].

Fixpoint latencies (ps zs : list spec_float) : result (list (string * jval)) :=
  match ps, zs with
  | [], _ => Ok []
  | _ :: _, [] => Panic "index out of range"
  | e :: ps, z :: zs =>
      let* l := latencies ps zs in
      Ok ((Itoa (f_to_int (f_mul e (f_of_int 100))), VNum (f_div z (f_of_int Second))) :: l)
  end.

Definition HttpMetric_MarshalJSON (x : HttpMetric) : result (list (string * jval)) :=
  let* l := latencies points (Percentiles (Latency x) points) in
  let latency :=
    l ++ [("value", VNum (f_div (f_div (f_of_int 50) (f_of_int 100)) (f_of_int 1000000))); ("samples", VInt 1)] in
  Ok [("requests", VInt (Varz.Requests x));
      ("rate", VArr [VNum (Rate1 (Rate x)); VNum (Rate5 (Rate x)); VNum (Rate15 (Rate x))]);
      ("responses_2xx", VInt (Responses2xx x)); ("responses_3xx", VInt (Responses3xx x));
      ("responses_4xx", VInt (Responses4xx x)); ("responses_5xx", VInt (Responses5xx x));
      ("responses_xxx", VInt (ResponsesXxx x)); ("latency", VObj latency)].

(** The metrics of a Go map, in some order. *)
Fixpoint marshal_all (l : list (string * HttpMetric)) : result (list (string * jval)) :=
  match l with
  | [] => Ok []
  | (t, x) :: l => let* j := HttpMetric_MarshalJSON x in let* js := marshal_all l in Ok ((t, VObj j) :: js)
  end.

Definition top_json (z : varzTopEntry) : jval :=
  VObj [("application_id", VStr (vt_ApplicationId z)); ("rps", VInt (RequestsPerSecond z)); ("rpm", VInt (RequestsPerMinute z))].

(** The struct [varz]; [RequestsPerSec] is set by [MarshalJSON] to the rate. *)
Definition varz_json (x : RealVarz) : result (list (string * jval)) :=
  let* all_ := HttpMetric_MarshalJSON (All x) in
  let* comps := marshal_all (map_to_list (Component x)) in
  Ok [("all", VObj all_); ("tags", VObj [("component", VObj comps)]);
      ("urls", VInt (Urls x)); ("droplets", VInt (Droplets x));
      ("bad_requests", VInt (BadRequests x)); ("bad_gateways", VInt (BadGateways x));
      ("requests_per_sec", VNum (Rate1 (Rate (All x))));
      ("top10_app_requests", VArr (top_json <$> v_TopApps x));
      ("ms_since_last_registry_update", VInt (MillisSinceLastRegistryUpdate x))].

(** Encoding and decoding into the map that is there; the callers drop the
    error. *)
Definition transform (x : list (string * jval)) (y : gmap string jval) : gmap string jval :=
  if encodable (VObj x) then list_to_map (prod_map id decoded <$> x) ∪ y else y.

(** [x.r] is nil in TCP mode, where the controller does not publish it. *)
Definition RealVarz_MarshalJSON (r : option RouteRegistry) (now : Z) (x : RealVarz) :
    result (RealVarz * gmap string jval) :=
  match r with
  | None => Panic "invalid memory address or nil pointer dereference"
  | Some r =>
      let* x' := Varz.refresh r now x in
      let* all_ := HttpMetric_MarshalJSON (All x') in
      let* vz := varz_json x' in
      Ok (x', delete "all" (transform vz (transform all_ ∅)))
  end.

(** ** Lemmas *)
Context {ML : MetricLaws MR}.

Lemma latencies_ok ps zs :
  length zs = length ps → Forall (λ f, finite (f_div f (f_of_int Second)) = true) zs →
  ∃ l, latencies ps zs = Ok l ∧ forallb (λ kv, encodable kv.2) l = true.
Proof.
  revert zs. induction ps as [|e ps IH]; intros [|z zs]; try done; cbn [latencies].
  { exists []. done. }
  intros [= Hl] [Hz HF]%Forall_cons. destruct (IH zs Hl HF) as (l & -> & He). cbn [rbind].
  eexists. split; [done|]. cbn [forallb encodable snd]. by rewrite Hz, He.
Qed.

Lemma metric_ok x : ∃ l, HttpMetric_MarshalJSON x = Ok l ∧ encodable (VObj l) = true.
Proof.
  unfold HttpMetric_MarshalJSON.
  destruct (latencies_ok points (Percentiles (Latency x) points)) as (l & -> & Hl);
    [apply Percentiles_length|apply Percentiles_finite|].
  cbn [rbind]. eexists. split; [done|]. destruct (Rates_finite (Rate x)) as (H1 & H2 & H3).
  cbn [encodable forallb snd]. rewrite H1, H2, H3, forallb_app, Hl. done.
Qed.

Lemma marshal_all_ok l : ∃ js, marshal_all l = Ok js ∧ forallb (λ kv, encodable kv.2) js = true ∧ js.*1 = l.*1.
Proof.
  induction l as [|[t x] l (js & E & He & Hk)]; [by exists []|]. cbn [marshal_all].
  destruct (metric_ok x) as (j & -> & Hj). cbn [rbind]. rewrite E. cbn [rbind]. eexists. split; [done|].
  cbn [forallb snd]. rewrite Hj, He. split; [done|]. cbn. by rewrite Hk.
Qed.

(** The metric under a tag. *)
Lemma marshal_all_lookup l js t x :
  marshal_all l = Ok js → (t, x) ∈ l → ∃ j, HttpMetric_MarshalJSON x = Ok j ∧ (t, VObj j) ∈ js.
Proof.
  revert js. induction l as [|[t' x'] l IH]; intros js; [by intros _ ?%elem_of_nil|]. cbn [marshal_all].
  intros (j & Hj & (js' & E & [= <-])%rbind_Ok)%rbind_Ok [[= -> ->]|Hin]%elem_of_cons.
  - exists j. split; [done|left].
  - destruct (IH js' E Hin) as (j' & ? & ?). exists j'. split; [done|by right].
Qed.

Lemma updateTop_frame now x x' :
  updateTop now x = Ok x' →
  All x' = All x ∧ Component x' = Component x ∧ Urls x' = Urls x ∧ Droplets x' = Droplets x ∧
  BadRequests x' = BadRequests x ∧ BadGateways x' = BadGateways x.
Proof. unfold updateTop. by intros ([p y] & _ & [= <-])%rbind_Ok. Qed.

(** The number [n] under the key [k]. *)
Definition published (d : gmap string jval) (k : string) (n : Z) : Prop := d !! k = Some (VNum (f_of_int n)).

Definition varz_keys : list string :=
  ["requests"; "rate"; "responses_2xx"; "responses_3xx"; "responses_4xx"; "responses_5xx"; "responses_xxx"; "latency";
   "tags"; "urls"; "droplets"; "bad_requests"; "bad_gateways"; "requests_per_sec"; "top10_app_requests";
   "ms_since_last_registry_update"].

Fixpoint assoc (k : string) (l : list (string * jval)) : option jval :=
  match l with [] => None | (k', v) :: l => if String.eqb k k' then Some v else assoc k l end.

Lemma assoc_map k l : (list_to_map l : gmap string jval) !! k = assoc k l.
Proof.
  induction l as [|[k' v] l IH]; [done|]. cbn. destruct (String.eqb_spec k k') as [->|Hk].
  - by rewrite lookup_insert_eq.
  - by rewrite lookup_insert_ne.
Qed.

Lemma assoc_keys k l : is_Some (assoc k l) ↔ k ∈ l.*1.
Proof.
  induction l as [|[k' v] l IH]; cbn; [rewrite elem_of_nil; split; [by intros [? ?]|done]|].
  rewrite elem_of_cons, <-IH. destruct (String.eqb_spec k k') as [->|Hk]; [by split; [left|]|].
  split; [by right|by intros [?|?]].
Qed.

(** Later fields win, and "all" is dropped. *)
Lemma merged_lookup a b k :
  (delete "all" (list_to_map a ∪ (list_to_map b ∪ ∅)) : gmap string jval) !! k =
    if String.eqb k "all" then None else match assoc k a with Some v => Some v | None => assoc k b end.
Proof.
  destruct (String.eqb_spec k "all") as [->|Hk]; [by rewrite lookup_delete_eq|].
  rewrite lookup_delete_ne by done. rewrite map_union_empty, lookup_union, !assoc_map. by destruct (assoc k a), (assoc k b).
Qed.

(** The merged map of a state whose metrics can be encoded. *)
Lemma document_of x all_ comps vz :
  HttpMetric_MarshalJSON (All x) = Ok all_ → marshal_all (map_to_list (Component x)) = Ok comps → varz_json x = Ok vz →
  let d := delete "all" (transform vz (transform all_ ∅)) in
  (∀ k, is_Some (d !! k) ↔ k ∈ varz_keys) ∧
  published d "requests" (Varz.Requests (All x)) ∧ published d "responses_2xx" (Responses2xx (All x)) ∧
  published d "responses_3xx" (Responses3xx (All x)) ∧ published d "responses_4xx" (Responses4xx (All x)) ∧
  published d "responses_5xx" (Responses5xx (All x)) ∧ published d "responses_xxx" (ResponsesXxx (All x)) ∧
  published d "urls" (Urls x) ∧ published d "droplets" (Droplets x) ∧
  published d "bad_requests" (BadRequests x) ∧ published d "bad_gateways" (BadGateways x) ∧
  d !! "tags" = Some (decoded (VObj [("component", VObj comps)])) ∧
  d !! "top10_app_requests" = Some (decoded (VArr (top_json <$> v_TopApps x))) ∧
  ∃ lat, d !! "latency" = Some (VObj lat) ∧ ("value", VNum (f_div (f_div (f_of_int 50) (f_of_int 100)) (f_of_int 1000000))) ∈ lat.
Proof.
  intros Ha Hc Hv. destruct (metric_ok (All x)) as (l & E & He). rewrite Ha in E. injection E as <-.
  assert (encodable (VObj vz) = true) as Hev.
  { unfold varz_json in Hv. rewrite Ha, Hc in Hv. cbn [rbind] in Hv. injection Hv as <-.
    destruct (marshal_all_ok (map_to_list (Component x))) as (js & Ej & Hj & _). rewrite Hc in Ej. injection Ej as <-.
    destruct (Rates_finite (Rate (All x))) as (H1 & _). cbn [encodable forallb snd] in He |- *. rewrite He, Hj, H1. cbn.
    rewrite andb_true_r. induction (v_TopApps x); [done|]. cbn. done. }
  unfold transform. rewrite He, Hev. clear He Hev.
  unfold varz_json in Hv. rewrite Ha, Hc in Hv. cbn [rbind] in Hv. injection Hv as <-.
  unfold HttpMetric_MarshalJSON in Ha. apply rbind_Ok in Ha as (l & _ & [= <-]).
  unfold published. cbv zeta. cbn [fmap list_fmap prod_map id fst snd decoded map].
  set (b := (_ : list (string * jval)) ++ _). set (lat := map _ b). set (top := map _ _). set (cs := map _ _).
  rewrite !merged_lookup. split_and!; try reflexivity.
  - intros k. rewrite merged_lookup. destruct (String.eqb_spec k "all") as [->|Hk].
    { split; [by intros [? ?]|]. intros Hin. repeat (apply elem_of_cons in Hin as [Hin|Hin]; [discriminate Hin|]). by apply elem_of_nil in Hin. }
    match goal with |- context [assoc k ?x] => set (l1 := x) end.
    match goal with |- context [assoc k ?y] => lazymatch y with l1 => fail | _ => set (l2 := y) end end.
    assert (is_Some (match assoc k l1 with Some v => Some v | None => assoc k l2 end) ↔ k ∈ l1.*1 ++ l2.*1) as ->.
    { rewrite elem_of_app, <-!assoc_keys. destruct (assoc k l1); [by split; [left|]|]. split; [by right|by intros [[? ?]|?]]. }
    cbn. unfold varz_keys. rewrite !elem_of_cons. tauto.
  - eexists. split; [reflexivity|]. subst lat b. rewrite map_app. apply elem_of_app. right. by left.
Qed.
(** C27. The document under /varz.  After any history of fewer than 2^63
    captured events the document has exactly the keys of the two structures
    less "all", merged: the numbers of requests and of responses by class, of
    bad requests and gateways, of routes and endpoints of the registry (each
    as the nearest float64), a metric for each component tag that an event
    had, and the ten applications with most requests of the last minute.  The
    latency "value" is a constant, whatever was captured.  Without a registry
    the document cannot be made: the controller asks for it only where HTTP
    routes are handled. *)
Theorem varz_document evs r now :
  Z.of_nat (length evs) < 2 ^ 63 →
  ∃ x x' d, capture_all evs NewVarz = Ok x ∧ RealVarz_MarshalJSON (Some r) now x = Ok (x', d) ∧
    (∀ k, is_Some (d !! k) ↔ k ∈ varz_keys) ∧
    published d "requests" (tally is_request evs) ∧
    published d "responses_2xx" (tally (is_response 200 299) evs) ∧
    published d "responses_3xx" (tally (is_response 300 399) evs) ∧
    published d "responses_4xx" (tally (is_response 400 499) evs) ∧
    published d "responses_5xx" (tally (is_response 500 599) evs) ∧
    published d "responses_xxx" (tally is_other_response evs) ∧
    published d "urls" (Z.of_nat (NumUris r)) ∧ published d "droplets" (Z.of_nat (NumEndpoints r)) ∧
    published d "bad_requests" (tally is_bad_request evs) ∧ published d "bad_gateways" (tally is_bad_gateway evs) ∧
    (∃ comps, d !! "tags" = Some (decoded (VObj [("component", VObj comps)])) ∧
       ∀ t, t ∈ comps.*1 ↔ filter (tagged t) evs ≠ []) ∧
    (∃ s, is_top 10 (spec_trim (Unix (now - 61 * Second)) (history (topApps x))) s ∧
       d !! "top10_app_requests" = Some (decoded (VArr ((λ z, top_json (mkVarzTop (TopApps.ApplicationId z)
         (TopApps.Requests z / 60) (TopApps.Requests z))) <$> s)))) ∧
    (∃ lat, d !! "latency" = Some (VObj lat) ∧
       ("value", VNum (f_div (f_div (f_of_int 50) (f_of_int 100)) (f_of_int 1000000))) ∈ lat) ∧
    ∃ w, RealVarz_MarshalJSON None now x = Panic w.
Proof.
  intros Hlen. destruct (capture_all_ok [] evs NewVarz varz_ok_new Hlen) as (x & Hx & Hok). cbn [app] in Hok.
  set (x1 := mkVarz (All x) (Component x) (Z.of_nat (NumUris r)) (Z.of_nat (NumEndpoints r)) (BadRequests x)
    (BadGateways x) (v_TopApps x) ((now - TimeOfLastUpdate r) ÷ 1000000) (activeApps x) (topApps x)).
  assert (varz_ok evs x1) as Hok1 by exact Hok.
  destruct (update_top_exact evs now x1 Hok1 Hlen) as (x' & s & Hu & Htop & Hv).
  destruct (updateTop_frame now x1 x' Hu) as (FA & FC & FU & FD & FB & FG).
  destruct (metric_ok (All x')) as (all_ & Ha & _). destruct (marshal_all_ok (map_to_list (Component x'))) as (comps & Hc & _ & Hk).
  assert (∃ vz, varz_json x' = Ok vz) as (vz & Hz) by (unfold varz_json; rewrite Ha, Hc; eauto).
  pose proof (document_of x' all_ comps vz Ha Hc Hz) as HD. cbv zeta in HD.
  exists x, x', (delete "all" (transform vz (transform all_ ∅))). split; [done|]. split.
  { unfold RealVarz_MarshalJSON, refresh. fold x1. rewrite Hu. cbn [rbind]. rewrite Ha. cbn [rbind]. by rewrite Hz. }
  destruct Hok as ((Hbr & Hbg & (N1 & N2 & N3 & N4 & N5 & N6) & Htag & _) & _).
  destruct HD as (K & P1 & P2 & P3 & P4 & P5 & P6 & P7 & P8 & P9 & P10 & PT & PV & PL).
  rewrite FA, ?FU, ?FD, ?FB, ?FG, ?Hv in *. cbn [All Urls Droplets BadRequests BadGateways x1] in *.
  rewrite N1 in P1. rewrite N2 in P2. rewrite N3 in P3. rewrite N4 in P4. rewrite N5 in P5. rewrite N6 in P6.
  rewrite Hbr in P9. rewrite Hbg in P10. split_and!; try done.
  - exists comps. split; [done|]. intros t. rewrite Hk, FC. specialize (Htag t). cbn [Component x1].
    assert (t ∈ (map_to_list (Component x)).*1 ↔ is_Some (Component x !! t)) as ->.
    { rewrite list_elem_of_fmap. split.
      - intros ([t' y] & -> & Hy%elem_of_map_to_list). by exists y.
      - intros [y Hy]. exists (t, y). split; [done|by apply elem_of_map_to_list]. }
    destruct (Component x !! t); [by split; [intros _; apply Htag|]|]. rewrite Htag. by split; [intros [? ?]|].
  - exists s. split; [done|]. rewrite PV, <-list_fmap_compose. done.
  - by eexists.
Qed.
End varz_json.

(** Meters and histograms that read zero. *)
#[local] Instance zero_reads : @MetricReads logged_metrics := {
  Rate1 _ := S754_zero false;
  Rate5 _ := S754_zero false;
  Rate15 _ := S754_zero false;
  Percentiles _ ps := (λ _, S754_zero false) <$> ps
}.

#[local] Instance zero_laws : MetricLaws zero_reads.
Proof.
  constructor; [done| |].
  - intros h ps. apply length_fmap.
  - intros h ps. apply Forall_fmap, Forall_true. done.
Qed.

Definition demo_events : list event :=
  [EvBadRequest; EvResponse (NewEndpoint 0 "app" "10.0.0.1" 80 "" "" {["component" := "web"]} 30 "" (mkTag "" 0)) 404 Second 5].

Lemma varz_document_witness :
  ∃ x x' d, capture_all demo_events NewVarz = Ok x ∧
    RealVarz_MarshalJSON (Some (NewRouteRegistry Config.defaultConfig true)) Second x = Ok (x', d) ∧
    published d "responses_4xx" 1 ∧ published d "bad_requests" 1 ∧ d !! "all" = None.
Proof.
  destruct (varz_document demo_events (NewRouteRegistry Config.defaultConfig true) Second) as
    (x & x' & d & H1 & H2 & HK & _ & _ & _ & H4 & _ & _ & _ & _ & Hb & _); [vm_compute; reflexivity|].
  exists x, x', d. split; [exact H1|]. split; [exact H2|]. split; [exact H4|]. split; [exact Hb|].
  apply eq_None_not_Some. intros Hs. apply HK in Hs. repeat (apply elem_of_cons in Hs as [Hs|Hs]; [discriminate Hs|]).
  by apply elem_of_nil in Hs.
Defined.
