(* ===== verification/ConfigDir.v ===== *)
(** The directory of the configuration file: [f5router/configwriter.go],
    NewConfigWriter, GetOutputFilename and Close, and [NewDriver], which is
    given the name of the file.

    [Clean], [Join] and [Dir] are those of package path/filepath on Unix.
    The files are a set of paths; creating the directory is the answer of
    [ioutil.TempDir]. *)
From Stdlib Require Import Ascii ZArith Lia.
From stdpp Require Import base list gmap strings.
From S2P Require Import Prelude GoStrings.

Open Scope go_scope.

(** ** path/filepath *)
Definition path_step (rooted : bool) (out : list string) (seg : string) : list string :=
  if bool_decide (seg = EmptyString) || bool_decide (seg = ".") then out
  else if bool_decide (seg = "..") then
    match last out with
    | Some x => if bool_decide (x = "..") then (if rooted then out else out ++ [".."]) else take (length out - 1) out
    | None => if rooted then out else [".."]
    end
  else out ++ [seg].

Definition norm (rooted : bool) (segs : list string) : list string := foldl (path_step rooted) [] segs.

Definition render (rooted : bool) (out : list string) : string :=
  if rooted then String "/" (Join "/" out) else match out with [] => "." | _ => Join "/" out end.

Definition is_rooted (path : string) : bool := match path with String "/" _ => true | _ => false end.

Definition Clean (path : string) : string := render (is_rooted path) (norm (is_rooted path) (Split "/" path)).

(** [filepath.Join] of two names that are not empty. *)
Definition path_join (dir name : string) : string := Clean (dir +:+ String "/" name).

(** Up to and with the last slash, cleaned. *)
Definition Dir (path : string) : string :=
  let segs := Split "/" path in Clean (Join "/" (take (length segs - 1) segs ++ [EmptyString])).

(** ** configwriter.go *)
Record ConfigWriter := mkWriter { configFile : string }.

Definition NewConfigWriter (tempDir : result string) : result ConfigWriter :=
  match tempDir with
  | Ok dir => Ok (mkWriter (path_join dir "config.json"))
  | Err e => Err ("could not create unique config directory: " +:+ e)
  | Panic w => Panic w
  end.

Definition GetOutputFilename (cw : ConfigWriter) : string := configFile cw.

(** [os.RemoveAll]: the path and what is below it. *)
Definition RemoveAll (path : string) (fs : gset string) : gset string :=
  filter (λ p, ¬ (p = path ∨ HasPrefix p (path +:+ "/") = true)) fs.

Definition Close (cw : ConfigWriter) (fs : gset string) : gset string := RemoveAll (Dir (configFile cw)) fs.

(** ** driver.go *)
Record Driver := mkDriver { fname : string; driverCmd : string }.

Definition NewDriver (configFile driverCmd : string) : Driver := mkDriver configFile driverCmd.

Example clean_examples :
  Clean "/tmp//a/./b/../c/" = "/tmp/a/c" ∧ Clean "" = "." ∧ Clean "/.." = "/" ∧ Clean "a/../../b" = "../b" ∧
  Dir "/tmp/x/config.json" = "/tmp/x" ∧ Dir "config.json" = "." ∧ path_join "/tmp/x" "config.json" = "/tmp/x/config.json".
Proof. by vm_compute. Qed.

(** ** Lemmas *)
Lemma path_step_Forall (P : string → Prop) rooted out seg : P ".." → P seg → Forall P out → Forall P (path_step rooted out seg).
Proof.
  intros H1 H2 H3. unfold path_step. repeat case_match; try done; try (by apply Forall_app; split; [|by constructor]);
    [by apply Forall_take|by constructor].
Qed.

Lemma norm_Forall (P : string → Prop) rooted segs : P ".." → Forall P segs → Forall P (norm rooted segs).
Proof.
  intros H1 H2. unfold norm. assert (Forall P []) as H0 by constructor. revert H0. generalize (@nil string).
  induction H2 as [|seg segs Hs _ IH]; intros out Ho; [done|]. apply IH. by apply path_step_Forall.
Qed.

Lemma norm_name rooted segs x : x ≠ EmptyString → x ≠ "." → x ≠ ".." → norm rooted (segs ++ [x]) = norm rooted segs ++ [x].
Proof.
  intros H1 H2 H3. unfold norm. rewrite foldl_app. cbn. unfold path_step at 1. by rewrite !bool_decide_eq_false_2.
Qed.

Lemma norm_slash rooted segs : norm rooted (segs ++ [EmptyString]) = norm rooted segs.
Proof. unfold norm. by rewrite foldl_app. Qed.

(** The segments of what [Clean] returns. *)
Lemma Split_render rooted out :
  Forall (λ s, count_char "/" s = 0) out → out ≠ [] →
  Split "/" (render rooted out) = if rooted then EmptyString :: out else out.
Proof.
  intros HF Hne. unfold render. destruct rooted.
  - change (String "/" (Join "/" out)) with (EmptyString +:+ String "/" (Join "/" out)).
    rewrite Split_app by done. by rewrite Split_Join.
  - destruct out; [done|]. by rewrite Split_Join.
Qed.

(** A cleaned directory is the directory of every name in it. *)
Lemma Dir_join d x :
  Clean d = d → x ≠ EmptyString → x ≠ "." → x ≠ ".." → count_char "/" x = 0 → Dir (path_join d x) = d.
Proof.
  intros Hd H1 H2 H3 Hx.
  set (r := is_rooted d). set (out := norm r (Split "/" d)).
  assert (Hdr : d = render r out) by (symmetry; exact Hd).
  assert (is_rooted (d +:+ String "/" x) = r) as Hr'.
  { unfold r. destruct d as [|a d']; [|done]. by vm_compute in Hd. }
  assert (path_join d x = render r (out ++ [x])) as ->.
  { unfold path_join, Clean. rewrite Hr', Split_snoc, norm_name by done. done. }
  assert (Forall (λ s, count_char "/" s = 0) out) as HF by (apply norm_Forall; [done|apply Split_Forall]).
  assert (Forall (λ s, count_char "/" s = 0) (out ++ [x])) as HF' by (apply Forall_app; split; [done|by constructor]).
  assert (out ++ [x] ≠ []) as Hne' by by destruct out.
  unfold Dir. rewrite (Split_render r (out ++ [x]) HF' Hne').
  assert (take (length (if r then EmptyString :: out ++ [x] else out ++ [x]) - 1)
    (if r then EmptyString :: out ++ [x] else out ++ [x]) = if r then EmptyString :: out else out) as ->.
  { destruct r; cbn [length]; rewrite length_app; cbn [length].
    - replace (S (length out + 1) - 1) with (S (length out)) by lia. cbn. by rewrite take_app_length.
    - replace (length out + 1 - 1) with (length out) by lia. by rewrite take_app_length. }
  assert (norm r out = out) as Hout.
  { destruct (decide (out = [])) as [->|Hne]; [done|]. unfold out at 2. rewrite Hdr, Split_render by done. by destruct r. }
  set (segs := if r then EmptyString :: out else out).
  assert (Forall (λ s, count_char "/" s = 0) (segs ++ [EmptyString])) as HS.
  { apply Forall_app. split; [|by constructor]. unfold segs. destruct r; [by constructor|done]. }
  assert (is_rooted (Join "/" (segs ++ [EmptyString])) = r) as Hroot.
  { destruct (decide (out = [])) as [Ho|Ho]; [unfold segs; rewrite Ho; by destruct r|].
    unfold segs. destruct r eqn:Er.
    - cbn [app]. by rewrite Join_cons by (by destruct out).
    - rewrite Join_snoc by done. assert (Join "/" out = d) as -> by (rewrite Hdr; cbn; by destruct out).
      destruct d as [|c d']; [by vm_compute in Hd|]. exact Er. }
  unfold Clean. rewrite Hroot, Split_Join by (try done; by destruct segs). rewrite norm_slash.
  transitivity (render r (norm r out)); [unfold segs; by destruct r|]. by rewrite Hout.
Qed.

(** What NewConfigWriter names, Close removes: the directory that was made and
    everything in it, and nothing else. *)
Lemma close_removes dir cw fs p :
  Clean dir = dir → NewConfigWriter (Ok dir) = Ok cw →
  p ∈ Close cw fs ↔ p ∈ fs ∧ p ≠ dir ∧ HasPrefix p (dir +:+ "/") = false.
Proof.
  intros Hd [= <-]. unfold Close. cbn [configFile]. rewrite Dir_join by done. unfold RemoveAll. rewrite elem_of_filter.
  destruct (HasPrefix p (dir +:+ "/")); naive_solver.
Qed.
